(* ===== verification/_CoqProject ===== *)
-Q . S2P
Prelude.v
Queue.v
MsgQueue.v
Message.v
Datafile.v
Receiver.v
Sender.v
SenderWorker.v
Pipeline.v
Conf.v
Logmain.v
TlogTime.v
TlogRing.v
TlogRoot.v
TlogFile.v
TlogWork.v
TlogNotify.v
TlogInit.v
TlogStream.v
TlogFork.v
SyscallHook.v
SyscallModule.v
KList.v
Kprobe.v
KprobeNet.v
Rtnl.v
UserNetlink.v
