(* ===== verification/Prelude.v ===== *)
(** * A verified model of the hook_kernel_function sources

    The repository holds three programs and two small tools.

    - src/useapp is a logging daemon.  A receiver thread (worker.c) collects
      datagrams from the kernel into messages and pushes them on a bounded
      queue (queue.c); when the queue is full it writes them to data files and
      later pushes a message that lists the files' names.  A sender thread
      (worker.c) pops the messages and uploads them (sender.c).  logmain.c
      starts the threads, reads the configuration (conf.c) and turns signals
      into an orderly end.  tlog.c is the logger the daemon writes its own
      log with.
    - src/kernel is a kernel module that times functions by return probes,
      queues the measurements and sends them over netlink.
    - src/syscall_hook.c is a kernel module that patches a call in the kernel
      and the system call table, and restores them when it is unloaded.
    - src/rtnetlink-exa.c dumps the routes the kernel reports over netlink;
      src/user_netlink.c sends a greeting from one netlink socket to another.

    ** The files

    - [Prelude] (this file): results with undefined behaviour ([res], [ub]),
      fixed-width integers ([i32], [u32], [u64]), byte buffers and C strings
      with bounds-checked access, reachability, the shared tactics ([zb],
      [res_inv], [if_split]) and the hint bases [cbuf] and [zlen].
    - [Queue]: queue.c lines 8-54 and 90-151.  [Queue.queue] is struct queue,
      [circle_push] and [circle_pop] are the two static functions, [pc_step]
      runs the four public functions statement by statement; a system of
      threads interleaves them.
    - [MsgQueue]: the interface the daemon's threads use, as a class, with the
      circular buffer as its instance.
    - [Message]: struct message and its macros (queue.h), on a heap that the
      threads share by pointer.
    - [Datafile]: worker.c lines 25-177, the cache of data files.
    - [Receiver]: worker.c lines 36-49 and 181-291, one iteration of the
      receiver's loop in the phases of the source, against any [MsgQueue].
    - [Sender]: sender.c; libcurl and cJSON are parameters.
    - [SenderWorker]: worker.c lines 293-441, the sender's two loops and the
      dump at shutdown, against any [MsgQueue].
    - [Pipeline]: worker.c lines 181-441, both threads on one heap, queue and
      file system: a turn is a whole iteration of [Receiver.receiver_iter] or
      one round of the sender (a pop, [SenderWorker.attempt_body], the test of
      the flag, [SenderWorker.dump_round]).
    - [Conf]: conf.c and conf.h against the class [Conf.ConfigService].
    - [Logmain]: logmain.c, the signal loop and the life of the process as a
      step relation.
    - [TlogTime]: tlog.c lines 142-158 and 204-280, the cache of the broken-down
      time that all logging threads share.
    - [TlogRing]: tlog.c lines 39-88, 390-542, 1101-1108, 1247-1308 and
      1378-1415: the buffer of a log between the threads that print and the
      thread that writes, with the wake-up of the writers that wait.
    - [TlogRoot]: tlog.c lines 300-388, 556-613 and 1310-1328: the line of a log
      call, the messages of segment mode, [tlog_vext].
    - [TlogFile]: tlog.c lines 160-202, 627-857 and 922-1099: the log directory,
      the write of a block, rotation, archives, retention and the lock.
    - [TlogWork]: tlog.c lines 1110-1247, 1330-1420 and 1656-1674: the list of
      logs, the rounds of the work thread from [TlogRing] to [TlogFile], the
      close of a log and of all.
    - [TlogNotify]: tlog.c lines 469-537, 1225-1245 and 1343-1419: the sleep of
      the work thread and who wakes it for which log, around the rounds of
      [TlogWork].
    - [TlogInit]: tlog.c lines 282-298, 615-625 and 1422-1674: the static state
      of the logger, its setters, [tlog_open], [tlog_init] and [tlog_exit] on
      top of [TlogWork], and [tlog_ext] on that state.
    - [TlogStream]: tlog.h lines 183-232, the C++ string streams whose deleters
      call [TlogInit.tlog_ext] and [tlog_printf].
    - [TlogFork]: tlog.c lines 859-920, the descriptors that the child for
      gzip closes.
    - [SyscallHook]: syscall_hook.c on a byte-addressed memory with CR0.
    - [SyscallModule]: syscall_hook.c lines 48-58 and 146-232, load and unload
      as a whole: the calls they make around the patches, in order, and what
      those calls need of each other.
    - [KList]: the interface to the kernel's circular lists, with an instance.
    - [Kprobe]: src/kernel against [KList.KernelList].
    - [KprobeNet]: kprobe_kthread.c lines 33-46 and kprobe_genetlink.c lines
      10-41 and 100-124: the loop of the sending thread, the netlink family
      and the way of a command to its handler, against the class
      [KprobeNet.Genetlink].
    - [Rtnl]: rtnetlink-exa.c, the walks over messages and attributes, against
      the class [Rtnl.Rtnetlink] of the kernel's macros, with Linux's as its
      instance.
    - [UserNetlink]: user_netlink.c, the two threads on the class
      [UserNetlink.NetKernel] of netlink sockets.

    ** What the theorems show

    Queue: every interleaving of the four functions refines a bounded FIFO
    ([queue_refines_fifo]), is free of undefined behaviour ([queue_safe]) and
    of deadlock ([queue_no_deadlock]); a call that runs alone has the
    documented result ([queue_calls_spec]).  Receiver and sender: neither
    leaves defined behaviour ([receiver_safe], [sender_safe]); no byte is lost
    but by a reported drop ([receiver_iter_outcome], [datafile_write_spec],
    [sender_buffer_retry], [sender_files_in_order], [dump_complete],
    [dump_moves_files]).  Together: each turn of either thread is defined and
    keeps the daemon well-formed ([pipeline_turn_wf]), and what arrived is at
    any moment sent, stored, queued, held or dropped with a report, in order
    and once ([pipeline_conserves]); at the end a message can be left in the
    queue ([last_message_lost], [last_data_as_names]).  The remaining theorems on them state defects as the
    code has them: reading a message after it was handed over
    ([receiver_log_race]), sizes nobody checks
    ([receiver_small_node_overflow], [create_datafile_bounds]), a macro that
    clears too much ([receiver_no_batching_after_file]), a list of files that
    is never released ([sender_list_never_released]), a file that a full cache
    forgets ([full_cache_forgets]).  Sender: the classes of
    outcome and the bounds of the response buffer.  Process: the quit flag and
    the joins ([graceful_exit], [shutdown_completes], [shutdown_race],
    [signal_loop_policy]).  Configuration: what is loaded, and when not.
    Logger: under every interleaving the buffer of a log is a lossless FIFO
    ([ring_fifo]) within its bounds ([ring_safe]) and counts what it refuses
    ([ring_drops_counted]); the time of a line is that of the C library
    ([localtime_cached]); a log call puts one line into the buffer or says why
    not ([root_log_buffer_result], [tlog_vext_result]) and segment mode hands
    it on ([root_msg_roundtrip]); a round of the work thread empties the buffer
    into the file ([serve_delivers]), [tlog_init] answers and leaves what its
    branches say ([init_result]), the work thread never sleeps on data without
    a signal ([sleeper_is_woken], [steps_are_rounds]) and [tlog_exit] delivers the rest
    ([exit_flushes]); the files hold what was written through
    every rotation ([log_stream], [rotation_result]), archives get free names
    ([rename_logfile_fresh]) and the oldest go first ([retention]).  Defects:
    [segment_overflow], [lost_wakeup], [drop_report_misread],
    [retention_long_name], [tlog_mkdir_result], [close_dangles],
    [exit_closes_all], [small_buffer_useless], [stale_notify].  A C++ stream statement is the
    C call and leaves its stream behind ([statement_is_call], [out_is_printf]);
    the child for gzip keeps the standard streams only, as far as it can tell
    ([close_all_keeps_std], [close_by_limit]).
    System call hooks: load then unload is the identity on memory
    ([unload_restores]), tables, threads and hooks come and go in an order in
    which none is used before it is there or after it is gone
    ([module_life]); the two searches and the patch.  Kernel module: a command
    reaches its handler ([command_dispatch]); the defects of its queue, its
    registry, its buffers and its thread, each as a theorem on the operations
    as they are written.  Route dump: the parser ends on every reply
    ([reply_terminates]) and prints what its messages hold ([reply_parsed],
    [route_printed]).  Test client: the greeting arrives, or why it does not
    ([greeting_arrives], [create_failure_unseen], [child_failure_blocks]).

    ** Conventions

    An operation that can leave the language's defined behaviour (or, in the
    kernel, fault) answers a [res].  C integers are [Z] with the wrap written
    out where the code computes in the type; sizes of memory that exists are
    assumed to be representable.  Allocations of positive size succeed, as the
    code assumes, except where a failure is an input.  Log output (tlog,
    printk) is left out but for the values it reads through pointers.

    What the outside answers (select, the file system, the server, the
    clock, the other thread) is an input record of each step: [rinput],
    [attempt], [dumpin], [sinput].  The receiver's run has the sender's pops
    before each iteration and between a push and its log line; the sender's
    run has the receiver's pushes before each attempt.  A theorem about all
    inputs is therefore about all schedules at that grain.  [Pipeline] has one
    state for both threads and a list of turns as the schedule; there a push
    and the log line after it belong to the same turn, and the sender's
    time-out and its look at the flag to different ones.

    Loops without a structural measure carry fuel and answer [OutOfFuel] when
    it is used up; the safety theorems, which say [Ok], show that the fuel the
    definitions pass is enough: [names_fuel] is the length of the list's
    buffer plus two, since each name is at least one byte and its NUL, and the
    dump gets one unit per message the queue can hold.  The walks of [Rtnl] get
    one unit more than the buffer has bytes: each step takes at least four.  The rounds of the work
    thread are a list; with one log three rounds end it ([exit_flushes]).

    ** Not modelled

    The Makefiles; the functions that other modules (not in the repository)
    implement and syscall_hook.c calls, which are events of [SyscallModule];
    locking in the kernel module, whose
    operations are taken one at a time.  Of tlog.c:
    output functions that are not in the source, messages on the standard error
    output, other processes that write to the same log (the lock between
    them is modelled, their actions are not), and the length of the work
    thread's timed wait, which may end at any time.  The paths that the code prints into its arrays fit
    them, since directory and name of a log are cut to 4095 and 127 bytes when
    it is opened; a directory is taken to hold fewer than 10^20 files. *)
From Stdlib Require Ascii String.
Export Ascii.AsciiSyntax String.StringSyntax.
From stdpp Require Export base numbers gmap sets option list.
Export list_basics.list list_relations.list list_monad.list list_misc.list
  list_tactics.list list_numbers.list.

#[export] Set Default Goal Selector "!".
Open Scope Z_scope.

(** ** Undefined behaviour and results

    Every operation of the C program that can leave the language's defined
    behaviour returns a [res]: either a value or the reason the program has
    no defined meaning from that point on. *)
Inductive ub : Type :=
| NullDeref
| OutOfBounds
| DivByZero
| UseAfterFree
| DoubleFree
| Uninitialised
| Fault
| BadThread
| OutOfFuel.

Inductive res (A : Type) : Type :=
| Ok (a : A)
| UB (e : ub).
Arguments Ok {A} a.
Arguments UB {A} e.

#[export] Instance ub_eq_dec : EqDecision ub.
Proof. solve_decision. Defined.
#[export] Instance res_eq_dec `{EqDecision A} : EqDecision (res A).
Proof. solve_decision. Defined.

#[export] Instance res_ret : MRet res := fun A a => Ok a.
#[export] Instance res_bind : MBind res := fun A B f m =>
  match m with Ok a => f a | UB e => UB e end.
#[export] Instance res_fmap : FMap res := fun A B f m =>
  match m with Ok a => Ok (f a) | UB e => UB e end.

(** [require b e] continues when [b] holds and is undefined behaviour [e]
    otherwise. *)
Definition require (b : bool) (e : ub) : res unit :=
  if b then Ok tt else UB e.

Definition of_option {A} (e : ub) (o : option A) : res A :=
  match o with Some a => Ok a | None => UB e end.

Definition is_ok {A} (r : res A) : Prop := exists a, r = Ok a.

Lemma bind_ret {A B} (a : A) (k : A -> res B) : (Ok a ≫= k) = k a.
Proof. done. Qed.

Lemma bind_ok {A B} (m : res A) (k : A -> res B) b :
  (m ≫= k) = Ok b <-> exists a, m = Ok a /\ k a = Ok b.
Proof.
  destruct m; simpl; [|split; [done|by intros (?&?&?)]].
  split; [eauto|]. by intros (?&[= <-]&?).
Qed.

Lemma fmap_ok {A B} (f : A -> B) (m : res A) b :
  (f <$> m) = Ok b <-> exists a, m = Ok a /\ b = f a.
Proof.
  destruct m; simpl; [|split; [done|by intros (?&?&?)]].
  split; [intros [= <-]; eauto|]. by intros (?&[= <-]&->).
Qed.

Lemma require_ok b e u : require b e = Ok u <-> b = true.
Proof. destruct b, u; simpl; naive_solver. Qed.

Lemma of_option_ok {A} e (o : option A) a : of_option e o = Ok a <-> o = Some a.
Proof. destruct o; simpl; naive_solver. Qed.

(** ** Fixed-width integers *)
Definition i32 (z : Z) : Z := (z + 2147483648) mod 4294967296 - 2147483648.
Definition u32 (z : Z) : Z := z mod 4294967296.
Definition u16 (z : Z) : Z := z mod 65536.
Definition u64 (z : Z) : Z := z mod 18446744073709551616.

Definition INT_MAX : Z := 2147483647.
Definition in_i32 (z : Z) : Prop := -2147483648 <= z <= 2147483647.

Lemma i32_id z : in_i32 z -> i32 z = z.
Proof. unfold in_i32, i32. intros. rewrite Z.mod_small; lia. Qed.

Lemma i32_range z : in_i32 (i32 z).
Proof.
  unfold in_i32, i32.
  pose proof (Z.mod_pos_bound (z + 2147483648) 4294967296). lia.
Qed.

Lemma i32_idem z : i32 (i32 z) = i32 z.
Proof. apply i32_id, i32_range. Qed.

Lemma u32_id z : 0 <= z < 4294967296 -> u32 z = z.
Proof. apply Z.mod_small. Qed.
Lemma u16_id z : 0 <= z < 65536 -> u16 z = z.
Proof. apply Z.mod_small. Qed.
Lemma u64_id z : 0 <= z < 18446744073709551616 -> u64 z = z.
Proof. apply Z.mod_small. Qed.

(** C's [%] on int operands: truncated remainder, undefined on a zero
    divisor. *)
Definition c_rem (a b : Z) : res Z :=
  if b =? 0 then UB DivByZero else Ok (Z.rem a b).

Lemma c_rem_pos a b : 0 <= a -> 0 < b -> c_rem a b = Ok (a mod b).
Proof.
  intros. unfold c_rem. destruct (Z.eqb_spec b 0); [lia|].
  by rewrite Z.rem_mod_nonneg by lia.
Qed.

(** ** Byte buffers

    A C array of bytes is a [list Z]; offsets and lengths are C integers.
    An access outside the array is undefined behaviour. *)
Definition zlen {A} (l : list A) : Z := Z.of_nat (length l).

Definition in_bounds {A} (b : list A) (off n : Z) : bool :=
  (0 <=? off) && (0 <=? n) && (off + n <=? zlen b).

Definition buf_write (b : list Z) (off : Z) (d : list Z) : res (list Z) :=
  if in_bounds b off (zlen d)
  then Ok (take (Z.to_nat off) b ++ d ++ drop (Z.to_nat off + length d) b)
  else UB OutOfBounds.

Definition buf_read (b : list Z) (off n : Z) : res (list Z) :=
  if in_bounds b off n
  then Ok (take (Z.to_nat n) (drop (Z.to_nat off) b))
  else UB OutOfBounds.

(** Array cells of any type, for [a[i]] and [a[i] = v]. *)
Definition arr_get {A} (l : list A) (i : Z) : res A :=
  if 0 <=? i then of_option OutOfBounds (l !! Z.to_nat i) else UB OutOfBounds.

Definition arr_set {A} (l : list A) (i : Z) (v : A) : res (list A) :=
  if in_bounds l i 1 then Ok (<[Z.to_nat i := v]> l) else UB OutOfBounds.

Definition zeros (n : Z) : list Z := replicate (Z.to_nat n) 0.

(** ** C strings: the bytes of a buffer before its first NUL *)
Fixpoint cstr_end (b : list Z) : option nat :=
  match b with
  | [] => None
  | c :: r => if c =? 0 then Some 0%nat else S <$> cstr_end r
  end.

Definition c_strlen (b : list Z) : res Z :=
  of_option OutOfBounds (Z.of_nat <$> cstr_end b).

Definition c_string (b : list Z) : res (list Z) :=
  n ← of_option OutOfBounds (cstr_end b); Ok (take n b).

(** The bytes of a string literal. *)
Definition bytes (s : String.string) : list Z :=
  (fun a => Z.of_N (Ascii.N_of_ascii a)) <$> String.list_ascii_of_string s.
Arguments bytes s%_string_scope.

(** A string value: bytes with no NUL among them. *)
Definition no_nul (s : list Z) : Prop := Forall (fun c => c <> 0) s.

(** [strncpy(dst, src, n)]: at most [n] bytes of [src], padded with NULs. *)
Definition strncpy_bytes (src : list Z) (n : Z) : list Z :=
  let k := take (Z.to_nat n) src in k ++ zeros (n - zlen k).

(** What [snprintf(buf, n, ..)] stores when the formatted text is [s]. *)
Definition snprintf_bytes (n : Z) (s : list Z) : list Z :=
  if n <=? 0 then [] else take (Z.to_nat (n - 1)) s ++ [0].

(** [vsnprintf(b + off, n, ..)] where formatting gives [text], or fails: the
    length of the text, and the buffer. *)
Definition vsnprintf (b : list Z) (off n : Z) (text : option (list Z)) : res (Z * list Z) :=
  match text with
  | None => Ok (-1, b)
  | Some s => b ← buf_write b off (snprintf_bytes n s); Ok (zlen s, b)
  end.

(** ** Automation *)
Create HintDb cbuf.
Create Rewrite HintDb zlen.

Ltac zb :=
  repeat match goal with
  | H : (_ && _)%bool = true |- _ => apply andb_true_iff in H as [? ?]
  | H : (_ || _)%bool = false |- _ => apply orb_false_iff in H as [? ?]
  | H : negb _ = true |- _ => apply negb_true_iff in H
  | H : negb _ = false |- _ => apply negb_false_iff in H
  | H : (_ <=? _) = true |- _ => apply Z.leb_le in H
  | H : (_ <=? _) = false |- _ => apply Z.leb_gt in H
  | H : (_ <? _) = true |- _ => apply Z.ltb_lt in H
  | H : (_ <? _) = false |- _ => apply Z.ltb_ge in H
  | H : (_ =? _) = true |- _ => apply Z.eqb_eq in H
  | H : (_ =? _) = false |- _ => apply Z.eqb_neq in H
  | H : (_ >? _) = true |- _ => rewrite Z.gtb_ltb in H
  | H : (_ >? _) = false |- _ => rewrite Z.gtb_ltb in H
  | H : (_ >=? _) = true |- _ => rewrite Z.geb_leb in H
  | H : (_ >=? _) = false |- _ => rewrite Z.geb_leb in H
  end.

(** Split a hypothesis that says a monadic computation succeeded. *)
Ltac res_inv :=
  repeat match goal with
  | H : mbind _ ?m = Ok _ |- _ =>
      let a := fresh "a" in let E := fresh "E" in
      apply bind_ok in H as (a & E & H); simpl in H
  | H : fmap _ ?m = Ok _ |- _ =>
      let a := fresh "a" in let E := fresh "E" in
      apply fmap_ok in H as (a & E & H)
  | H : require _ _ = Ok _ |- _ => apply require_ok in H
  | H : of_option _ _ = Ok _ |- _ => apply of_option_ok in H
  | H : Ok _ = Ok _ |- _ => injection H as H; simplify_eq
  | H : UB _ = Ok _ |- _ => discriminate H
  | H : Ok _ = UB _ |- _ => discriminate H
  | H : mret _ = Ok _ |- _ => unfold mret, res_ret in H
  end.

(** Case analysis on the first test of the goal. *)
Ltac if_split :=
  match goal with
  | |- context [if ?b then _ else _] => destruct b eqn:?; zb
  end.

(** ** Lemmas on buffers *)
Lemma zlen_nonneg {A} (l : list A) : 0 <= zlen l.
Proof. unfold zlen. lia. Qed.
Lemma zlen_app {A} (l k : list A) : zlen (l ++ k) = zlen l + zlen k.
Proof. unfold zlen. rewrite length_app. lia. Qed.
Lemma zlen_cons {A} (a : A) l : zlen (a :: l) = 1 + zlen l.
Proof. unfold zlen. simpl. lia. Qed.
Lemma zlen_nil {A} : zlen (@nil A) = 0.
Proof. done. Qed.
Lemma zlen_zeros n : 0 <= n -> zlen (zeros n) = n.
Proof. intros. unfold zlen, zeros. rewrite length_replicate. lia. Qed.
Lemma zlen_take {A} n (l : list A) : 0 <= n <= zlen l -> zlen (take (Z.to_nat n) l) = n.
Proof. unfold zlen. intros. rewrite length_take. lia. Qed.
Lemma zlen_drop {A} n (l : list A) :
  0 <= n <= zlen l -> zlen (drop (Z.to_nat n) l) = zlen l - n.
Proof. unfold zlen. intros. rewrite length_drop. lia. Qed.
Lemma zlen_insert {A} i (x : A) l : zlen (<[i := x]> l) = zlen l.
Proof. unfold zlen. by rewrite length_insert. Qed.
Lemma zlen_zero_nil {A} (l : list A) : zlen l = 0 -> l = [].
Proof. destruct l; [done|]. rewrite zlen_cons. pose proof (zlen_nonneg l). lia. Qed.

#[export] Hint Rewrite @zlen_app @zlen_cons @zlen_nil @zlen_insert : zlen.

Lemma in_bounds_true {A} (b : list A) off n :
  in_bounds b off n = true <-> 0 <= off /\ 0 <= n /\ off + n <= zlen b.
Proof. unfold in_bounds. rewrite !andb_true_iff, !Z.leb_le. tauto. Qed.

Lemma buf_write_ok b off d b' :
  buf_write b off d = Ok b' ->
  0 <= off /\ off + zlen d <= zlen b /\ zlen b' = zlen b.
Proof.
  unfold buf_write. destruct (in_bounds _ _ _) eqn:E; [|done].
  apply in_bounds_true in E as (?&?&?). intros [= <-].
  split; [done|]. split; [done|].
  unfold zlen in *. rewrite !length_app, length_take, length_drop. lia.
Qed.

Lemma buf_write_is_ok b off d :
  0 <= off -> off + zlen d <= zlen b -> is_ok (buf_write b off d).
Proof.
  intros. unfold buf_write.
  assert (in_bounds b off (zlen d) = true) as ->.
  { apply in_bounds_true. pose proof (zlen_nonneg d). lia. }
  by eexists.
Qed.

(** Writing over the middle part of a buffer leaves both ends alone. *)
Lemma buf_write_mid p m s d :
  zlen m = zlen d -> buf_write (p ++ m ++ s) (zlen p) d = Ok (p ++ d ++ s).
Proof.
  intros Hm. unfold buf_write.
  assert (in_bounds (p ++ m ++ s) (zlen p) (zlen d) = true) as ->.
  { apply in_bounds_true. rewrite !zlen_app.
    pose proof (zlen_nonneg p); pose proof (zlen_nonneg s); pose proof (zlen_nonneg d). lia. }
  f_equal. unfold zlen in *. rewrite Nat2Z.id.
  rewrite take_app_length.
  replace (length p + length d)%nat with (length p + length m)%nat by lia.
  by rewrite drop_app_add, drop_app_length.
Qed.

(** A write that starts where the prefix [p] ends: the general shape. *)
Lemma buf_write_app p r d b' :
  buf_write (p ++ r) (zlen p) d = Ok b' ->
  b' = p ++ d ++ drop (length d) r.
Proof.
  unfold buf_write. destruct (in_bounds _ _ _) eqn:E; [|done].
  intros [= <-]. unfold zlen. rewrite Nat2Z.id.
  by rewrite take_app_length, drop_app_add.
Qed.

Lemma buf_read_mid p m s :
  buf_read (p ++ m ++ s) (zlen p) (zlen m) = Ok m.
Proof.
  unfold buf_read.
  assert (in_bounds (p ++ m ++ s) (zlen p) (zlen m) = true) as ->.
  { apply in_bounds_true. rewrite !zlen_app.
    pose proof (zlen_nonneg p); pose proof (zlen_nonneg s); pose proof (zlen_nonneg m). lia. }
  unfold zlen. by rewrite !Nat2Z.id, drop_app_length, take_app_length.
Qed.

Lemma buf_read_ok b off n d :
  buf_read b off n = Ok d -> 0 <= off /\ 0 <= n /\ off + n <= zlen b /\ zlen d = n.
Proof.
  unfold buf_read. destruct (in_bounds _ _ _) eqn:E; [|done].
  apply in_bounds_true in E as (?&?&?). intros [= <-].
  unfold zlen in *. rewrite length_take, length_drop. lia.
Qed.

Lemma buf_read_write b off d b' :
  buf_write b off d = Ok b' -> buf_read b' off (zlen d) = Ok d.
Proof.
  intros H. pose proof (buf_write_ok _ _ _ _ H) as (?&?&?).
  unfold buf_write in H. destruct (in_bounds _ _ _) eqn:E; [|done].
  injection H as <-.
  assert (off = zlen (take (Z.to_nat off) b)) as Ho.
  { unfold zlen in *. rewrite length_take. lia. }
  rewrite Ho at 3. apply buf_read_mid.
Qed.

(** ** Lemmas on C strings *)
Lemma cstr_end_app s r : no_nul s -> cstr_end (s ++ 0 :: r) = Some (length s).
Proof.
  induction 1 as [|c s Hc Hs IH]; simpl; [done|].
  destruct (Z.eqb_spec c 0); [done|]. by rewrite IH.
Qed.

Lemma c_strlen_app s r : no_nul s -> c_strlen (s ++ 0 :: r) = Ok (zlen s).
Proof. intros. unfold c_strlen. by rewrite cstr_end_app. Qed.

Lemma c_string_app s r : no_nul s -> c_string (s ++ 0 :: r) = Ok s.
Proof. intros. unfold c_string. rewrite cstr_end_app by done. simpl. by rewrite take_app_length. Qed.

Lemma cstr_end_split b n :
  cstr_end b = Some n -> exists s r, b = s ++ 0 :: r /\ no_nul s /\ n = length s.
Proof.
  revert n. induction b as [|c b IH]; simpl; [done|].
  destruct (Z.eqb_spec c 0) as [->|Hc].
  { intros n [= <-]. exists [], b. split_and!; [done|constructor|done]. }
  intros n H. apply fmap_Some in H as (m & Hm & ->).
  destruct (IH m Hm) as (s & r & -> & Hs & ->).
  exists (c :: s), r. split_and!; [done|by constructor|done].
Qed.

Lemma c_strlen_split b n :
  c_strlen b = Ok n -> exists s r, b = s ++ 0 :: r /\ no_nul s /\ n = zlen s.
Proof.
  unfold c_strlen. intros H. apply of_option_ok, fmap_Some in H as (m & Hm & ->).
  apply cstr_end_split in Hm as (s & r & -> & ? & ->). eauto.
Qed.

Lemma zeros_app n m : 0 <= n -> 0 <= m -> zeros (n + m) = zeros n ++ zeros m.
Proof. intros. unfold zeros. rewrite Z2Nat.inj_add by lia. apply replicate_add. Qed.

Lemma zeros_cons n : 0 < n -> zeros n = 0 :: zeros (n - 1).
Proof.
  intros. unfold zeros. replace (Z.to_nat n) with (S (Z.to_nat (n - 1))) by lia. done.
Qed.

(** Text that fits is followed by its NUL, longer text is cut. *)
Lemma snprintf_fits n s : zlen s < n -> snprintf_bytes n s = s ++ [0].
Proof.
  intros H. unfold snprintf_bytes. pose proof (zlen_nonneg s). destruct (Z.leb_spec n 0); [lia|].
  rewrite take_ge; [done|]. unfold zlen in H. lia.
Qed.

Lemma snprintf_cut n s : 0 < n <= zlen s -> snprintf_bytes n s = take (Z.to_nat (n - 1)) s ++ [0].
Proof. intros H. unfold snprintf_bytes. by destruct (Z.leb_spec n 0); [lia|]. Qed.

Lemma zlen_snprintf n s : 0 < n -> zlen (snprintf_bytes n s) = Z.min n (zlen s + 1).
Proof.
  intros Hn. destruct (Z.lt_ge_cases (zlen s) n).
  - rewrite snprintf_fits, zlen_app by done. change (zlen [0]) with 1. lia.
  - rewrite snprintf_cut, zlen_app, zlen_take by lia. change (zlen [0]) with 1. lia.
Qed.

(** ** Lemmas on arrays and zeroed regions *)
Lemma arr_get_app {A} (p r : list A) (c : A) :
  arr_get (p ++ c :: r) (zlen p) = Ok c.
Proof.
  unfold arr_get. pose proof (zlen_nonneg p). destruct (Z.leb_spec 0 (zlen p)); [|lia].
  unfold zlen. rewrite Nat2Z.id, list_lookup_middle; done.
Qed.

Lemma arr_set_app {A} (p r : list A) (c v : A) :
  arr_set (p ++ c :: r) (zlen p) v = Ok (p ++ v :: r).
Proof.
  unfold arr_set. pose proof (zlen_nonneg p). pose proof (zlen_nonneg r).
  assert (in_bounds (p ++ c :: r) (zlen p) 1 = true) as ->.
  { apply in_bounds_true. rewrite zlen_app, zlen_cons. lia. }
  unfold zlen. rewrite Nat2Z.id. f_equal.
  rewrite insert_app_r_alt by lia. by rewrite Nat.sub_diag.
Qed.

Lemma arr_set_out {A} (l : list A) i v : i < 0 \/ zlen l <= i -> arr_set l i v = UB OutOfBounds.
Proof.
  intros Hi. unfold arr_set. destruct (in_bounds l i 1) eqn:E; [|done].
  apply in_bounds_true in E. lia.
Qed.

Lemma arr_get_out {A} (l : list A) i : i < 0 \/ zlen l <= i -> arr_get l i = UB OutOfBounds.
Proof.
  intros Hi. unfold arr_get. destruct (Z.leb_spec 0 i); [|done].
  rewrite lookup_ge_None_2; [done|]. unfold zlen in Hi. lia.
Qed.

Lemma arr_set_is_ok {A} (l : list A) i v :
  0 <= i < zlen l -> exists l', arr_set l i v = Ok l' /\ zlen l' = zlen l.
Proof.
  intros Hi. unfold arr_set. assert (in_bounds l i 1 = true) as -> by (apply in_bounds_true; lia).
  eexists. split; [done|]. apply zlen_insert.
Qed.

(** The three operations where the offset is known to be a prefix's length. *)
Lemma arr_get_at {A} (p r : list A) c i : i = zlen p -> arr_get (p ++ c :: r) i = Ok c.
Proof. intros ->. apply arr_get_app. Qed.
Lemma arr_set_at {A} (p r : list A) c v i : i = zlen p -> arr_set (p ++ c :: r) i v = Ok (p ++ v :: r).
Proof. intros ->. apply arr_set_app. Qed.
Lemma buf_write_at p r d i :
  i = zlen p -> zlen d <= zlen r -> buf_write (p ++ r) i d = Ok (p ++ d ++ drop (length d) r).
Proof.
  intros -> Hd. destruct (buf_write_is_ok (p ++ r) (zlen p) d) as [b Hb].
  - apply zlen_nonneg.
  - rewrite zlen_app. lia.
  - rewrite Hb. by rewrite (buf_write_app _ _ _ _ Hb).
Qed.

Lemma buf_write_out b off d : off < 0 \/ zlen b < off + zlen d -> buf_write b off d = UB OutOfBounds.
Proof.
  intros Hi. unfold buf_write. destruct (in_bounds b off (zlen d)) eqn:E; [|done].
  apply in_bounds_true in E. lia.
Qed.

(** Overwriting the beginning of a zeroed region. *)
Lemma buf_write_zeros p k d :
  zlen d <= k -> buf_write (p ++ zeros k) (zlen p) d = Ok (p ++ d ++ zeros (k - zlen d)).
Proof.
  intros Hd. pose proof (zlen_nonneg d).
  replace (zeros k) with (zeros (zlen d) ++ zeros (k - zlen d)).
  - apply buf_write_mid. rewrite zlen_zeros; lia.
  - rewrite <- zeros_app by lia. f_equal. lia.
Qed.

Lemma strncpy_fits src n : zlen src <= n -> strncpy_bytes src n = src ++ zeros (n - zlen src).
Proof.
  intros H. unfold strncpy_bytes. rewrite take_ge; [done|]. unfold zlen in H. lia.
Qed.

Lemma strncpy_long src n : 0 <= n <= zlen src -> strncpy_bytes src n = take (Z.to_nat n) src.
Proof.
  intros H. unfold strncpy_bytes. rewrite zlen_take by lia.
  rewrite Z.sub_diag. unfold zeros. simpl. by rewrite app_nil_r.
Qed.

Lemma zlen_strncpy src n : 0 <= n -> zlen (strncpy_bytes src n) = n.
Proof.
  intros Hn. destruct (Z.le_ge_cases (zlen src) n) as [H|H].
  - rewrite strncpy_fits, zlen_app, zlen_zeros by lia. lia.
  - rewrite strncpy_long by lia. apply zlen_take. lia.
Qed.

Lemma lookup_zeros n i : (i < Z.to_nat n)%nat -> zeros n !! i = Some 0.
Proof. intros. unfold zeros. by apply lookup_replicate_2. Qed.

(** ** The last cell of a buffer *)
Lemma last_app_ne {A} (l k : list A) : k <> [] -> last (l ++ k) = last k.
Proof. intros Hk. rewrite last_app. destruct (last k) eqn:E; [done|]. by apply last_None in E. Qed.

Lemma last_drop {A} n (l : list A) : (n < length l)%nat -> last (drop n l) = last l.
Proof.
  intros Hn. rewrite <- (take_drop n l) at 2. rewrite last_app_ne; [done|].
  intros H%(f_equal length). rewrite length_drop in H. simpl in H. lia.
Qed.

Lemma last_zeros n : 0 < n -> last (zeros n) = Some 0.
Proof.
  intros Hn. replace n with (n - 1 + 1) by lia. rewrite zeros_app by lia.
  change (zeros 1) with [0]. apply last_snoc.
Qed.

Lemma last_buf_write b off d b' :
  buf_write b off d = Ok b' -> off + zlen d < zlen b -> last b' = last b.
Proof.
  unfold buf_write. destruct (in_bounds _ _ _) eqn:E; [|done]. intros [= <-] Hlt.
  apply in_bounds_true in E as (?&?&?). unfold zlen in *.
  assert (Hn : (Z.to_nat off + length d < length b)%nat) by lia.
  assert (Hne : drop (Z.to_nat off + length d) b <> []).
  { intros Hnil%(f_equal length). rewrite length_drop in Hnil. simpl in Hnil. lia. }
  rewrite last_app_ne by (by intros [_ ?]%app_nil).
  by rewrite last_app_ne, last_drop by done.
Qed.

(** A buffer that ends in a NUL holds a C string. *)
Lemma last_bzero k b :
  0 <= k <= zlen b -> last b = Some 0 -> last (zeros k ++ drop (Z.to_nat k) b) = Some 0.
Proof.
  intros Hk Hl. destruct (decide (k = zlen b)) as [->|Hne].
  - rewrite drop_ge by (unfold zlen; lia). rewrite app_nil_r. apply last_zeros.
    destruct b; [done|]. rewrite zlen_cons. pose proof (zlen_nonneg b). lia.
  - rewrite last_app_ne, last_drop; [done|unfold zlen in *; lia|].
    intros E. apply (f_equal length) in E. rewrite length_drop in E. unfold zlen in *. simpl in E. lia.
Qed.

Lemma last_cstr b : last b = Some 0 -> exists n, cstr_end b = Some n.
Proof.
  intros [q ->]%last_Some. induction q as [|c q [n IH]]; simpl; [by eexists|].
  destruct (c =? 0); [by eexists|]. rewrite IH. by eexists.
Qed.

(** ** Sums over a list, and their change under a point update *)
Fixpoint sumz {A} (f : A -> Z) (l : list A) : Z :=
  match l with [] => 0 | a :: r => f a + sumz f r end.

Lemma sumz_insert {A} (f : A -> Z) l i a b :
  l !! i = Some a -> sumz f (<[i := b]> l) = sumz f l - f a + f b.
Proof.
  revert i. induction l as [|c l IH]; intros [|i] H; simplify_eq/=; [lia|].
  rewrite (IH i) by done. lia.
Qed.

Lemma sumz_nonneg {A} (f : A -> Z) l : (forall a, 0 <= f a) -> 0 <= sumz f l.
Proof. intros H. induction l as [|c l IH]; simpl; [lia|]. specialize (H c). lia. Qed.

Lemma sumz_elem {A} (f : A -> Z) l i a :
  (forall a, 0 <= f a) -> l !! i = Some a -> f a <= sumz f l.
Proof.
  intros H. revert i. induction l as [|c l IH]; intros [|i] Hi; simplify_eq/=.
  - pose proof (sumz_nonneg f l H). lia.
  - pose proof (IH i Hi). specialize (H c). lia.
Qed.

Lemma sumz_app {A} (f : A -> Z) l k : sumz f (l ++ k) = sumz f l + sumz f k.
Proof. induction l; simpl; lia. Qed.

Lemma sumz_zero {A} (f : A -> Z) l : (forall a, a ∈ l -> f a = 0) -> sumz f l = 0.
Proof.
  induction l as [|c l IH]; intros H; simpl; [done|].
  rewrite (H c) by set_solver.
  rewrite IH by (intros a Ha; apply H; set_solver). done.
Qed.

(** ** Decimal output

    [digits n z]: the last [n] decimal digits; [fmt_dec prec z] is "%.<prec>d"
    on an integer of at most 64 bits (at most 20 digits). *)
Fixpoint digits (n : nat) (z : Z) : list Z :=
  match n with O => [] | S n => digits n (z / 10) ++ [48 + z mod 10] end.
Fixpoint ndigits (fuel : nat) (z : Z) : nat :=
  match fuel with
  | O => 1
  | S fuel => if z <? 10 then 1 else S (ndigits fuel (z / 10))
  end.
Definition fmt_dec (prec : nat) (z : Z) : list Z :=
  let put z := digits (Nat.max prec (ndigits 20 z)) z in
  if z <? 0 then 45 :: put (- z) else put z.

(** The number that a string of digits denotes. *)
Definition number_of (s : list Z) : Z := fold_left (fun a c => 10 * a + (c - 48)) s 0.

Lemma digits_len n z : length (digits n z) = n.
Proof. revert z. induction n; intros z; simpl; [done|]. rewrite length_app. simpl. rewrite IHn. lia. Qed.

Lemma ndigits_le fuel n z : 0 <= z < 10 ^ Z.of_nat (S n) -> (ndigits fuel z <= S n)%nat.
Proof.
  revert n z. induction fuel as [|fuel IH]; intros n z Hz; simpl; [lia|].
  destruct (Z.ltb_spec z 10); [lia|]. destruct n as [|n]; [change (10 ^ Z.of_nat 1) with 10 in Hz; lia|].
  rewrite Nat2Z.inj_succ, Z.pow_succ_r in Hz by lia.
  apply le_n_S, IH. split; [apply Z.div_pos; lia|apply Z.div_lt_upper_bound; lia].
Qed.

Lemma digits_number n z : 0 <= z < 10 ^ Z.of_nat n -> number_of (digits n z) = z.
Proof.
  revert z. induction n as [|n IH]; intros z Hz.
  - change (10 ^ Z.of_nat 0) with 1 in Hz. by assert (z = 0) as -> by lia.
  - unfold number_of in *. cbn [digits]. rewrite fold_left_app, IH; simpl.
    + pose proof (Z.div_mod z 10). lia.
    + rewrite Nat2Z.inj_succ, Z.pow_succ_r in Hz by lia.
      split; [apply Z.div_pos; lia|]. apply Z.div_lt_upper_bound; lia.
Qed.

Lemma fmt_dec_small prec z :
  (0 < prec)%nat -> 0 <= z < 10 ^ Z.of_nat prec -> fmt_dec prec z = digits prec z.
Proof.
  intros Hp Hz. unfold fmt_dec. destruct (Z.ltb_spec z 0); [lia|].
  destruct prec as [|n]; [lia|]. pose proof (ndigits_le 20 n z Hz). f_equal. lia.
Qed.

(** As many digits as there are give the number back. *)
Lemma ndigits_enough fuel z : 0 <= z < 10 ^ Z.of_nat (S fuel) -> z < 10 ^ Z.of_nat (ndigits fuel z).
Proof.
  revert z. induction fuel as [|fuel IH]; intros z Hz; cbn [ndigits].
  { change (10 ^ Z.of_nat 1) with 10 in *. lia. }
  destruct (Z.ltb_spec z 10) as [?|Hge]; [change (10 ^ Z.of_nat 1) with 10; lia|].
  rewrite Nat2Z.inj_succ, Z.pow_succ_r in Hz by lia.
  assert (Hd : 0 <= z / 10 < 10 ^ Z.of_nat (S fuel))
    by (split; [apply Z.div_pos; lia|apply Z.div_lt_upper_bound; lia]).
  specialize (IH (z / 10) Hd). rewrite Nat2Z.inj_succ, Z.pow_succ_r by lia.
  pose proof (Z.div_mod z 10). pose proof (Z.mod_pos_bound z 10). lia.
Qed.

Lemma fmt_dec_number prec z :
  0 <= z < 10 ^ 20 -> number_of (fmt_dec prec z) = z.
Proof.
  intros Hz. unfold fmt_dec. destruct (Z.ltb_spec z 0); [lia|]. apply digits_number. split; [lia|].
  assert (Hz' : 0 <= z < 10 ^ Z.of_nat 21) by (change (10 ^ Z.of_nat 21) with (10 * 10 ^ 20); lia).
  pose proof (ndigits_enough 20 z Hz').
  pose proof (Z.pow_le_mono_r 10 (Z.of_nat (ndigits 20 z)) (Z.of_nat (Nat.max prec (ndigits 20 z)))). lia.
Qed.

(** ** One of [size m + 1] different keys is free *)
Lemma free_key `{Countable K} {A} (m : gmap K A) (g : nat -> K) :
  (forall j k, (j <= size m)%nat -> (k <= size m)%nat -> g j = g k -> j = k) ->
  exists k, (k <= size m)%nat /\ m !! g k = None.
Proof.
  intros Hg. destruct (decide (Exists (fun k => m !! g k = None) (seq 0 (S (size m))))) as [Hex|Hno].
  - apply Exists_exists in Hex as (k & Hk%elem_of_seq & E). exists k. split; [lia|done].
  - exfalso. set (l := g <$> seq 0 (S (size m))).
    assert (Hsub : list_to_set l ⊆ dom m).
    { intros x (k & -> & Hk)%elem_of_list_to_set%list_elem_of_fmap. apply elem_of_dom.
      destruct (m !! g k) eqn:E; [by eexists|]. exfalso. apply Hno, Exists_exists. eauto. }
    assert (Hnd : NoDup l).
    { apply NoDup_fmap_2_strong; [|apply NoDup_seq].
      intros j k Hj%elem_of_seq Hk%elem_of_seq. apply Hg; lia. }
    apply subseteq_size in Hsub. rewrite size_list_to_set, size_dom in Hsub by done.
    unfold l in Hsub. rewrite length_fmap, length_seq in Hsub. lia.
Qed.

(** ** Little-endian words *)
Fixpoint le_encode (n : nat) (z : Z) : list Z :=
  match n with O => [] | S n => z mod 256 :: le_encode n (z / 256) end.
Fixpoint le_decode (l : list Z) : Z :=
  match l with [] => 0 | b :: l => b + 256 * le_decode l end.

Definition is_bytes (l : list Z) : Prop := Forall (fun b => 0 <= b < 256) l.

Lemma le_encode_len n z : length (le_encode n z) = n.
Proof. revert z. induction n as [|n IH]; intros z; simpl; [done|]. by rewrite IH. Qed.

Lemma le_encode_bytes n z : is_bytes (le_encode n z).
Proof.
  revert z. induction n as [|n IH]; intros z; simpl; constructor; [|apply IH].
  apply Z.mod_pos_bound. lia.
Qed.

Lemma le_decode_encode n z : le_decode (le_encode n z) = z mod (256 ^ Z.of_nat n).
Proof.
  revert z. induction n as [|n IH]; intros z.
  - simpl. by rewrite Z.mod_1_r.
  - cbn [le_encode le_decode]. rewrite IH.
    replace (256 ^ Z.of_nat (S n)) with (256 * 256 ^ Z.of_nat n).
    2: { rewrite Nat2Z.inj_succ, Z.pow_succ_r by lia. done. }
    rewrite Z.rem_mul_r by lia. done.
Qed.

Lemma le_decode_bound l : is_bytes l -> 0 <= le_decode l < 256 ^ Z.of_nat (length l).
Proof.
  induction 1 as [|b l Hb Hl IH]; simpl le_decode; [simpl; lia|].
  cbn [length]. rewrite Nat2Z.inj_succ, Z.pow_succ_r by lia. lia.
Qed.

Lemma le_encode_decode l : is_bytes l -> le_encode (length l) (le_decode l) = l.
Proof.
  induction 1 as [|b l Hb Hl IH]; [done|]. cbn [length le_encode le_decode]. f_equal.
  - rewrite Z.mul_comm, Z_mod_plus_full. by apply Z.mod_small.
  - rewrite Z.mul_comm, Z_div_plus_full, Z.div_small by lia. exact IH.
Qed.

(** ** Reachability under a step relation *)
Inductive star {S : Type} (R : S -> S -> Prop) (s : S) : S -> Prop :=
| star_refl : star R s s
| star_step t u : star R s t -> R t u -> star R s u.

Lemma star_trans {S} (R : S -> S -> Prop) a b c : star R a b -> star R b c -> star R a c.
Proof. intros H. induction 1; [done|]. by eapply star_step. Qed.

Lemma star_head {S} (R : S -> S -> Prop) a b c : R a b -> star R b c -> star R a c.
Proof. intros H. apply star_trans. eapply star_step; [constructor|done]. Qed.

#[export] Instance star_preorder {S} (R : S -> S -> Prop) : PreOrder (star R).
Proof. split; [intros ?; constructor | intros ???; apply star_trans]. Qed.

(** Rule induction packaged: an inductive invariant holds wherever a run
    from a good state leads. *)
Lemma star_invariant {S} (R : S -> S -> Prop) (I : S -> Prop) s t :
  (forall a b, I a -> R a b -> I b) -> I s -> star R s t -> I t.
Proof. intros Hstep Hs. induction 1; eauto. Qed.
