(* ===== verification/Queue.v ===== *)
(** The bounded message queue of src/useapp/queue.c: the circular buffer of
    pointers, the semaphore protocol around it as a small-step system of
    threads, and the single-threaded composition of the same steps. *)
From S2P Require Import Prelude.

Module Queue.
Section Queue.
Context {A : Type}.

(** [struct queue].  A [void *] cell is [None] for NULL and [Some a] for a
    pointer to [a]; the three semaphores of [shared] are their values. *)
Record queue := MkQueue {
  cirq : list (option A);
  wpos : Z;
  rpos : Z;
  qsize : Z;
  qmax : Z;
  mutex : Z;
  nempty : Z;
  nstored : Z
}.

Definition set_mutex (q : queue) (n : Z) : queue :=
  MkQueue (cirq q) (wpos q) (rpos q) (qsize q) (qmax q) n (nempty q) (nstored q).
Definition set_nempty (q : queue) (n : Z) : queue :=
  MkQueue (cirq q) (wpos q) (rpos q) (qsize q) (qmax q) (mutex q) n (nstored q).
Definition set_nstored (q : queue) (n : Z) : queue :=
  MkQueue (cirq q) (wpos q) (rpos q) (qsize q) (qmax q) (mutex q) (nempty q) n.

(** POSIX semaphores: [sem_init] refuses a value above [SEM_VALUE_MAX] (the
    zeroed semaphore then stays), [sem_wait] blocks at zero, [sem_post] is
    refused at the maximum. *)
Definition SEM_VALUE_MAX : Z := INT_MAX.
Definition sem_init (v : Z) : Z := if u32 v <=? SEM_VALUE_MAX then u32 v else 0.
Definition sem_wait (v : Z) : option Z := if 0 <? v then Some (v - 1) else None.
Definition sem_post (v : Z) : Z := if v <? SEM_VALUE_MAX then v + 1 else v.

(** [queue_init]: the two [calloc] results are inputs; a NULL array has no
    cells, and a negative [max] is a size [calloc] cannot serve. *)
Definition queue_init (calloc_q calloc_cirq : bool) (max : Z) : res queue :=
  _ ← require calloc_q NullDeref;
  Ok {| cirq := if calloc_cirq then replicate (Z.to_nat max) None else [];
        wpos := -1; rpos := 0; qsize := 0; qmax := max;
        mutex := sem_init 1; nempty := sem_init max; nstored := sem_init 0 |}.

Definition circle_push (q : queue) (value : option A) : res (Z * queue) :=
  pos ← c_rem (i32 (wpos q + 1)) (qmax q);
  if qsize q >=? qmax q then Ok (-1, q)
  else
    c ← arr_set (cirq q) pos value;
    Ok (0, MkQueue c pos (rpos q) (i32 (qsize q + 1)) (qmax q)
             (mutex q) (nempty q) (nstored q)).

Definition circle_pop (q : queue) : res (option A * queue) :=
  if qsize q <=? 0 then Ok (None, q)
  else
    v ← arr_get (cirq q) (rpos q);
    c ← arr_set (cirq q) (rpos q) None;
    rp ← c_rem (i32 (rpos q + 1)) (qmax q);
    Ok (v, MkQueue c (wpos q) rp (i32 (qsize q - 1)) (qmax q)
             (mutex q) (nempty q) (nstored q)).

(** Program points of the four operations: one constructor per statement
    that touches the queue.  [timed] tells [queue_push_wait] and
    [queue_pop_wait] ([true]) from [queue_push] and [queue_pop]. *)
Inductive pc : Type :=
| PushWaitNempty (timed : bool) (value : option A)
| PushWaitMutex (value : option A)
| PushCircle (value : option A)
| PushPostMutex (r : Z)
| PushPostNstored (r : Z)
| PushRet (r : Z)
| PopWaitNstored (timed : bool)
| PopWaitMutex
| PopCircle
| PopPostMutex (v : option A)
| PopPostNempty (v : option A)
| PopRet (v : option A).

(** One statement of one thread.  [None]: the thread is blocked (or has
    returned).  [expired] says that the deadline of a timed wait has passed;
    a wait that can be served at once is served whatever the deadline. *)
Definition pc_step (expired : bool) (q : queue) (p : pc) : option (res (queue * pc)) :=
  match p with
  | PushWaitNempty timed v =>
      match sem_wait (nempty q) with
      | Some n => Some (Ok (set_nempty q n, PushWaitMutex v))
      | None => if timed && expired then Some (Ok (q, PushRet 1)) else None
      end
  | PushWaitMutex v =>
      match sem_wait (mutex q) with
      | Some n => Some (Ok (set_mutex q n, PushCircle v))
      | None => None
      end
  | PushCircle v => Some ('(r, q') ← circle_push q v; Ok (q', PushPostMutex r))
  | PushPostMutex r => Some (Ok (set_mutex q (sem_post (mutex q)), PushPostNstored r))
  | PushPostNstored r => Some (Ok (set_nstored q (sem_post (nstored q)), PushRet r))
  | PopWaitNstored timed =>
      match sem_wait (nstored q) with
      | Some n => Some (Ok (set_nstored q n, PopWaitMutex))
      | None => if timed && expired then Some (Ok (q, PopRet None)) else None
      end
  | PopWaitMutex =>
      match sem_wait (mutex q) with
      | Some n => Some (Ok (set_mutex q n, PopCircle))
      | None => None
      end
  | PopCircle => Some ('(v, q') ← circle_pop q; Ok (q', PopPostMutex v))
  | PopPostMutex v => Some (Ok (set_mutex q (sem_post (mutex q)), PopPostNempty v))
  | PopPostNempty v => Some (Ok (set_nempty q (sem_post (nempty q)), PopRet v))
  | PushRet _ | PopRet _ => None
  end.

(** A call that runs alone: its statements in order, until it returns or
    blocks ([None]).  Every operation has at most five statements. *)
Fixpoint run_pc (n : nat) (expired : bool) (q : queue) (p : pc) : option (res (queue * pc)) :=
  match p with
  | PushRet _ | PopRet _ => Some (Ok (q, p))
  | _ =>
      match n with
      | O => None
      | S n =>
          match pc_step expired q p with
          | None => None
          | Some (UB e) => Some (UB e)
          | Some (Ok (q', p')) => run_pc n expired q' p'
          end
      end
  end.

Definition push_result (o : option (res (queue * pc))) : option (res (Z * queue)) :=
  (fun r => '(q, p) ← r; match p with PushRet z => Ok (z, q) | _ => UB Uninitialised end) <$> o.
Definition pop_result (o : option (res (queue * pc))) : option (res (option A * queue)) :=
  (fun r => '(q, p) ← r; match p with PopRet v => Ok (v, q) | _ => UB Uninitialised end) <$> o.

Definition queue_push (q : queue) (value : option A) : option (res (Z * queue)) :=
  push_result (run_pc 5 false q (PushWaitNempty false value)).
Definition queue_push_wait (q : queue) (value : option A) : option (res (Z * queue)) :=
  push_result (run_pc 5 true q (PushWaitNempty true value)).
Definition queue_pop (q : queue) : option (res (option A * queue)) :=
  pop_result (run_pc 5 false q (PopWaitNstored false)).
Definition queue_pop_wait (q : queue) : option (res (option A * queue)) :=
  pop_result (run_pc 5 true q (PopWaitNstored true)).

(** ** The system of threads

    Each thread is idle ([None]) or inside one of the four operations. *)
Record sys := MkSys { sq : queue; threads : list (option pc) }.

Definition is_entry (p : pc) : bool :=
  match p with PushWaitNempty _ _ | PopWaitNstored _ => true | _ => false end.
Definition is_ret (p : pc) : bool :=
  match p with PushRet _ | PopRet _ => true | _ => false end.

(** What a step does to the abstract queue. *)
Inductive label : Type :=
| Tau
| DoPush (v : option A)
| DoPop (v : option A).

Definition label_of (p p' : pc) : label :=
  match p, p' with
  | PushCircle v, PushPostMutex 0 => DoPush v
  | PopCircle, PopPostMutex v => DoPop v
  | _, _ => Tau
  end.

Inductive sys_step : sys -> label -> sys -> Prop :=
| step_call q ts t p :
    ts !! t = Some None -> is_entry p = true ->
    sys_step (MkSys q ts) Tau (MkSys q (<[t := Some p]> ts))
| step_run q ts t p expired q' p' :
    ts !! t = Some (Some p) -> pc_step expired q p = Some (Ok (q', p')) ->
    sys_step (MkSys q ts) (label_of p p') (MkSys q' (<[t := Some p']> ts))
| step_return q ts t p :
    ts !! t = Some (Some p) -> is_ret p = true ->
    sys_step (MkSys q ts) Tau (MkSys q (<[t := None]> ts)).

Inductive sys_run : sys -> list label -> sys -> Prop :=
| run_nil s : sys_run s [] s
| run_snoc s tr s1 l s2 : sys_run s tr s1 -> sys_step s1 l s2 -> sys_run s (tr ++ [l]) s2.

(** ** The abstract specification: a bounded FIFO *)
Inductive fifo_step (cap : Z) : list (option A) -> label -> list (option A) -> Prop :=
| fifo_tau l : fifo_step cap l Tau l
| fifo_push l v : zlen l < cap -> fifo_step cap l (DoPush v) (l ++ [v])
| fifo_pop v l : fifo_step cap (v :: l) (DoPop v) l.

Inductive fifo_run (cap : Z) : list (option A) -> list label -> list (option A) -> Prop :=
| frun_nil l : fifo_run cap l [] l
| frun_snoc l tr l1 x l2 :
    fifo_run cap l tr l1 -> fifo_step cap l1 x l2 -> fifo_run cap l (tr ++ [x]) l2.

Definition pushed (tr : list label) : list (option A) :=
  omap (fun x => match x with DoPush v => Some v | _ => None end) tr.
Definition popped (tr : list label) : list (option A) :=
  omap (fun x => match x with DoPop v => Some v | _ => None end) tr.

(** ** The circular buffer holds the list [l] *)
Record repr (q : queue) (l : list (option A)) : Prop := {
  repr_max : 0 < qmax q <= INT_MAX;
  repr_cells : zlen (cirq q) = qmax q;
  repr_rpos : 0 <= rpos q < qmax q;
  repr_size : qsize q = zlen l;
  repr_le : zlen l <= qmax q;
  repr_wpos : -1 <= wpos q < qmax q;
  repr_next : (wpos q + 1) mod qmax q = (rpos q + qsize q) mod qmax q;
  repr_stored : forall i v, l !! i = Some v ->
    cirq q !! Z.to_nat ((rpos q + Z.of_nat i) mod qmax q) = Some v;
  repr_free : forall i, zlen l <= i < qmax q ->
    cirq q !! Z.to_nat ((rpos q + i) mod qmax q) = Some None
}.

(** Tokens a thread holds at a program point. *)
Definition holds_slot (t : option pc) : Z :=
  match t with
  | Some (PushWaitMutex _ | PushCircle _ | PopPostMutex _ | PopPostNempty _) => 1
  | _ => 0
  end.
Definition holds_item (t : option pc) : Z :=
  match t with
  | Some (PopWaitMutex | PopCircle | PushPostMutex _ | PushPostNstored _) => 1
  | _ => 0
  end.
Definition holds_mutex (t : option pc) : Z :=
  match t with
  | Some (PushCircle _ | PushPostMutex _ | PopCircle | PopPostMutex _) => 1
  | _ => 0
  end.
(** The values a thread carries to its return are never an error code. *)
Definition carries_ok (t : option pc) : Prop :=
  match t with
  | Some (PushPostMutex r | PushPostNstored r) => r = 0
  | Some (PushRet r) => r = 0 \/ r = 1
  | _ => True
  end.

Record sys_inv (s : sys) (l : list (option A)) : Prop := {
  inv_repr : repr (sq s) l;
  inv_nempty : nempty (sq s) + sumz holds_slot (threads s) = qmax (sq s) - zlen l;
  inv_nstored : nstored (sq s) + sumz holds_item (threads s) = zlen l;
  inv_mutex : mutex (sq s) + sumz holds_mutex (threads s) = 1;
  inv_nonneg : 0 <= nempty (sq s) /\ 0 <= nstored (sq s) /\ 0 <= mutex (sq s);
  inv_carries : Forall carries_ok (threads s)
}.

(** The state [queue_init] leaves, with [n] idle threads. *)
Definition start (q : queue) (n : nat) : sys := MkSys q (replicate n None).

(** A schedule, and the run it drives: which thread calls, runs its next
    statement or returns. *)
Inductive act : Type :=
| ActCall (t : nat) (p : pc)
| ActRun (t : nat) (expired : bool)
| ActReturn (t : nat).

Definition exec_act (s : sys) (a : act) : option (label * sys) :=
  match a with
  | ActCall t p =>
      match threads s !! t with
      | Some None =>
          if is_entry p then Some (Tau, MkSys (sq s) (<[t := Some p]> (threads s))) else None
      | _ => None
      end
  | ActRun t expired =>
      match threads s !! t with
      | Some (Some p) =>
          match pc_step expired (sq s) p with
          | Some (Ok (q', p')) => Some (label_of p p', MkSys q' (<[t := Some p']> (threads s)))
          | _ => None
          end
      | _ => None
      end
  | ActReturn t =>
      match threads s !! t with
      | Some (Some p) =>
          if is_ret p then Some (Tau, MkSys (sq s) (<[t := None]> (threads s))) else None
      | _ => None
      end
  end.

Fixpoint exec (s : sys) (tr : list label) (acts : list act) : option (list label * sys) :=
  match acts with
  | [] => Some (tr, s)
  | a :: rest =>
      match exec_act s a with
      | Some (x, s') => exec s' (tr ++ [x]) rest
      | None => None
      end
  end.

(** A queue no thread is working on: all tokens are in the semaphores. *)
Record quiet (q : queue) (l : list (option A)) : Prop := {
  quiet_repr : repr q l;
  quiet_nempty : nempty q = qmax q - zlen l;
  quiet_nstored : nstored q = zlen l;
  quiet_mutex : mutex q = 1
}.

(** ** Circular-buffer arithmetic *)
Lemma mod_window m r i j :
  0 <= i < m -> 0 <= j < m -> (r + i) mod m = (r + j) mod m -> i = j.
Proof.
  intros Hi Hj H.
  pose proof (Z.div_mod (r + i) m ltac:(lia)) as E1.
  pose proof (Z.div_mod (r + j) m ltac:(lia)) as E2. rewrite H in E1.
  assert ((r + i) / m = (r + j) / m) by nia. nia.
Qed.

Lemma arr_set_in {B} (l : list B) i v :
  0 <= i < zlen l -> arr_set l i v = Ok (<[Z.to_nat i := v]> l).
Proof.
  intros. unfold arr_set.
  assert (in_bounds l i 1 = true) as -> by (apply in_bounds_true; lia). done.
Qed.

Lemma arr_get_in {B} (l : list B) i v :
  0 <= i -> l !! Z.to_nat i = Some v -> arr_get l i = Ok v.
Proof. intros ? H. unfold arr_get. destruct (Z.leb_spec 0 i); [|lia]. by rewrite H. Qed.

(** A cell of the window is the cell [k] steps after the read position. *)
Lemma cell_insert (c : list (option A)) m r k j v :
  zlen c = m -> 0 <= k < m -> 0 <= j < m ->
  <[Z.to_nat ((r + k) mod m) := v]> c !! Z.to_nat ((r + j) mod m) =
  if decide (j = k) then Some v else c !! Z.to_nat ((r + j) mod m).
Proof.
  intros Hc Hk Hj.
  pose proof (Z.mod_pos_bound (r + k) m ltac:(lia)). pose proof (Z.mod_pos_bound (r + j) m ltac:(lia)).
  case_decide as Hjk.
  - subst j. apply list_lookup_insert_eq. unfold zlen in Hc. lia.
  - apply list_lookup_insert_ne. intros E. apply Hjk.
    apply (mod_window m r); [done..|]. lia.
Qed.

(** *** [_circle_push] and [_circle_pop] on a represented list *)
Lemma circle_push_spec q l v :
  repr q l -> zlen l < qmax q ->
  exists q', circle_push q v = Ok (0, q') /\ repr q' (l ++ [v]) /\
    qmax q' = qmax q /\ mutex q' = mutex q /\ nempty q' = nempty q /\ nstored q' = nstored q.
Proof.
  intros [Hm Hc Hr Hs Hl Hw Hn Hst Hf] Hlt. pose proof (zlen_nonneg l).
  unfold INT_MAX in Hm. unfold circle_push.
  rewrite (i32_id (wpos q + 1)) by (unfold in_i32; lia).
  rewrite c_rem_pos by lia. simpl. rewrite Hn.
  pose proof (Z.mod_pos_bound (rpos q + qsize q) (qmax q) ltac:(lia)).
  destruct (Z.geb_spec (qsize q) (qmax q)); [lia|].
  rewrite arr_set_in by lia. simpl.
  rewrite (i32_id (qsize q + 1)) by (unfold in_i32; lia).
  eexists. split; [done|]. split; [|done].
  rewrite Hs in *. split; simpl; autorewrite with zlen; try (unfold INT_MAX; lia).
  - rewrite Z.add_mod_idemp_l by lia. f_equal. lia.
  - intros i w Hi. pose proof (lookup_lt_Some _ _ _ Hi) as Hi2.
    rewrite length_app in Hi2. simpl in Hi2.
    rewrite cell_insert by (unfold zlen in *; lia). case_decide as Hd.
    + rewrite lookup_app_r in Hi by (unfold zlen in *; lia).
      replace (i - length l)%nat with 0%nat in Hi by (unfold zlen in *; lia). done.
    + apply Hst. rewrite lookup_app_l in Hi by (unfold zlen in *; lia). done.
  - intros i Hi. rewrite cell_insert by lia. case_decide; [lia|]. apply Hf. lia.
Qed.

Lemma circle_push_full q l v :
  repr q l -> zlen l = qmax q -> circle_push q v = Ok (-1, q).
Proof.
  intros [Hm Hc Hr Hs Hl Hw Hn Hst Hf] Heq. unfold INT_MAX in Hm. unfold circle_push.
  rewrite (i32_id (wpos q + 1)) by (unfold in_i32; lia). rewrite c_rem_pos by lia. simpl.
  destruct (Z.geb_spec (qsize q) (qmax q)); [done|lia].
Qed.

Lemma circle_pop_spec q v l :
  repr q (v :: l) ->
  exists q', circle_pop q = Ok (v, q') /\ repr q' l /\
    qmax q' = qmax q /\ mutex q' = mutex q /\ nempty q' = nempty q /\ nstored q' = nstored q.
Proof.
  intros [Hm Hc Hr Hs Hl Hw Hn Hst Hf]. pose proof (zlen_nonneg l).
  rewrite zlen_cons in *. unfold INT_MAX in Hm. unfold circle_pop.
  destruct (Z.leb_spec (qsize q) 0); [lia|].
  pose proof (Hst 0%nat v eq_refl) as Hv.
  rewrite Z.add_0_r, Z.mod_small in Hv by lia.
  erewrite arr_get_in by (done || lia). simpl.
  rewrite arr_set_in by lia. simpl.
  rewrite (i32_id (rpos q + 1)) by (unfold in_i32; lia). rewrite c_rem_pos by lia. simpl.
  rewrite (i32_id (qsize q - 1)) by (unfold in_i32; lia).
  eexists. split; [done|]. split; [|done].
  pose proof (Z.mod_pos_bound (rpos q + 1) (qmax q) ltac:(lia)).
  assert (Hrp : Z.to_nat (rpos q) = Z.to_nat ((rpos q + 0) mod qmax q)).
  { by rewrite Z.add_0_r, Z.mod_small by lia. }
  split; simpl; autorewrite with zlen; try (unfold INT_MAX; lia).
  - rewrite Hn, Z.add_mod_idemp_l by lia. f_equal. lia.
  - intros i w Hi. pose proof (lookup_lt_Some _ _ _ Hi).
    rewrite Z.add_mod_idemp_l by lia.
    rewrite <- Z.add_assoc, Hrp, cell_insert by (unfold zlen in *; lia).
    case_decide; [lia|].
    replace (1 + Z.of_nat i) with (Z.of_nat (S i)) by lia. by apply Hst.
  - intros i Hi. rewrite Z.add_mod_idemp_l by lia.
    rewrite <- Z.add_assoc, Hrp.
    destruct (decide (1 + i = qmax q)) as [E|E].
    + rewrite E, Z.add_mod, Z.mod_same, Z.add_0_r, Z.mod_mod by lia.
      rewrite (Z.mod_small (rpos q)) by lia.
      replace (Z.to_nat ((rpos q + 0) mod qmax q)) with (Z.to_nat (rpos q)) by done.
      apply list_lookup_insert_eq. unfold zlen in *. lia.
    + rewrite cell_insert by lia. case_decide; [lia|]. apply Hf. lia.
Qed.

Lemma circle_pop_empty q : repr q [] -> circle_pop q = Ok (None, q).
Proof. intros [_ _ _ Hs _ _ _ _ _]. unfold circle_pop. rewrite Hs. done. Qed.

Lemma repr_set_sems q l m e s :
  repr q l -> repr (MkQueue (cirq q) (wpos q) (rpos q) (qsize q) (qmax q) m e s) l.
Proof. by intros []; split. Qed.

(** ** The system invariant *)
Lemma holds_slot_nonneg t : 0 <= holds_slot t.
Proof. by destruct t as [[]|]. Qed.
Lemma holds_item_nonneg t : 0 <= holds_item t.
Proof. by destruct t as [[]|]. Qed.
Lemma holds_mutex_nonneg t : 0 <= holds_mutex t.
Proof. by destruct t as [[]|]. Qed.

Lemma repr_init max :
  0 < max <= INT_MAX -> exists q, queue_init true true max = Ok q /\ repr q [] /\
    qmax q = max /\ nempty q = max /\ nstored q = 0 /\ mutex q = 1.
Proof.
  unfold INT_MAX. intros Hm. unfold queue_init. simpl. eexists. split; [done|]. simpl.
  assert (Hi : sem_init max = max).
  { unfold sem_init, SEM_VALUE_MAX, INT_MAX. rewrite u32_id by lia.
    destruct (Z.leb_spec max 2147483647); lia. }
  split; [|done]. split; simpl; rewrite ?zlen_nil; try (unfold INT_MAX; lia).
  - unfold zlen. rewrite length_replicate. lia.
  - done.
  - done.
  - intros i v Hv. by rewrite lookup_nil in Hv.
  - intros i Hi'. apply lookup_replicate. split; [done|].
    pose proof (Z.mod_pos_bound (0 + i) max ltac:(lia)). lia.
Qed.

Lemma start_inv q n max :
  0 < max <= INT_MAX -> queue_init true true max = Ok q -> sys_inv (start q n) [].
Proof.
  intros Hm Hq. destruct (repr_init max Hm) as (q' & Hq' & Hr & E1 & E2 & E3 & E4).
  assert (q' = q) as -> by congruence.
  assert (Hz : forall f : option (pc) -> Z, f None = 0 -> sumz f (replicate n None) = 0).
  { intros f Hf. apply sumz_zero. intros a Ha. apply elem_of_replicate in Ha as [-> _]. done. }
  split; simpl; rewrite ?Hz by done; unfold zlen; simpl; [done|lia..|].
  by apply Forall_replicate.
Qed.

(** Changing one thread's program point changes each token sum by that
    thread's share. *)
Ltac sums Ht :=
  rewrite ?(sumz_insert holds_slot _ _ _ _ Ht), ?(sumz_insert holds_item _ _ _ _ Ht),
    ?(sumz_insert holds_mutex _ _ _ _ Ht); simpl.

Ltac tokens Ht :=
  let H1 := fresh in let H2 := fresh in let H3 := fresh in
  pose proof (sumz_elem holds_slot _ _ _ holds_slot_nonneg Ht) as H1;
  pose proof (sumz_elem holds_item _ _ _ holds_item_nonneg Ht) as H2;
  pose proof (sumz_elem holds_mutex _ _ _ holds_mutex_nonneg Ht) as H3;
  simpl in H1, H2, H3.

(** A thread's step that only moves semaphore tokens keeps the invariant. *)
Lemma inv_move q ts l t p p' m e s :
  sys_inv (MkSys q ts) l -> ts !! t = Some p -> carries_ok p' ->
  m + holds_mutex p' = mutex q + holds_mutex p ->
  e + holds_slot p' = nempty q + holds_slot p ->
  s + holds_item p' = nstored q + holds_item p ->
  0 <= m /\ 0 <= e /\ 0 <= s ->
  sys_inv (MkSys (MkQueue (cirq q) (wpos q) (rpos q) (qsize q) (qmax q) m e s)
                 (<[t := p']> ts)) l.
Proof.
  intros [Hr He Hs Hm Hp Hc] Ht Hok E1 E2 E3 Hge. simpl in *.
  split; simpl; [by apply repr_set_sems|sums Ht; lia..|lia|].
  apply Forall_insert; done.
Qed.

Lemma inv_timeout q ts l t p p' :
  sys_inv (MkSys q ts) l -> ts !! t = Some p -> carries_ok p' ->
  holds_mutex p' = holds_mutex p -> holds_slot p' = holds_slot p ->
  holds_item p' = holds_item p -> sys_inv (MkSys q (<[t := p']> ts)) l.
Proof.
  intros Hinv Ht Hok E1 E2 E3. pose proof (inv_nonneg _ _ Hinv) as Hp. simpl in Hp.
  pose proof (inv_move q ts l t p p' (mutex q) (nempty q) (nstored q) Hinv Ht Hok
    ltac:(lia) ltac:(lia) ltac:(lia) ltac:(lia)) as H.
  by destruct q.
Qed.

Lemma sem_wait_some v n : sem_wait v = Some n -> 0 < v /\ n = v - 1.
Proof. unfold sem_wait. destruct (Z.ltb_spec 0 v); [|done]. intros [= <-]. done. Qed.

Lemma sem_post_below v : v < SEM_VALUE_MAX -> sem_post v = v + 1.
Proof. unfold sem_post. intros. destruct (Z.ltb_spec v SEM_VALUE_MAX); lia. Qed.

Lemma carries_lookup ts t p :
  Forall carries_ok ts -> ts !! t = Some (Some p) -> carries_ok (Some p).
Proof. intros H1 H2. by apply (Forall_lookup_1 _ _ _ _ H1 H2). Qed.

(** Every step of a thread inside an operation is defined, keeps the
    invariant, and is a step (or a stutter) of the abstract FIFO. *)
Definition step_good (q : queue) (ts : list (option pc)) (t : nat)
    (l : list (option A)) (p : pc) (r : res (queue * pc)) : Prop :=
  exists q' p' l', r = Ok (q', p') /\ fifo_step (qmax q) l (label_of p p') l' /\
    sys_inv (MkSys q' (<[t := Some p']> ts)) l' /\ qmax q' = qmax q.

Lemma push_step_good q ts t l p e r :
  sys_inv (MkSys q ts) l -> ts !! t = Some (Some p) -> pc_step e q p = Some r ->
  match p with
  | PushWaitNempty _ _ | PushWaitMutex _ | PushCircle _ | PushPostMutex _
  | PushPostNstored _ => step_good q ts t l p r
  | _ => True
  end.
Proof.
  intros Hinv Ht Hstep. pose proof Hinv as [Hr He Hs Hm Hp Hc]. simpl in *.
  tokens Ht. pose proof (carries_lookup _ _ _ Hc Ht) as Hok.
  pose proof (zlen_nonneg l). pose proof (repr_max _ _ Hr).
  pose proof (repr_le _ _ Hr).
  destruct p; simpl in *; try done.
  - destruct (sem_wait (nempty q)) as [n|] eqn:En.
    + apply sem_wait_some in En as [? ->]. injection Hstep as <-.
      eexists _, _, l. split; [done|]. split; [constructor|]. split; [|done].
      eapply inv_move; try done; simpl; lia.
    + destruct (timed && e); [|done]. injection Hstep as <-.
      eexists _, _, l. split; [done|]. split; [constructor|]. split; [|done].
      eapply inv_timeout; try done. by right.
  - destruct (sem_wait (mutex q)) as [n|] eqn:En; [|done].
    apply sem_wait_some in En as [? ->]. injection Hstep as <-.
    eexists _, _, l. split; [done|]. split; [constructor|]. split; [|done].
    eapply inv_move; try done; simpl; lia.
  - injection Hstep as <-.
    destruct (circle_push_spec q l value Hr ltac:(lia)) as (q' & -> & Hr' & E1 & E2 & E3 & E4).
    simpl. eexists _, _, (l ++ [value]). split; [done|]. split; [constructor; lia|].
    split; [|done]. split; simpl; autorewrite with zlen; sums Ht;
      [done|lia..|]. apply Forall_insert; done.
  - injection Hstep as <-. rewrite sem_post_below by (unfold SEM_VALUE_MAX, INT_MAX in *; lia).
    eexists _, _, l. split; [done|]. split; [constructor|]. split; [|done].
    eapply inv_move; try done; simpl; lia.
  - injection Hstep as <-. rewrite sem_post_below by (unfold SEM_VALUE_MAX, INT_MAX in *; lia).
    eexists _, _, l. split; [done|]. split; [constructor|]. split; [|done].
    eapply inv_move; try done; simpl; [by left|lia..].
Qed.

Lemma pop_step_good q ts t l p e r :
  sys_inv (MkSys q ts) l -> ts !! t = Some (Some p) -> pc_step e q p = Some r ->
  match p with
  | PopWaitNstored _ | PopWaitMutex | PopCircle | PopPostMutex _
  | PopPostNempty _ => step_good q ts t l p r
  | _ => True
  end.
Proof.
  intros Hinv Ht Hstep. pose proof Hinv as [Hr He Hs Hm Hp Hc]. simpl in *.
  tokens Ht. pose proof (carries_lookup _ _ _ Hc Ht) as Hok.
  pose proof (zlen_nonneg l). pose proof (repr_max _ _ Hr).
  pose proof (repr_le _ _ Hr).
  destruct p; simpl in *; try done.
  - destruct (sem_wait (nstored q)) as [n|] eqn:En.
    + apply sem_wait_some in En as [? ->]. injection Hstep as <-.
      eexists _, _, l. split; [done|]. split; [constructor|]. split; [|done].
      eapply inv_move; try done; simpl; lia.
    + destruct (timed && e); [|done]. injection Hstep as <-.
      eexists _, _, l. split; [done|]. split; [constructor|]. split; [|done].
      by eapply inv_timeout.
  - destruct (sem_wait (mutex q)) as [n|] eqn:En; [|done].
    apply sem_wait_some in En as [? ->]. injection Hstep as <-.
    eexists _, _, l. split; [done|]. split; [constructor|]. split; [|done].
    eapply inv_move; try done; simpl; lia.
  - injection Hstep as <-.
    destruct l as [|v l]; [unfold zlen in *; simpl in *; lia|].
    destruct (circle_pop_spec q v l Hr) as (q' & -> & Hr' & E1 & E2 & E3 & E4).
    simpl. eexists _, _, l. split; [done|]. split; [constructor|].
    rewrite zlen_cons in *.
    split; [|done]. split; simpl; sums Ht; [done|lia..|]. by apply Forall_insert.
  - injection Hstep as <-. rewrite sem_post_below by (unfold SEM_VALUE_MAX, INT_MAX in *; lia).
    eexists _, _, l. split; [done|]. split; [constructor|]. split; [|done].
    eapply inv_move; try done; simpl; lia.
  - injection Hstep as <-. rewrite sem_post_below by (unfold SEM_VALUE_MAX, INT_MAX in *; lia).
    eexists _, _, l. split; [done|]. split; [constructor|]. split; [|done].
    eapply inv_move; try done; simpl; lia.
Qed.

Lemma pc_step_good q ts t l p e r :
  sys_inv (MkSys q ts) l -> ts !! t = Some (Some p) -> pc_step e q p = Some r ->
  step_good q ts t l p r.
Proof.
  intros Hinv Ht Hstep.
  pose proof (push_step_good _ _ _ _ _ _ _ Hinv Ht Hstep) as H1.
  pose proof (pop_step_good _ _ _ _ _ _ _ Hinv Ht Hstep) as H2.
  by destruct p.
Qed.

Lemma inv_idle_change q ts l t p p' :
  sys_inv (MkSys q ts) l -> ts !! t = Some p -> carries_ok p' ->
  holds_mutex p' = 0 /\ holds_slot p' = 0 /\ holds_item p' = 0 ->
  holds_mutex p = 0 /\ holds_slot p = 0 /\ holds_item p = 0 ->
  sys_inv (MkSys q (<[t := p']> ts)) l.
Proof. intros ? ? ? (?&?&?) (?&?&?). eapply inv_timeout; try done; lia. Qed.

(** Forward simulation: one step of the threads is one step of the FIFO. *)
Lemma sys_step_sim s x s' l :
  sys_inv s l -> sys_step s x s' ->
  exists l', fifo_step (qmax (sq s)) l x l' /\ sys_inv s' l' /\
    qmax (sq s') = qmax (sq s).
Proof.
  intros Hinv Hstep. destruct Hstep as [q ts t p Ht Hp|q ts t p e q' p' Ht Hp|q ts t p Ht Hp].
  - exists l. split; [constructor|]. split; [|done].
    eapply inv_idle_change; try done; by destruct p.
  - destruct (pc_step_good _ _ _ _ _ _ _ Hinv Ht Hp) as (q1 & p1 & l' & Heq & Hf & Hi & Hm).
    injection Heq as <- <-. eauto.
  - exists l. split; [constructor|]. split; [|done].
    eapply inv_idle_change; try done; by destruct p.
Qed.

Lemma sys_run_sim s tr s' l :
  sys_inv s l -> sys_run s tr s' ->
  exists l', fifo_run (qmax (sq s)) l tr l' /\ sys_inv s' l' /\
    qmax (sq s') = qmax (sq s).
Proof.
  intros Hinv. induction 1 as [s|s tr s1 x s2 Hrun IH Hstep].
  { exists l. split; [constructor|done]. }
  destruct (IH Hinv) as (l1 & Hf & Hi & Hm).
  destruct (sys_step_sim _ _ _ _ Hi Hstep) as (l2 & Hf2 & Hi2 & Hm2).
  exists l2. split; [|split; [done|congruence]].
  econstructor; [done|]. by rewrite <- Hm.
Qed.

(** In a FIFO run what was popped and what is still queued make up what was
    pushed, in order. *)
Lemma fifo_run_balance cap l tr l' :
  fifo_run cap l tr l' -> l ++ pushed tr = popped tr ++ l'.
Proof.
  induction 1 as [l|l tr l1 x l2 Hrun IH Hstep]; [by rewrite app_nil_r|].
  unfold pushed, popped in *. rewrite !omap_app, app_assoc, IH.
  destruct Hstep; simpl; rewrite ?app_nil_r, <- ?app_assoc; done.
Qed.

Lemma start_max q n max :
  0 < max <= INT_MAX -> queue_init true true max = Ok q -> qmax (sq (start q n)) = max.
Proof. intros Hm [= <-]. done. Qed.

Lemma run_from_start q n max tr s :
  0 < max <= INT_MAX -> queue_init true true max = Ok q -> sys_run (start q n) tr s ->
  exists l, fifo_run max [] tr l /\ sys_inv s l /\ qmax (sq s) = max.
Proof.
  intros Hm Hq Hrun. pose proof (start_inv q n max Hm Hq) as Hi.
  destruct (sys_run_sim _ _ _ _ Hi Hrun) as (l & Hf & Hs & E).
  rewrite (start_max q n max Hm Hq) in Hf, E. eauto.
Qed.

(** ** Calls that run alone *)
Lemma quiet_init max q :
  0 < max <= INT_MAX -> queue_init true true max = Ok q -> quiet q [].
Proof.
  intros Hm Hq. destruct (repr_init max Hm) as (q' & Hq' & Hr & E1 & E2 & E3 & E4).
  assert (q' = q) as -> by congruence. split; [done|..]; rewrite ?E2, ?E3, ?E1; unfold zlen; simpl; lia.
Qed.

Lemma sem_wait_pos v : 0 < v -> sem_wait v = Some (v - 1).
Proof. unfold sem_wait. intros. destruct (Z.ltb_spec 0 v); [done|lia]. Qed.

Lemma sem_wait_zero v : v <= 0 -> sem_wait v = None.
Proof. unfold sem_wait. intros. destruct (Z.ltb_spec 0 v); [lia|done]. Qed.

Lemma run_push_room b timed q l v :
  quiet q l -> zlen l < qmax q ->
  exists q', push_result (run_pc 5 b q (PushWaitNempty timed v)) = Some (Ok (0, q')) /\
    quiet q' (l ++ [v]) /\ qmax q' = qmax q.
Proof.
  intros [Hr He Hs Hm] Hlt. pose proof (zlen_nonneg l). pose proof (repr_max _ _ Hr).
  cbn [run_pc pc_step]. rewrite sem_wait_pos by lia. cbn [pc_step].
  rewrite sem_wait_pos by (simpl; lia). simpl.
  destruct (circle_push_spec (set_mutex (set_nempty q (nempty q - 1)) (mutex q - 1)) l v)
    as (q' & -> & Hr' & E1 & E2 & E3 & E4); [by do 2 apply repr_set_sems|done|].
  simpl in *. eexists. split; [done|]. split; [|done].
  rewrite !sem_post_below by (unfold SEM_VALUE_MAX, INT_MAX in *; lia).
  split; simpl; autorewrite with zlen; [|lia..].
  by do 2 apply repr_set_sems.
Qed.

Lemma run_push_full b timed q l v :
  quiet q l -> zlen l = qmax q ->
  push_result (run_pc 5 b q (PushWaitNempty timed v)) =
    if timed && b then Some (Ok (1, q)) else None.
Proof.
  intros [Hr He Hs Hm] Heq. cbn [run_pc pc_step]. rewrite sem_wait_zero by lia.
  by destruct (timed && b).
Qed.

Lemma run_pop_some b timed q v l :
  quiet q (v :: l) ->
  exists q', pop_result (run_pc 5 b q (PopWaitNstored timed)) = Some (Ok (v, q')) /\
    quiet q' l /\ qmax q' = qmax q.
Proof.
  intros [Hr He Hs Hm]. pose proof (zlen_nonneg l). pose proof (repr_max _ _ Hr).
  pose proof (repr_le _ _ Hr). rewrite zlen_cons in *.
  cbn [run_pc pc_step]. rewrite sem_wait_pos by lia. cbn [pc_step].
  rewrite sem_wait_pos by (simpl; lia). simpl.
  destruct (circle_pop_spec (set_mutex (set_nstored q (nstored q - 1)) (mutex q - 1)) v l)
    as (q' & -> & Hr' & E1 & E2 & E3 & E4); [by do 2 apply repr_set_sems|].
  simpl in *. eexists. split; [done|]. split; [|done].
  rewrite !sem_post_below by (unfold SEM_VALUE_MAX, INT_MAX in *; lia).
  split; simpl; [by do 2 apply repr_set_sems|lia..].
Qed.

Lemma run_pop_empty b timed q :
  quiet q [] ->
  pop_result (run_pc 5 b q (PopWaitNstored timed)) =
    if timed && b then Some (Ok (None, q)) else None.
Proof.
  intros [Hr He Hs Hm]. cbn [run_pc pc_step]. rewrite sem_wait_zero by (rewrite Hs; done).
  by destruct (timed && b).
Qed.

(** A schedule that executes is a run of the system. *)
Lemma exec_act_step s a x s' : exec_act s a = Some (x, s') -> sys_step s x s'.
Proof.
  destruct s as [q ts], a as [t p|t e|t]; simpl;
    destruct (ts !! t) as [[p'|]|] eqn:Ht; try done.
  - destruct (is_entry p) eqn:E; [|done]. intros [= <- <-]. by constructor.
  - destruct (pc_step e q p') as [[[q1 p1]|]|] eqn:E; try done.
    intros [= <- <-]. by econstructor.
  - destruct (is_ret p') eqn:E; [|done]. intros [= <- <-]. by econstructor.
Qed.

Lemma exec_run s0 s tr acts tr' s' :
  sys_run s0 tr s -> exec s tr acts = Some (tr', s') -> sys_run s0 tr' s'.
Proof.
  revert s tr. induction acts as [|a acts IH]; intros s tr Hrun Hx; simpl in Hx.
  { by injection Hx as <- <-. }
  destruct (exec_act s a) as [[x s1]|] eqn:E; [|done].
  eapply IH; [|done]. econstructor; [done|]. by apply exec_act_step in E.
Qed.

(** ** Properties *)

(** C1 - Linearizability of the queue.  Whatever the number of threads and
    however the statements of their calls interleave, the sequence of stores
    and loads of the circular buffer is a run of a bounded FIFO of capacity
    [max], the buffer represents that FIFO's list at every moment, and what
    has been popped, followed by what is stored, is exactly what was pushed,
    in order. *)
Theorem queue_refines_fifo (max : Z) (q : queue) (n : nat) tr s
    (Hmax : 0 < max <= INT_MAX) (Hq : queue_init true true max = Ok q)
    (Hrun : sys_run (start q n) tr s) :
  exists l, fifo_run max [] tr l /\ repr (sq s) l /\ pushed tr = popped tr ++ l /\
    zlen l <= max.
Proof.
  destruct (run_from_start q n max tr s Hmax Hq Hrun) as (l & Hf & Hs & E).
  exists l. split; [done|]. split; [apply Hs|].
  split; [apply (fifo_run_balance _ _ _ _ Hf)|].
  rewrite <- E. apply repr_le, Hs.
Qed.

(** C2 - The semaphores make the buffer operations safe.  In every reachable
    state no statement of any thread has undefined behaviour, no push is
    refused for lack of room (its result is 0, or 1 for a wait that timed
    out), at most one thread is between the lock and the unlock, and the
    values of the semaphores stay between 0 and [max]. *)
Theorem queue_safe (max : Z) (q : queue) (n : nat) tr s
    (Hmax : 0 < max <= INT_MAX) (Hq : queue_init true true max = Ok q)
    (Hrun : sys_run (start q n) tr s) :
  (forall t p expired e, threads s !! t = Some (Some p) ->
     pc_step expired (sq s) p <> Some (UB e)) /\
  (forall t r, threads s !! t = Some (Some (PushRet r)) -> r = 0 \/ r = 1) /\
  sumz holds_mutex (threads s) <= 1 /\
  0 <= nempty (sq s) <= max /\ 0 <= nstored (sq s) <= max.
Proof.
  destruct (run_from_start q n max tr s Hmax Hq Hrun) as (l & Hf & Hs & E).
  destruct s as [q' ts]. simpl in *. pose proof Hs as [Hr He Hst Hm Hp Hc]. simpl in *.
  pose proof (sumz_nonneg holds_slot ts holds_slot_nonneg).
  pose proof (sumz_nonneg holds_item ts holds_item_nonneg).
  pose proof (zlen_nonneg l). pose proof (repr_le _ _ Hr).
  split_and!; try lia.
  - intros t p ex e Ht Hstep.
    destruct (pc_step_good _ _ _ _ _ _ _ Hs Ht Hstep) as (? & ? & ? & ? & _). done.
  - intros t r Ht. exact (carries_lookup _ _ _ Hc Ht).
Qed.

(** C3 - No deadlock.  If every running thread of a reachable state is
    unable to take a step (short of a deadline passing), then every one of
    them is waiting at the entrance: the pushers because the queue is full,
    the poppers because it is empty.  In particular nobody is ever stuck at
    the lock or between the semaphores. *)
Theorem queue_no_deadlock (max : Z) (q : queue) (n : nat) tr s
    (Hmax : 0 < max <= INT_MAX) (Hq : queue_init true true max = Ok q)
    (Hrun : sys_run (start q n) tr s)
    (Hstuck : forall t p, threads s !! t = Some (Some p) ->
       pc_step false (sq s) p = None /\ is_ret p = false) :
  forall t p, threads s !! t = Some (Some p) ->
    (exists b v, p = PushWaitNempty b v /\ qsize (sq s) = max) \/
    (exists b, p = PopWaitNstored b /\ qsize (sq s) = 0).
Proof.
  destruct (run_from_start q n max tr s Hmax Hq Hrun) as (l & _ & Hs & E).
  destruct s as [q' ts]. simpl in *. destruct Hs as [Hr He Hst Hm Hp Hc]. simpl in *.
  assert (Hnomutex : sumz holds_mutex ts = 0).
  { apply sumz_zero. intros [p|] [t Ht]%list_elem_of_lookup; [|done].
    destruct (Hstuck t p Ht) as [Hb _]. by destruct p. }
  assert (Hentry : forall t p, ts !! t = Some (Some p) -> is_entry p = true).
  { intros t p Ht. destruct (Hstuck t p Ht) as [Hb Hn]. rewrite Hnomutex in Hm.
    destruct p; simpl in *; try done; by rewrite sem_wait_pos in Hb by lia. }
  assert (Hslot : sumz holds_slot ts = 0).
  { apply sumz_zero. intros [p|] [t Ht]%list_elem_of_lookup; [|done].
    pose proof (Hentry t p Ht). by destruct p. }
  assert (Hitem : sumz holds_item ts = 0).
  { apply sumz_zero. intros [p|] [t Ht]%list_elem_of_lookup; [|done].
    pose proof (Hentry t p Ht). by destruct p. }
  pose proof (repr_size _ _ Hr) as Hsz. intros t p Ht.
  destruct (Hstuck t p Ht) as [Hb _]. pose proof (Hentry t p Ht).
  destruct p; try done; simpl in Hb.
  - left. eexists _, _. split; [done|].
    unfold sem_wait in Hb. destruct (Z.ltb_spec 0 (nempty q')); [done|]. lia.
  - right. eexists. split; [done|].
    unfold sem_wait in Hb. destruct (Z.ltb_spec 0 (nstored q')); [done|]. lia.
Qed.

(** What each call does when it runs alone on a queue that holds [l]:
    a push appends when there is room, and otherwise blocks, or returns 1
    with the queue untouched when its deadline has passed; a pop takes the
    first element, and otherwise blocks, or returns NULL at its deadline. *)
Theorem queue_calls_spec (q : queue) l v (Hq : quiet q l) :
  (zlen l < qmax q -> exists q', queue_push q v = Some (Ok (0, q')) /\ quiet q' (l ++ [v])) /\
  (zlen l < qmax q -> exists q', queue_push_wait q v = Some (Ok (0, q')) /\ quiet q' (l ++ [v])) /\
  (zlen l = qmax q -> queue_push q v = None /\ queue_push_wait q v = Some (Ok (1, q))) /\
  (forall x r, l = x :: r ->
     (exists q', queue_pop q = Some (Ok (x, q')) /\ quiet q' r) /\
     (exists q', queue_pop_wait q = Some (Ok (x, q')) /\ quiet q' r)) /\
  (l = [] -> queue_pop q = None /\ queue_pop_wait q = Some (Ok (None, q))).
Proof.
  split_and!.
  - intros H. destruct (run_push_room false false q l v Hq H) as (q' & ? & ? & _). eauto.
  - intros H. destruct (run_push_room true true q l v Hq H) as (q' & ? & ? & _). eauto.
  - intros H. split; [apply (run_push_full false false q l v Hq H)|].
    apply (run_push_full true true q l v Hq H).
  - intros x r ->. split.
    + destruct (run_pop_some false false q x r Hq) as (q' & ? & ? & _). eauto.
    + destruct (run_pop_some true true q x r Hq) as (q' & ? & ? & _). eauto.
  - intros ->. split; [apply (run_pop_empty false false q Hq)|].
    apply (run_pop_empty true true q Hq).
Qed.

End Queue.
Arguments queue : clear implicits.
Arguments pc : clear implicits.
Arguments sys : clear implicits.
Arguments label : clear implicits.
Arguments act : clear implicits.

(** ** The properties at concrete inputs *)
Definition demo_queue : queue Z := MkQueue [None; None] (-1) 0 0 2 1 2 0.

(** Two threads push at the same time, a third pops, and a fourth call of
    [queue_push] finds the queue full. *)
Definition demo_acts : list (act Z) :=
  [ActCall 0 (PushWaitNempty false (Some 10)); ActCall 1 (PushWaitNempty true (Some 20));
   ActRun 0 false; ActRun 1 false; ActRun 1 false; ActRun 1 false; ActRun 1 false;
   ActRun 0 false; ActRun 1 false; ActReturn 1; ActRun 0 false; ActRun 0 false; ActRun 0 false;
   ActReturn 0; ActCall 2 (PopWaitNstored false); ActRun 2 false; ActRun 2 false;
   ActRun 2 false; ActRun 2 false; ActRun 2 false; ActReturn 2;
   ActCall 0 (PushWaitNempty false (Some 30)); ActRun 0 false; ActRun 0 false; ActRun 0 false;
   ActRun 0 false; ActRun 0 false; ActReturn 0; ActCall 0 (PushWaitNempty false (Some 40))].
Definition demo_end : list (label Z) * sys Z := Eval vm_compute in
  default ([], start demo_queue 3) (exec (start demo_queue 3) [] demo_acts).

Lemma demo_run : sys_run (start demo_queue 3) demo_end.1 demo_end.2.
Proof. apply (exec_run _ _ _ demo_acts _ _ (run_nil _)). by vm_compute. Qed.

Lemma demo_max : 0 < 2 <= INT_MAX.
Proof. unfold INT_MAX. lia. Qed.
Lemma demo_init : queue_init true true 2 = Ok demo_queue.
Proof. by vm_compute. Qed.

Lemma queue_refines_fifo_witness :
  popped demo_end.1 = [Some 20] /\
  exists l, fifo_run 2 [] demo_end.1 l /\ repr (sq demo_end.2) l /\
    pushed demo_end.1 = popped demo_end.1 ++ l /\ zlen l <= 2.
Proof.
  split; [by vm_compute|].
  exact (queue_refines_fifo 2 demo_queue 3 _ _ demo_max demo_init demo_run).
Defined.

Lemma queue_safe_witness :
  sumz holds_mutex (threads demo_end.2) <= 1.
Proof.
  exact (proj1 (proj2 (proj2
    (queue_safe 2 demo_queue 3 _ _ demo_max demo_init demo_run)))).
Defined.

Lemma queue_no_deadlock_witness :
  exists b v, threads demo_end.2 !! 0%nat = Some (Some (PushWaitNempty b v)) /\
    qsize (sq demo_end.2) = 2.
Proof.
  assert (H : threads demo_end.2 =
    [Some (PushWaitNempty false (Some 40)); None; None]) by by vm_compute.
  destruct (queue_no_deadlock 2 demo_queue 3 _ _ demo_max demo_init demo_run)
    with (t := 0%nat) (p := PushWaitNempty false (Some 40)) as [(b & v & E & Hs)|(b & E & _)].
  - intros [|[|[|t]]] p Hp; rewrite H in Hp; simplify_eq/=. split; by vm_compute.
  - by rewrite H.
  - exists b, v. by rewrite H, <- E.
  - done.
Defined.

Lemma quiet_demo : quiet demo_queue [].
Proof. exact (quiet_init 2 demo_queue demo_max demo_init). Qed.

Lemma queue_calls_spec_witness :
  quiet demo_queue [] /\ queue_pop demo_queue = None /\
  exists q', queue_push_wait demo_queue (Some 7) = Some (Ok (0, q')) /\ quiet q' [Some 7].
Proof.
  split; [exact quiet_demo|].
  destruct (queue_calls_spec demo_queue [] (Some 7) quiet_demo) as (_ & H & _ & _ & H').
  split; [apply H', eq_refl|]. apply H. done.
Defined.
End Queue.
