(* ===== verification/MsgQueue.v ===== *)
(** The interface the worker threads use: a bounded FIFO whose two timed
    operations either succeed at once or report a timeout.  The class states
    what queue.c promises its clients; the instance discharges it for the
    circular buffer of [Queue]. *)
From S2P Require Import Prelude Queue.

Class MsgQueue (A Q : Type) := {
  mq_push_wait : Q -> A -> res (Z * Q);
  mq_pop_wait : Q -> res (option A * Q);
  mq_holds : Q -> list A -> Prop;
  mq_cap : Q -> Z;
  mq_push_room q l v : mq_holds q l -> zlen l < mq_cap q ->
    exists q', mq_push_wait q v = Ok (0, q') /\ mq_holds q' (l ++ [v]) /\ mq_cap q' = mq_cap q;
  mq_push_full q l v : mq_holds q l -> mq_cap q <= zlen l -> mq_push_wait q v = Ok (1, q);
  mq_pop_some q v l : mq_holds q (v :: l) ->
    exists q', mq_pop_wait q = Ok (Some v, q') /\ mq_holds q' l /\ mq_cap q' = mq_cap q;
  mq_pop_empty q : mq_holds q [] -> mq_pop_wait q = Ok (None, q);
  mq_bound q l : mq_holds q l -> zlen l <= mq_cap q
}.

(** A push either appends (result 0) or leaves the queue alone (result 1). *)
Lemma mq_push_cases `{MsgQueue A Q} q l v :
  mq_holds q l ->
  (exists q', mq_push_wait q v = Ok (0, q') /\ mq_holds q' (l ++ [v]) /\ mq_cap q' = mq_cap q) \/
  mq_push_wait q v = Ok (1, q).
Proof.
  intros Hl. destruct (Z.lt_ge_cases (zlen l) (mq_cap q)).
  - left. by apply mq_push_room.
  - right. by eapply mq_push_full.
Qed.

Section Instance.
Context {A : Type}.

(** A timed call always comes back, so the blocked outcome does not arise. *)
Definition returned {B} (o : option (res B)) : res B := default (UB Uninitialised) o.

Definition circ_push_wait (q : Queue.queue A) (v : A) : res (Z * Queue.queue A) :=
  returned (Queue.queue_push_wait q (Some v)).
Definition circ_pop_wait (q : Queue.queue A) : res (option A * Queue.queue A) :=
  returned (Queue.queue_pop_wait q).
Definition circ_holds (q : Queue.queue A) (l : list A) : Prop :=
  Queue.quiet q (Some <$> l).

Lemma zlen_fmap {B C} (f : B -> C) l : zlen (f <$> l) = zlen l.
Proof. unfold zlen. by rewrite length_fmap. Qed.

#[export] Program Instance circular_queue : MsgQueue A (Queue.queue A) := {|
  mq_push_wait := circ_push_wait;
  mq_pop_wait := circ_pop_wait;
  mq_holds := circ_holds;
  mq_cap := Queue.qmax
|}.
Next Obligation.
  intros q l v Hq Hlt. unfold circ_holds in Hq.
  rewrite <- (zlen_fmap (@Some A)) in Hlt.
  destruct (Queue.run_push_room true true q _ (Some v) Hq Hlt) as (q' & E & Hq' & Hm).
  exists q'. unfold circ_push_wait, Queue.queue_push_wait. rewrite E.
  split; [done|]. split; [|done]. unfold circ_holds. by rewrite fmap_app.
Qed.
Next Obligation.
  intros q l v Hq Hge. unfold circ_holds in Hq.
  pose proof (Queue.repr_le _ _ (Queue.quiet_repr _ _ Hq)) as Hle.
  rewrite zlen_fmap in Hle.
  unfold circ_push_wait, Queue.queue_push_wait.
  rewrite (Queue.run_push_full true true q _ (Some v) Hq); [done|].
  rewrite zlen_fmap. lia.
Qed.
Next Obligation.
  intros q v l Hq.
  destruct (Queue.run_pop_some true true q (Some v) (fmap (M := list) Some l) Hq) as (q' & E & Hq' & Hm).
  exists q'. unfold circ_pop_wait, Queue.queue_pop_wait. by rewrite E.
Qed.
Next Obligation.
  intros q Hq. unfold circ_pop_wait, Queue.queue_pop_wait.
  by rewrite (Queue.run_pop_empty true true q Hq).
Qed.
Next Obligation.
  intros q l Hq. unfold circ_holds in Hq.
  pose proof (Queue.repr_le _ _ (Queue.quiet_repr _ _ Hq)) as Hle.
  by rewrite zlen_fmap in Hle.
Qed.
End Instance.
