(* ===== verification/Message.v ===== *)
(** Messages and the store they live in (src/useapp/queue.h, queue.c):
    allocation, release and the clearing macros, on a heap of messages that
    the receiver, the queue and the sender share by pointer. *)
From S2P Require Import Prelude.

Module Message.

(** [struct message]; [data] is the flexible array, as long as it was
    allocated. *)
Record message := MkMessage { mtype : Z; mlen : Z; mcap : Z; mdata : list Z }.

Definition set_type (m : message) (t : Z) : message := MkMessage t (mlen m) (mcap m) (mdata m).
Definition set_len (m : message) (n : Z) : message := MkMessage (mtype m) n (mcap m) (mdata m).
Definition set_data (m : message) (d : list Z) : message :=
  MkMessage (mtype m) (mlen m) (mcap m) d.

(** [message_new]: a zeroed block of [cap] bytes after the header.  With a
    negative [cap] the block is shorter than the header (or [calloc] fails),
    and the writes to its fields are out of bounds. *)
Definition message_new (cap : Z) : res message :=
  _ ← require (0 <=? cap) OutOfBounds;
  Ok (MkMessage 0 0 cap (zeros cap)).

(** [MESSAGE_BZERO]: clears the header as well, [cap] included, and [cap]
    bytes of data. *)
Definition MESSAGE_BZERO (m : message) : res message :=
  d ← buf_write (mdata m) 0 (zeros (mcap m)); Ok (MkMessage 0 0 0 d).

(** The shared heap.  A pointer is a positive; addresses are not reused, so
    a stale pointer is never mistaken for a live one. *)
Abbreviation ptr := positive.
Record heap := MkHeap { cells : gmap ptr message; brk : ptr }.

Definition load (h : heap) (p : ptr) : res message :=
  of_option UseAfterFree (cells h !! p).
Definition store (h : heap) (p : ptr) (m : message) : res heap :=
  _ ← load h p; Ok (MkHeap (<[p := m]> (cells h)) (brk h)).
Definition alloc (h : heap) (m : message) : ptr * heap :=
  (brk h, MkHeap (<[brk h := m]> (cells h)) (Pos.succ (brk h))).
Definition free (h : heap) (p : ptr) : res heap :=
  match cells h !! p with
  | Some _ => Ok (MkHeap (delete p (cells h)) (brk h))
  | None => UB DoubleFree
  end.

(** [message_del] and [message_drop]: nothing on NULL, otherwise the block is
    released; both read [msg->len] and [msg->data] for their log line
    ([message_del] only in the debug build). *)
Definition message_del (h : heap) (msg : option ptr) : res heap :=
  match msg with None => Ok h | Some p => free h p end.
Definition message_drop (h : heap) (msg : option ptr) : res heap :=
  match msg with None => Ok h | Some p => _ ← load h p; free h p end.

(** The macros set the variable that held the pointer to NULL. *)
Definition MESSAGE_DETACH (msg : option ptr) : option ptr := None.
Definition MESSAGE_DEL (h : heap) (msg : option ptr) : res (option ptr * heap) :=
  h ← message_del h msg; Ok (None, h).
Definition MESSAGE_DROP (h : heap) (msg : option ptr) : res (option ptr * heap) :=
  h ← message_drop h msg; Ok (None, h).

(** Addresses below the break only. *)
Definition heap_wf (h : heap) : Prop :=
  forall p m, cells h !! p = Some m -> (p < brk h)%positive.

Lemma load_ok h p m : cells h !! p = Some m -> load h p = Ok m.
Proof. intros H. unfold load. by rewrite H. Qed.
Lemma load_inv h p m : load h p = Ok m -> cells h !! p = Some m.
Proof. apply of_option_ok. Qed.
Lemma store_ok h p m0 m :
  cells h !! p = Some m0 -> store h p m = Ok (MkHeap (<[p := m]> (cells h)) (brk h)).
Proof. intros H. unfold store. by rewrite (load_ok _ _ _ H). Qed.
Lemma free_ok h p m :
  cells h !! p = Some m -> free h p = Ok (MkHeap (delete p (cells h)) (brk h)).
Proof. intros H. unfold free. by rewrite H. Qed.
Lemma alloc_fresh h : heap_wf h -> cells h !! brk h = None.
Proof.
  intros H. destruct (cells h !! brk h) eqn:E; [|done]. apply H in E. lia.
Qed.
Lemma alloc_wf h m p h' : heap_wf h -> alloc h m = (p, h') -> heap_wf h'.
Proof.
  intros H [= <- <-] p' m'. simpl.
  destruct (decide (brk h = p')) as [<-|Hne]; [lia|].
  rewrite lookup_insert_ne by done. intros Hp%H. lia.
Qed.
Lemma store_wf h p m h' : heap_wf h -> store h p m = Ok h' -> heap_wf h'.
Proof.
  intros H Hs. unfold store in Hs. res_inv. subst. apply load_inv in E.
  intros p' m'. simpl. destruct (decide (p = p')) as [<-|Hne].
  - intros _. by apply H in E.
  - rewrite lookup_insert_ne by done. apply H.
Qed.
Lemma free_wf h p h' : heap_wf h -> free h p = Ok h' -> heap_wf h'.
Proof.
  intros H Hs. unfold free in Hs. destruct (cells h !! p) eqn:E; [|done].
  injection Hs as <-. intros p' m'. simpl.
  destruct (decide (p = p')) as [<-|Hne]; [by rewrite lookup_delete_eq|].
  rewrite lookup_delete_ne by done. apply H.
Qed.

#[export] Hint Resolve alloc_wf store_wf free_wf : cbuf.

(** A message whose buffer is really as long as its [cap] says, or whose cap
    has been wiped by [MESSAGE_BZERO]. *)
Definition message_wf (m : message) : Prop :=
  0 <= mlen m <= zlen (mdata m) /\ 0 <= mcap m <= zlen (mdata m).

Lemma message_new_wf cap m : message_new cap = Ok m -> message_wf m /\ zlen (mdata m) = cap.
Proof.
  unfold message_new. intros H. res_inv. zb. unfold message_wf. simpl.
  rewrite zlen_zeros by lia. lia.
Qed.

Lemma bzero_spec m :
  message_wf m ->
  exists d, MESSAGE_BZERO m = Ok (MkMessage 0 0 0 d) /\ zlen d = zlen (mdata m) /\
    d = zeros (mcap m) ++ drop (Z.to_nat (mcap m)) (mdata m).
Proof.
  intros [Hl Hc]. unfold MESSAGE_BZERO.
  destruct (buf_write_is_ok (mdata m) 0 (zeros (mcap m))) as [d Hd]; [lia|rewrite zlen_zeros; lia|].
  rewrite Hd. exists d. split; [done|]. split; [apply buf_write_ok in Hd; lia|].
  replace 0 with (zlen (@nil Z)) in Hd by done.
  apply (buf_write_app [] (mdata m)) in Hd. rewrite Hd. simpl.
  unfold zeros at 2. by rewrite length_replicate.
Qed.
End Message.
