(* ===== verification/Datafile.v ===== *)
(** The local file cache of the receiver (src/useapp/worker.c, lines 25-177):
    data files named by their creation time, the [names_msg] message that
    collects their names, and the limits on their number and size. *)
From S2P Require Import Prelude Message.
Import Message.

Module Datafile.

Definition FNAME_SIZE : Z := 256.

(** [struct datafile_info].  [curr_fp] is the file the stream writes to. *)
Record datafile_info := MkInfo {
  path : list Z;
  max_fcnt : Z;
  max_fsize : Z;
  file_count : Z;
  curr_fp : option (list Z);
  curr_fsize : Z;
  curr_fname : list Z;
  names_msg : option ptr
}.

(** Files by name, with their contents. *)
Abbreviation files := (gmap (list Z) (list Z)).

(** What the C library and the file system answer: the text [strftime] makes
    of the current time, whether [fopen] succeeds, and how many bytes a
    failing [fwrite] manages to append. *)
Record fenv := MkEnv { e_stamp : list Z; e_fopen : bool; e_fwrite : option Z }.

Definition datafile_init (stat_ok mkdir_ok : bool) (dir : list Z) (fsize fcnt : Z)
    : option datafile_info :=
  if negb stat_ok && negb mkdir_ok then None
  else Some {| path := dir;
               max_fcnt := if fcnt >? 5 then 4 else fcnt;
               max_fsize := if fsize >? 1024 * 1024 * 2 then 1024 * 1024 * 2 else fsize;
               file_count := 0; curr_fp := None; curr_fsize := 0;
               curr_fname := zeros FNAME_SIZE; names_msg := None |}.

Definition set_file (i : datafile_info) (fp : option (list Z)) (fname : list Z) :=
  MkInfo (path i) (max_fcnt i) (max_fsize i) (file_count i) fp (curr_fsize i) fname (names_msg i).
Definition set_fsize (i : datafile_info) (n : Z) :=
  MkInfo (path i) (max_fcnt i) (max_fsize i) (file_count i) (curr_fp i) n
    (curr_fname i) (names_msg i).
Definition set_count (i : datafile_info) (n : Z) :=
  MkInfo (path i) (max_fcnt i) (max_fsize i) n (curr_fp i) (curr_fsize i)
    (curr_fname i) (names_msg i).
Definition set_names (i : datafile_info) (p : option ptr) :=
  MkInfo (path i) (max_fcnt i) (max_fsize i) (file_count i) (curr_fp i) (curr_fsize i)
    (curr_fname i) p.

(** [strftime(buf, max, ..)]: stores the text and its NUL when they fit; the
    array's contents are unspecified otherwise. *)
Definition strftime_bytes (text : list Z) (max : Z) : res (list Z) :=
  if zlen text + 1 <=? max then Ok (text ++ [0]) else UB Uninitialised.

(** [fopen(name, "a")] creates a missing file. *)
Definition touch (fs : files) (name : list Z) : files :=
  match fs !! name with Some _ => fs | None => <[name := []]> fs end.

Definition append (fs : files) (name d : list Z) : files :=
  <[name := default [] (fs !! name) ++ d]> fs.

(** [fwrite(d, len, 1, fp)]: 1 when the whole item was written; 0 on a short
    write, and for an item of size zero. *)
Definition fwrite (short : option Z) (fs : files) (name d : list Z) : Z * files :=
  if zlen d =? 0 then (0, fs)
  else match short with
       | None => (1, append fs name d)
       | Some k => (0, append fs name (take (Z.to_nat (Z.min k (zlen d - 1))) d))
       end.

Definition create_datafile (env : fenv) (info : datafile_info) (fs : files)
    : res (Z * datafile_info * files) :=
  let path_len := zlen (path info) in
  fname ← buf_write (curr_fname info) 0 (strncpy_bytes (path info) (FNAME_SIZE - 21));
  c ← arr_get fname (path_len - 1);
  '(fname, path_len) ←
    (if negb (c =? 47)
     then f ← arr_set fname path_len 47; Ok (f, path_len + 1)
     else Ok (fname, path_len));
  text ← strftime_bytes (e_stamp env) 20;
  fname ← buf_write fname path_len text;
  name ← c_string fname;
  if e_fopen env
  then Ok (0, set_file info (Some name) fname, touch fs name)
  else Ok (-1, set_file info None (zeros FNAME_SIZE), fs).

Definition close_datafile (info : datafile_info) : datafile_info :=
  set_fsize (set_file info None (zeros FNAME_SIZE)) 0.

Definition datafile_reset_currfile (info : datafile_info) (h : heap)
    : res (datafile_info * heap) :=
  match curr_fp info with
  | Some _ =>
      let count := if file_count info >? 0 then i32 (file_count info - 1) else file_count info in
      np ← of_option NullDeref (names_msg info);
      nm ← load h np;
      n ← c_strlen (curr_fname info);
      h ← store h np (set_len nm (i32 (mlen nm - (n + 1))));
      Ok (close_datafile (set_count info count), h)
  | None => Ok (close_datafile info, h)
  end.

(** Lines 149-157: count the new file and add its name to the list. *)
Definition record_name (info : datafile_info) (h : heap) : res (datafile_info * heap) :=
  let info := set_fsize (set_count info (i32 (file_count info + 1))) 0 in
  '(np, info, h) ←
    (match names_msg info with
     | Some np => Ok (np, info, h)
     | None =>
         nm ← message_new (i32 ((max_fcnt info + 1) * (FNAME_SIZE + 1)));
         let '(np, h) := alloc h (set_type nm 1) in
         Ok (np, set_names info (Some np), h)
     end);
  nm ← load h np;
  name ← c_string (curr_fname info);
  d ← buf_write (mdata nm) (mlen nm) (name ++ [0]);
  h ← store h np (set_len (set_data nm d) (i32 (mlen nm + (zlen name + 1))));
  Ok (info, h).

(** Lines 134-158: close a file the message would not fit in, and open the
    next one when none is open. *)
Definition open_for_write (env : fenv) (info : datafile_info) (over : bool)
    (h : heap) (fs : files) : res (Z * datafile_info * heap * files) :=
  let info := match curr_fp info with
              | Some _ => if over then close_datafile info else info
              | None => info
              end in
  match curr_fp info with
  | Some _ => Ok (0, info, h, fs)
  | None =>
      '(r, info, fs) ← create_datafile env info fs;
      if negb (r =? 0) then Ok (-1, info, h, fs)
      else '(info, h) ← record_name info h; Ok (0, info, h, fs)
  end.

Definition datafile_write_datamsg (env : fenv) (info : datafile_info) (data_msg : ptr)
    (h : heap) (fs : files) : res (Z * datafile_info * heap * files) :=
  m ← load h data_msg;
  let over := i32 (curr_fsize info + mlen m) >? max_fsize info in
  if (file_count info >=? max_fcnt info) && over then Ok (-1, info, h, fs)
  else
    '(rc, info, h, fs) ← open_for_write env info over h fs;
    if negb (rc =? 0) then Ok (-1, info, h, fs)
    else
      fp ← of_option NullDeref (curr_fp info);
      m ← load h data_msg;
      d ← buf_read (mdata m) 0 (mlen m);
      let '(n, fs) := fwrite (e_fwrite env) fs fp d in
      if negb (n =? 1) then Ok (-1, info, h, fs)
      else Ok (0, set_fsize info (i32 (curr_fsize info + mlen m)), h, fs).

Definition datafile_detach_namemsg (info : datafile_info) : datafile_info :=
  set_names (set_count (close_datafile info) 0) None.

(** ** Well-formedness *)

(** The size of a message up to which sums of two sizes fit an int. *)
Definition MSG_LIMIT : Z := 536870912.

(** The name [create_datafile] gives the file made at time [stamp]. *)
Definition ends_in_slash (p : list Z) : bool :=
  match last p with Some c => c =? 47 | None => false end.
Definition data_name (p stamp : list Z) : list Z :=
  p ++ (if ends_in_slash p then [] else [47]) ++ stamp.

(** The contents of a names message: each name with its NUL. *)
Definition names_bytes (names : list (list Z)) : list Z :=
  concat ((fun n => n ++ [0]) <$> names).

Definition name_ok (n : list Z) : Prop := no_nul n /\ 0 < zlen n <= 255.

(** The names message [nm] lists [names], in a block with room for
    [max_fcnt + 1] of them. *)
Record names_wf (fcnt : Z) (nm : message) (names : list (list Z)) : Prop := {
  names_type : mtype nm = 1;
  names_cap : zlen (mdata nm) = (fcnt + 1) * (FNAME_SIZE + 1);
  names_len : mlen nm = zlen (names_bytes names);
  names_data : take (length (names_bytes names)) (mdata nm) = names_bytes names;
  names_end : last (mdata nm) = Some 0
}.

Record info_wf (info : datafile_info) (h : heap) (names : list (list Z)) : Prop := {
  wf_path : 1 <= zlen (path info) <= 235 /\ no_nul (path info);
  wf_fcnt : 0 <= max_fcnt info <= 5;
  wf_fsize : max_fsize info <= 1024 * 1024 * 2;
  wf_fname : zlen (curr_fname info) = FNAME_SIZE;
  wf_names_ok : Forall name_ok names;
  wf_count : file_count info = zlen names;
  wf_count_max : zlen names <= Z.max 1 (max_fcnt info);
  wf_curr_size : 0 <= curr_fsize info <= MSG_LIMIT;
  wf_closed : curr_fp info = None ->
    curr_fname info = zeros FNAME_SIZE /\ curr_fsize info = 0 /\
    zlen names <= Z.max 0 (max_fcnt info - 1);
  wf_open : forall name, curr_fp info = Some name ->
    last names = Some name /\ exists r, curr_fname info = name ++ 0 :: r;
  wf_names_msg : match names_msg info with
    | None => names = []
    | Some np => exists nm, cells h !! np = Some nm /\ names_wf (max_fcnt info) nm names
    end
}.

(** A time stamp as the format "%Y%m%d_%H%M%S.dat" makes it. *)
Definition stamp_ok (s : list Z) : Prop := zlen s = 19 /\ no_nul s.
(** ** Naming a new file *)
Lemma fresh_fname p :
  zlen p <= 235 ->
  buf_write (zeros FNAME_SIZE) 0 (strncpy_bytes p (FNAME_SIZE - 21)) =
    Ok (p ++ zeros (FNAME_SIZE - zlen p)).
Proof.
  intros Hp. unfold FNAME_SIZE. pose proof (zlen_nonneg p).
  pose proof (buf_write_zeros [] 256 (strncpy_bytes p (256 - 21))) as H0.
  rewrite zlen_strncpy in H0 by lia. simpl app in H0. rewrite zlen_nil in H0.
  rewrite H0 by lia. rewrite strncpy_fits by lia.
  rewrite <- app_assoc, <- zeros_app by lia. do 3 f_equal. lia.
Qed.

Lemma last_cell (p r : list Z) (c : Z) : last p = Some c -> arr_get (p ++ r) (zlen p - 1) = Ok c.
Proof.
  intros Hc. apply last_Some in Hc as [q ->].
  rewrite <- app_assoc. simpl. rewrite zlen_app, zlen_cons, zlen_nil.
  replace (zlen q + (1 + 0) - 1) with (zlen q) by lia. apply arr_get_app.
Qed.

Lemma last_is_some (p : list Z) : 1 <= zlen p -> exists c, last p = Some c.
Proof.
  intros Hp. destruct (last p) as [c|] eqn:E; [eauto|].
  apply last_None in E as ->. by rewrite zlen_nil in Hp.
Qed.

Lemma data_name_len p stamp :
  zlen stamp = 19 -> zlen p <= 235 -> 20 <= zlen (data_name p stamp) + 1 <= 256 /\
  zlen p + 19 <= zlen (data_name p stamp).
Proof.
  intros Hs Hp. unfold data_name. rewrite !zlen_app. pose proof (zlen_nonneg p).
  destruct (ends_in_slash p); rewrite ?zlen_cons, zlen_nil; lia.
Qed.

Lemma data_name_no_nul p stamp : no_nul p -> no_nul stamp -> no_nul (data_name p stamp).
Proof.
  unfold no_nul, data_name. intros. apply Forall_app. split; [done|].
  apply Forall_app. split; [|done]. destruct (ends_in_slash p); repeat constructor. lia.
Qed.

Lemma strftime_fits s : zlen s = 19 -> strftime_bytes s 20 = Ok (s ++ [0]).
Proof. intros H. unfold strftime_bytes. by rewrite H. Qed.

(** Appending the separator and the stamp to the directory in the buffer. *)
Lemma create_spec env info fs :
  1 <= zlen (path info) <= 235 -> no_nul (path info) -> stamp_ok (e_stamp env) ->
  curr_fname info = zeros FNAME_SIZE ->
  let name := data_name (path info) (e_stamp env) in
  exists r, zlen (name ++ 0 :: r) = FNAME_SIZE /\
    create_datafile env info fs =
      Ok (if e_fopen env
          then (0, set_file info (Some name) (name ++ 0 :: r), touch fs name)
          else (-1, set_file info None (zeros FNAME_SIZE), fs)).
Proof.
  intros Hp Hnul [Hs Hsn] Hf name.
  destruct (last_is_some (path info)) as [c Hc]; [lia|].
  pose proof (data_name_len (path info) (e_stamp env) Hs ltac:(lia)) as [Hn _].
  pose proof (data_name_no_nul _ _ Hnul Hsn) as Hnn. fold name in Hn, Hnn.
  exists (zeros (FNAME_SIZE - zlen name - 1)).
  split. { unfold FNAME_SIZE. rewrite zlen_app, zlen_cons, zlen_zeros; lia. }
  unfold create_datafile. rewrite Hf, fresh_fname by lia. simpl.
  rewrite (last_cell _ _ _ Hc). simpl.
  assert (Htext : exists pre,
    (if negb (c =? 47)
     then f ← arr_set (path info ++ zeros (FNAME_SIZE - zlen (path info))) (zlen (path info)) 47;
          Ok (f, zlen (path info) + 1)
     else Ok (path info ++ zeros (FNAME_SIZE - zlen (path info)), zlen (path info))) =
    Ok (pre ++ zeros (FNAME_SIZE - zlen pre), zlen pre) /\ pre ++ e_stamp env = name).
  { unfold name, data_name, ends_in_slash. rewrite Hc.
    destruct (c =? 47); simpl.
    - by exists (path info).
    - exists (path info ++ [47]). rewrite (zeros_cons (_ - _)) by (unfold FNAME_SIZE; lia).
      rewrite arr_set_app. simpl. rewrite zlen_app, zlen_cons, zlen_nil, <- !app_assoc.
      split; [|done]. simpl.
      by replace (FNAME_SIZE - (zlen (path info) + (1 + 0)))
        with (FNAME_SIZE - zlen (path info) - 1) by lia. }
  destruct Htext as (pre & -> & Hpre). simpl. rewrite strftime_fits by done. simpl.
  pose proof (f_equal zlen Hpre) as Hl. rewrite zlen_app in Hl.
  rewrite buf_write_zeros by (unfold FNAME_SIZE; rewrite zlen_app, zlen_cons, zlen_nil; lia).
  simpl. rewrite <- !app_assoc, app_assoc, Hpre. simpl. rewrite c_string_app by done. simpl.
  autorewrite with zlen.
  replace (FNAME_SIZE - zlen pre - (zlen (e_stamp env) + (1 + 0)))
    with (FNAME_SIZE - zlen name - 1) by lia.
  by destruct (e_fopen env).
Qed.
(** A directory whose name does not leave room for the separator, the stamp
    and the NUL makes [create_datafile] write outside [curr_fname]. *)
Lemma create_long_path env info fs :
  235 < zlen (path info) -> stamp_ok (e_stamp env) -> curr_fname info = zeros FNAME_SIZE ->
  create_datafile env info fs = UB OutOfBounds.
Proof.
  intros Hp [Hs _] Hf. unfold create_datafile, FNAME_SIZE in *. rewrite Hf.
  pose proof (buf_write_zeros [] 256 (strncpy_bytes (path info) (256 - 21))) as H0.
  rewrite zlen_strncpy in H0 by lia. simpl app in H0. change (zlen (@nil Z)) with 0 in H0.
  rewrite H0 by lia. simpl. rewrite strncpy_long by lia.
  change (256 - (256 - 21)) with 21.
  set (fname := take (Z.to_nat (256 - 21)) (path info) ++ zeros 21).
  assert (Hlen : zlen fname = 256).
  { unfold fname. rewrite zlen_app, zlen_take, zlen_zeros by lia. lia. }
  destruct (Z.lt_ge_cases (zlen (path info) - 1) 256) as [Hlt|Hge].
  2: { rewrite arr_get_out by lia. done. }
  assert (arr_get fname (zlen (path info) - 1) = Ok 0) as ->.
  { unfold arr_get, fname. destruct (Z.leb_spec 0 (zlen (path info) - 1)); [|lia].
    unfold zlen in *. rewrite lookup_app_r by (rewrite length_take; lia).
    rewrite length_take, lookup_zeros by lia. done. }
  simpl. destruct (Z.lt_ge_cases (zlen (path info)) 256) as [Hlt2|Hge2].
  2: { rewrite arr_set_out by lia. done. }
  unfold arr_set. assert (in_bounds fname (zlen (path info)) 1 = true) as ->.
  { apply in_bounds_true. lia. }
  simpl. rewrite strftime_fits by done. simpl.
  rewrite buf_write_out; [done|]. autorewrite with zlen. lia.
Qed.

Lemma create_empty_path env info fs :
  zlen (path info) = 0 -> curr_fname info = zeros FNAME_SIZE ->
  create_datafile env info fs = UB OutOfBounds.
Proof.
  intros Hp Hf. unfold create_datafile. rewrite Hf, fresh_fname by lia. simpl.
  by rewrite arr_get_out by lia.
Qed.

(** ** The names message *)
Lemma names_bytes_snoc names n : names_bytes (names ++ [n]) = names_bytes names ++ n ++ [0].
Proof. unfold names_bytes. by rewrite fmap_app, concat_app; simpl; rewrite app_nil_r. Qed.

Lemma names_bytes_len names :
  Forall name_ok names -> 0 <= zlen (names_bytes names) <= 256 * zlen names.
Proof.
  induction 1 as [|n names [_ Hn] Hns IH]; [done|].
  unfold names_bytes in *. csimpl. autorewrite with zlen. lia.
Qed.

Lemma names_split fcnt nm names :
  names_wf fcnt nm names -> exists r, mdata nm = names_bytes names ++ r.
Proof.
  intros [_ _ _ Hd _]. exists (drop (length (names_bytes names)) (mdata nm)).
  rewrite <- Hd at 1. by rewrite take_drop.
Qed.

Lemma names_empty fcnt nm :
  0 <= fcnt ->
  message_new ((fcnt + 1) * (FNAME_SIZE + 1)) = Ok nm -> names_wf fcnt (set_type nm 1) [].
Proof.
  intros Hf H. pose proof (message_new_wf _ _ H) as [_ Hl].
  unfold message_new in H. res_inv. split; try done. simpl.
  apply last_zeros. unfold FNAME_SIZE. lia.
Qed.

(** Room for one more name: the [strcpy] stays inside the block. *)
Lemma add_name fcnt nm names n :
  names_wf fcnt nm names -> Forall name_ok names -> name_ok n ->
  0 <= fcnt -> zlen names <= fcnt ->
  exists d, buf_write (mdata nm) (mlen nm) (n ++ [0]) = Ok d /\
    names_wf fcnt (set_len (set_data nm d) (mlen nm + (zlen n + 1))) (names ++ [n]).
Proof.
  intros Hw Hns [Hn1 Hn2] Hf Hc. pose proof (names_bytes_len names Hns).
  destruct (names_split _ _ _ Hw) as [r Hr]. destruct Hw as [Ht Hcap Hlen Hd Hend].
  destruct (buf_write_is_ok (mdata nm) (mlen nm) (n ++ [0])) as [d E].
  { lia. }
  { autorewrite with zlen. unfold FNAME_SIZE in *. lia. }
  exists d. split; [done|]. pose proof (buf_write_ok _ _ _ _ E) as (_ & _ & Hd').
  rewrite Hr, Hlen in E. apply buf_write_app in E.
  assert (Hdl : (length (n ++ [0%Z]) < length r)%nat).
  { apply (f_equal zlen) in Hr. rewrite zlen_app in Hr.
    unfold zlen, FNAME_SIZE in *. rewrite length_app. simpl. lia. }
  split; simpl; [done|lia| | |]; rewrite ?names_bytes_snoc.
  - autorewrite with zlen. lia.
  - rewrite E, !app_assoc. by rewrite take_app_length.
  - rewrite Hr, last_app_ne in Hend by (intros ->; simpl in Hdl; lia).
    assert (Hne : drop (length (n ++ [0%Z])) r <> []).
    { intros Hnil%(f_equal length). rewrite length_drop in Hnil. simpl in Hnil. lia. }
    rewrite E, last_app_ne by (by intros [_ ?]%app_nil).
    by rewrite last_app_ne, last_drop by done.
Qed.

Definition frame (info : datafile_info) (h h' : heap) : Prop :=
  forall p, Some p <> names_msg info -> is_Some (cells h !! p) -> cells h' !! p = cells h !! p.

Lemma record_name_spec info h names name r :
  heap_wf h -> 0 <= max_fcnt info <= 5 -> curr_fname info = name ++ 0 :: r -> name_ok name ->
  match names_msg info with
  | None => names = []
  | Some np => exists nm, cells h !! np = Some nm /\ names_wf (max_fcnt info) nm names
  end ->
  Forall name_ok names -> zlen names <= max_fcnt info -> file_count info = zlen names ->
  exists np h' nm',
    record_name info h =
      Ok (set_names (set_fsize (set_count info (zlen names + 1)) 0) (Some np), h') /\
    cells h' !! np = Some nm' /\ names_wf (max_fcnt info) nm' (names ++ [name]) /\
    heap_wf h' /\ frame info h h' /\ (names_msg info = Some np \/ cells h !! np = None).
Proof.
  intros Hh Hf Hfn Hn Hnm Hns Hz Hc. pose proof (zlen_nonneg names).
  pose proof (names_bytes_len names Hns).
  unfold record_name. rewrite Hc, i32_id by (unfold in_i32; lia).
  destruct (names_msg info) as [np|] eqn:Enp; simpl; rewrite ?Enp; simpl.
  - destruct Hnm as (nm & Hnp & Hw).
    destruct (add_name _ _ _ _ Hw Hns Hn) as (d & Hd & Hw'); [lia..|].
    rewrite (load_ok _ _ _ Hnp). simpl. rewrite Hfn, c_string_app by apply Hn. simpl.
    rewrite Hd. simpl. rewrite (store_ok _ _ _ _ Hnp). simpl.
    rewrite i32_id by (destruct Hn; rewrite (names_len _ _ _ Hw); unfold in_i32; lia).
    eexists np, _, _. split; [by destruct info; simpl in *; subst|]. simpl.
    split; [apply lookup_insert_eq|]. split; [done|].
    split. { eapply (store_wf h np); [done|]. by eapply store_ok. }
    split; [|by left]. intros p Hp _. simpl. apply lookup_insert_ne. congruence.
  - subst names. rewrite i32_id by (unfold in_i32, FNAME_SIZE; lia).
    destruct (message_new ((max_fcnt info + 1) * (FNAME_SIZE + 1))) as [nm|e] eqn:En.
    2: { exfalso. unfold message_new in En.
         destruct (Z.leb_spec 0 ((max_fcnt info + 1) * (FNAME_SIZE + 1))); [done|].
         unfold FNAME_SIZE in *. lia. }
    simpl. pose proof (names_empty (max_fcnt info) _ ltac:(lia) En) as Hw.
    destruct (add_name _ _ _ _ Hw Hns Hn) as (d & Hd & Hw'); [lia..|].
    unfold load at 1. simpl. rewrite lookup_insert_eq. simpl.
    rewrite Hfn, c_string_app by apply Hn. simpl. simpl in Hd. rewrite Hd. simpl.
    erewrite store_ok by apply lookup_insert_eq. simpl.
    rewrite i32_id by (destruct Hn; pose proof (names_len _ _ _ Hw); simpl in *;
      unfold in_i32; lia).
    eexists (brk h), _, _. split; [done|]. simpl.
    split; [apply lookup_insert_eq|]. split; [done|].
    assert (Hwf : heap_wf (MkHeap (<[brk h := set_type nm 1]> (cells h)) (Pos.succ (brk h)))).
    { by eapply (alloc_wf h). }
    split. { eapply (store_wf _ (brk h)); [done|]. eapply store_ok. apply lookup_insert_eq. }
    split; [|by right; apply alloc_fresh].
    intros p _ [m Hm]. simpl. pose proof (Hh _ _ Hm).
    rewrite !lookup_insert_ne by lia. done.
Qed.
(** ** The operations preserve well-formedness *)
Lemma close_wf info h names :
  info_wf info h names -> zlen names <= Z.max 0 (max_fcnt info - 1) ->
  info_wf (close_datafile info) h names.
Proof.
  intros [] ?. split; simpl; try done.
Qed.

Lemma detach_wf info h names :
  info_wf info h names -> info_wf (datafile_detach_namemsg info) h [].
Proof.
  intros []. split; simpl; try done; change (zlen (@nil (list Z))) with 0; try lia.
  intros _. split_and!; try done. lia.
Qed.

Lemma names_wf_drop_last fcnt nm names n :
  names_wf fcnt nm (names ++ [n]) ->
  names_wf fcnt (set_len nm (mlen nm - (zlen n + 1))) names.
Proof.
  intros [Ht Hc Hl Hd He]. rewrite names_bytes_snoc in *.
  split; simpl; [done|done| | |done].
  - rewrite Hl. autorewrite with zlen. lia.
  - assert (E : take (length (names_bytes names)) (mdata nm) =
      take (length (names_bytes names)) (take (length (names_bytes names ++ n ++ [0])) (mdata nm))).
    { rewrite take_take. f_equal. rewrite length_app. lia. }
    by rewrite E, Hd, take_app_length.
Qed.

Lemma reset_spec info h names :
  info_wf info h names -> heap_wf h ->
  exists info' h', datafile_reset_currfile info h = Ok (info', h') /\
    info_wf info' h' (match curr_fp info with Some _ => removelast names | None => names end) /\
    heap_wf h' /\ frame info h h' /\ curr_fp info' = None /\ names_msg info' = names_msg info /\
    max_fcnt info' = max_fcnt info.
Proof.
  intros Hw Hh. unfold datafile_reset_currfile.
  destruct (curr_fp info) as [f|] eqn:Ef.
  2: { eexists _, _. split; [done|]. split_and!; try done.
       apply close_wf; [done|]. by apply (wf_closed _ _ _ Hw). }
  destruct (wf_open _ _ _ Hw f Ef) as (Hlast & r & Hfn).
  apply last_Some in Hlast as [ns ->]. rewrite removelast_last.
  pose proof (wf_names_msg _ _ _ Hw) as Hnm. pose proof (wf_names_ok _ _ _ Hw) as Hok.
  apply Forall_app in Hok as [Hns Hf]. apply Forall_singleton in Hf as [Hf1 Hf2].
  pose proof (wf_count _ _ _ Hw) as Hc. pose proof (wf_count_max _ _ _ Hw) as Hmax.
  rewrite zlen_app, zlen_cons in Hc, Hmax. change (zlen (@nil (list Z))) with 0 in *.
  pose proof (zlen_nonneg ns). pose proof (names_bytes_len ns Hns).
  pose proof (wf_fcnt _ _ _ Hw).
  destruct (names_msg info) as [np|] eqn:En; [|by destruct ns].
  destruct Hnm as (nm & Hnp & Hnw). simpl. rewrite (load_ok _ _ _ Hnp). simpl.
  rewrite Hfn, c_strlen_app by done. simpl. rewrite (store_ok _ _ _ _ Hnp). simpl.
  pose proof (names_len _ _ _ Hnw) as Hlen. rewrite names_bytes_snoc in Hlen.
  autorewrite with zlen in Hlen.
  rewrite i32_id by (unfold in_i32; lia).
  destruct (Z.gtb_spec (file_count info) 0); [|lia]. rewrite i32_id by (unfold in_i32; lia).
  pose proof (names_wf_drop_last _ _ _ _ Hnw) as Hnw'.
  eexists _, _. split; [done|]. split_and!; try done.
  - destruct Hw. split; simpl; try done; try (unfold FNAME_SIZE, MSG_LIMIT; lia).
    + intros _. split_and!; try done. lia.
    + rewrite En. eexists. split; [apply lookup_insert_eq|done].
  - eapply (store_wf h np); [done|]. by eapply store_ok.
  - intros p Hp _. simpl. apply lookup_insert_ne. congruence.
Qed.
(** Any heap cell other than the names message is untouched, and a names
    message that appears is a new block. *)
Definition names_step (info info' : datafile_info) (h : heap) : Prop :=
  names_msg info' = names_msg info \/
  exists np, names_msg info' = Some np /\ cells h !! np = None.

Definition same_config (info info' : datafile_info) : Prop :=
  path info' = path info /\ max_fcnt info' = max_fcnt info /\ max_fsize info' = max_fsize info.

Lemma append_touch fs f d : append (touch fs f) f d = append fs f d.
Proof.
  unfold append, touch. destruct (fs !! f) eqn:E; [by rewrite E|].
  by rewrite lookup_insert_eq, insert_insert_eq.
Qed.

Lemma data_name_ok p stamp :
  1 <= zlen p <= 235 -> no_nul p -> stamp_ok stamp -> name_ok (data_name p stamp).
Proof.
  intros Hp Hn [Hs Hsn]. split; [by apply data_name_no_nul|].
  pose proof (data_name_len p stamp Hs ltac:(lia)). lia.
Qed.

(** What the opening phase leaves behind when it succeeds. *)
Record opened (env : fenv) (info info' : datafile_info) (over : bool) (fs fs' : files)
    (names names' : list (list Z)) (f : list Z) : Prop := {
  op_fp : curr_fp info' = Some f;
  op_size : curr_fsize info' = if over then 0 else curr_fsize info;
  op_names : (names' = names /\ fs' = fs /\ curr_fp info = Some f) \/
             (names' = names ++ [f] /\ fs' = touch fs f /\
              f = data_name (path info) (e_stamp env))
}.

(** Opening the next file, from a state with none open. *)
Lemma open_fresh env info h fs names :
  info_wf info h names -> heap_wf h -> stamp_ok (e_stamp env) -> curr_fp info = None ->
  exists rc info' h' fs', open_for_write env info false h fs = Ok (rc, info', h', fs') /\
    heap_wf h' /\ frame info h h' /\ names_step info info' h /\ same_config info info' /\
    ((rc = -1 /\ e_fopen env = false /\ fs' = fs /\ info_wf info' h' names) \/
     (rc = 0 /\ let f := data_name (path info) (e_stamp env) in
        curr_fp info' = Some f /\ curr_fsize info' = 0 /\ fs' = touch fs f /\
        info_wf info' h' (names ++ [f]))).
Proof.
  intros Hw Hh Hs Hfp. pose proof Hw as [Hpath Hf Hfs Hfn Hnok Hc Hmax Hsz Hcl _ Hnm].
  destruct (Hcl Hfp) as (Hz & Hsz0 & Hroom). unfold open_for_write. rewrite Hfp, Hfp.
  destruct (create_spec env info fs (proj1 Hpath) (proj2 Hpath) Hs Hz) as (r & Hlen & ->).
  destruct (e_fopen env) eqn:Eo; simpl.
  2: { eexists _, _, _, _. split; [done|]. split_and!; try done; [by left|].
       left. by split_and!. }
  set (f := data_name (path info) (e_stamp env)) in *.
  assert (Hfok : name_ok f) by (apply data_name_ok; [apply Hpath..|done]).
  destruct (record_name_spec (set_file info (Some f) (f ++ 0 :: r)) h names f r)
    as (np & h' & nm' & -> & Hnp & Hnw & Hh' & Hfr & Hst); try done; [simpl; lia|].
  simpl. eexists _, _, _, _. split; [done|]. split_and!; try done.
  - destruct Hst as [Hst|Hst]; [left; by rewrite <- Hst|right]. by exists np.
  - right. split; [done|]. split_and!; try done.
    split; simpl; try done; rewrite ?zlen_app, ?zlen_cons; change (zlen (@nil (list Z))) with 0.
    + apply Forall_app. split; [done|]. by constructor.
    + lia.
    + unfold MSG_LIMIT. lia.
    + intros name [= <-]. rewrite last_snoc. eauto.
    + by exists nm'.
Qed.

Lemma open_spec env info over h fs names :
  info_wf info h names -> heap_wf h -> stamp_ok (e_stamp env) ->
  (over = true -> zlen names < max_fcnt info) ->
  exists rc info' h' fs', open_for_write env info over h fs = Ok (rc, info', h', fs') /\
    heap_wf h' /\ frame info h h' /\ names_step info info' h /\ same_config info info' /\
    ((rc = -1 /\ e_fopen env = false /\ fs' = fs /\ info_wf info' h' names) \/
     (rc = 0 /\ exists f names', opened env info info' over fs fs' names names' f /\
        info_wf info' h' names')).
Proof.
  intros Hw Hh Hs Hover. destruct (curr_fp info) as [f|] eqn:Hfp.
  - destruct over.
    + pose proof (close_wf info h names Hw ltac:(specialize (Hover eq_refl); lia)) as Hw'.
      destruct (open_fresh env _ h fs names Hw' Hh Hs eq_refl)
        as (rc & info' & h' & fs' & E & ? & ? & ? & ? & Hcase).
      unfold open_for_write in *. rewrite Hfp. simpl in *. rewrite E.
      eexists _, _, _, _. split; [done|]. split_and!; try done.
      destruct Hcase as [Hl|(-> & ? & ? & ? & ?)]; [by left|right].
      split; [done|]. eexists _, _. split; [|done]. split; [done|done|by right].
    + unfold open_for_write. rewrite Hfp, Hfp.
      eexists _, _, _, _. split; [done|]. split_and!; try done; [by left|].
      right. split; [done|]. exists f, names. split; [|done]. split; [done|done|by left].
  - destruct (open_fresh env info h fs names Hw Hh Hs Hfp)
      as (rc & info' & h' & fs' & E & ? & ? & ? & ? & Hcase).
    assert (Heq : open_for_write env info over h fs = open_for_write env info false h fs).
    { unfold open_for_write. by rewrite Hfp. }
    rewrite Heq, E. eexists _, _, _, _. split; [done|]. split_and!; try done.
    destruct Hcase as [Hl|(-> & ? & Hsz & ? & ?)]; [by left|right].
    split; [done|]. eexists _, _. split; [|done]. split; [done| |by right].
    rewrite Hsz. destruct (wf_closed _ _ _ Hw Hfp) as (_ & -> & _). by destruct over.
Qed.
(** The data bytes of a message. *)
Definition payload (m : message) : list Z := take (Z.to_nat (mlen m)) (mdata m).

Lemma payload_read m : message_wf m -> buf_read (mdata m) 0 (mlen m) = Ok (payload m).
Proof.
  intros [Hl _]. unfold buf_read, payload.
  assert (in_bounds (mdata m) 0 (mlen m) = true) as -> by (apply in_bounds_true; lia).
  done.
Qed.

Lemma payload_len m : message_wf m -> zlen (payload m) = mlen m.
Proof. intros [Hl _]. unfold payload. apply zlen_take. lia. Qed.

Lemma fwrite_cases short fs f d :
  0 < zlen d ->
  (short = None /\ fwrite short fs f d = (1, append fs f d)) \/
  (exists fs', short <> None /\ fwrite short fs f d = (0, fs')).
Proof.
  intros Hd. unfold fwrite. destruct (Z.eqb_spec (zlen d) 0); [lia|].
  destruct short as [k|]; [right|by left]. eexists. done.
Qed.

Lemma over_int info h names m :
  info_wf info h names -> 0 < mlen m <= MSG_LIMIT ->
  i32 (curr_fsize info + mlen m) = curr_fsize info + mlen m.
Proof.
  intros Hw Hm. pose proof (wf_curr_size _ _ _ Hw). unfold MSG_LIMIT in *.
  apply i32_id. unfold in_i32. lia.
Qed.

(** Files only grow. *)
Definition grows (fs fs' : files) : Prop :=
  forall f c, fs !! f = Some c -> exists k, fs' !! f = Some (c ++ k).

#[export] Instance grows_po : PreOrder grows.
Proof.
  split.
  - intros fs f c Hf. exists []. by rewrite app_nil_r.
  - intros fs1 fs2 fs3 H1 H2 f c Hf. destruct (H1 f c Hf) as [k1 Hk1].
    destruct (H2 f _ Hk1) as [k2 Hk2]. exists (k1 ++ k2). by rewrite app_assoc.
Qed.

Lemma grows_append fs n d : grows fs (append fs n d).
Proof.
  intros f c Hf. unfold append. rewrite lookup_insert. case_decide as E.
  - subst. rewrite Hf. by exists d.
  - exists []. by rewrite app_nil_r.
Qed.

Lemma grows_touch fs n : grows fs (touch fs n).
Proof.
  intros f c Hf. unfold touch. destruct (fs !! n) eqn:E; [by exists []; rewrite app_nil_r|].
  exists []. rewrite app_nil_r, lookup_insert_ne by congruence. done.
Qed.

Lemma grows_fwrite short fs n d : grows fs (fwrite short fs n d).2.
Proof.
  unfold fwrite. destruct (zlen d =? 0); [done|]. destruct short; apply grows_append.
Qed.

Lemma create_grows env info fs r info' fs' :
  create_datafile env info fs = Ok (r, info', fs') -> grows fs fs'.
Proof.
  unfold create_datafile. intros H. repeat (apply bind_ok in H as (? & _ & H)).
  repeat case_match; simplify_eq; res_inv; simplify_eq; try apply grows_touch; done.
Qed.

Lemma open_grows env info over h fs rc info' h' fs' :
  open_for_write env info over h fs = Ok (rc, info', h', fs') -> grows fs fs'.
Proof.
  unfold open_for_write. cbv zeta. destruct (curr_fp _); [by intros [= <- <- <- <-]|].
  intros H. apply bind_ok in H as ([[r i1] fs1] & Hc & H). apply create_grows in Hc.
  destruct (negb _); [by simplify_eq|]. apply bind_ok in H as ([i2 h2] & _ & H).
  by simplify_eq.
Qed.

Lemma datafile_write_grows env info p h fs rc info' h' fs' :
  datafile_write_datamsg env info p h fs = Ok (rc, info', h', fs') -> grows fs fs'.
Proof.
  unfold datafile_write_datamsg. intros H. apply bind_ok in H as (m & _ & H). cbv zeta in H.
  destruct (_ && _); [by simplify_eq|]. apply bind_ok in H as ([[[rc1 i1] h1] fs1] & Ho & H).
  apply open_grows in Ho. etrans; [exact Ho|]. destruct (negb _); [by simplify_eq|].
  apply bind_ok in H as (fp & _ & H). apply bind_ok in H as (m2 & _ & H).
  apply bind_ok in H as (d & _ & H). pose proof (grows_fwrite (e_fwrite env) fs1 fp d) as Hg.
  destruct (fwrite _ _ _ _) as [n fs2]. simpl in Hg. destruct (negb _); by simplify_eq.
Qed.

Lemma reset_none info h info' h' p :
  datafile_reset_currfile info h = Ok (info', h') -> cells h !! p = None -> cells h' !! p = None.
Proof.
  unfold datafile_reset_currfile. destruct (curr_fp info); [|by intros [= <- <-]].
  intros H Hp. res_inv. subst. unfold store in *. res_inv. subst. simpl.
  match goal with H : load _ _ = Ok _ |- _ => apply load_inv in H end.
  rewrite lookup_insert_ne by congruence. done.
Qed.

Lemma drop_none h p r h' : MESSAGE_DROP h (Some p) = Ok (r, h') -> cells h' !! p = None.
Proof.
  unfold MESSAGE_DROP, message_drop, free. intros H. res_inv. repeat case_match; simplify_eq.
  apply lookup_delete_eq.
Qed.

(** What [datafile_write_datamsg] has done when it returns [rc]. *)
Definition write_outcome (env : fenv) (info : datafile_info) (m : message) (fs : files)
    (names : list (list Z)) (rc : Z) (info' : datafile_info) (fs' : files)
    (names' : list (list Z)) : Prop :=
  (rc = 0 /\ exists f, curr_fp info' = Some f /\ last names' = Some f /\
     fs' = append fs f (payload m) /\ (names' = names \/ names' = names ++ [f]) /\
     curr_fsize info' <= Z.max (max_fsize info) (mlen m)) \/
  (rc = -1 /\ info' = info /\ fs' = fs /\ names' = names /\
     max_fcnt info <= zlen names /\ max_fsize info < curr_fsize info + mlen m) \/
  (rc = -1 /\ (e_fopen env = false \/ e_fwrite env <> None)).

Lemma datafile_write_ok (env : fenv) (info : datafile_info) (dp : ptr) (m : message)
    (h : heap) (fs : files) (names : list (list Z))
    (Hw : info_wf info h names) (Hh : heap_wf h) (Hdp : cells h !! dp = Some m)
    (Hne : names_msg info <> Some dp) (Hm : message_wf m) (Hlen : 0 < mlen m <= MSG_LIMIT)
    (Hs : stamp_ok (e_stamp env)) :
  exists rc info' h' fs' names',
    datafile_write_datamsg env info dp h fs = Ok (rc, info', h', fs') /\
    info_wf info' h' names' /\ heap_wf h' /\ frame info h h' /\
    names_step info info' h /\ same_config info info' /\
    write_outcome env info m fs names rc info' fs' names'.
Proof.
  unfold datafile_write_datamsg. rewrite (load_ok _ _ _ Hdp). simpl.
  pose proof (over_int _ _ _ _ Hw Hlen) as Hov. rewrite Hov.
  rewrite (wf_count _ _ _ Hw), Z.geb_leb, Z.gtb_ltb.
  destruct (_ && _) eqn:Efull; zb.
  { eexists _, _, _, _, names. split; [done|]. split_and!; try done; [by left|].
    right; left. by split_and!. }
  destruct (open_spec env info (max_fsize info <? curr_fsize info + mlen m) h fs names Hw Hh Hs)
    as (rc & i1 & h1 & fs1 & -> & Hh1 & Hfr & Hst & Hcf & Hcase).
  { intros Hlt. rewrite Hlt, andb_true_r in Efull. zb. lia. }
  simpl. destruct Hcase as [(-> & Hfo & -> & Hw1)|(-> & f & names' & Hop & Hw1)]; simpl.
  { eexists _, _, _, _, names. split; [done|]. split_and!; try done.
    right; right. by auto. }
  destruct Hop as [Hfp Hsz Hnames]. rewrite Hfp. simpl.
  assert (Hdp1 : cells h1 !! dp = Some m).
  { rewrite <- Hdp. apply Hfr; [congruence|by rewrite Hdp]. }
  rewrite (load_ok _ _ _ Hdp1). simpl. rewrite payload_read by done. simpl.
  destruct (fwrite_cases (e_fwrite env) fs1 f (payload m)) as [[Ef ->]|(fs2 & Ef & ->)];
    [rewrite payload_len by done; lia| |]; simpl.
  2: { eexists _, _, _, _, names'. split; [done|]. split_and!; try done.
       right; right. by auto. }
  rewrite (over_int _ _ _ _ Hw1 Hlen).
  pose proof (wf_curr_size _ _ _ Hw). pose proof (wf_fsize _ _ _ Hw).
  assert (Hnew : 0 <= curr_fsize i1 + mlen m <= MSG_LIMIT /\
                 curr_fsize i1 + mlen m <= Z.max (max_fsize info) (mlen m)).
  { rewrite Hsz. unfold MSG_LIMIT in *. destruct (Z.ltb_spec (max_fsize info) (curr_fsize info + mlen m)); lia. }
  pose proof (wf_open _ _ _ Hw1 f Hfp) as [Hlast _].
  eexists _, _, _, _, names'. split; [done|]. split_and!; try done.
  - destruct Hw1. split; simpl; try done; [lia|]. by rewrite Hfp.
  - left. split; [done|]. exists f. split_and!; try done; [| |simpl; lia].
    + by destruct Hnames as [(_ & -> & _)|(_ & -> & _)]; rewrite ?append_touch.
    + destruct Hnames as [(-> & _)|(-> & _)]; auto.
Qed.
(** The data-file name fits its buffer exactly when the directory does:
    [create_datafile] stays inside [curr_fname] for a directory name of 1 to
    235 bytes, and writes (or reads) outside the array for every other
    length; [datafile_init] does not check it. *)
Theorem create_datafile_bounds (env : fenv) (info : datafile_info) (fs : files)
    (Hstamp : stamp_ok (e_stamp env)) (Hnul : no_nul (path info))
    (Hzero : curr_fname info = zeros FNAME_SIZE) :
  is_ok (create_datafile env info fs) <-> 1 <= zlen (path info) <= 235.
Proof.
  split.
  - intros [a Ha]. destruct (Z.eq_dec (zlen (path info)) 0) as [E|E].
    { by rewrite create_empty_path in Ha. }
    pose proof (zlen_nonneg (path info)).
    destruct (Z.lt_ge_cases 235 (zlen (path info))); [|lia].
    by rewrite create_long_path in Ha.
  - intros Hp. destruct (create_spec env info fs Hp Hnul Hstamp Hzero) as (r & _ & ->). by eexists.
Qed.


(** ** The properties at concrete inputs *)
Definition demo_info : datafile_info :=
  default (MkInfo [] 0 0 0 None 0 [] None) (datafile_init true true (bytes "/d") 1000 2).
Definition demo_env : fenv := MkEnv (bytes "20190117_133040.dat") true None.

Lemma demo_stamp : stamp_ok (e_stamp demo_env).
Proof. split; [done|]. repeat constructor; done. Qed.

Lemma demo_info_wf h : info_wf demo_info h [].
Proof.
  split; simpl; try done; change (zlen (@nil (list Z))) with 0; try lia.
  - split; [unfold zlen; simpl; lia|]. repeat constructor; done.
Qed.

Lemma create_datafile_bounds_witness : is_ok (create_datafile demo_env demo_info ∅).
Proof.
  apply (create_datafile_bounds demo_env demo_info ∅ demo_stamp); [|done|].
  - repeat constructor; done.
  - unfold zlen. simpl. lia.
Defined.

Definition demo_msg : message := MkMessage 1 3 8 (bytes "abc" ++ zeros 5).
Definition demo_heap : heap := MkHeap {[1%positive := demo_msg]} 2.

Lemma demo_heap_wf : heap_wf demo_heap.
Proof. intros p m. simpl. intros [<- _]%lookup_singleton_Some. lia. Qed.

End Datafile.
