(* ===== verification/Receiver.v ===== *)
(** The receiver thread (src/useapp/worker.c, lines 181-291) and the quit
    flag: one loop iteration as a composition of its phases, on the heap,
    the queue and the file system it shares with the sender thread. *)
From S2P Require Import Prelude Queue MsgQueue Message Datafile.
Import Message Datafile.

Module Receiver.

Definition MAX_BUFF_SIZE : Z := 4096.

(** [g_quit] and its two operations. *)
Definition notify_workers_quit (g_quit : Z) : Z := i32 (g_quit + 1).
Definition check_workers_quit (g_quit : Z) : Z := if g_quit =? 1 then 1 else 0.

Section Receiver.
Context {Q : Type} {MQ : MsgQueue ptr Q}.
(** [conf->queue.node_size] *)
Context (node_size : Z).

Record world := MkWorld { wheap : heap; wqueue : Q; wfs : files }.

(** What the outside answers in one iteration: [select]'s result and
    readiness bit, the datagram ([None]: a receive error), the value of
    [g_quit], the file system, and how many messages the sender thread pops
    and frees between a push and the log statement that follows it. *)
Record rinput := MkInput {
  in_nfds : Z;
  in_isset : bool;
  in_recv : option (list Z);
  in_gquit : Z;
  in_env : fenv;
  in_taken : nat
}.

(** The locals that survive an iteration. *)
Record rstate := MkState { finfo : datafile_info; rmsg : option ptr }.

(** The sender thread pops [n] messages and frees them. *)
Fixpoint sender_takes (n : nat) (q : Q) (h : heap) : res (Q * heap) :=
  match n with
  | O => Ok (q, h)
  | S n =>
      '(v, q) ← mq_pop_wait q;
      match v with
      | None => Ok (q, h)
      | Some p => h ← free h p; sender_takes n q h
      end
  end.

Definition interfere (n : nat) (w : world) : res world :=
  '(q, h) ← sender_takes n (wqueue w) (wheap w); Ok (MkWorld h q (wfs w)).

Definition push_wait (p : ptr) (w : world) : res (Z * world) :=
  '(r, q) ← mq_push_wait (wqueue w) p; Ok (r, MkWorld (wheap w) q (wfs w)).

(** A [tlog] call that prints [msg->len]: its arguments are evaluated
    whatever the log level. *)
Definition log_len (p : ptr) (w : world) : res unit := _ ← load (wheap w) p; Ok tt.

(** Lines 218-222: the last message at shutdown. *)
Definition push_last (i : rinput) (s : rstate) (w : world) : res world :=
  match rmsg s with
  | None => Ok w
  | Some p =>
      m ← load (wheap w) p;
      if mlen m >? 0
      then '(r, w) ← push_wait p w;
           w ← (if r =? 0 then interfere (in_taken i) w else Ok w);
           _ ← log_len p w;
           Ok w
      else Ok w
  end.

(** Lines 228-231. *)
Definition ensure_msg (s : rstate) (w : world) : res (ptr * world) :=
  match rmsg s with
  | Some p => Ok (p, w)
  | None =>
      m ← message_new node_size;
      let '(p, h) := alloc (wheap w) m in
      Ok (p, MkWorld h (wqueue w) (wfs w))
  end.

Definition store_type (p : ptr) (t : Z) (w : world) : res world :=
  m ← load (wheap w) p;
  h ← store (wheap w) p (set_type m t);
  Ok (MkWorld h (wqueue w) (wfs w)).

(** Lines 233-244: offer the list of data files first. *)
Definition push_names (p : ptr) (info : datafile_info) (w : world)
    : res (datafile_info * world) :=
  match names_msg info with
  | None => Ok (info, w)
  | Some np =>
      '(r, w) ← push_wait np w;
      if r =? 0
      then _ ← log_len p w;
           w ← store_type p 0 w;
           Ok (datafile_detach_namemsg info, w)
      else w ← store_type p 1 w; Ok (info, w)
  end.

(** Lines 246-256: one datagram into the rest of the buffer. *)
Definition receive (i : rinput) (p : ptr) (w : world) : res world :=
  if (in_nfds i >? 0) && in_isset i then
    match in_recv i with
    | None => Ok w
    | Some bytes =>
        m ← load (wheap w) p;
        d ← buf_write (mdata m) (mlen m) bytes;
        h ← store (wheap w) p (set_len (set_data m d) (i32 (mlen m + zlen bytes)));
        Ok (MkWorld h (wqueue w) (wfs w))
    end
  else Ok w.

(** Lines 260-271: to the queue, or marked for the file cache. *)
Definition flush_queue (i : rinput) (p : ptr) (w : world) : res (option ptr * world) :=
  m ← load (wheap w) p;
  if mtype m =? 0 then
    '(r, w) ← push_wait p w;
    if r =? 0
    then w ← interfere (in_taken i) w;
         _ ← log_len p w;
         Ok (MESSAGE_DETACH (Some p), w)
    else w ← store_type p 1 w;
         _ ← log_len p w;
         Ok (Some p, w)
  else Ok (Some p, w).

(** Lines 273-285: to the file cache, or dropped. *)
Definition flush_file (i : rinput) (msg : option ptr) (info : datafile_info) (w : world)
    : res (option ptr * datafile_info * world) :=
  match msg with
  | None => Ok (None, info, w)
  | Some p =>
      m ← load (wheap w) p;
      if mtype m =? 1 then
        '(rc, info, h, fs) ← datafile_write_datamsg (in_env i) info p (wheap w) (wfs w);
        if rc =? 0
        then m ← load h p;
             m ← MESSAGE_BZERO m;
             h ← store h p m;
             Ok (Some p, info, MkWorld h (wqueue w) fs)
        else '(msg, h) ← MESSAGE_DROP h (Some p);
             '(info, h) ← datafile_reset_currfile info h;
             Ok (msg, info, MkWorld h (wqueue w) fs)
      else Ok (Some p, info, w)
  end.

(** Line 258: is it time to hand the message over? *)
Definition must_flush (i : rinput) (m : message) : bool :=
  (mlen m >? 0) &&
  ((in_nfds i =? 0) || (i32 (mcap m - mlen m) <? MAX_BUFF_SIZE + 1)).

Definition flush (i : rinput) (p : ptr) (info : datafile_info) (w : world)
    : res (rstate * world) :=
  m ← load (wheap w) p;
  if must_flush i m then
    '(msg, w) ← flush_queue i p w;
    '(msg, info, w) ← flush_file i msg info w;
    Ok (MkState info msg, w)
  else Ok (MkState info (Some p), w).

(** Does the thread leave its loop in this iteration? *)
Definition leaves (i : rinput) : bool :=
  (in_nfds i =? 0) && (check_workers_quit (in_gquit i) >? 0).

(** One iteration of [receiver_worker]'s loop; [true] when it breaks. *)
Definition receiver_iter (i : rinput) (s : rstate) (w : world) : res (bool * rstate * world) :=
  if in_nfds i <? 0 then Ok (false, s, w)
  else if leaves i then w ← push_last i s w; Ok (true, s, w)
  else
    '(p, w) ← ensure_msg s w;
    '(info, w) ← push_names p (finfo s) w;
    w ← receive i p w;
    '(s, w) ← flush i p info w;
    Ok (false, s, w).

(** [receiver_worker] before its loop: the socket and the file cache must
    be ready, otherwise the process exits ([None]). *)
Definition receiver_start (sockfd : Z) (stat_ok mkdir_ok : bool) (dir : list Z)
    (fsize fcnt : Z) : option rstate :=
  if sockfd <? 0 then None
  else match datafile_init stat_ok mkdir_ok dir fsize fcnt with
       | None => None
       | Some info => Some (MkState info None)
       end.

(** The loop, with the sender thread popping and freeing some messages
    before each iteration. *)
Fixpoint receiver_run (ins : list (nat * rinput)) (s : rstate) (w : world)
    {struct ins} : res (bool * rstate * world) :=
  match ins with
  | [] => Ok (false, s, w)
  | (k, i) :: rest =>
      w ← interfere k w;
      '(b, s, w) ← receiver_iter i s w;
      if (b : bool) then Ok (true, s, w) else receiver_run rest s w
  end.

(** ** Invariant *)

(** A message the sender thread can be given. *)
Definition queued_ok (m : message) : Prop :=
  (mtype m = 0 /\ message_wf m /\ 0 < mlen m) \/
  (exists fcnt names, fcnt <= 5 /\ names_wf fcnt m names /\ Forall name_ok names).

(** The receive buffer: allocated with [node_size] bytes; either empty, or
    with room for another datagram and its terminator.  A node larger than a
    datagram keeps the NUL of its last byte. *)
Definition msg_shape (m : message) : Prop :=
  message_wf m /\ zlen (mdata m) = node_size /\ (mtype m = 0 \/ mtype m = 1) /\
  (MAX_BUFF_SIZE < node_size -> last (mdata m) = Some 0).
Definition msg_ok (m : message) : Prop :=
  msg_shape m /\ (mlen m = 0 \/ mlen m + (MAX_BUFF_SIZE + 1) <= zlen (mdata m)).

(** ** The sender's interference *)
Lemma sender_takes_spec n q h l :
  mq_holds q l -> heap_wf h -> NoDup l -> (forall p, p ∈ l -> is_Some (cells h !! p)) ->
  exists q' h', sender_takes n q h = Ok (q', h') /\ mq_holds q' (drop n l) /\ heap_wf h' /\
    (forall p, p ∉ take n l -> cells h' !! p = cells h !! p).
Proof.
  revert q h l. induction n as [|n IH]; intros q h l Hq Hh Hnd Hl; simpl.
  { eexists _, _. split; [done|]. by rewrite drop_0. }
  destruct l as [|p l].
  - rewrite mq_pop_empty by done. simpl. eexists _, _. split; [done|]. done.
  - destruct (mq_pop_some q p l Hq) as (q1 & -> & Hq1 & _). simpl.
    destruct (Hl p) as [m Hp]; [set_solver|]. rewrite (free_ok _ _ _ Hp). simpl.
    apply NoDup_cons in Hnd as [Hpl Hnd].
    destruct (IH q1 (MkHeap (delete p (cells h)) (brk h)) l) as (q' & h' & -> & Hq' & Hh' & Hc);
      [done| |done| |].
    + eapply (free_wf h p); [done|]. by eapply free_ok.
    + intros p' Hp'. simpl. rewrite lookup_delete_ne by set_solver. apply Hl. set_solver.
    + eexists _, _. split; [done|]. split_and!; try done.
      intros p' Hp'. simpl in Hp'. rewrite Hc by set_solver. simpl.
      rewrite lookup_delete_ne; [done|]. set_solver.
Qed.

Lemma takes_frees_all n q h l p :
  mq_holds q l -> heap_wf h -> NoDup l -> (forall p, p ∈ l -> is_Some (cells h !! p)) ->
  p ∈ l -> (length l <= n)%nat ->
  exists q' h', sender_takes n q h = Ok (q', h') /\ cells h' !! p = None.
Proof.
  revert q h l. induction n as [|n IH]; intros q h l Hq Hh Hnd Hl Hp Hn.
  { destruct l; [set_solver|simpl in Hn; lia]. }
  destruct l as [|p0 l]; [set_solver|]. simpl in Hn |- *.
  destruct (mq_pop_some q p0 l Hq) as (q1 & -> & Hq1 & _). simpl.
  destruct (Hl p0) as [m Hp0]; [set_solver|]. rewrite (free_ok _ _ _ Hp0). simpl.
  apply NoDup_cons in Hnd as [Hpl Hnd].
  assert (Hh1 : heap_wf (MkHeap (delete p0 (cells h)) (brk h))).
  { eapply (free_wf h p0); [done|]. by eapply free_ok. }
  assert (Hl1 : forall p', p' ∈ l -> is_Some (delete p0 (cells h) !! p')).
  { intros p' Hp'. rewrite lookup_delete_ne by set_solver. apply Hl. set_solver. }
  destruct (decide (p = p0)) as [->|Hne].
  - destruct (sender_takes_spec n q1 _ l Hq1 Hh1 Hnd Hl1) as (q2 & h2 & -> & _ & _ & Hc).
    eexists _, _. split; [done|]. rewrite Hc; [by apply lookup_delete_eq|].
    intros Ht. apply Hpl. rewrite <- (take_drop n l). set_solver.
  - apply (IH q1 _ l); try done; [set_solver|lia].
Qed.

Lemma info_wf_agree info h h' names :
  info_wf info h names ->
  (forall np, names_msg info = Some np -> cells h' !! np = cells h !! np) ->
  info_wf info h' names.
Proof.
  intros [] H. split; try done.
  destruct (names_msg info) as [np|]; [|done]. by rewrite H.
Qed.

(** The bytes of the datagram go right behind the bytes already held. *)
Definition received (i : rinput) : list Z :=
  if (in_nfds i >? 0) && in_isset i then default [] (in_recv i) else [].

Lemma payload_receive m b d :
  message_wf m -> buf_write (mdata m) (mlen m) b = Ok d ->
  payload (set_len (set_data m d) (mlen m + zlen b)) = payload m ++ b.
Proof.
  intros Hm Hd. pose proof (payload_len m Hm) as Hpl. unfold payload in *. simpl.
  set (k := Z.to_nat (mlen m)) in *.
  assert (Hd' : buf_write (take k (mdata m) ++ drop k (mdata m)) (zlen (take k (mdata m))) b = Ok d)
    by (by rewrite take_drop, Hpl).
  apply buf_write_app in Hd'. rewrite Hd', app_assoc.
  apply take_app_length'. rewrite length_app. unfold zlen in *. lia.
Qed.

(** [keep] lists messages that the receiver must leave alone: those in the
    queue and in the sender's hands. *)
Section Keep.
Context (keep : ptr -> message -> Prop).

Record rinv_with (P : message -> Prop) (s : rstate) (w : world) (l : list ptr)
    (names : list (list Z)) : Prop := {
  ri_heap : heap_wf (wheap w);
  ri_info : info_wf (finfo s) (wheap w) names;
  ri_queue : mq_holds (wqueue w) l;
  ri_nodup : NoDup l;
  ri_names_own : forall p, names_msg (finfo s) = Some p -> p ∉ l;
  ri_msg_own : forall p, rmsg s = Some p -> (p ∉ l) /\ names_msg (finfo s) ≠ Some p;
  ri_queued : forall p, p ∈ l -> exists m, cells (wheap w) !! p = Some m /\ queued_ok m;
  ri_msg : forall p, rmsg s = Some p -> exists m, cells (wheap w) !! p = Some m /\ P m;
  ri_keep : forall p m, keep p m ->
    cells (wheap w) !! p = Some m /\ rmsg s <> Some p /\ names_msg (finfo s) <> Some p
}.

Definition rinv := rinv_with msg_ok.

(** What the outside may do: a datagram is no longer than the size the
    receive call is given, time stamps have their usual form, and the sender
    does not reach the message being handed over before it is logged. *)
Definition input_ok (i : rinput) (l : list ptr) : Prop :=
  (forall b, in_recv i = Some b -> zlen b <= MAX_BUFF_SIZE) /\
  stamp_ok (e_stamp (in_env i)) /\ (in_taken i <= length l)%nat.

(** The bytes received but not yet handed over. *)
Definition held (s : rstate) (w : world) : list Z :=
  match rmsg s with
  | Some p => match cells (wheap w) !! p with Some m => payload m | None => [] end
  | None => []
  end.

#[local] Arguments flush_file : simpl never.
#[local] Arguments receiver_iter : simpl never.

Lemma interfere_inv P n s w l names :
  rinv_with P s w l names -> (forall p m, keep p m -> p ∉ take n l) ->
  exists w', interfere n w = Ok w' /\ rinv_with P s w' (drop n l) names /\
    (forall p, p ∉ take n l -> cells (wheap w') !! p = cells (wheap w) !! p) /\ wfs w' = wfs w.
Proof.
  intros [Hh Hi Hq Hnd Hno Hmo Hqd Hm Hk] Hkt.
  destruct (sender_takes_spec n (wqueue w) (wheap w) l) as (q' & h' & E & Hq' & Hh' & Hc);
    try done.
  { intros p Hp. destruct (Hqd p Hp) as (m & -> & _). by eexists. }
  unfold interfere. rewrite E. simpl. eexists. split; [done|].
  assert (Hsub : forall p, p ∈ drop n l -> p ∈ l /\ p ∉ take n l).
  { intros p Hp. rewrite <- (take_drop n l) in Hnd. apply NoDup_app in Hnd as (_ & Hd & _).
    split; [rewrite <- (take_drop n l); set_solver|]. intros Ht. by apply (Hd p). }
  assert (Hout : forall p, p ∉ l -> p ∉ take n l).
  { intros p Hp Ht. apply Hp. rewrite <- (take_drop n l). set_solver. }
  split; [|done]. split; simpl; try done.
  - eapply info_wf_agree; [done|]. intros np Hnp. apply Hc. by apply Hout, Hno.
  - rewrite <- (take_drop n l) in Hnd. by apply NoDup_app in Hnd as (_ & _ & ?).
  - intros p Hp [? _]%Hsub. by apply (Hno p Hp).
  - intros p Hp. destruct (Hmo p Hp). split; [|done]. by intros [? _]%Hsub.
  - intros p Hp. destruct (Hsub p Hp). rewrite Hc by done. by apply Hqd.
  - intros p Hp. destruct (Hmo p Hp). rewrite Hc by (by apply Hout). by apply Hm.
  - intros p m Hp. destruct (Hk p m Hp) as [Hpc ?]. by rewrite Hc by (by eapply Hkt).
Qed.

(** ** The phases of an iteration *)
Definition has_msg (s : rstate) (p : ptr) : Prop := rmsg s = Some p.

(** Changing the receive buffer in place. *)
Lemma rinv_store (P P' : message -> Prop) s w l names p m m' :
  rinv_with P s w l names -> rmsg s = Some p -> cells (wheap w) !! p = Some m -> P' m' ->
  exists h', store (wheap w) p m' = Ok h' /\
    rinv_with P' s (MkWorld h' (wqueue w) (wfs w)) l names /\
    cells h' !! p = Some m'.
Proof.
  intros [Hh Hi Hq Hnd Hno Hmo Hqd Hm Hk] Hp Hc HP. destruct (Hmo p Hp) as [Hpl Hpn].
  rewrite (store_ok _ _ _ _ Hc). eexists. split; [done|].
  assert (Hne : forall p', p' <> p -> <[p:=m']> (cells (wheap w)) !! p' = cells (wheap w) !! p').
  { intros p' ?. by rewrite lookup_insert_ne. }
  split; [|apply lookup_insert_eq]. split; simpl; try done.
  - eapply (store_wf (wheap w) p); [done|]. by eapply store_ok.
  - eapply info_wf_agree; [done|]. intros np Hnp. simpl. apply Hne. congruence.
  - intros p' Hp'. rewrite Hne by set_solver. by apply Hqd.
  - intros p' Hp'. assert (p' = p) as -> by congruence. rewrite lookup_insert_eq. eauto.
  - intros q mq Hq'. destruct (Hk q mq Hq') as (? & ? & ?). rewrite Hne by congruence. done.
Qed.

Lemma ensure_msg_inv s w l names :
  0 <= node_size -> rinv s w l names ->
  exists p w', ensure_msg s w = Ok (p, w') /\ rinv (MkState (finfo s) (Some p)) w' l names /\
    wfs w' = wfs w /\ p = default (brk (wheap w)) (rmsg s) /\
    (rmsg s = Some p /\ w' = w \/
     rmsg s = None /\ cells (wheap w) !! p = None /\
       cells (wheap w') !! p = Some (MkMessage 0 0 node_size (zeros node_size))).
Proof.
  intros Hns Hinv. unfold ensure_msg. destruct (rmsg s) as [p|] eqn:Ep.
  { exists p, w. split; [done|]. split_and!; [|done|done|by left].
    destruct s. simpl in *. by subst. }
  destruct Hinv as [Hh Hi Hq Hnd Hno Hmo Hqd Hm Hk].
  unfold message_new. destruct (Z.leb_spec 0 node_size); [|lia]. simpl.
  eexists _, _. split; [done|]. pose proof (alloc_fresh _ Hh) as Hfresh. simpl.
  assert (Hne : forall p' m, cells (wheap w) !! p' = Some m -> brk (wheap w) <> p').
  { intros p' m Hp' <-. by rewrite Hfresh in Hp'. }
  split_and!; [|done|done|right; split_and!; [done|done|by rewrite lookup_insert_eq]].
  split; simpl; try done.
  - by eapply (alloc_wf (wheap w)).
  - eapply info_wf_agree; [done|]. intros np Hnp. simpl.
    pose proof (wf_names_msg _ _ _ Hi) as H'. rewrite Hnp in H'. destruct H' as (nm & Hnm & _).
    apply lookup_insert_ne. by eapply Hne.
  - intros p [= <-]. split.
    + intros Hp. destruct (Hqd _ Hp) as (m & Hm' & _). by eapply Hne.
    + intros Hp. pose proof (wf_names_msg _ _ _ Hi) as H'. rewrite Hp in H'.
      destruct H' as (nm & Hnm & _). by eapply Hne.
  - intros p Hp. destruct (Hqd _ Hp) as (m & Hm' & ?). exists m.
    rewrite lookup_insert_ne by (by eapply Hne). done.
  - intros p [= <-]. rewrite lookup_insert_eq. eexists. split; [done|].
    unfold msg_ok, msg_shape, message_wf, MAX_BUFF_SIZE. simpl. rewrite zlen_zeros by lia.
    split_and!; auto; try lia. intros ?. apply last_zeros. lia.
  - intros q mq Hq'. destruct (Hk q mq Hq') as (Hc & _ & ?).
    rewrite lookup_insert_ne by (by eapply Hne). split; [done|]. split; [|done].
    intros [= Hb]. by apply (Hne q mq).
Qed.
(** Handing a pointer the receiver owns to the queue. *)
Lemma push_wait_inv P s w l names p m :
  rinv_with P s w l names -> cells (wheap w) !! p = Some m -> queued_ok m -> p ∉ l ->
  (exists w', push_wait p w = Ok (0, w') /\ mq_holds (wqueue w') (l ++ [p]) /\
     wheap w' = wheap w /\ wfs w' = wfs w /\ NoDup (l ++ [p]) /\
     (forall p', p' ∈ l ++ [p] -> exists m', cells (wheap w) !! p' = Some m' /\ queued_ok m')) \/
  push_wait p w = Ok (1, w).
Proof.
  intros Hinv Hp Hm Hpl. unfold push_wait.
  destruct (mq_push_cases (wqueue w) l p (ri_queue _ _ _ _ _ Hinv)) as [(q' & -> & Hq' & _)| ->].
  - left. eexists. split; [done|]. split_and!; try done.
    + apply NoDup_app. split; [apply Hinv|]. split; [set_solver|apply NoDup_singleton].
    + intros p' [Hp'| ->%list_elem_of_singleton]%elem_of_app; [by apply Hinv|eauto].
  - right. by destruct w.
Qed.

Lemma store_type_inv s w l names p m t (P' : message -> Prop) :
  rinv_with (eq m) s w l names -> rmsg s = Some p -> P' (set_type m t) ->
  exists w', store_type p t w = Ok w' /\ rinv_with P' s w' l names /\
    cells (wheap w') !! p = Some (set_type m t) /\ wfs w' = wfs w.
Proof.
  intros Hinv Hp HP. destruct (ri_msg _ _ _ _ _ Hinv p Hp) as (m' & Hc & <-).
  unfold store_type. rewrite (load_ok _ _ _ Hc). simpl.
  destruct (rinv_store (eq m) P' s w l names p m (set_type m t) Hinv Hp Hc HP)
    as (h' & -> & Hinv' & Hc'). simpl. eauto.
Qed.

Lemma store_type_frame p t w w' q :
  store_type p t w = Ok w' -> q <> p -> cells (wheap w') !! q = cells (wheap w) !! q.
Proof.
  unfold store_type, store. intros H Hq. res_inv. subst. simpl. by rewrite lookup_insert_ne.
Qed.

Lemma rinv_weaken (P P' : message -> Prop) s w l names :
  (forall m, P m -> P' m) -> rinv_with P s w l names -> rinv_with P' s w l names.
Proof.
  intros H [Hh Hi Hq Hnd Hno Hmo Hqd Hm Hk]. split; try done.
  intros p Hp. destruct (Hm p Hp) as (m & ? & ?). eauto.
Qed.

Lemma log_len_ok p w m : cells (wheap w) !! p = Some m -> log_len p w = Ok tt.
Proof. intros H. unfold log_len. by rewrite (load_ok _ _ _ H). Qed.

(** Offering the list of data files: handed over and forgotten, or kept; the
    receive buffer only changes its type. *)
Lemma push_names_spec info w l names p m :
  rinv_with (eq m) (MkState info (Some p)) w l names ->
  exists info' w' l' names' t, push_names p info w = Ok (info', w') /\
    rinv_with (eq (set_type m t)) (MkState info' (Some p)) w' l' names' /\ wfs w' = wfs w /\
    ((names_msg info = None /\ info' = info /\ l' = l /\ t = mtype m) \/
     (exists np nm, names_msg info = Some np /\ info' = datafile_detach_namemsg info /\
        l' = l ++ [np] /\ t = 0 /\ cells (wheap w') !! np = Some nm /\ mtype nm = 1) \/
     (names_msg info <> None /\ info' = info /\ l' = l /\ t = 1)).
Proof.
  intros Hinv. unfold push_names. destruct (names_msg info) as [np|] eqn:En.
  2: { exists info, w, l, names, (mtype m). split; [done|]. split_and!; [|done|by left].
       by destruct m. }
  pose proof (wf_names_msg _ _ _ (ri_info _ _ _ _ _ Hinv)) as Hnm. simpl in Hnm.
  rewrite En in Hnm. destruct Hnm as (nm & Hnm & Hnw).
  pose proof (wf_names_ok _ _ _ (ri_info _ _ _ _ _ Hinv)) as Hnok.
  pose proof (ri_names_own _ _ _ _ _ Hinv np En) as Hnpl.
  destruct (ri_msg _ _ _ _ _ Hinv p eq_refl) as (m' & Hc & <-).
  destruct (ri_msg_own _ _ _ _ _ Hinv p eq_refl) as [Hpl Hpn]. simpl in Hpn.
  destruct (push_wait_inv _ _ w l names np nm Hinv Hnm) as [(w1 & -> & Hq & Hh & Hf & Hnd & Hqd)| ->];
    [right; exists (max_fcnt info), names; split; [apply (wf_fcnt _ _ _ (ri_info _ _ _ _ _ Hinv))|done]|done| |].
  - simpl. rewrite (log_len_ok p w1 m) by (by rewrite Hh). simpl.
    assert (Hinv1 : rinv_with (eq m) (MkState (datafile_detach_namemsg info) (Some p)) w1
                      (l ++ [np]) []).
    { destruct Hinv as [Hh0 Hi Hq0 Hnd0 Hno Hmo Hqd0 Hm0 Hk0].
      split; simpl in *; rewrite ?Hh; try done.
      - by eapply detach_wf.
      - intros p' [= <-]. split; [|done].
        intros [?| ->%list_elem_of_singleton]%elem_of_app; [done|congruence].
      - intros q mq Hq'. destruct (Hk0 q mq Hq') as (? & ? & ?). by split_and!. }
    destruct (store_type_inv _ _ _ _ p m 0 (eq (set_type m 0)) Hinv1 eq_refl eq_refl)
      as (w2 & Est & Hinv2 & _ & Hf2). rewrite Est. simpl.
    eexists _, _, _, _, 0. split; [done|]. split_and!; [done|congruence|]. right; left.
    exists np, nm. split_and!; [done..| |by apply Hnw].
    rewrite (store_type_frame _ _ _ _ np Est) by congruence. by rewrite Hh.
  - simpl. destruct (store_type_inv _ _ _ _ p m 1 (eq (set_type m 1)) Hinv eq_refl eq_refl)
      as (w2 & -> & Hinv2 & _ & Hf2). simpl.
    eexists _, _, _, _, 1. split; [done|]. split_and!; [done|congruence|]. by right; right.
Qed.

Lemma receive_spec i s w l names p m :
  4096 <= node_size <= MSG_LIMIT -> (forall b, in_recv i = Some b -> zlen b <= MAX_BUFF_SIZE) ->
  rinv_with (eq m) s w l names -> rmsg s = Some p -> msg_ok m ->
  exists w' m', receive i p w = Ok w' /\ rinv_with (eq m') s w' l names /\ wfs w' = wfs w /\
    msg_shape m' /\ payload m' = payload m ++ received i /\ mtype m' = mtype m /\
    mcap m' = mcap m.
Proof.
  intros Hns Hb Hinv Hp Hok. unfold receive, received.
  destruct Hok as [Hshape Hroom]. pose proof Hshape as (Hwf & Hz & Ht & Hlast).
  destruct (_ && _); [|by exists w, m; rewrite app_nil_r].
  destruct (in_recv i) as [b|]; [|by exists w, m; rewrite app_nil_r].
  specialize (Hb b eq_refl). unfold MAX_BUFF_SIZE, MSG_LIMIT in *.
  destruct (ri_msg _ _ _ _ _ Hinv p Hp) as (m0 & Hc & <-).
  rewrite (load_ok _ _ _ Hc). simpl. destruct Hwf as [Hl Hcap].
  destruct (buf_write_is_ok (mdata m) (mlen m) b) as [d Hd]; [lia..|].
  rewrite Hd. simpl. pose proof (zlen_nonneg b).
  rewrite i32_id by (unfold in_i32; lia).
  set (m' := set_len (set_data m d) (mlen m + zlen b)).
  destruct (rinv_store (eq m) (eq m') s w l names p m m' Hinv Hp Hc eq_refl)
    as (h' & -> & Hinv' & _). simpl.
  pose proof (buf_write_ok _ _ _ _ Hd) as (_ & ? & Hd').
  eexists _, m'. split; [done|]. split_and!; try done; simpl.
  - unfold msg_shape, message_wf, m'. simpl. split_and!; try done; try lia.
    unfold MAX_BUFF_SIZE in *. intros Hn. rewrite (last_buf_write _ _ _ _ Hd) by lia. auto.
  - by apply payload_receive.
Qed.
(** The file cache works on the heap next to the receive buffer. *)
Lemma rinv_datafile P s w l names info' h' fs' names' :
  rinv_with P s w l names -> info_wf info' h' names' -> heap_wf h' ->
  frame (finfo s) (wheap w) h' -> names_step (finfo s) info' (wheap w) ->
  rinv_with P (MkState info' (rmsg s)) (MkWorld h' (wqueue w) fs') l names'.
Proof.
  intros [Hh Hi Hq Hnd Hno Hmo Hqd Hm Hk] Hi' Hh' Hfr Hst. split; simpl; try done.
  - intros p Hp Hpl. destruct Hst as [Hst|(np & Hnp & Hnone)].
    + apply (Hno p); [congruence|done].
    + destruct (Hqd p Hpl) as (m & Hc & _). congruence.
  - intros p Hp. destruct (Hmo p Hp) as [Hpl Hpn]. split; [done|].
    destruct Hst as [-> |(np & Hnp & Hnone)]; [done|].
    destruct (Hm p Hp) as (m & Hc & _). congruence.
  - intros p Hp. destruct (Hqd p Hp) as (m & Hc & Hok). exists m. split; [|done].
    rewrite <- Hc. apply Hfr; [|by eexists]. intros Heq. by apply (Hno p).
  - intros p Hp. destruct (Hm p Hp) as (m & Hc & HP). exists m. split; [|done].
    rewrite <- Hc. apply Hfr; [|by eexists]. intros Heq. by apply (Hmo p Hp).
  - intros q mq Hq'. destruct (Hk q mq Hq') as (Hc & ? & Hn). split_and!; [|done|].
    + rewrite <- Hc. apply Hfr; [congruence|by eexists].
    + destruct Hst as [-> |(np & -> & Hnone)]; [done|congruence].
Qed.

Lemma rinv_free P P' info p w l names :
  rinv_with P (MkState info (Some p)) w l names ->
  exists h', MESSAGE_DROP (wheap w) (Some p) = Ok (None, h') /\
    rinv_with P' (MkState info None) (MkWorld h' (wqueue w) (wfs w)) l names.
Proof.
  intros [Hh Hi Hq Hnd Hno Hmo Hqd Hm Hk]. simpl in *.
  destruct (Hm p eq_refl) as (m & Hc & _). destruct (Hmo p eq_refl) as [Hpl Hpn].
  unfold MESSAGE_DROP, message_drop. rewrite (load_ok _ _ _ Hc). simpl.
  rewrite (free_ok _ _ _ Hc). simpl. eexists. split; [done|].
  split; simpl; try done.
  - eapply (free_wf _ p); [done|]. by eapply free_ok.
  - eapply info_wf_agree; [done|]. intros np Hnp. simpl. apply lookup_delete_ne. congruence.
  - intros p' Hp'. rewrite lookup_delete_ne by set_solver. by apply Hqd.
  - intros q mq Hq'. destruct (Hk q mq Hq') as (? & ? & ?). rewrite lookup_delete_ne by congruence. done.
Qed.

(** What has become of a message the flush handled: at the end of the queue,
    from which [taken] messages went meanwhile, in the open data file, or
    nowhere. *)
Inductive flush_result (taken : nat) (m : message) (p : ptr) (l l' : list ptr) (fs : files)
    (s' : rstate) (w' : world) : Prop :=
| flushed_queue :
    l' = drop taken (l ++ [p]) -> wfs w' = fs -> mtype m = 0 -> rmsg s' = None ->
    cells (wheap w') !! p = Some m -> flush_result taken m p l l' fs s' w'
| flushed_file f :
    l' = l -> wfs w' = append fs f (payload m) -> rmsg s' = Some p -> curr_fp (finfo s') = Some f ->
    flush_result taken m p l l' fs s' w'
| flushed_dropped :
    l' = l -> cells (wheap w') !! p = None -> grows fs (wfs w') -> rmsg s' = None ->
    flush_result taken m p l l' fs s' w'.

(** The message left behind by a successful file write: cleared, with its
    [cap] gone. *)
Definition msg_after (m : message) (r : option ptr) (w : world) : Prop :=
  match r with
  | None => True
  | Some p => exists d, cells (wheap w) !! p = Some (MkMessage 0 0 0 d)
  end.

Lemma flush_queue_spec i info p w l names m :
  rinv_with (eq m) (MkState info (Some p)) w l names -> msg_shape m -> 0 < mlen m ->
  (in_taken i <= length l)%nat -> (forall q mq, keep q mq -> q ∉ take (in_taken i) l) ->
  exists r w', flush_queue i p w = Ok (r, w') /\ wfs w' = wfs w /\
    ((r = None /\ mtype m = 0 /\ cells (wheap w') !! p = Some m /\
        rinv_with msg_ok (MkState info None) w' (drop (in_taken i) (l ++ [p])) names) \/
     (r = Some p /\ rinv_with (eq (set_type m 1)) (MkState info (Some p)) w' l names)).
Proof.
  intros Hinv (Hwf & Hz & Ht & _) Hlen Htk Hkt. unfold flush_queue.
  destruct (ri_msg _ _ _ _ _ Hinv p eq_refl) as (m' & Hc & <-).
  destruct (ri_msg_own _ _ _ _ _ Hinv p eq_refl) as [Hpl Hpn].
  rewrite (load_ok _ _ _ Hc). simpl. destruct (Z.eqb_spec (mtype m) 0) as [E0|E0].
  2: { eexists _, _. split; [done|]. split; [done|]. right. split; [done|].
       assert (set_type m 1 = m) as ->; [|done]. destruct m; simpl in *. by destruct Ht; subst. }
  destruct (push_wait_inv _ _ w l names p m Hinv Hc) as [(w1 & -> & Hq & Hh & Hf & Hnd & Hqd)| ->];
    [by left|done| |]; simpl.
  - assert (Hinv1 : rinv_with msg_ok (MkState info None) w1 (l ++ [p]) names).
    { destruct Hinv as [Hh0 Hi Hq0 Hnd0 Hno Hmo Hqd0 Hm0 Hk0]. split; simpl in *; rewrite ?Hh; try done.
      - intros p' Hp'. specialize (Hno p' Hp').
        intros [?| ->%list_elem_of_singleton]%elem_of_app; [done|congruence].
      - intros q mq Hq'. destruct (Hk0 q mq Hq') as (? & ? & ?). by split_and!. }
    assert (Htake : take (in_taken i) (l ++ [p]) = take (in_taken i) l) by (rewrite take_app_le by lia; done).
    destruct (interfere_inv _ (in_taken i) _ w1 _ _ Hinv1) as (w2 & -> & Hinv2 & Hcells & Hf2).
    { intros q mq Hq'. rewrite Htake. by eapply Hkt. }
    assert (Hc2 : cells (wheap w2) !! p = Some m).
    { rewrite Hcells, Hh; [done|]. rewrite Htake.
      intros Hp. apply Hpl. rewrite <- (take_drop (in_taken i) l). set_solver. }
    simpl. rewrite (log_len_ok p w2 m) by done.
    simpl. eexists _, _. split; [done|]. split; [congruence|]. left. by split_and!.
  - destruct (store_type_inv _ _ _ _ p m 1 (eq (set_type m 1)) Hinv eq_refl eq_refl)
      as (w2 & -> & Hinv2 & Hc2 & Hf2). simpl.
    rewrite (log_len_ok _ _ _ Hc2). simpl. eauto 10.
Qed.

Lemma flush_file_spec i info p w l names m :
  4096 <= node_size <= MSG_LIMIT -> stamp_ok (e_stamp (in_env i)) ->
  rinv_with (eq m) (MkState info (Some p)) w l names -> msg_shape m -> 0 < mlen m ->
  mtype m = 1 ->
  exists r info' w' names', flush_file i (Some p) info w = Ok (r, info', w') /\
    rinv_with msg_ok (MkState info' r) w' l names' /\ msg_after m r w' /\
    forall taken, flush_result taken m p l l (wfs w) (MkState info' r) w'.
Proof.
  intros Hns Hs Hinv Hsh Hlen Ht. pose proof Hsh as (Hwf & Hz & _ & Hlast). unfold flush_file.
  destruct (ri_msg _ _ _ _ _ Hinv p eq_refl) as (m' & Hc & <-).
  destruct (ri_msg_own _ _ _ _ _ Hinv p eq_refl) as [Hpl Hpn]. simpl in Hpn.
  rewrite (load_ok _ _ _ Hc). simpl. rewrite Ht. simpl.
  destruct (datafile_write_ok (in_env i) info p m (wheap w) (wfs w) names)
    as (rc & info' & h' & fs' & names' & Ew & Hi' & Hh' & Hfr & Hst & _ & Hout); try done.
  { apply Hinv. } { apply Hinv. } { destruct Hwf. unfold MSG_LIMIT in *. lia. }
  rewrite Ew. simpl. pose proof (rinv_datafile _ _ _ _ _ info' h' fs' names' Hinv Hi' Hh' Hfr Hst) as Hinv1.
  simpl in Hinv1. pose proof (datafile_write_grows _ _ _ _ _ _ _ _ _ Ew) as Hgr.
  destruct Hout as [(-> & f & Hfp & _ & Hfs & _)|Hfail].
  - simpl. destruct (ri_msg _ _ _ _ _ Hinv1 p eq_refl) as (m' & Hc1 & <-). simpl in Hc1.
    rewrite (load_ok _ _ _ Hc1). simpl.
    destruct (bzero_spec m Hwf) as (d & -> & Hd & Ed). simpl.
    assert (Hok : msg_ok (MkMessage 0 0 0 d)).
    { unfold msg_ok, msg_shape, message_wf. simpl. split_and!; auto; try lia. intros Hn.
      rewrite Ed. by apply (last_bzero (mcap m) (mdata m)); [apply Hwf|apply Hlast]. }
    destruct (rinv_store (eq m) msg_ok _ _ _ _ p m (MkMessage 0 0 0 d) Hinv1 eq_refl Hc1 Hok)
      as (h2 & E2 & Hinv2 & Hc2). simpl in E2. rewrite E2. simpl.
    eexists _, _, _, _. split; [done|]. split; [exact Hinv2|]. split; [by exists d|].
    intros taken. by apply (flushed_file _ _ _ _ _ _ _ _ f).
  - assert (rc = -1) as -> by (destruct Hfail as [[-> _]|[-> _]]; done). simpl.
    destruct (rinv_free _ msg_ok _ _ _ _ _ Hinv1) as (h2 & E2 & Hinv2). simpl in E2.
    rewrite E2. simpl.
    destruct (reset_spec info' h2 names') as (i3 & h3 & E3 & Hi3 & Hh3 & Hfr3 & _ & Hn3 & _);
      [apply Hinv2|apply Hinv2|]. rewrite E3. simpl.
    pose proof (rinv_datafile _ _ _ _ _ i3 h3 fs' _ Hinv2 Hi3 Hh3 Hfr3 (or_introl Hn3)) as Hinv3.
    eexists _, _, _, _. split; [done|]. split; [exact Hinv3|]. split; [done|]. intros taken.
    apply flushed_dropped; [done| |done|done]. simpl. eapply reset_none; [exact E3|].
    eapply drop_none. exact E2.
Qed.

Lemma must_flush_false i m :
  msg_shape m -> node_size <= MSG_LIMIT -> must_flush i m = false ->
  msg_ok m.
Proof.
  intros Hsh Hns Hf. pose proof Hsh as ((Hl & Hc) & Hz & Ht & _). split; [done|].
  unfold must_flush, MAX_BUFF_SIZE, MSG_LIMIT in *.
  destruct (Z.gtb_spec (mlen m) 0); [|left; lia]. simpl in Hf. zb.
  rewrite i32_id in * by (unfold in_i32; lia). right. lia.
Qed.

Lemma flush_spec i info p w l names m :
  4096 <= node_size <= MSG_LIMIT -> stamp_ok (e_stamp (in_env i)) ->
  rinv_with (eq m) (MkState info (Some p)) w l names -> msg_shape m ->
  (in_taken i <= length l)%nat -> (forall q mq, keep q mq -> q ∉ take (in_taken i) l) ->
  exists s' w' l' names', flush i p info w = Ok (s', w') /\ rinv s' w' l' names' /\
    (must_flush i m = false -> s' = MkState info (Some p) /\ w' = w /\ l' = l) /\
    (must_flush i m = true -> msg_after m (rmsg s') w' /\
       flush_result (in_taken i) m p l l' (wfs w) s' w').
Proof.
  intros Hns Hs Hinv Hsh Htk Hkt. unfold flush.
  destruct (ri_msg _ _ _ _ _ Hinv p eq_refl) as (m' & Hc & <-). rewrite (load_ok _ _ _ Hc). simpl.
  destruct (must_flush i m) eqn:Em.
  2: { eexists _, _, l, names. split; [done|]. split; [|done].
       eapply rinv_weaken; [|done]. intros ? <-. eapply must_flush_false; try done. lia. }
  assert (Hlen : 0 < mlen m).
  { unfold must_flush in Em. zb. lia. }
  destruct (flush_queue_spec i info p w l names m Hinv Hsh Hlen Htk Hkt)
    as (r & w1 & -> & Hf1 & [(-> & Hty & Hc1 & Hinv1)|(-> & Hinv1)]); simpl.
  - eexists _, _, _, names. split; [done|]. split; [done|]. split; [done|].
    intros _. split; [done|]. by apply flushed_queue.
  - destruct (flush_file_spec i info p w1 l names (set_type m 1) Hns Hs Hinv1)
      as (r & info' & w2 & names' & -> & Hinv2 & Haft & Hres); try done.
    { destruct Hsh as (? & ? & ? & ?). split_and!; simpl; auto. }
    simpl. eexists _, _, l, names'. split; [done|]. split; [done|]. split; [done|].
    intros _. split; [done|]. rewrite <- Hf1.
    destruct (Hres (in_taken i)) as [? ? Hbad|f ? ? ? ?|? ? ? ?]; [done| |by apply flushed_dropped].
    by apply (flushed_file _ _ _ _ _ _ _ _ f).
Qed.
(** ** One iteration *)
Lemma rinv_pick P s w l names p :
  rinv_with P s w l names -> rmsg s = Some p ->
  exists m, P m /\ cells (wheap w) !! p = Some m /\ rinv_with (eq m) s w l names.
Proof.
  intros Hinv Hp. destruct (ri_msg _ _ _ _ _ Hinv p Hp) as (m & Hc & HP).
  exists m. split_and!; [done..|]. destruct Hinv. split; try done.
  intros p' Hp'. assert (p' = p) as -> by congruence. eauto.
Qed.
End Keep.

Lemma rinv_extend keep P s w l names q mq :
  rinv_with keep P s w l names -> cells (wheap w) !! q = Some mq -> rmsg s <> Some q ->
  names_msg (finfo s) <> Some q ->
  rinv_with (fun q' m' => keep q' m' \/ (q' = q /\ m' = mq)) P s w l names.
Proof.
  intros [Hh Hi Hq Hnd Hno Hmo Hqd Hm Hk] Hc Hr Hn. split; try done.
  intros q' m' [Hq'|[-> ->]]; [by apply Hk|done].
Qed.

Lemma rinv_forget keep keep' P s w l names :
  rinv_with keep P s w l names -> (forall q m, keep' q m -> keep q m) -> rinv_with keep' P s w l names.
Proof. intros [Hh Hi Hq Hnd Hno Hmo Hqd Hm Hk] H. split; try done. intros q m Hq'. by apply Hk, H. Qed.

(** An iteration that stays in the loop, phase by phase. *)
Definition iter_outcome (i : rinput) (s : rstate) (w : world) (l : list ptr)
    (s' : rstate) (w' : world) (l' : list ptr) : Prop :=
  exists p m l1, payload m = held s w ++ received i /\ msg_shape m /\
    p = default (brk (wheap w)) (rmsg s) /\
    (forall p0 m0, rmsg s = Some p0 -> cells (wheap w) !! p0 = Some m0 -> mcap m = mcap m0) /\
    (l1 = l \/ exists np nm, names_msg (finfo s) = Some np /\ l1 = l ++ [np] /\
       cells (wheap w') !! np = Some nm /\ mtype nm = 1) /\
    (must_flush i m = false ->
       rmsg s' = Some p /\ cells (wheap w') !! p = Some m /\ l' = l1 /\ wfs w' = wfs w) /\
    (must_flush i m = true ->
       msg_after m (rmsg s') w' /\ flush_result (in_taken i) m p l1 l' (wfs w) s' w').

(** Once it is in the queue the list of names is none of the receiver's
    business. *)
Lemma push_names_keep keep info w l names p m :
  rinv_with keep (eq m) (MkState info (Some p)) w l names ->
  exists keep1 info' w' l1 names' t, push_names p info w = Ok (info', w') /\
    rinv_with keep1 (eq (set_type m t)) (MkState info' (Some p)) w' l1 names' /\ wfs w' = wfs w /\
    (t = mtype m \/ t = 0 \/ t = 1) /\
    (l1 = l /\ keep1 = keep \/
     exists np nm, names_msg info = Some np /\ l1 = l ++ [np] /\ (np ∉ l) /\ mtype nm = 1 /\
       keep1 = fun q m' => keep q m' \/ (q = np /\ m' = nm)).
Proof.
  intros Hinv.
  destruct (push_names_spec keep info w l names p m Hinv)
    as (info' & w2 & l1 & names1 & t & E & Hinv3 & Hf2 & Hcase).
  destruct Hcase as [(_ & _ & -> & ->)|[(np & nm & Hnp & Ei & -> & -> & Hnm & Ht)|(_ & _ & -> & ->)]].
  - eexists keep, _, _, _, _, _. split; [done|]. split; [done|]. auto.
  - eexists _, _, _, _, _, 0. split; [done|].
    assert (Hpn : Some p <> Some np).
    { intros [= ->]. destruct (ri_msg_own _ _ _ _ _ _ Hinv3 np eq_refl) as [H _]. set_solver. }
    split; [apply (rinv_extend _ _ _ _ _ _ np nm Hinv3 Hnm Hpn)|]; [by subst info'|].
    split; [done|]. split; [auto|]. right. exists np, nm. split_and!; try done.
    by apply (ri_names_own _ _ _ _ _ _ Hinv).
  - eexists keep, _, _, _, _, _. split; [done|]. split; [done|]. auto.
Qed.

Lemma iter_stays keep i s w l names :
  4096 <= node_size <= MSG_LIMIT -> rinv keep s w l names -> input_ok i l ->
  (forall q mq, keep q mq -> q ∉ take (in_taken i) l) ->
  0 <= in_nfds i -> leaves i = false ->
  exists s' w' l' names', receiver_iter i s w = Ok (false, s', w') /\
    rinv keep s' w' l' names' /\ iter_outcome i s w l s' w' l'.
Proof.
  intros Hns Hinv (Hb & Hs & Htk) Hkt Hn Hlv. unfold receiver_iter.
  destruct (Z.ltb_spec (in_nfds i) 0); [lia|]. rewrite Hlv.
  destruct (ensure_msg_inv keep s w l names ltac:(lia) Hinv) as (p & w1 & -> & Hinv1 & Hf1 & Hpd & Hp).
  simpl. destruct (rinv_pick _ _ _ _ _ _ p Hinv1 eq_refl) as (m & Hok & Hc & Hinv2).
  assert (Hheld : held s w = payload m).
  { unfold held. destruct Hp as [[-> ->]|(-> & _ & Hnew)]; [by rewrite Hc|].
    rewrite Hnew in Hc. injection Hc as <-. done. }
  destruct (push_names_keep keep (finfo s) w1 l names p m Hinv2)
    as (keep1 & info' & w2 & l1 & names1 & t & -> & Hinv3 & Hf2 & Ht & Hl1). simpl.
  assert (Hok1 : msg_ok (set_type m t)).
  { destruct Hok as [(Hwf & Hz & Hty & Hl) Hroom]. split; [|done].
    split_and!; [done|done| |done]. simpl. destruct Ht as [->|[-> | ->]]; auto. }
  assert (Hkt1 : (in_taken i <= length l1)%nat /\ forall q mq, keep1 q mq -> q ∉ take (in_taken i) l1).
  { destruct Hl1 as [[-> ->]|(np & nm & _ & -> & Hnp & _ & ->)]; [done|].
    rewrite length_app, take_app_le by lia. split; [lia|]. intros q mq [Hq'|[-> _]]; [by eapply Hkt|].
    intros Hin. apply Hnp. rewrite <- (take_drop (in_taken i) l). set_solver. }
  destruct (receive_spec keep1 i _ w2 l1 names1 p _ Hns Hb Hinv3 eq_refl Hok1)
    as (w3 & m3 & -> & Hinv4 & Hf3 & Hsh & Hpay & _ & Hcap). simpl.
  destruct (flush_spec keep1 i info' p w3 l1 names1 m3 Hns Hs Hinv4 Hsh (proj1 Hkt1) (proj2 Hkt1))
    as (s' & w' & l' & names' & -> & Hinv5 & Hno & Hyes).
  simpl. eexists _, _, _, _. split; [done|]. split.
  { eapply rinv_forget; [done|]. destruct Hl1 as [[_ ->]|(np & nm & _ & _ & _ & _ & ->)]; auto. }
  exists p, m3, l1. split_and!; [by rewrite Hpay, Hheld|done|done| | | |].
  - intros p0 m0 Hp0 Hm0. rewrite Hcap. simpl.
    destruct Hp as [[Hp ->]|[Hp _]]; [|congruence]. congruence.
  - destruct Hl1 as [[-> _]|(np & nm & Hnp & -> & _ & Hty & ->)]; [by left|]. right. exists np, nm.
    split_and!; [done|done| |done]. apply (ri_keep _ _ _ _ _ _ Hinv5). by right.
  - intros Hfl. destruct (Hno Hfl) as (-> & -> & ->).
    destruct (rinv_pick _ _ _ _ _ _ p Hinv4 eq_refl) as (m' & <- & Hc' & _).
    split_and!; try done. congruence.
  - intros Hfl. rewrite <- Hf1, <- Hf2, <- Hf3. by apply Hyes.
Qed.

(** The last message at shutdown: nothing happens, or it is at the end of the
    queue, whatever its type. *)
Lemma push_last_spec keep i s w l names :
  rinv keep s w l names -> (in_taken i <= length l)%nat ->
  exists w', push_last i s w = Ok w' /\
    ((w' = w /\ forall p m, rmsg s = Some p -> cells (wheap w) !! p = Some m ->
        mlen m = 0 \/ mq_cap (wqueue w) <= zlen l) \/
     exists p m q, rmsg s = Some p /\ cells (wheap w) !! p = Some m /\ msg_ok m /\ 0 < mlen m /\
       (p ∉ l) /\ mq_holds q (l ++ [p]) /\ mq_cap q = mq_cap (wqueue w) /\
       interfere (in_taken i) (MkWorld (wheap w) q (wfs w)) = Ok w').
Proof.
  intros Hinv Htk. unfold push_last. destruct (rmsg s) as [p|] eqn:Ep.
  2: { eexists. split; [done|]. by left. }
  destruct (rinv_pick _ _ _ _ _ _ p Hinv Ep) as (m & Hok & Hc & Hinv2).
  rewrite (load_ok _ _ _ Hc). simpl. destruct (Z.gtb_spec (mlen m) 0).
  2: { eexists. split; [done|]. left. split; [done|]. intros p' m' [= <-] Hc'. left.
       rewrite Hc in Hc'. injection Hc' as <-. destruct Hok as [[[? _] _] _]. lia. }
  destruct (ri_msg_own _ _ _ _ _ _ Hinv p Ep) as [Hpl _].
  unfold push_wait. pose proof (ri_queue _ _ _ _ _ _ Hinv) as Hq.
  destruct (Z.lt_ge_cases (zlen l) (mq_cap (wqueue w))) as [Hlt|Hge].
  - destruct (mq_push_room (wqueue w) l p Hq Hlt) as (q' & -> & Hq' & Hcap). simpl.
    assert (Hl : forall p', p' ∈ l ++ [p] -> is_Some (cells (wheap w) !! p')).
    { intros p' [Hp'| ->%list_elem_of_singleton]%elem_of_app; [|by rewrite Hc].
      destruct (ri_queued _ _ _ _ _ _ Hinv p' Hp') as (m' & -> & _). by eexists. }
    destruct (sender_takes_spec (in_taken i) q' (wheap w) (l ++ [p]))
      as (q2 & h2 & E2 & _ & _ & Hcells); try done; [apply Hinv| |].
    { apply NoDup_app. split; [apply Hinv|]. split; [set_solver|apply NoDup_singleton]. }
    assert (Ei : interfere (in_taken i) (MkWorld (wheap w) q' (wfs w)) = Ok (MkWorld h2 q2 (wfs w))).
    { unfold interfere. simpl. by rewrite E2. }
    rewrite Ei. simpl. rewrite (log_len_ok p _ m).
    { eexists. split; [done|]. right. exists p, m, q'. by split_and!. }
    simpl. rewrite Hcells; [done|]. rewrite take_app_le by lia. intros Hp. apply Hpl.
    rewrite <- (take_drop (in_taken i) l). set_solver.
  - rewrite (mq_push_full _ _ p Hq Hge). simpl. rewrite (log_len_ok p _ m) by done. simpl.
    eexists. split; [by destruct w|]. left. split; [done|]. intros p' m' _ _. by right.
Qed.

Definition no_keep (p : ptr) (m : message) : Prop := False.

Lemma iter_ok i s w l names :
  4096 <= node_size <= MSG_LIMIT -> rinv no_keep s w l names -> input_ok i l ->
  exists b s' w', receiver_iter i s w = Ok (b, s', w') /\
    (b = false -> exists l' names', rinv no_keep s' w' l' names').
Proof.
  intros Hns Hinv Hi. destruct (Z.lt_ge_cases (in_nfds i) 0).
  { unfold receiver_iter. destruct (Z.ltb_spec (in_nfds i) 0); [|lia]. eauto 10. }
  destruct (leaves i) eqn:El.
  - unfold receiver_iter. destruct (Z.ltb_spec (in_nfds i) 0); [lia|]. rewrite El.
    destruct (push_last_spec no_keep i s w l names Hinv) as (w' & -> & _); [apply Hi|]. simpl.
    eexists _, _, _. by split.
  - destruct (iter_stays no_keep i s w l names) as (s' & w' & l' & names' & -> & ? & _); eauto 10.
Qed.

Definition calm (i : rinput) : Prop :=
  (forall b, in_recv i = Some b -> zlen b <= MAX_BUFF_SIZE) /\
  stamp_ok (e_stamp (in_env i)) /\ in_taken i = 0%nat.

Lemma run_ok ins s w l names :
  4096 <= node_size <= MSG_LIMIT -> rinv no_keep s w l names -> Forall (fun x => calm x.2) ins ->
  is_ok (receiver_run ins s w).
Proof.
  intros Hns Hinv Hins. revert s w l names Hinv.
  induction Hins as [|[k i] ins (Hb & Hs & Htk) Hins IH]; intros s w l names Hinv; simpl.
  { by eexists. }
  destruct (interfere_inv _ _ k s w l names Hinv ltac:(done)) as (w1 & -> & Hinv1 & _). simpl.
  destruct (iter_ok i s w1 _ _ Hns Hinv1) as (b & s' & w' & -> & Hnext).
  { split_and!; [done..|]. simpl in Htk. lia. }
  simpl. destruct b; [by eexists|]. destruct (Hnext eq_refl) as (l' & names' & Hinv'). eauto.
Qed.

Lemma start_rinv keep sockfd stat_ok mkdir_ok dir fsize fcnt s w :
  receiver_start sockfd stat_ok mkdir_ok dir fsize fcnt = Some s ->
  1 <= zlen dir <= 235 -> no_nul dir -> 0 <= fcnt ->
  heap_wf (wheap w) -> mq_holds (wqueue w) [] ->
  (forall p m, keep p m -> cells (wheap w) !! p = Some m) -> rinv keep s w [] [].
Proof.
  intros Hst Hd Hn Hf Hh Hq Hkp. unfold receiver_start, datafile_init in Hst.
  destruct (sockfd <? 0); [done|]. destruct (_ && _); [done|]. injection Hst as <-.
  assert (Hfc : 0 <= (if fcnt >? 5 then 4 else fcnt) <= 5).
  { destruct (Z.gtb_spec fcnt 5); lia. }
  split; simpl; try done; [|apply NoDup_nil_2|set_solver|intros q mq Hq'; split; [by apply Hkp|done]].
  split; simpl; try done; change (zlen (@nil (list Z))) with 0; try lia.
  - destruct (Z.gtb_spec fsize (1024 * 1024 * 2)); lia.
  - intros _. split_and!; [done..|]. lia.
Qed.

(** ** Properties *)



(** The log statement after a successful push is a use after free when
    the sender is quick: if it empties the queue (and frees what it popped)
    before [msg->len] is evaluated for the log line, the receiver reads a
    freed message. *)
Theorem receiver_log_race i info p w l names m
    (Hinv : rinv_with no_keep (eq m) (MkState info (Some p)) w l names)
    (Htype : mtype m = 0) (Hshape : message_wf m) (Hlen : 0 < mlen m)
    (Hroom : zlen l < mq_cap (wqueue w)) (Hquick : (length l < in_taken i)%nat) :
  flush_queue i p w = UB UseAfterFree.
Proof.
  unfold flush_queue. destruct (ri_msg _ _ _ _ _ _ Hinv p eq_refl) as (m' & Hc & <-).
  destruct (ri_msg_own _ _ _ _ _ _ Hinv p eq_refl) as [Hpl _].
  rewrite (load_ok _ _ _ Hc). simpl. rewrite Htype. simpl. unfold push_wait.
  destruct (mq_push_room (wqueue w) l p (ri_queue _ _ _ _ _ _ Hinv) Hroom)
    as (q' & -> & Hq' & _). simpl. unfold interfere. simpl.
  assert (Htakes : exists q2 h2, sender_takes (in_taken i) q' (wheap w) = Ok (q2, h2) /\
                     cells h2 !! p = None).
  { apply takes_frees_all with (l := l ++ [p]); try done.
    - apply Hinv.
    - apply NoDup_app. split; [apply Hinv|]. split; [set_solver|apply NoDup_singleton].
    - intros p' [Hp'| ->%list_elem_of_singleton]%elem_of_app; [|by rewrite Hc].
      destruct (ri_queued _ _ _ _ _ _ Hinv p' Hp') as (m' & -> & _). by eexists.
    - set_solver.
    - rewrite length_app. simpl. lia. }
  destruct Htakes as (q2 & h2 & -> & Hnone). simpl. unfold log_len, load. simpl. by rewrite Hnone.
Qed.
(** The node size is not checked against the datagram size: with a
    node smaller than the datagram, the very first receive writes past the
    end of the message. *)
Theorem receiver_small_node_overflow i s w b
    (Hns : 0 <= node_size < zlen b) (Hnone : rmsg s = None) (Hnames : names_msg (finfo s) = None)
    (Hready : 0 < in_nfds i) (Hset : in_isset i = true) (Hrecv : in_recv i = Some b) :
  receiver_iter i s w = UB OutOfBounds.
Proof.
  unfold receiver_iter, leaves. destruct (Z.ltb_spec (in_nfds i) 0); [lia|].
  destruct (Z.eqb_spec (in_nfds i) 0); [lia|]. simpl.
  unfold ensure_msg. rewrite Hnone. unfold message_new.
  destruct (Z.leb_spec 0 node_size); [|lia]. simpl.
  unfold push_names. rewrite Hnames. simpl. unfold receive.
  destruct (Z.gtb_spec (in_nfds i) 0); [|lia]. rewrite Hset, Hrecv. simpl.
  unfold load. simpl. rewrite lookup_insert_eq. simpl.
  rewrite buf_write_out; [done|]. rewrite zlen_zeros; lia.
Qed.

(** Once a message has gone to a file, its buffer no longer collects
    datagrams: [MESSAGE_BZERO] has cleared [cap], so every later datagram is
    handed over at once, alone, whatever room the buffer still has. *)
Theorem receiver_no_batching_after_file i s w l names p m
    (Hns : 4096 <= node_size <= MSG_LIMIT) (Hinv : rinv no_keep s w l names) (Hi : input_ok i l)
    (Hready : 0 < in_nfds i) (Hp : rmsg s = Some p) (Hm : cells (wheap w) !! p = Some m)
    (Hcap : mcap m = 0) (Hdata : received i <> []) :
  exists s' w', receiver_iter i s w = Ok (false, s', w') /\ held s' w' = [].
Proof.
  destruct (iter_stays no_keep i s w l names Hns Hinv Hi ltac:(done) ltac:(lia)) as
    (s' & w' & l' & names' & -> & Hinv' & p1 & m1 & l1 & Hpay & Hsh & _ & Hc & _ & _ & Hfl).
  { unfold leaves. destruct (Z.eqb_spec (in_nfds i) 0); [lia|done]. }
  eexists _, _. split; [done|].
  assert (Hlen : 0 < mlen m1 <= MSG_LIMIT).
  { destruct Hsh as (Hwf & Hz & _). rewrite <- (payload_len m1 Hwf) at 1.
    rewrite Hpay, zlen_app. pose proof (zlen_nonneg (held s w)).
    destruct (received i) as [|c r]; [done|]. rewrite zlen_cons. pose proof (zlen_nonneg r).
    destruct Hwf. lia. }
  destruct Hfl as [Haft _].
  { unfold must_flush. rewrite (Hc p m Hp Hm), Hcap. unfold MSG_LIMIT, MAX_BUFF_SIZE in *.
    rewrite i32_id by (unfold in_i32; lia). apply andb_true_iff.
    split; [rewrite Z.gtb_ltb|apply orb_true_iff; right]; apply Z.ltb_lt; lia. }
  unfold held. destruct (rmsg s') as [p'|]; [|done].
  simpl in Haft. destruct Haft as [d ->]. done.
Qed.

(** A full file cache forgets a file it has written.  When the cache is
    full the message is dropped, as it must be, but the error path also closes
    the data file that is open, full of messages stored before, and takes its
    name off the list: the file stays on the disk, no list names it, nobody
    will ever send it - and the count goes down by one, so the next message
    opens one more file. *)
Theorem full_cache_forgets keep i info p w l names m f
    (Hinv : rinv_with keep (eq m) (MkState info (Some p)) w l names)
    (Hlen : 0 <= mlen m <= MSG_LIMIT) (Htype : mtype m = 1) (Hopen : curr_fp info = Some f)
    (Hcount : max_fcnt info <= file_count info) (Hover : max_fsize info < curr_fsize info + mlen m) :
  exists info' w' ns, flush_file i (Some p) info w = Ok (None, info', w') /\
    names = ns ++ [f] /\ info_wf info' (wheap w') ns /\ curr_fp info' = None /\
    file_count info' = file_count info - 1 /\ wfs w' = wfs w.
Proof.
  destruct (ri_msg _ _ _ _ _ _ Hinv p eq_refl) as (m' & Hc & <-). unfold flush_file.
  rewrite (load_ok _ _ _ Hc). simpl. rewrite Htype. simpl.
  pose proof (ri_info _ _ _ _ _ _ Hinv) as Hi. simpl in Hi.
  pose proof (wf_curr_size _ _ _ Hi) as Hsz. unfold datafile_write_datamsg.
  rewrite (load_ok _ _ _ Hc). simpl. rewrite i32_id by (unfold in_i32, MSG_LIMIT in *; lia).
  destruct (Z.geb_spec (file_count info) (max_fcnt info)); [|lia].
  destruct (Z.gtb_spec (curr_fsize info + mlen m) (max_fsize info)); [|lia]. simpl.
  destruct (rinv_free _ _ msg_ok _ _ _ _ _ Hinv) as (h2 & E2 & Hinv2). simpl in E2.
  rewrite E2. simpl.
  destruct (reset_spec info h2 names) as (i3 & h3 & E3 & Hi3 & _ & _ & Hfp & _);
    [apply Hinv2|apply Hinv2|]. rewrite E3. simpl. rewrite Hopen in Hi3.
  destruct (wf_open _ _ _ Hi f Hopen) as [Hlast _]. apply last_Some in Hlast as [ns ->].
  rewrite removelast_last in Hi3. eexists i3, _, ns. split_and!; try done.
  rewrite (wf_count _ _ _ Hi3), (wf_count _ _ _ Hi), zlen_app, zlen_cons, zlen_nil. lia.
Qed.
End Receiver.

(** ** The properties at concrete inputs: the circular queue of [Queue], two
    slots, messages of 8192 bytes. *)
Definition demo_queue : Queue.queue ptr := Queue.MkQueue [None; None] (-1) 0 0 2 1 2 0.

Lemma demo_holds : mq_holds demo_queue [].
Proof.
  apply (Queue.quiet_init (A := ptr) 2); [unfold INT_MAX; lia|]. by vm_compute.
Qed.

Definition demo_world (h : heap) : world := MkWorld h demo_queue ∅.
Definition empty_heap : heap := MkHeap ∅ 1.
Definition demo_state (msg : option ptr) : rstate := MkState demo_info msg.
Definition demo_input (nfds : Z) (b : list Z) (taken : nat) : rinput :=
  MkInput nfds true (Some b) 0 demo_env taken.

Lemma empty_heap_wf : heap_wf empty_heap.
Proof. intros p m Hp. simpl in Hp. by rewrite lookup_empty in Hp. Qed.

Lemma demo_start :
  receiver_start 3 true true (bytes "/d") 1000 2 = Some (demo_state None).
Proof. done. Qed.

Lemma demo_dir : 1 <= zlen (bytes "/d") <= 235 /\ no_nul (bytes "/d").
Proof. split; [unfold zlen; simpl; lia|]. repeat constructor; done. Qed.

Lemma demo_calm nfds b : zlen b <= MAX_BUFF_SIZE -> calm (demo_input nfds b 0).
Proof.
  intros Hb. split_and!; [|exact demo_stamp|done]. intros b' [= <-]. done.
Qed.

Lemma demo_node : 4096 <= 8192 <= MSG_LIMIT.
Proof. unfold MSG_LIMIT. lia. Qed.


Lemma demo_rinv : rinv 8192 no_keep (demo_state None) (demo_world empty_heap) [] [].
Proof.
  apply (start_rinv 8192 no_keep 3 true true (bytes "/d") 1000 2 _ _ demo_start (proj1 demo_dir)
    (proj2 demo_dir)); [lia|apply empty_heap_wf|apply demo_holds|done].
Qed.


Definition held_msg (cap : Z) : message := MkMessage 0 (if cap =? 0 then 0 else 5) cap (zeros 8192).
Definition held_heap (cap : Z) : heap := MkHeap {[1%positive := held_msg cap]} 2.

Lemma held_rinv (P : message -> Prop) cap :
  P (held_msg cap) ->
  rinv_with no_keep P (demo_state (Some 1%positive)) (demo_world (held_heap cap)) [] [].
Proof.
  intros HP. split; simpl; try done.
  - intros p m. simpl. intros [<- _]%lookup_singleton_Some. lia.
  - apply demo_info_wf.
  - exact demo_holds.
  - apply NoDup_nil_2.
  - intros p _. split; [set_solver|done].
  - set_solver.
  - intros p [= <-]. exists (held_msg cap). by rewrite lookup_singleton_eq.
Qed.

Lemma held_msg_ok cap : cap = 0 \/ cap = 8192 -> msg_ok 8192 (held_msg cap).
Proof.
  intros Hc. unfold msg_ok, msg_shape, message_wf, held_msg, MAX_BUFF_SIZE. simpl.
  rewrite zlen_zeros by lia. destruct Hc as [-> | ->]; simpl; split_and!; auto; try lia;
    intros _; apply last_zeros; lia.
Qed.

Lemma receiver_log_race_witness :
  flush_queue (demo_input 0 [] 1) 1 (demo_world (held_heap 8192)) = UB UseAfterFree.
Proof.
  apply (receiver_log_race (demo_input 0 [] 1) demo_info 1 (demo_world (held_heap 8192))
    [] [] (held_msg 8192)).
  - by apply held_rinv.
  - done.
  - apply (held_msg_ok 8192). by right.
  - done.
  - done.
  - simpl. lia.
Defined.

Lemma receiver_small_node_overflow_witness :
  receiver_iter 4 (demo_input 1 (bytes "event") 0) (demo_state None) (demo_world empty_heap)
    = UB OutOfBounds.
Proof.
  apply (receiver_small_node_overflow 4 _ _ _ (bytes "event")); try done.
Defined.

Lemma receiver_no_batching_after_file_witness :
  exists s' w', receiver_iter 8192 (demo_input 1 (bytes "event") 0)
    (demo_state (Some 1%positive)) (demo_world (held_heap 0)) = Ok (false, s', w') /\
    held s' w' = [].
Proof.
  apply (receiver_no_batching_after_file 8192 (demo_input 1 (bytes "event") 0) _ _ [] [] 1
    (held_msg 0) demo_node); try done.
  - apply held_rinv. apply held_msg_ok. by left.
  - split_and!; [|exact demo_stamp|simpl; lia]. intros b [= <-].
    unfold MAX_BUFF_SIZE, zlen. simpl. lia.
Defined.

(** A cache of one file that holds 995 of its 1000 bytes, and a message of
    ten. *)
Definition full_name : list Z := Eval vm_compute in bytes "/d/a".
Definition full_info : datafile_info :=
  MkInfo (bytes "/d") 1 1000 1 (Some full_name) 995 (full_name ++ zeros 252) (Some 2%positive).
Definition full_names : message := MkMessage 1 5 514 (full_name ++ zeros 510).
Definition full_msg : message := MkMessage 1 10 8192 (zeros 8192).
Definition full_heap : heap := MkHeap {[1%positive := full_msg; 2%positive := full_names]} 3.

Lemma full_info_wf : info_wf full_info full_heap [full_name].
Proof.
  assert (Hn : no_nul full_name) by (repeat constructor; done).
  split; simpl; try done.
  - split; [unfold zlen; simpl; lia|repeat constructor; done].
  - repeat constructor; [done|unfold zlen; simpl; lia..].
  - split; [done|]. eexists. injection H as <-. done.
  - exists full_names. split; [done|]. by split.
Qed.

Lemma full_cache_forgets_witness :
  exists info' w' ns, flush_file (demo_input 0 [] 0) (Some 1%positive) full_info (demo_world full_heap)
      = Ok (None, info', w') /\ [full_name] = ns ++ [full_name] /\
    info_wf info' (wheap w') ns /\ curr_fp info' = None /\
    file_count info' = file_count full_info - 1 /\ wfs w' = ∅.
Proof.
  apply (full_cache_forgets 8192 no_keep (demo_input 0 [] 0) full_info 1 (demo_world full_heap) []
    [full_name] full_msg full_name); try done.
  - split; simpl; try done.
    + intros q mq. simpl. intros [[<- _]|[_ [<- _]%lookup_singleton_Some]]%lookup_insert_Some; lia.
    + apply full_info_wf.
    + exact demo_holds.
    + apply NoDup_nil_2.
    + intros q _. by apply not_elem_of_nil.
    + intros q [= <-]. split; [apply not_elem_of_nil|done].
    + intros q Hq. by apply not_elem_of_nil in Hq.
    + intros q [= <-]. by exists full_msg.
Defined.
End Receiver.
