(* ===== verification/Sender.v ===== *)
(** Uploading one message (src/useapp/sender.c): the response buffer and its
    write callback, the requests the two send functions build, and the
    classification of the outcome into the SND codes.  libcurl and cJSON are
    parameters. *)
From S2P Require Import Prelude.

Module Sender.

Definition SND_SUCCESS : Z := 0.
Definition SND_ERR_SYS : Z := 1.
Definition SND_ERR_NET : Z := 2.
Definition SND_ERR_SRV : Z := 3.

Definition MAX_RESP_BUFF_SIZE : Z := 511.
Definition MAX_CHUNKED_DATA_SIZE : Z := 1024 * 4.
Definition HTTP_CONN_TIMEOUT : Z := 10.
Definition HTTP_OPER_TIMEOUT : Z := 65.

(** [struct resp_buffer], and its initial value. *)
Record resp_buffer := MkResp { buff : list Z; pos : Z }.
Definition resp_init : resp_buffer := MkResp (zeros (MAX_RESP_BUFF_SIZE + 1)) 0.

(** [receive_callback]: [contents] is the memory behind the pointer.  Sizes
    are of type size_t. *)
Definition receive_callback (contents : list Z) (size nmemb : Z) (userp : option resp_buffer)
    : res (Z * option resp_buffer) :=
  match userp with
  | None => Ok (0, None)
  | Some mem =>
      let total := u64 (size * nmemb) in
      if pos mem <? MAX_RESP_BUFF_SIZE then
        let room := u64 (i32 (MAX_RESP_BUFF_SIZE - pos mem)) in
        let realsize := if total >? room then room else total in
        d ← buf_read contents 0 realsize;
        b ← buf_write (buff mem) (pos mem) d;
        Ok (total, Some (MkResp b (i32 (u64 (pos mem + realsize)))))
      else
        b ← arr_set (buff mem) MAX_RESP_BUFF_SIZE 0;
        Ok (total, Some (MkResp b (pos mem)))
  end.

(** libcurl delivers a body in pieces, each as [nmemb] items of size 1. *)
Fixpoint deliver (chunks : list (list Z)) (mem : resp_buffer) : res resp_buffer :=
  match chunks with
  | [] => Ok mem
  | c :: rest =>
      '(_, m) ← receive_callback c 1 (zlen c) (Some mem);
      mem ← of_option NullDeref m;
      deliver rest mem
  end.

(** The outcomes of [curl_easy_perform] the code tells apart. *)
Inductive CURLcode : Type :=
| CURLE_OK
| CURLE_COULDNT_RESOLVE_PROXY
| CURLE_COULDNT_RESOLVE_HOST
| CURLE_COULDNT_CONNECT
| CURLE_SEND_ERROR
| CURLE_OPERATION_TIMEDOUT
| CURLE_RECV_ERROR
| CURLE_OTHER (n : Z).

(** A form part: a value copied from a string, a file named by its path, or a
    buffer of a given length sent as a file without a name. *)
Inductive form_part : Type :=
| FormCopy (name contents : list Z)
| FormFile (name fpath filename : list Z)
| FormBuffer (name filename data : list Z) (len : Z).

(** Everything the code sets on the handle before it performs. *)
Record request := MkRequest {
  rq_url : list Z;
  rq_post : Z;
  rq_connect_timeout : Z;
  rq_timeout : Z;
  rq_headers : list (list Z);
  rq_form : list form_part
}.

(** What performing a request yields: the result code, the HTTP status and
    the pieces of the body handed to the callback. *)
Record answer := MkAnswer { an_rc : CURLcode; an_status : Z; an_chunks : list (list Z) }.

Section Sender.
Context {json : Type}.
(** [cJSON_Parse] on a NUL-terminated buffer, [cJSON_GetObjectItem] and the
    [valueint] field. *)
Context (cJSON_Parse : list Z -> option json).
Context (cJSON_GetObjectItem : option json -> list Z -> option json).
Context (valueint : json -> Z).
(** [curl_easy_perform] on a handle set up as the request says. *)
Context (curl_easy_perform : request -> answer).

(** The switch that follows [curl_easy_perform]. *)
Definition classify (rc : CURLcode) (hc : Z) (body : list Z) : Z :=
  match rc with
  | CURLE_OK =>
      if negb (hc =? 200) then SND_ERR_SRV
      else match cJSON_GetObjectItem (cJSON_Parse body) (bytes "code") with
           | Some item => if valueint item =? 200 then SND_SUCCESS else SND_ERR_SRV
           | None => SND_ERR_SRV
           end
  | CURLE_COULDNT_RESOLVE_PROXY | CURLE_COULDNT_RESOLVE_HOST
  | CURLE_COULDNT_CONNECT | CURLE_SEND_ERROR => SND_ERR_NET
  | CURLE_OPERATION_TIMEDOUT | CURLE_RECV_ERROR => SND_ERR_SRV
  | CURLE_OTHER _ => SND_ERR_SYS
  end.

(** Perform the request and classify; the body is read as a C string. *)
Definition perform (rq : request) : res Z :=
  let a := curl_easy_perform rq in
  resp ← deliver (an_chunks a) resp_init;
  body ← (match an_rc a with CURLE_OK => c_string (buff resp) | _ => Ok [] end);
  Ok (classify (an_rc a) (an_status a) body).

Definition file_request (url token path : list Z) (flen : Z) : request :=
  {| rq_url := url; rq_post := 1;
     rq_connect_timeout := HTTP_CONN_TIMEOUT; rq_timeout := HTTP_OPER_TIMEOUT;
     rq_headers := bytes "Expect:" ::
       (if flen >? MAX_CHUNKED_DATA_SIZE then [bytes "Transfer-Encoding: chunked"] else []);
     rq_form := [FormCopy (bytes "access_token") token; FormFile (bytes "file") path []] |}.

(** [send_log_file]: [flen] is what [get_file_size] returned, [init_ok]
    whether [curl_easy_init] gave a handle. *)
Definition send_log_file (flen : Z) (init_ok : bool) (url token path : list Z) : res Z :=
  if flen <? 0 then Ok SND_ERR_SYS
  else if negb init_ok then Ok SND_ERR_SYS
  else perform (file_request url token path flen).

Definition buff_request (url token data : list Z) (len : Z) : request :=
  {| rq_url := url; rq_post := 1;
     rq_connect_timeout := HTTP_CONN_TIMEOUT; rq_timeout := HTTP_OPER_TIMEOUT;
     rq_headers := [bytes "Expect:"];
     rq_form := [FormCopy (bytes "access_token") token;
                 FormBuffer (bytes "file") [] data len] |}.

Definition send_log_buff (init_ok : bool) (url token data : list Z) (len : Z) : res Z :=
  if negb init_ok then Ok SND_ERR_SYS
  else perform (buff_request url token data len).

(** ** The response buffer *)

(** The buffer after the body [s] has been delivered so far. *)
Record resp_holds (mem : resp_buffer) (s : list Z) : Prop := {
  resp_pos : pos mem = Z.min MAX_RESP_BUFF_SIZE (zlen s);
  resp_buff : buff mem = take 511 s ++ zeros (MAX_RESP_BUFF_SIZE + 1 - pos mem)
}.

Lemma resp_init_holds : resp_holds resp_init [].
Proof. split; [done|]. by vm_compute. Qed.

Lemma resp_len mem s : resp_holds mem s -> zlen (buff mem) = 512.
Proof.
  intros [Hp Hb]. rewrite Hb, zlen_app, zlen_zeros by (unfold MAX_RESP_BUFF_SIZE in *; lia).
  unfold zlen in *. rewrite length_take. unfold MAX_RESP_BUFF_SIZE in *. lia.
Qed.

Lemma callback_spec mem s c :
  resp_holds mem s -> zlen c < 18446744073709551616 ->
  exists mem', receive_callback c 1 (zlen c) (Some mem) = Ok (zlen c, Some mem') /\
    resp_holds mem' (s ++ c).
Proof.
  intros Hm Hc. pose proof (resp_len _ _ Hm) as Hlen. destruct Hm as [Hp Hb].
  unfold receive_callback, MAX_RESP_BUFF_SIZE in *.
  pose proof (zlen_nonneg c). pose proof (zlen_nonneg s).
  rewrite Z.mul_1_l, u64_id by lia.
  destruct (Z.ltb_spec (pos mem) 511) as [Hlt|Hge].
  - assert (Htake : take 511 s = s) by (apply take_ge; unfold zlen in *; lia).
    rewrite Htake in Hb. assert (Hps : pos mem = zlen s) by lia.
    rewrite (i32_id (511 - pos mem)) by (unfold in_i32; lia). rewrite (u64_id (511 - pos mem)) by lia.
    set (n := if zlen c >? 511 - pos mem then 511 - pos mem else zlen c).
    assert (Hn : n = Z.min (511 - pos mem) (zlen c)).
    { unfold n. destruct (Z.gtb_spec (zlen c) (511 - pos mem)); lia. }
    unfold buf_read. assert (in_bounds c 0 n = true) as -> by (apply in_bounds_true; lia).
    simpl. rewrite drop_0. rewrite Hb, Hps.
    assert (Hd : zlen (take (Z.to_nat n) c) = n) by (apply zlen_take; lia).
    rewrite buf_write_zeros by lia. simpl. rewrite Hd.
    rewrite u64_id, i32_id by (unfold in_i32; lia).
    eexists. split; [done|]. split; simpl; [rewrite zlen_app; unfold MAX_RESP_BUFF_SIZE; lia|].
    unfold MAX_RESP_BUFF_SIZE. rewrite take_app.
    rewrite Htake, <- app_assoc. do 2 f_equal.
    + destruct (Z.le_gt_cases (511 - pos mem) (zlen c)).
      * f_equal. unfold zlen in *. lia.
      * rewrite !take_ge by (unfold zlen in *; lia). done.
    + f_equal. lia.
  - assert (Hfull : pos mem = 511) by lia.
    assert (Hs511 : 511 <= zlen s) by lia.
    assert (zlen (take 511 s) = 511) as Ht.
    { change 511%nat with (Z.to_nat 511). apply zlen_take. lia. }
    rewrite Hb, Hfull. change (511 + 1 - 511) with 1. change (zeros 1) with [0].
    pose proof (arr_set_app (take 511 s) [] 0 0) as Eset. rewrite Ht in Eset.
    rewrite Eset. simpl.
    eexists. split; [done|]. split; simpl.
    + rewrite zlen_app. unfold MAX_RESP_BUFF_SIZE. lia.
    + rewrite take_app_le by (unfold zlen in *; lia). done.
Qed.

#[local] Arguments receive_callback : simpl never.

Lemma deliver_spec chunks mem s :
  resp_holds mem s -> Forall (fun c => zlen c < 18446744073709551616) chunks ->
  exists mem', deliver chunks mem = Ok mem' /\ resp_holds mem' (s ++ concat chunks).
Proof.
  intros Hm Hcs. revert mem s Hm. induction Hcs as [|c cs Hc Hcs IH]; intros mem s Hm; simpl.
  { exists mem. by rewrite app_nil_r. }
  destruct (callback_spec mem s c Hm Hc) as (mem' & -> & Hm'). simpl.
  destruct (IH mem' _ Hm') as (mem2 & -> & Hm2). exists mem2. by rewrite app_assoc.
Qed.

(** The body as a C string: the first 511 bytes, up to a NUL. *)
Definition body_string (s : list Z) : list Z :=
  let t := take 511 s in take (default (length t) (cstr_end t)) t.

Lemma cstr_end_pad t n :
  0 < n -> c_string (t ++ zeros n) = Ok (take (default (length t) (cstr_end t)) t).
Proof.
  intros Hn. unfold c_string. rewrite zeros_cons by done.
  induction t as [|c t IH]; simpl; [done|].
  destruct (Z.eqb_spec c 0) as [->|Hc]; [done|].
  destruct (cstr_end (t ++ 0 :: zeros (n - 1))) as [k|]; simpl in *; [|done].
  destruct (cstr_end t); simpl in *; injection IH as ->; done.
Qed.

Lemma resp_string mem s : resp_holds mem s -> c_string (buff mem) = Ok (body_string s).
Proof.
  intros [Hp Hb]. rewrite Hb. apply cstr_end_pad. unfold MAX_RESP_BUFF_SIZE in *. lia.
Qed.

(** What [curl_easy_perform] may hand over: pieces whose length is a size_t. *)
Definition answer_ok (a : answer) : Prop :=
  Forall (fun c => zlen c < 18446744073709551616) (an_chunks a).

Lemma perform_spec rq :
  answer_ok (curl_easy_perform rq) ->
  let a := curl_easy_perform rq in
  perform rq = Ok (classify (an_rc a) (an_status a) (body_string (concat (an_chunks a)))).
Proof.
  intros Ha a. unfold perform. fold a.
  destruct (deliver_spec (an_chunks a) resp_init [] resp_init_holds Ha) as (mem & E & Hm).
  rewrite E. simpl. simpl in Hm. rewrite (resp_string _ _ Hm).
  destruct (an_rc a); reflexivity.
Qed.

Definition net_error (rc : CURLcode) : Prop :=
  rc = CURLE_COULDNT_RESOLVE_PROXY \/ rc = CURLE_COULDNT_RESOLVE_HOST \/
  rc = CURLE_COULDNT_CONNECT \/ rc = CURLE_SEND_ERROR.
Definition sys_error (rc : CURLcode) : Prop := exists n, rc = CURLE_OTHER n.

(** The server accepted the log: transport, status and reply code agree. *)
Definition accepted (rc : CURLcode) (hc : Z) (body : list Z) : Prop :=
  rc = CURLE_OK /\ hc = 200 /\
  exists item, cJSON_GetObjectItem (cJSON_Parse body) (bytes "code") = Some item /\
    valueint item = 200.

Lemma classify_success rc hc body :
  classify rc hc body = SND_SUCCESS <-> accepted rc hc body.
Proof.
  unfold classify, accepted, SND_SUCCESS, SND_ERR_NET, SND_ERR_SRV, SND_ERR_SYS. split.
  - destruct rc; try done. destruct (Z.eqb_spec hc 200); simpl; [|done].
    destruct (cJSON_GetObjectItem _ _) as [it|]; [|done].
    destruct (Z.eqb_spec (valueint it) 200); [|done]. eauto.
  - intros (-> & -> & it & -> & ->). done.
Qed.

Lemma classify_net rc hc body : classify rc hc body = SND_ERR_NET <-> net_error rc.
Proof.
  unfold classify, net_error, SND_SUCCESS, SND_ERR_NET, SND_ERR_SRV, SND_ERR_SYS.
  destruct rc; repeat case_match; naive_solver.
Qed.

Lemma classify_sys rc hc body : classify rc hc body = SND_ERR_SYS <-> sys_error rc.
Proof.
  unfold classify, sys_error, SND_SUCCESS, SND_ERR_NET, SND_ERR_SRV, SND_ERR_SYS.
  destruct rc; repeat case_match; naive_solver.
Qed.

Lemma classify_cases rc hc body :
  classify rc hc body = SND_SUCCESS \/ classify rc hc body = SND_ERR_SYS \/
  classify rc hc body = SND_ERR_NET \/ classify rc hc body = SND_ERR_SRV.
Proof. unfold classify. repeat case_match; tauto. Qed.

Lemma send_log_buff_ok init_ok url token data len :
  (forall rq, answer_ok (curl_easy_perform rq)) ->
  exists r, send_log_buff init_ok url token data len = Ok r /\
    (r = SND_SUCCESS \/ r = SND_ERR_SYS \/ r = SND_ERR_NET \/ r = SND_ERR_SRV).
Proof.
  intros Ha. unfold send_log_buff. destruct init_ok; simpl; [|eauto].
  rewrite perform_spec by apply Ha. eexists. split; [done|]. apply classify_cases.
Qed.

Lemma send_log_file_ok flen init_ok url token path :
  (forall rq, answer_ok (curl_easy_perform rq)) ->
  exists r, send_log_file flen init_ok url token path = Ok r /\
    (r = SND_SUCCESS \/ r = SND_ERR_SYS \/ r = SND_ERR_NET \/ r = SND_ERR_SRV).
Proof.
  intros Ha. unfold send_log_file. destruct (flen <? 0); [eauto|].
  destruct init_ok; simpl; [|eauto]. rewrite perform_spec by apply Ha.
  eexists. split; [done|]. apply classify_cases.
Qed.

(** Whatever the server's body and however libcurl cuts it into pieces,
    the response buffer is never written out of bounds, it ends up holding the
    first 511 bytes of the body followed by NULs, and the callback reports
    every piece as consumed, so that libcurl never aborts the transfer. *)
Theorem response_buffer chunks :
  Forall (fun c => zlen c < 18446744073709551616) chunks ->
  exists mem, deliver chunks resp_init = Ok mem /\
    pos mem = Z.min 511 (zlen (concat chunks)) /\
    buff mem = take 511 (concat chunks) ++ zeros (512 - pos mem) /\
    c_string (buff mem) = Ok (body_string (concat chunks)) /\
    (forall c, zlen c < 18446744073709551616 ->
       exists mem', receive_callback c 1 (zlen c) (Some mem) = Ok (zlen c, Some mem')).
Proof.
  intros H. destruct (deliver_spec chunks resp_init [] resp_init_holds H) as (mem & E & Hm).
  simpl in Hm. exists mem. pose proof (resp_string _ _ Hm).
  split_and!; try done; [apply Hm..|].
  intros c Hc. destruct (callback_spec mem _ c Hm Hc) as (mem' & ? & _). eauto.
Qed.

(** C16 - [send_log_buff] always returns one of the four codes: success
    exactly when libcurl performed, the status is 200 and the first 511 bytes
    of the reply parse to an object whose "code" is 200; a network error
    exactly for the four codes that mean the data never left; a system error
    when libcurl has no handle or an unlisted code; a server error otherwise. *)
Theorem send_log_buff_result init_ok url token data len :
  let a := curl_easy_perform (buff_request url token data len) in
  let body := body_string (concat (an_chunks a)) in
  answer_ok a ->
  exists r, send_log_buff init_ok url token data len = Ok r /\
    (r = SND_SUCCESS \/ r = SND_ERR_SYS \/ r = SND_ERR_NET \/ r = SND_ERR_SRV) /\
    (r = SND_SUCCESS <-> init_ok = true /\ accepted (an_rc a) (an_status a) body) /\
    (r = SND_ERR_NET <-> init_ok = true /\ net_error (an_rc a)) /\
    (r = SND_ERR_SYS <-> init_ok = false \/ sys_error (an_rc a)).
Proof.
  intros a body Ha. unfold send_log_buff. destruct init_ok; simpl.
  - rewrite perform_spec by done. fold a. fold body. eexists. split; [done|].
    pose proof (classify_success (an_rc a) (an_status a) body).
    pose proof (classify_net (an_rc a) (an_status a) body).
    pose proof (classify_sys (an_rc a) (an_status a) body).
    pose proof (classify_cases (an_rc a) (an_status a) body). naive_solver.
  - exists SND_ERR_SYS. unfold SND_SUCCESS, SND_ERR_SYS, SND_ERR_NET, SND_ERR_SRV.
    split; [done|]. split; [tauto|]. split_and!; split; naive_solver.
Qed.

(** [send_log_file] refuses a file whose size cannot be read with a
    system error and never performs; otherwise it asks for chunked transfer
    exactly above 4096 bytes, and gives the same answer the code
    [send_log_buff] gives it. *)
Theorem send_log_file_result flen init_ok url token path :
  let rq := file_request url token path flen in
  let a := curl_easy_perform rq in
  (flen < 0 -> send_log_file flen init_ok url token path = Ok SND_ERR_SYS) /\
  (bytes "Transfer-Encoding: chunked" ∈ rq_headers rq <-> 4096 < flen) /\
  (forall data len, 0 <= flen -> answer_ok a ->
     curl_easy_perform (buff_request url token data len) = a ->
     send_log_file flen init_ok url token path = send_log_buff init_ok url token data len /\
     is_ok (send_log_file flen init_ok url token path)).
Proof.
  intros rq a. split_and!.
  - intros H. unfold send_log_file. destruct (Z.ltb_spec flen 0); [done|lia].
  - unfold rq, file_request, MAX_CHUNKED_DATA_SIZE. simpl rq_headers.
    destruct (Z.gtb_spec flen (1024 * 4)).
    + split; [lia|]. intros _. set_solver.
    + split; [|lia]. intros Hin%list_elem_of_singleton. discriminate Hin.
  - intros data len Hf Ha Heq. unfold send_log_file, send_log_buff.
    destruct (Z.ltb_spec flen 0); [lia|]. destruct init_ok; simpl; [|split; [done|by eexists]].
    rewrite perform_spec by done. rewrite perform_spec by (rewrite Heq; done).
    rewrite Heq. fold rq. fold a. split; [done|by eexists].
Qed.
End Sender.

(** A JSON reader for the demonstrations: a reply is the number in it. *)
Definition demo_parse (b : list Z) : option Z :=
  if decide (b = bytes "{200}") then Some 200 else None.
Definition demo_item (j : option Z) (k : list Z) : option Z :=
  if decide (k = bytes "code") then j else None.
Definition demo_curl (rq : request) : answer :=
  MkAnswer CURLE_OK 200 [bytes "{20"; bytes "0}"].

Lemma response_buffer_witness :
  Forall (fun c => zlen c < 18446744073709551616) [repeat 65 300; repeat 66 300] /\
  exists mem, deliver [repeat 65 300; repeat 66 300] resp_init = Ok mem /\ pos mem = 511.
Proof.
  assert (H : Forall (fun c => zlen c < 18446744073709551616) [repeat 65 300; repeat 66 300]).
  { repeat constructor. }
  split; [exact H|].
  destruct (response_buffer _ H) as (mem & E & Hp & _). exists mem. split; [exact E|].
  rewrite Hp. by vm_compute.
Defined.

Lemma send_log_buff_result_witness :
  exists r, send_log_buff demo_parse demo_item id demo_curl true (bytes "u") (bytes "t")
    (bytes "data") 4 = Ok r /\ r = SND_SUCCESS.
Proof.
  destruct (send_log_buff_result demo_parse demo_item id demo_curl true (bytes "u") (bytes "t")
    (bytes "data") 4) as (r & E & _ & Hs & _); [repeat constructor|].
  exists r. split; [exact E|]. apply Hs. split; [reflexivity|].
  split; [reflexivity|]. split; [reflexivity|]. exists 200. split; vm_compute; reflexivity.
Defined.

Lemma send_log_file_result_witness :
  send_log_file demo_parse demo_item id demo_curl 10 true (bytes "u") (bytes "t") (bytes "p") =
  send_log_buff demo_parse demo_item id demo_curl true (bytes "u") (bytes "t") (bytes "d") 1.
Proof.
  destruct (send_log_file_result demo_parse demo_item id demo_curl 10 true (bytes "u")
    (bytes "t") (bytes "p")) as (_ & _ & H).
  apply (H (bytes "d") 1); [lia|repeat constructor|done].
Defined.

(** A reply longer than the buffer is cut before it is parsed. *)
Example long_reply_cut : zlen (body_string (repeat 65 600)) = 511.
Proof. by vm_compute. Qed.
End Sender.
