(* ===== verification/SenderWorker.v ===== *)
(** The sender thread (src/useapp/worker.c, lines 293-441): one message at a
    time from the queue to the server, the list of file names it works
    through, and the dump of everything unsent to a local file at shutdown. *)
From S2P Require Import Prelude Queue MsgQueue Message Datafile Receiver Sender.
Import Message Datafile.

Module SenderWorker.

(** [messge_filename_forward]: drop the first name of the list. *)
Definition messge_filename_forward (m : message) : res message :=
  n ← c_strlen (mdata m);
  let namelen := i32 n in
  if mtype m =? 1 then
    if mlen m >? i32 (namelen + 1) then
      src ← buf_read (mdata m) (i32 (namelen + 1)) (i32 (mlen m - namelen - 1));
      d ← buf_write (mdata m) 0 src;
      Ok (set_len (set_data m d) (i32 (mlen m - (namelen + 1))))
    else
      d ← arr_set (mdata m) 0 0;
      Ok (set_data (set_len m 0) d)
  else Ok m.

(** [access(name, F_OK)] *)
Definition access (fs : files) (name : list Z) : bool := bool_decide (is_Some (fs !! name)).

(** [basename] on a path that does not end in a slash. *)
Fixpoint basename_from (best s : list Z) : list Z :=
  match s with
  | [] => best
  | c :: r => if c =? 47 then basename_from r r else basename_from best r
  end.
Definition basename (s : list Z) : list Z := basename_from s s.

(** [rename(old, new)] when it succeeds. *)
Definition rename_file (fs : files) (old new : list Z) : files :=
  match fs !! old with
  | Some d => <[new := d]> (delete old fs)
  | None => fs
  end.

(** What was handed to the server, with the code that came back. *)
Inductive event : Type :=
| SentBuff (data : list Z) (ret : Z)
| SentFile (name : list Z) (ret : Z).

(** What libcurl answers in one call of a send function. *)
Record netin := MkNet { n_init : bool; n_curl : Sender.request -> Sender.answer }.

(** What the outside does during one round of the inner loop: messages the
    receiver queues before it, the files it finds, the answers of the server,
    the value of [g_quit] at its end. *)
Record attempt := MkAttempt {
  at_gives : list message;
  at_fs : files;
  at_net : nat -> netin;
  at_gquit : Z
}.

(** What the C library and the file system answer during the dump. *)
Record dumpin := MkDump {
  du_stamp : list Z;
  du_fopen : bool;
  du_rename : list Z -> list Z -> bool;
  du_write : nat -> option Z
}.

Inductive inner_end : Type := Released | Leave (p : ptr) | Going (p : ptr).
Inductive dump_end : Type :=
| DumpNext (p : ptr) (fp : option (list Z)) | DumpOver | DumpLeft (p : ptr).
Inductive iter_end : Type := Again | Ended | Stuck (p : ptr).

(** The outside of one round of the outer loop. *)
Record sinput := MkSInput {
  si_gives : list message;
  si_gquit : Z;
  si_attempts : list attempt;
  si_dump : dumpin
}.

#[local] Set Proof Using Clear Unused.
#[local] Set Default Proof Using "Type".

Section SenderWorker.
Context {Q : Type} {MQ : MsgQueue ptr Q}.
Context {json : Type}.
Context (cJSON_Parse : list Z -> option json).
Context (cJSON_GetObjectItem : option json -> list Z -> option json).
Context (valueint : json -> Z).
(** [get_file_size] of common.h and the constant of api_config.h. *)
Context (get_file_size : files -> list Z -> Z).
Context (MONITOR_URLSUFF : list Z).
(** [conf->host], [conf->access_token], [conf->data.path] *)
Context (host access_token dpath : list Z).

Abbreviation world := (Receiver.world (Q := Q)).
Abbreviation MkWorld := (Receiver.MkWorld (Q := Q)).
Abbreviation wheap := (Receiver.wheap (Q := Q)).
Abbreviation wqueue := (Receiver.wqueue (Q := Q)).
Abbreviation wfs := (Receiver.wfs (Q := Q)).

(** Lines 368-369. *)
Definition url : list Z := take 1022 (host ++ MONITOR_URLSUFF).

Definition send_file (fs : files) (net : netin) (name : list Z) : res Z :=
  Sender.send_log_file cJSON_Parse cJSON_GetObjectItem valueint (n_curl net)
    (get_file_size fs name) (n_init net) url access_token name.
Definition send_buff (net : netin) (data : list Z) (len : Z) : res Z :=
  Sender.send_log_buff cJSON_Parse cJSON_GetObjectItem valueint (n_curl net)
    (n_init net) url access_token data len.

(** Lines 404-421: the files of one list, until one is missing, the network
    fails or the list is empty. *)
Fixpoint send_files (fuel k : nat) (a : attempt) (m : message)
    : res (message * list event) :=
  match fuel with
  | O => UB OutOfFuel
  | S fuel =>
      name ← c_string (mdata m);
      if (zlen name >? 0) && access (at_fs a) name then
        ret ← send_file (at_fs a) (at_net a k) name;
        if ret =? Sender.SND_SUCCESS then
          m ← messge_filename_forward m;
          '(m, ev) ← send_files fuel (S k) a m;
          Ok (m, SentFile name ret :: ev)
        else if (ret =? Sender.SND_ERR_SYS) || (ret =? Sender.SND_ERR_SRV) then
          m ← messge_filename_forward m;
          '(m, ev) ← send_files fuel (S k) a m;
          Ok (m, SentFile name ret :: ev)
        else Ok (m, [SentFile name ret])
      else Ok (m, [])
  end.

Definition names_fuel (m : message) : nat := S (S (length (mdata m))).

(** Lines 387-422: one round of the inner loop on the message [p]. *)
Definition attempt_body (a : attempt) (p : ptr) (w : world)
    : res (option ptr * world * list event) :=
  m ← load (wheap w) p;
  if mtype m =? 0 then
    d ← buf_read (mdata m) 0 (mlen m);
    ret ← send_buff (at_net a 0) d (mlen m);
    if ret =? Sender.SND_SUCCESS then
      '(msg, h) ← MESSAGE_DEL (wheap w) (Some p);
      Ok (msg, MkWorld h (wqueue w) (wfs w), [SentBuff d ret])
    else if (ret =? Sender.SND_ERR_SYS) || (ret =? Sender.SND_ERR_SRV) then
      '(msg, h) ← MESSAGE_DROP (wheap w) (Some p);
      Ok (msg, MkWorld h (wqueue w) (wfs w), [SentBuff d ret])
    else Ok (Some p, w, [SentBuff d ret])
  else
    '(m, ev) ← send_files (names_fuel m) 0 a m;
    h ← store (wheap w) p m;
    Ok (Some p, MkWorld h (wqueue w) (wfs w), ev).

(** The receiver thread allocates messages and offers them to the queue; one
    that is refused stays with the receiver. *)
Fixpoint receiver_gives (ms : list message) (w : world) : res world :=
  match ms with
  | [] => Ok w
  | m :: ms =>
      let '(p, h) := alloc (wheap w) m in
      '(_, q) ← mq_push_wait (wqueue w) p;
      receiver_gives ms (MkWorld h q (wfs w))
  end.

Definition interfere (a : attempt) (w : world) : res world :=
  w ← receiver_gives (at_gives a) w; Ok (MkWorld (wheap w) (wqueue w) (at_fs a)).

(** Lines 385-429: the inner loop, one attempt after the other; [Going] when
    the attempts given are used up and the loop has not ended. *)
Fixpoint inner (ats : list attempt) (p : ptr) (w : world)
    : res (inner_end * world * list event) :=
  match ats with
  | [] => Ok (Going p, w, [])
  | a :: ats =>
      w ← interfere a w;
      '(msg, w, ev) ← attempt_body a p w;
      match msg with
      | None => Ok (Released, w, ev)
      | Some p =>
          if Receiver.check_workers_quit (at_gquit a) =? 0
          then '(e, w, ev') ← inner ats p w; Ok (e, w, ev ++ ev')
          else Ok (Leave p, w, ev)
      end
  end.

(** Lines 322-335: every file of the list that exists is renamed. *)
Definition dump_target (name : list Z) : list Z :=
  take 510 (dpath ++ [47] ++ access_token ++ [95] ++ basename name).

Fixpoint dump_names (fuel : nat) (du : dumpin) (m : message) (fs : files)
    : res (message * files) :=
  match fuel with
  | O => UB OutOfFuel
  | S fuel =>
      name ← c_string (mdata m);
      if (zlen name >? 0) && access fs name then
        nb ← buf_write (zeros 512) 0
               (snprintf_bytes (512 - 1) (dpath ++ [47] ++ access_token ++ [95] ++ basename name));
        target ← c_string nb;
        let fs := if du_rename du name target then rename_file fs name target else fs in
        m ← messge_filename_forward m;
        dump_names fuel du m fs
      else Ok (m, fs)
  end.

(** Lines 338-349: the dump file is opened for the first message that needs
    it; [None] when that fails. *)
Definition dump_open (du : dumpin) (fp : option (list Z)) (fs : files)
    : res (option (list Z) * files) :=
  match fp with
  | Some _ => Ok (fp, fs)
  | None =>
      nb ← buf_write (zeros 512) 0
             (snprintf_bytes (512 - 20) (dpath ++ [47] ++ access_token ++ [95]));
      n ← c_strlen nb;
      text ← strftime_bytes (du_stamp du) 20;
      nb ← buf_write nb n text;
      name ← c_string nb;
      if du_fopen du then Ok (Some name, touch fs name) else Ok (None, fs)
  end.

(** Lines 320-359: what the loop does with the message in hand; [true] when
    the dump file could not be opened.  [k] numbers the messages. *)
Definition dump_body (k : nat) (du : dumpin) (p : ptr) (fp : option (list Z)) (w : world)
    : res (bool * option (list Z) * heap * files) :=
  m ← load (wheap w) p;
  if mtype m =? 1 then
    '(m, fs) ← dump_names (names_fuel m) du m (wfs w);
    h ← store (wheap w) p m;
    Ok (false, fp, h, fs)
  else
    '(fp, fs) ← dump_open du fp (wfs w);
    match fp with
    | None => Ok (true, None, wheap w, fs)
    | Some name =>
        d ← buf_read (mdata m) 0 (mlen m);
        Ok (false, fp, wheap w, (fwrite (du_write du k) fs name d).2)
    end.

(** One round of the loop: it goes on with the next message and the dump
    file, the queue is empty, or the dump file could not be opened. *)
Definition dump_round (k : nat) (du : dumpin) (p : ptr) (fp : option (list Z)) (w : world)
    : res (dump_end * world) :=
  '(stop, fp, h, fs) ← dump_body k du p fp w;
  if (stop : bool) then Ok (DumpLeft p, MkWorld h (wqueue w) fs)
  else
    '(_, h) ← MESSAGE_DEL h (Some p);
    '(v, q) ← mq_pop_wait (wqueue w);
    match v with
    | None => Ok (DumpOver, MkWorld h q fs)
    | Some p => Ok (DumpNext p fp, MkWorld h q fs)
    end.

Fixpoint message_dump_to_file (fuel k : nat) (du : dumpin) (p : ptr) (fp : option (list Z))
    (w : world) : res world :=
  match fuel with
  | O => UB OutOfFuel
  | S fuel =>
      '(next, w) ← dump_round k du p fp w;
      match next with
      | DumpNext p fp => message_dump_to_file fuel (S k) du p fp w
      | DumpOver | DumpLeft _ => Ok w
      end
  end.

(** One round of [sender_worker]'s outer loop. *)
Definition sender_iter (i : sinput) (w : world) : res (iter_end * world * list event) :=
  w ← receiver_gives (si_gives i) w;
  '(v, q) ← mq_pop_wait (wqueue w);
  let w := MkWorld (wheap w) q (wfs w) in
  match v with
  | None =>
      if Receiver.check_workers_quit (si_gquit i) =? 0
      then Ok (Again, w, []) else Ok (Ended, w, [])
  | Some p =>
      '(e, w, ev) ← inner (si_attempts i) p w;
      match e with
      | Released => Ok (Again, w, ev)
      | Leave p =>
          w ← message_dump_to_file (S (Z.to_nat (mq_cap (wqueue w)))) 0 (si_dump i) p None w;
          Ok (Ended, w, ev)
      | Going p => Ok (Stuck p, w, ev)
      end
  end.

(** The whole thread, for as many rounds as inputs are given. *)
Fixpoint sender_worker (ins : list sinput) (w : world) : res (iter_end * world * list event) :=
  match ins with
  | [] => Ok (Again, w, [])
  | i :: ins =>
      '(e, w, ev) ← sender_iter i w;
      match e with
      | Again => '(e, w, ev') ← sender_worker ins w; Ok (e, w, ev ++ ev')
      | _ => Ok (e, w, ev)
      end
  end.

(** ** Walking through a list of names *)

(** A names message the sender can walk through: it ends in a NUL, so every
    [strlen] stops inside it. *)
Definition list_ok (m : message) : Prop :=
  mtype m = 1 /\ 0 <= mlen m <= zlen (mdata m) /\ zlen (mdata m) <= MSG_LIMIT /\
  last (mdata m) = Some 0.

Lemma list_name m : list_ok m ->
  exists s r, mdata m = s ++ 0 :: r /\ no_nul s /\ c_string (mdata m) = Ok s /\
    c_strlen (mdata m) = Ok (zlen s).
Proof.
  intros (_ & _ & _ & Hl). destruct (last_cstr _ Hl) as [n Hn].
  destruct (cstr_end_split _ _ Hn) as (s & r & E & Hs & _).
  exists s, r. rewrite E. split_and!; [done|done|by apply c_string_app|by apply c_strlen_app].
Qed.

(** One step forward: either some bytes of the list are gone, or the list is
    empty from now on. *)
Lemma forward_ok m : list_ok m ->
  exists m', messge_filename_forward m = Ok m' /\ list_ok m' /\
    zlen (mdata m') = zlen (mdata m) /\
    (mlen m' < mlen m \/ (mlen m' = 0 /\ exists r, mdata m' = 0 :: r)).
Proof.
  intros Hm. destruct (list_name m Hm) as (s & r & E & Hs & _ & Hlen).
  destruct Hm as (Ht & Hl & Hz & Hlast). unfold messge_filename_forward.
  rewrite Hlen, Ht. simpl. pose proof (zlen_nonneg s). pose proof (zlen_nonneg r).
  pose proof (f_equal zlen E) as Hsz. rewrite zlen_app, zlen_cons in Hsz.
  unfold MSG_LIMIT in *.
  rewrite (i32_id (zlen s)), (i32_id (zlen s + 1)) by (unfold in_i32; lia).
  destruct (Z.gtb_spec (mlen m) (zlen s + 1)) as [Hgt|Hle].
  - rewrite (i32_id (mlen m - zlen s - 1)), (i32_id (mlen m - (zlen s + 1)))
      by (unfold in_i32; lia).
    destruct (buf_read (mdata m) (zlen s + 1) (mlen m - zlen s - 1)) as [d|e] eqn:Ed.
    2: { unfold buf_read in Ed. destruct (in_bounds _ _ _) eqn:Eb; [done|].
         assert (in_bounds (mdata m) (zlen s + 1) (mlen m - zlen s - 1) = true); [|congruence].
         apply in_bounds_true. lia. }
    pose proof (buf_read_ok _ _ _ _ Ed) as (_ & _ & _ & Hd). simpl.
    destruct (buf_write_is_ok (mdata m) 0 d) as [d' Ed']; [lia..|]. rewrite Ed'. simpl.
    pose proof (buf_write_ok _ _ _ _ Ed') as (_ & _ & Hd').
    eexists. split; [done|]. unfold list_ok, MSG_LIMIT. simpl.
    rewrite (last_buf_write _ _ _ _ Ed') by lia.
    split_and!; try done; lia.
  - unfold arr_set. assert (in_bounds (mdata m) 0 1 = true) as ->.
    { apply in_bounds_true. lia. }
    simpl. eexists. split; [done|]. unfold list_ok, MSG_LIMIT. simpl. rewrite zlen_insert.
    assert (Hlast' : last (<[0%nat:=0]> (mdata m)) = Some 0).
    { apply last_Some in Hlast as [q Eq]. rewrite Eq. destruct q as [|c q]; [done|].
      simpl. rewrite app_comm_cons. apply last_snoc. }
    split_and!; try done; try lia. right. split; [done|].
    destruct (mdata m) as [|c d]; [|by exists d]. by destruct s.
Qed.

(** The list the message holds, and an empty one that also reads empty. *)
Definition list_wf (fcnt : Z) (m : message) (names : list (list Z)) : Prop :=
  names_wf fcnt m names /\ (names = [] -> exists r, mdata m = 0 :: r).

Lemma names_list_ok fcnt m names :
  names_wf fcnt m names -> fcnt <= 5 -> list_ok m.
Proof.
  intros [Ht Hc Hl Hd He] Hf. split; [done|].
  pose proof (f_equal zlen Hd) as Hz. unfold zlen in *. rewrite length_take in Hz.
  unfold MSG_LIMIT, FNAME_SIZE in *. split; [|split; [|done]]; lia.
Qed.

Lemma names_head fcnt m n names :
  names_wf fcnt m (n :: names) ->
  exists r, mdata m = n ++ 0 :: names_bytes names ++ r /\
    mlen m = zlen n + 1 + zlen (names_bytes names).
Proof.
  intros Hw. destruct (names_split _ _ _ Hw) as [r Hr]. exists r.
  split. { rewrite Hr. unfold names_bytes. csimpl. by rewrite <- !app_assoc. }
  rewrite (names_len _ _ _ Hw). unfold names_bytes. csimpl. autorewrite with zlen. lia.
Qed.

Lemma forward_list fcnt m n names :
  names_wf fcnt m (n :: names) -> fcnt <= 5 -> name_ok n -> Forall name_ok names ->
  exists m', messge_filename_forward m = Ok m' /\ list_wf fcnt m' names /\
    zlen (mdata m') = zlen (mdata m).
Proof.
  intros Hw Hf [Hn Hnl] Hns. pose proof (names_list_ok _ _ _ Hw Hf) as Hm.
  destruct (forward_ok m Hm) as (m' & Em & Hm' & Hz & _). exists m'. split; [done|].
  split; [|done]. destruct (names_head _ _ _ _ Hw) as (r & Hr & Hl).
  destruct Hm as (Ht & Hml & Hmz & _). pose proof (names_bytes_len names Hns).
  unfold messge_filename_forward, MSG_LIMIT in *. revert Em.
  rewrite Ht, Hr, c_strlen_app by done. simpl.
  rewrite (i32_id (zlen n)), (i32_id (zlen n + 1)) by (unfold in_i32; lia).
  destruct names as [|n2 names].
  - change (zlen (names_bytes [])) with 0 in *.
    destruct (Z.gtb_spec (mlen m) (zlen n + 1)); [lia|].
    intros Em. res_inv. unfold arr_set in E. case_match; simplify_eq.
    destruct n as [|c n']; [unfold zlen in Hnl; simpl in Hnl; lia|]. simpl in Hm' |- *.
    split; [|by eexists]. destruct Hm' as (?&?&?&?).
    split; try done. simpl in *. rewrite Hz. apply (names_cap _ _ _ Hw).
  - set (ns := n2 :: names) in *.
    assert (Hpos : 0 < zlen (names_bytes ns)).
    { unfold ns, names_bytes. csimpl. autorewrite with zlen. pose proof (zlen_nonneg n2).
      pose proof (zlen_nonneg (concat ((fun n => n ++ [0]) <$> names))). lia. }
    destruct (Z.gtb_spec (mlen m) (zlen n + 1)); [|lia].
    rewrite (i32_id (mlen m - zlen n - 1)), (i32_id (mlen m - (zlen n + 1)))
      by (unfold in_i32; lia).
    replace (mlen m - zlen n - 1) with (zlen (names_bytes ns)) by lia.
    replace (n ++ 0 :: names_bytes ns ++ r) with ((n ++ [0]) ++ names_bytes ns ++ r)
      by (by rewrite <- app_assoc).
    replace (zlen n + 1) with (zlen (n ++ [0])) by (by autorewrite with zlen).
    rewrite buf_read_mid. simpl. intros Em. res_inv.
    apply (buf_write_app []) in E. simpl in E.
    split; [|done]. destruct Hm' as (?&?&?&?). split; try done; simpl in *.
    + rewrite Hz. apply (names_cap _ _ _ Hw).
    + autorewrite with zlen in *. lia.
    + rewrite E. by rewrite take_app_length.
Qed.

(** libcurl's answers are well-formed, whatever is asked. *)
Definition net_ok (a : attempt) : Prop :=
  forall k rq, Sender.answer_ok (n_curl (at_net a k) rq).

Lemma send_file_ok a k name :
  net_ok a -> exists r, send_file (at_fs a) (at_net a k) name = Ok r /\
    (r = Sender.SND_SUCCESS \/ r = Sender.SND_ERR_SYS \/ r = Sender.SND_ERR_NET \/
     r = Sender.SND_ERR_SRV).
Proof. intros H. apply Sender.send_log_file_ok. intros rq. apply H. Qed.

Lemma send_buff_ok a k d len :
  net_ok a -> exists r, send_buff (at_net a k) d len = Ok r /\
    (r = Sender.SND_SUCCESS \/ r = Sender.SND_ERR_SYS \/ r = Sender.SND_ERR_NET \/
     r = Sender.SND_ERR_SRV).
Proof. intros H. apply Sender.send_log_buff_ok. intros rq. apply H. Qed.

(** What one round does with a list of names: [visits a k names ev rest]
    when, from the [k]-th send on, it sends the names in order, stopping at a
    missing file or a network error. *)
Inductive visits (a : attempt) : nat -> list (list Z) -> list event -> list (list Z) -> Prop :=
| visits_done k : visits a k [] [] []
| visits_missing k n ns : access (at_fs a) n = false -> visits a k (n :: ns) [] (n :: ns)
| visits_net k n ns :
    access (at_fs a) n = true -> send_file (at_fs a) (at_net a k) n = Ok Sender.SND_ERR_NET ->
    visits a k (n :: ns) [SentFile n Sender.SND_ERR_NET] (n :: ns)
| visits_next k n ns ret ev rest :
    access (at_fs a) n = true -> send_file (at_fs a) (at_net a k) n = Ok ret ->
    ret <> Sender.SND_ERR_NET -> visits a (S k) ns ev rest ->
    visits a k (n :: ns) (SentFile n ret :: ev) rest.

(** The two branches that move on to the next name do the same. *)
Lemma send_files_step fuel k a m n ret :
  c_string (mdata m) = Ok n -> 0 < zlen n -> access (at_fs a) n = true ->
  send_file (at_fs a) (at_net a k) n = Ok ret ->
  (ret = Sender.SND_SUCCESS \/ ret = Sender.SND_ERR_SYS \/ ret = Sender.SND_ERR_SRV) ->
  send_files (S fuel) k a m =
    (m ← messge_filename_forward m;
     '(m, ev) ← send_files fuel (S k) a m;
     Ok (m, SentFile n ret :: ev)).
Proof.
  intros Hs Hn Ha Hr Hret. simpl. rewrite Hs. simpl.
  destruct (Z.gtb_spec (zlen n) 0); [|lia]. rewrite Ha. simpl. rewrite Hr. simpl.
  by destruct Hret as [->|[->| ->]].
Qed.

Lemma send_files_stop fuel k a m n :
  c_string (mdata m) = Ok n -> zlen n = 0 \/ access (at_fs a) n = false ->
  send_files (S fuel) k a m = Ok (m, []).
Proof.
  intros Hs Hn. simpl. rewrite Hs. simpl.
  destruct (Z.gtb_spec (zlen n) 0); simpl; [|done]. destruct Hn as [?| ->]; [lia|done].
Qed.

Lemma send_files_net fuel k a m n :
  c_string (mdata m) = Ok n -> 0 < zlen n -> access (at_fs a) n = true ->
  send_file (at_fs a) (at_net a k) n = Ok Sender.SND_ERR_NET ->
  send_files (S fuel) k a m = Ok (m, [SentFile n Sender.SND_ERR_NET]).
Proof.
  intros Hs Hn Ha Hr. simpl. rewrite Hs. simpl.
  destruct (Z.gtb_spec (zlen n) 0); [|lia]. rewrite Ha. simpl. by rewrite Hr.
Qed.

#[local] Arguments send_files : simpl never.

Lemma send_files_visits fuel k a fcnt m names :
  list_wf fcnt m names -> fcnt <= 5 -> Forall name_ok names -> net_ok a ->
  (length names < fuel)%nat ->
  exists m' ev rest, send_files fuel k a m = Ok (m', ev) /\ visits a k names ev rest /\
    list_wf fcnt m' rest /\ zlen (mdata m') = zlen (mdata m) /\ exists pre, names = pre ++ rest.
Proof.
  intros Hw Hf Hns Ha. revert k m names Hw Hns.
  induction fuel as [|fuel IH]; intros k m names Hw Hns Hfuel; [lia|].
  destruct names as [|n names].
  { destruct (proj2 Hw eq_refl) as [r Hr]. exists m, [], [].
    rewrite (send_files_stop _ _ _ _ []) by (rewrite ?Hr; auto).
    split_and!; [done|constructor|done|done|by exists []]. }
  destruct Hw as [Hw _]. destruct (names_head _ _ _ _ Hw) as (r & Hr & _).
  apply Forall_cons in Hns as [[Hn Hnl] Hns].
  assert (Hcs : c_string (mdata m) = Ok n) by (rewrite Hr; by apply c_string_app).
  destruct (access (at_fs a) n) eqn:Eacc.
  2: { exists m, [], (n :: names). rewrite (send_files_stop _ _ _ _ n) by auto.
       split_and!; [done|by constructor|by split|done|by exists []]. }
  destruct (send_file_ok a k n Ha) as (ret & Er & Hret).
  destruct (decide (ret = Sender.SND_ERR_NET)) as [->|Hne].
  { exists m, [SentFile n Sender.SND_ERR_NET], (n :: names).
    rewrite (send_files_net _ _ _ _ n) by (lia || done).
    split_and!; [done|by constructor|by split|done|by exists []]. }
  rewrite (send_files_step _ _ _ _ n ret) by (lia || done || tauto).
  destruct (forward_list fcnt m n names) as (m1 & -> & Hw1 & Hz); [done|done|done|done|].
  simpl. simpl in Hfuel.
  destruct (IH (S k) m1 names Hw1 Hns ltac:(lia)) as (m' & ev & rest & -> & Hv & Hw' & Hz' & pre & ->).
  simpl. exists m', (SentFile n ret :: ev), rest.
  split_and!; [done|by econstructor|done|congruence|by exists (n :: pre)].
Qed.

(** Whatever the list holds, the round ends and leaves a list behind. *)
Lemma send_files_safe fuel k a m :
  list_ok m -> net_ok a ->
  (Z.to_nat (mlen m) + 2 <= fuel)%nat \/ ((exists r, mdata m = 0 :: r) /\ (1 <= fuel)%nat) ->
  exists m' ev, send_files fuel k a m = Ok (m', ev) /\ list_ok m'.
Proof.
  intros Hm Ha. revert k m Hm. induction fuel as [|fuel IH]; intros k m Hm Hfuel; [lia|].
  destruct (list_name m Hm) as (s & r & Hr & Hs & Hcs & _).
  destruct (decide (zlen s = 0 \/ access (at_fs a) s = false)) as [Hstop|Hgo].
  { rewrite (send_files_stop _ _ _ _ s) by done. eauto. }
  apply Decidable.not_or in Hgo as [Hnz Hacc]. apply not_false_is_true in Hacc.
  pose proof (zlen_nonneg s).
  destruct (send_file_ok a k s Ha) as (ret & Er & Hret).
  destruct (decide (ret = Sender.SND_ERR_NET)) as [->|Hne].
  { rewrite (send_files_net _ _ _ _ s) by (lia || done). eauto. }
  rewrite (send_files_step _ _ _ _ s ret) by (lia || done || tauto).
  destruct (forward_ok m Hm) as (m1 & -> & Hm1 & _ & Hdec). simpl.
  destruct Hfuel as [Hfuel|[[r' Hr'] _]].
  2: { rewrite Hr' in Hcs. injection Hcs as <-. by rewrite zlen_nil in Hnz. }
  destruct (IH (S k) m1 Hm1) as (m' & ev & -> & Hm').
  { destruct Hm as (_&?&_), Hm1 as (_&?&_). destruct Hdec as [?|[??]]; [left; lia|right].
    split; [done|lia]. }
  simpl. eauto.
Qed.

(** ** The heap and the queue as the sender finds them *)

(** A message the sender can be given. *)
Definition sendable (m : message) : Prop :=
  (mtype m = 0 /\ message_wf m) \/ list_ok m.

Lemma queued_sendable m : Receiver.queued_ok m -> sendable m.
Proof.
  intros [(?&?&_)|(fcnt & names & ? & Hw & _)]; [by left|right]. by eapply names_list_ok.
Qed.

Record sinv (w : world) (l : list ptr) : Prop := {
  si_heap : heap_wf (wheap w);
  si_queue : mq_holds (wqueue w) l;
  si_nodup : NoDup l;
  si_msgs : forall p, p ∈ l -> exists m, cells (wheap w) !! p = Some m /\ sendable m
}.

(** The queue plus a message of the sender's own. *)
Definition owns (w : world) (l : list ptr) (p : ptr) (m : message) : Prop :=
  sinv w l /\ (p ∉ l) /\ cells (wheap w) !! p = Some m.

Lemma receiver_gives_cons m ms w :
  receiver_gives (m :: ms) w =
    ('(_, q) ← mq_push_wait (wqueue w) (brk (wheap w));
     receiver_gives ms (MkWorld (snd (alloc (wheap w) m)) q (wfs w))).
Proof. done. Qed.

Lemma gives_inv ms w l :
  sinv w l -> Forall sendable ms ->
  exists w' l', receiver_gives ms w = Ok w' /\ sinv w' (l ++ l') /\ wfs w' = wfs w /\
    mq_cap (wqueue w') = mq_cap (wqueue w) /\
    forall p m, cells (wheap w) !! p = Some m -> cells (wheap w') !! p = Some m /\ p ∉ l'.
Proof.
  intros Hinv Hms. revert w l Hinv.
  induction Hms as [|m ms Hm Hms IH]; intros w l [Hh Hq Hnd Hl].
  { exists w, []. split; [done|]. rewrite app_nil_r. split_and!; try done. intros p m Hp. split; [done|]. apply not_elem_of_nil. }
  rewrite receiver_gives_cons. set (p := brk (wheap w)). set (h := snd (alloc (wheap w) m)).
  assert (Hp : cells (wheap w) !! p = None) by (by apply alloc_fresh).
  assert (Hh' : heap_wf h) by (by eapply (alloc_wf (wheap w))).
  assert (Hold : forall p' m', cells (wheap w) !! p' = Some m' -> cells h !! p' = Some m').
  { intros p' m' Hp'. simpl. rewrite lookup_insert_ne; [done|]. fold p. congruence. }
  assert (Hpl : p ∉ l) by (intros (m' & Hm' & _)%Hl; congruence).
  destruct (mq_push_cases (wqueue w) l p Hq) as [(q' & -> & Hq' & Hcap)| ->]; simpl.
  - destruct (IH (MkWorld h q' (wfs w)) (l ++ [p])) as (w' & l' & -> & Hinv' & Hfs & Hc & Hpres).
    { split; simpl; [done|done| |].
      - apply NoDup_app. split; [done|]. split; [|apply NoDup_singleton]. set_solver.
      - intros p' [Hp'|Hp']%elem_of_app.
        + destruct (Hl _ Hp') as (m' & ? & ?). eauto.
        + apply list_elem_of_singleton in Hp' as ->. exists m. split; [|done].
          apply lookup_insert_eq. }
    exists w', (p :: l'). rewrite <- app_assoc in Hinv'. split_and!; try done.
    { simpl in Hc. congruence. }
    intros p' m' Hp'. destruct (Hpres p' m' (Hold _ _ Hp')) as [? Hn]. split; [done|].
    apply not_elem_of_cons. split; [congruence|done].
  - destruct (IH (MkWorld h (wqueue w) (wfs w)) l) as (w' & l' & -> & Hinv' & Hfs & Hc & Hpres).
    { split; simpl; [done..|]. intros p' Hp'. destruct (Hl _ Hp') as (m' & ? & ?). eauto. }
    exists w', l'. split_and!; try done. intros p' m' Hp'. by apply Hpres, Hold.
Qed.

Lemma attempt_interfere a w l p m :
  owns w l p m -> Forall sendable (at_gives a) ->
  exists w' l', interfere a w = Ok w' /\ owns w' (l ++ l') p m /\ wfs w' = at_fs a /\
    mq_cap (wqueue w') = mq_cap (wqueue w).
Proof.
  intros (Hinv & Hpl & Hp) Hms.
  destruct (gives_inv _ w l Hinv Hms) as (w' & l' & E & Hinv' & _ & Hc & Hpres).
  unfold interfere. rewrite E. simpl. destruct (Hpres p m Hp) as [Hp' Hpl'].
  eexists _, l'. split; [done|]. split; [|done]. split; [by destruct Hinv'|].
  split; [|done]. rewrite elem_of_app. tauto.
Qed.

(** Replacing or freeing the message in hand leaves the queue alone. *)
Lemma owns_store w l p m m' :
  owns w l p m -> exists h, store (wheap w) p m' = Ok h /\
    owns (MkWorld h (wqueue w) (wfs w)) l p m'.
Proof.
  intros ([Hh Hq Hnd Hl] & Hpl & Hp). eexists. split; [by eapply store_ok|].
  split; [|split; [done|apply lookup_insert_eq]]. split; simpl; try done.
  - eapply (store_wf (wheap w) p m'); [done|]. by eapply store_ok.
  - intros p' Hp'. rewrite lookup_insert_ne by set_solver. by apply Hl.
Qed.

Lemma owns_free w l p m fs :
  owns w l p m -> exists h, free (wheap w) p = Ok h /\ sinv (MkWorld h (wqueue w) fs) l /\
    cells h !! p = None.
Proof.
  intros ([Hh Hq Hnd Hl] & Hpl & Hp). eexists. split; [by eapply free_ok|].
  split; [|apply lookup_delete_eq]. split; simpl; try done.
  - eapply (free_wf (wheap w) p); [done|]. by eapply free_ok.
  - intros p' Hp'. rewrite lookup_delete_ne by set_solver. by apply Hl.
Qed.

(** ** One round of the inner loop *)
Definition attempt_ok (a : attempt) : Prop := net_ok a /\ Forall sendable (at_gives a).

(** A buffer message leaves the round freed, unless the network failed. *)
Lemma attempt_buff a p w l m :
  owns w l p m -> mtype m = 0 -> message_wf m -> net_ok a ->
  exists ret, send_buff (at_net a 0) (payload m) (mlen m) = Ok ret /\
    ((ret = Sender.SND_ERR_NET /\
      attempt_body a p w = Ok (Some p, w, [SentBuff (payload m) ret])) \/
     (ret <> Sender.SND_ERR_NET /\ exists w', sinv w' l /\ cells (wheap w') !! p = None /\
      wfs w' = wfs w /\ wqueue w' = wqueue w /\
      attempt_body a p w = Ok (None, w', [SentBuff (payload m) ret]))).
Proof.
  intros Ho Ht Hm Ha. destruct (send_buff_ok a 0 (payload m) (mlen m) Ha) as (ret & Er & Hret).
  exists ret. split; [done|]. pose proof Ho as (Hinv & Hpl & Hp). unfold attempt_body.
  rewrite (load_ok _ _ _ Hp). simpl. rewrite Ht. simpl. rewrite payload_read by done. simpl.
  rewrite Er. simpl.
  destruct (owns_free w l p m (wfs w) Ho) as (h & Ef & Hinv' & Hnone).
  assert (Hd : message_drop (wheap w) (Some p) = Ok h).
  { simpl. rewrite (load_ok _ _ _ Hp). simpl. done. }
  destruct Hret as [->|[->|[->| ->]]].
  2,4: right; split; [done|]; simpl; unfold MESSAGE_DROP; rewrite Hd; simpl; eauto 10.
  - right. split; [done|]. simpl. unfold MESSAGE_DEL. simpl. rewrite Ef. simpl. eauto 10.
  - by left.
Qed.

Lemma attempt_list a p w l m :
  owns w l p m -> list_ok m -> net_ok a ->
  exists w' m' ev, attempt_body a p w = Ok (Some p, w', ev) /\ owns w' l p m' /\ list_ok m' /\
    wfs w' = wfs w /\ wqueue w' = wqueue w /\ send_files (names_fuel m) 0 a m = Ok (m', ev).
Proof.
  intros Ho Hm Ha. pose proof Ho as (Hinv & Hpl & Hp). unfold attempt_body.
  rewrite (load_ok _ _ _ Hp). simpl. destruct Hm as (Ht & Hl & ?) eqn:EHm. rewrite Ht. simpl.
  destruct (send_files_safe (names_fuel m) 0 a m) as (m' & ev & -> & Hm'); [done|done| |].
  { left. unfold names_fuel, zlen in *. lia. }
  simpl. destruct (owns_store w l p m m' Ho) as (h & -> & Ho'). simpl. eauto 10.
Qed.

(** The round touches no message but its own. *)
Lemma attempt_frame a p w msg w' ev q :
  attempt_body a p w = Ok (msg, w', ev) -> q <> p -> cells (wheap w') !! q = cells (wheap w) !! q.
Proof.
  intros H Hq. unfold attempt_body, MESSAGE_DEL, MESSAGE_DROP in H.
  assert (Hfree : forall h, free (wheap w) p = Ok h -> cells h !! q = cells (wheap w) !! q).
  { intros h Eh. unfold free in Eh. case_match; simplify_eq. simpl. by rewrite lookup_delete_ne. }
  repeat (res_inv; try case_match; simplify_eq); try done; simpl in *; res_inv; simplify_eq; auto.
  unfold store in *. res_inv. simplify_eq. simpl. by rewrite lookup_insert_ne.
Qed.

(** ** The inner loop *)
Definition goes_on (a : attempt) : Prop := at_gquit a <> 1.

Lemma check_goes_on a : goes_on a -> (Receiver.check_workers_quit (at_gquit a) =? 0) = true.
Proof.
  unfold goes_on, Receiver.check_workers_quit. intros H. destruct (Z.eqb_spec (at_gquit a) 1); done.
Qed.
Lemma check_quits a : at_gquit a = 1 -> (Receiver.check_workers_quit (at_gquit a) =? 0) = false.
Proof. by intros ->. Qed.

#[local] Arguments attempt_body : simpl never.
#[local] Arguments interfere : simpl never.

(** Rounds that all fail for the network keep the message as it is. *)
Lemma inner_retries pre rest p w l m :
  owns w l p m -> mtype m = 0 -> message_wf m -> Forall attempt_ok pre ->
  Forall (fun a => goes_on a /\
    send_buff (at_net a 0) (payload m) (mlen m) = Ok Sender.SND_ERR_NET) pre ->
  exists w' l', owns w' (l ++ l') p m /\
    inner (pre ++ rest) p w =
      ('(e, w'', ev) ← inner rest p w';
       Ok (e, w'', repeat (SentBuff (payload m) Sender.SND_ERR_NET) (length pre) ++ ev)).
Proof.
  intros Ho Ht Hm Hok Hnet. revert w l Ho Hok. induction Hnet as [|a pre [Hg Hs] Hnet IH];
    intros w l Ho Hok.
  { exists w, []. rewrite app_nil_r. split; [done|]. simpl.
    by destruct (inner rest p w) as [[[??]?]|]. }
  apply Forall_cons in Hok as [[Ha Hgv] Hok]. simpl.
  destruct (attempt_interfere a w l p m Ho Hgv) as (w1 & l1 & -> & Ho1 & _). simpl.
  destruct (attempt_buff a p w1 (l ++ l1) m Ho1 Ht Hm Ha) as (ret & Er & Hcase).
  rewrite Er in Hs. injection Hs as ->.
  destruct Hcase as [[_ ->]|[? _]]; [|done]. simpl. rewrite check_goes_on by done.
  destruct (IH w1 (l ++ l1) Ho1 Hok) as (w' & l' & Ho' & ->).
  exists w', (l1 ++ l'). rewrite app_assoc. split; [done|].
  by destruct (inner rest p w') as [[[??]?]|].
Qed.

(** A list of names never leaves the loop by itself. *)
Lemma inner_list ats p w l m :
  owns w l p m -> list_ok m -> Forall attempt_ok ats ->
  exists w' l' m' e ev, inner ats p w = Ok (e, w', ev) /\ owns w' (l ++ l') p m' /\ list_ok m' /\
    mq_cap (wqueue w') = mq_cap (wqueue w) /\
    (e = Going p /\ Forall goes_on ats \/ e = Leave p /\ Exists (fun a => at_gquit a = 1) ats).
Proof.
  intros Ho Hm Hok. revert w l m Ho Hm. induction Hok as [|a ats [Ha Hgv] Hok IH];
    intros w l m Ho Hm.
  { exists w, [], m, (Going p), []. rewrite app_nil_r. simpl. auto 10. }
  simpl. destruct (attempt_interfere a w l p m Ho Hgv) as (w1 & l1 & -> & Ho1 & _ & Hc). simpl.
  destruct (attempt_list a p w1 _ m Ho1 Hm Ha) as (w2 & m2 & ev & -> & Ho2 & Hm2 & _ & Hq & _).
  simpl. destruct (decide (at_gquit a = 1)) as [Hq1|Hg].
  - rewrite check_quits by done. eexists _, _, m2, _, _. split; [done|]. split_and!; try done.
    { by rewrite Hq. }
    right. split; [done|]. by apply Exists_cons_hd.
  - rewrite check_goes_on by done.
    destruct (IH w2 (l ++ l1) m2 Ho2 Hm2) as (w' & l' & m' & e & ev' & -> & Ho' & Hm' & Hc' & He).
    simpl. exists w', (l1 ++ l'), m', e, (ev ++ ev'). rewrite app_assoc.
    split_and!; try done; [congruence|].
    destruct He as [[-> ?]|[-> ?]]; [left|right]; (split; [done|]).
    + by constructor.
    + by apply Exists_cons_tl.
Qed.

(** The loop on any message: it is freed, handed to the dump, or still there. *)
Lemma inner_ok ats p w l m :
  owns w l p m -> sendable m -> Forall attempt_ok ats ->
  exists w' l' e ev, inner ats p w = Ok (e, w', ev) /\ sinv w' (l ++ l') /\
    mq_cap (wqueue w') = mq_cap (wqueue w) /\
    (e = Released \/ ((e = Going p \/ e = Leave p) /\ exists m', owns w' (l ++ l') p m' /\ sendable m')).
Proof.
  intros Ho [[Ht Hm]|Hm] Hok.
  2: { destruct (inner_list ats p w l m Ho Hm Hok)
         as (w' & l' & m' & e & ev & -> & Ho' & Hm' & Hc & He).
       exists w', l', e, ev. split_and!; try done; [apply Ho'|]. right.
       split; [tauto|]. exists m'. split; [done|by right]. }
  revert w l Ho. induction Hok as [|a ats [Ha Hgv] Hok IH]; intros w l Ho.
  { exists w, [], (Going p), []. rewrite app_nil_r. split_and!; try done; [apply Ho|].
    right. split; [by left|]. exists m. split; [done|by left]. }
  simpl. destruct (attempt_interfere a w l p m Ho Hgv) as (w1 & l1 & -> & Ho1 & _ & Hc). simpl.
  destruct (attempt_buff a p w1 (l ++ l1) m Ho1 Ht Hm Ha)
    as (ret & _ & [[_ ->]|(_ & w2 & Hi & _ & _ & Hq & ->)]); simpl.
  - destruct (Receiver.check_workers_quit (at_gquit a) =? 0).
    + destruct (IH w1 (l ++ l1) Ho1) as (w' & l' & e & ev & -> & Hi & Hc' & He). simpl.
      rewrite <- app_assoc in *. eexists w', (l1 ++ l'), _, _.
      split_and!; try done. congruence.
    + exists w1, l1. eexists _, _. split_and!; try done; [apply Ho1|]. right.
      split; [by right|]. exists m. split; [done|by left].
  - exists w2, l1. eexists _, _. split_and!; try done; [by rewrite Hq|by left].
Qed.

(** ** The dump at shutdown *)
Definition dump_name (du : dumpin) : list Z :=
  take 491 (dpath ++ [47] ++ access_token ++ [95]) ++ du_stamp du.

(** The files of a list that exist are moved, up to the first missing one. *)
Fixpoint renamed (du : dumpin) (names : list (list Z)) (fs : files) : files * list (list Z) :=
  match names with
  | [] => (fs, [])
  | n :: ns =>
      if access fs n
      then renamed du ns
             (if du_rename du n (dump_target n) then rename_file fs n (dump_target n) else fs)
      else (fs, n :: ns)
  end.

Lemma no_nul_take n s : no_nul s -> no_nul (take n s).
Proof. apply Forall_take. Qed.

Lemma no_nul_basename s : no_nul s -> no_nul (basename s).
Proof.
  unfold basename. assert (H : forall best, no_nul best -> no_nul s -> no_nul (basename_from best s)).
  { induction s as [|c s IH]; intros best Hb Hs; simpl; [done|].
    apply Forall_cons in Hs as [? ?]. case_match; by apply IH. }
  auto.
Qed.

(** [snprintf] into the zeroed [namebuffer] leaves the cut text in it. *)
Lemma namebuffer_holds n s :
  0 < n <= 512 -> no_nul s ->
  exists k, buf_write (zeros 512) 0 (snprintf_bytes n s) =
    Ok (take (Z.to_nat (n - 1)) s ++ 0 :: zeros k) /\
    zlen (take (Z.to_nat (n - 1)) s) + 1 + k = 512 /\ 0 <= k.
Proof.
  intros Hn Hs. unfold snprintf_bytes. destruct (Z.leb_spec n 0); [lia|].
  set (t := take (Z.to_nat (n - 1)) s).
  assert (Ht : zlen t <= n - 1).
  { unfold t, zlen. rewrite length_take. lia. }
  pose proof (zlen_nonneg t).
  pose proof (buf_write_zeros [] 512 (t ++ [0])) as E. simpl in E.
  change (zlen (@nil Z)) with 0 in E. autorewrite with zlen in E.
  exists (512 - (zlen t + (1 + 0))). rewrite E by lia. rewrite <- app_assoc.
  split; [done|]. lia.
Qed.

Context (Hdpath : no_nul dpath) (Htoken : no_nul access_token).

Lemma prefix_no_nul s : no_nul s -> no_nul (dpath ++ [47] ++ access_token ++ [95] ++ s).
Proof using Hdpath Htoken. intros. repeat (apply Forall_app; split; try done); by repeat constructor. Qed.

Lemma dump_names_step fuel du m fs n :
  c_string (mdata m) = Ok n -> no_nul n -> 0 < zlen n -> access fs n = true ->
  dump_names (S fuel) du m fs =
    (m ← messge_filename_forward m;
     dump_names fuel du m
       (if du_rename du n (dump_target n) then rename_file fs n (dump_target n) else fs)).
Proof using Hdpath Htoken.
  intros Hs Hnn Hn Ha. simpl. rewrite Hs. simpl. destruct (Z.gtb_spec (zlen n) 0); [|lia].
  rewrite Ha. simpl.
  destruct (namebuffer_holds 511 _ ltac:(lia) (prefix_no_nul _ (no_nul_basename _ Hnn)))
    as (k & E & _). simpl in E. change (512 - 1) with 511. rewrite E. simpl.
  rewrite c_string_app by (apply no_nul_take, (prefix_no_nul _ (no_nul_basename _ Hnn))).
  done.
Qed.

Lemma dump_names_stop fuel du m fs n :
  c_string (mdata m) = Ok n -> zlen n = 0 \/ access fs n = false ->
  dump_names (S fuel) du m fs = Ok (m, fs).
Proof.
  intros Hs Hn. simpl. rewrite Hs. simpl.
  destruct (Z.gtb_spec (zlen n) 0); simpl; [|done]. destruct Hn as [?| ->]; [lia|done].
Qed.

#[local] Arguments dump_names : simpl never.

Lemma dump_names_spec fuel du fcnt m names fs :
  list_wf fcnt m names -> fcnt <= 5 -> Forall name_ok names -> (length names < fuel)%nat ->
  exists m', dump_names fuel du m fs = Ok (m', fst (renamed du names fs)) /\
    list_wf fcnt m' (snd (renamed du names fs)).
Proof using Hdpath Htoken.
  intros Hw Hf Hns. revert m names fs Hw Hns.
  induction fuel as [|fuel IH]; intros m names fs Hw Hns Hfuel; [lia|].
  destruct names as [|n names].
  { destruct (proj2 Hw eq_refl) as [r Hr]. exists m.
    rewrite (dump_names_stop _ _ _ _ []) by (rewrite ?Hr; auto). done. }
  pose proof Hw as [Hw' _]. destruct (names_head _ _ _ _ Hw') as (r & Hr & _).
  apply Forall_cons in Hns as [[Hn Hnl] Hns].
  assert (Hcs : c_string (mdata m) = Ok n) by (rewrite Hr; by apply c_string_app).
  simpl. destruct (access fs n) eqn:Eacc.
  2: { exists m. by rewrite (dump_names_stop _ _ _ _ n) by auto. }
  rewrite (dump_names_step _ _ _ _ n) by (done || lia).
  destruct (forward_list fcnt m n names) as (m1 & -> & Hw1 & _); [done|done|done|done|].
  simpl. simpl in Hfuel. apply IH; [done|done|lia].
Qed.

Lemma dump_names_safe fuel du m fs :
  list_ok m ->
  (Z.to_nat (mlen m) + 2 <= fuel)%nat \/ ((exists r, mdata m = 0 :: r) /\ (1 <= fuel)%nat) ->
  exists m' fs', dump_names fuel du m fs = Ok (m', fs') /\ list_ok m'.
Proof using Hdpath Htoken.
  intros Hm. revert m fs Hm. induction fuel as [|fuel IH]; intros m fs Hm Hfuel; [lia|].
  destruct (list_name m Hm) as (s & r & Hr & Hs & Hcs & _).
  destruct (decide (zlen s = 0 \/ access fs s = false)) as [Hstop|Hgo].
  { rewrite (dump_names_stop _ _ _ _ s) by done. eauto. }
  apply Decidable.not_or in Hgo as [Hnz Hacc]. apply not_false_is_true in Hacc.
  pose proof (zlen_nonneg s).
  rewrite (dump_names_step _ _ _ _ s) by (lia || done).
  destruct (forward_ok m Hm) as (m1 & -> & Hm1 & _ & Hdec). simpl.
  destruct Hfuel as [Hfuel|[[r' Hr'] _]].
  2: { rewrite Hr' in Hcs. injection Hcs as <-. by rewrite zlen_nil in Hnz. }
  apply IH; [done|]. destruct Hm as (_&?&_), Hm1 as (_&?&_).
  destruct Hdec as [?|[??]]; [left; lia|right]. split; [done|lia].
Qed.

Lemma dump_unfold fuel k du p fp w :
  message_dump_to_file (S fuel) k du p fp w =
    ('(stop, fp, h, fs) ← dump_body k du p fp w;
     if (stop : bool) then Ok (MkWorld h (wqueue w) fs)
     else '(_, h) ← MESSAGE_DEL h (Some p);
          '(v, q) ← mq_pop_wait (wqueue w);
          match v with
          | None => Ok (MkWorld h q fs)
          | Some p => message_dump_to_file fuel (S k) du p fp (MkWorld h q fs)
          end).
Proof.
  simpl. unfold dump_round. destruct (dump_body k du p fp w) as [[[[stop fp'] h] fs]|]; [|done].
  simpl. destruct stop; [done|]. destruct (MESSAGE_DEL h (Some p)) as [[? ?]|]; [|done]. simpl.
  destruct (mq_pop_wait (wqueue w)) as [[[]]|]; done.
Qed.

Lemma dump_open_spec du fs :
  stamp_ok (du_stamp du) ->
  dump_open du None fs =
    Ok (if du_fopen du then (Some (dump_name du), touch fs (dump_name du)) else (None, fs)).
Proof using Hdpath Htoken.
  intros [Hs Hsn]. unfold dump_open.
  assert (Hp : no_nul (dpath ++ [47] ++ access_token ++ [95])).
  { pose proof (prefix_no_nul [] (Forall_nil_2 _)) as H. by rewrite app_nil_r in H. }
  destruct (namebuffer_holds 492 _ ltac:(lia) Hp) as (k & E & Hk & Hk0).
  change (512 - 20) with 492. rewrite E. simpl mbind.
  change (Z.to_nat (492 - 1)) with 491%nat in *. unfold dump_name.
  set (t := take 491 _) in *.
  assert (Htn : no_nul t) by (by apply no_nul_take).
  rewrite c_strlen_app by done. simpl. rewrite strftime_fits by done. simpl.
  assert (Ht : zlen t <= 491) by (unfold t, zlen; rewrite length_take; lia).
  change (0 :: zeros k) with (zeros 1 ++ zeros k). rewrite <- zeros_app by lia.
  rewrite buf_write_zeros by (autorewrite with zlen; lia). simpl.
  rewrite <- app_assoc, app_assoc. simpl.
  rewrite c_string_app by (by apply Forall_app). simpl. by destruct (du_fopen du).
Qed.

(** What a queued message is to the dump: data, or a list of names. *)
Inductive item : Type := IBuf (d : list Z) | INames (ns : list (list Z)).

Definition is_item (m : message) (it : item) : Prop :=
  match it with
  | IBuf d => mtype m = 0 /\ message_wf m /\ payload m = d
  | INames ns => exists fcnt, fcnt <= 5 /\ list_wf fcnt m ns /\ Forall name_ok ns
  end.

(** The files after the dump of some items, from the [k]-th on: the data goes
    to one file, opened for the first of them; when it cannot be opened the
    rest is dropped. *)
Fixpoint dumped (du : dumpin) (k : nat) (its : list item) (fp : option (list Z)) (fs : files)
    : files :=
  match its with
  | [] => fs
  | IBuf d :: its =>
      match fp with
      | Some name => dumped du (S k) its fp (snd (fwrite (du_write du k) fs name d))
      | None =>
          if du_fopen du
          then dumped du (S k) its (Some (dump_name du))
                 (snd (fwrite (du_write du k) (touch fs (dump_name du)) (dump_name du) d))
          else fs
      end
  | INames ns :: its => dumped du (S k) its fp (fst (renamed du ns fs))
  end.

Definition item_at (w : world) (p : ptr) (it : item) : Prop :=
  exists m, cells (wheap w) !! p = Some m /\ is_item m it.

Lemma names_short fcnt m ns : names_wf fcnt m ns -> Forall name_ok ns -> (length ns < names_fuel m)%nat.
Proof.
  intros Hw Hns. unfold names_fuel.
  assert (H : (length ns <= length (names_bytes ns))%nat).
  { clear Hw. induction Hns as [|n ns [_ Hn] Hns IH]; [done|]. unfold names_bytes in *. csimpl.
    rewrite !length_app. simpl. lia. }
  pose proof (f_equal length (names_data _ _ _ Hw)) as Hd. rewrite length_take in Hd. lia.
Qed.

(** Freeing the message in hand and taking the next one. *)
Lemma pop_next w l p m fs :
  owns w l p m ->
  exists h, MESSAGE_DEL (wheap w) (Some p) = Ok (None, h) /\ cells h !! p = None /\
    (forall q, q <> p -> cells h !! q = cells (wheap w) !! q) /\
    match l with
    | [] => mq_pop_wait (wqueue w) = Ok (None, wqueue w)
    | p' :: l' => exists q m', mq_pop_wait (wqueue w) = Ok (Some p', q) /\
        owns (MkWorld h q fs) l' p' m' /\ sendable m' /\ cells (wheap w) !! p' = Some m'
    end.
Proof.
  intros Ho. destruct (owns_free w l p m fs Ho) as (h & Ef & [Hh Hq Hnd Hl] & Hnone).
  exists h. unfold MESSAGE_DEL. simpl. rewrite Ef. split; [done|]. split; [done|].
  pose proof Ho as (_ & _ & Hp). rewrite (free_ok _ _ _ Hp) in Ef. injection Ef as <-.
  split. { intros q Hne. simpl. by apply lookup_delete_ne. }
  destruct l as [|p' l']; simpl in *; [by apply mq_pop_empty|].
  destruct (mq_pop_some _ _ _ Hq) as (q & Eq & Hq' & _).
  apply NoDup_cons in Hnd as [Hp' Hnd]. destruct (Hl p') as (m' & Hm' & Hs); [set_solver|].
  exists q, m'. split; [done|]. split_and!; [|done|].
  - split; [|done]. split; simpl; try done. intros p2 Hp2. apply Hl. set_solver.
  - destruct (decide (p' = p)) as [->|?]; [congruence|]. by rewrite lookup_delete_ne in Hm'.
Qed.

Lemma is_item_ok m it : is_item m it -> sendable m.
Proof.
  destruct it; simpl; [intros (?&?&?); by left|].
  intros (fcnt & ? & [? _] & _). right. by eapply names_list_ok.
Qed.

#[local] Arguments dump_open : simpl never.
#[local] Arguments MESSAGE_DEL : simpl never.
#[local] Arguments fwrite : simpl never.

Definition next_fp (du : dumpin) (it : item) (fp : option (list Z)) : option (list Z) :=
  match it, fp with
  | IBuf _, None => Some (dump_name du)
  | _, _ => fp
  end.

(** One message of the dump, up to its release. *)
Lemma dump_one fuel k du p fp w l m it :
  owns w l p m -> is_item m it -> stamp_ok (du_stamp du) -> du_fopen du = true ->
  exists w1 m1, owns w1 l p m1 /\ wqueue w1 = wqueue w /\ 
    (forall q, q <> p -> cells (wheap w1) !! q = cells (wheap w) !! q) /\
    (forall its, dumped du k (it :: its) fp (wfs w) =
                 dumped du (S k) its (next_fp du it fp) (wfs w1)) /\
    message_dump_to_file (S fuel) k du p fp w =
      ('(_, h) ← MESSAGE_DEL (wheap w1) (Some p);
       '(v, q) ← mq_pop_wait (wqueue w1);
       match v with
       | None => Ok (MkWorld h q (wfs w1))
       | Some p' =>
           message_dump_to_file fuel (S k) du p' (next_fp du it fp) (MkWorld h q (wfs w1))
       end).
Proof using Hdpath Htoken.
  intros Ho Hit Hst Hfo. pose proof Ho as (Hinv & Hpl & Hp). rewrite dump_unfold.
  unfold dump_body. rewrite (load_ok _ _ _ Hp). simpl. destruct it as [d|ns]; simpl in Hit.
  - destruct Hit as (Ht & Hm & Hd). rewrite Ht. simpl.
    assert (Hw1 : forall fs, owns (MkWorld (wheap w) (wqueue w) fs) l p m).
    { intros fs. destruct Ho as ([] & ? & ?). done. }
    destruct fp as [name|]; simpl.
    + rewrite payload_read, Hd by done. simpl.
      eexists (MkWorld (wheap w) (wqueue w) _), m. by split_and!.
    + rewrite dump_open_spec by done. rewrite Hfo. simpl. rewrite payload_read, Hd by done. simpl.
      eexists (MkWorld (wheap w) (wqueue w) _), m. by split_and!.
  - destruct Hit as (fcnt & Hf & Hw & Hns).
    rewrite (names_type _ _ _ (proj1 Hw)). simpl.
    destruct (dump_names_spec (names_fuel m) du fcnt m ns (wfs w) Hw Hf Hns) as (m1 & -> & Hw1).
    { eapply names_short; [apply Hw|done]. }
    simpl. destruct (owns_store w l p m m1 Ho) as (h & Eh & Ho1). rewrite Eh. simpl.
    exists (MkWorld h (wqueue w) (fst (renamed du ns (wfs w)))), m1.
    split_and!; try done.
    + destruct Ho1 as ([] & ? & ?). done.
    + intros q Hq. simpl. rewrite (store_ok _ _ _ _ Hp) in Eh. injection Eh as <-. simpl.
      by apply lookup_insert_ne.
Qed.

Lemma items_keep w w' l its :
  Forall2 (item_at w) l its -> (forall x, x ∈ l -> cells (wheap w') !! x = cells (wheap w) !! x) ->
  Forall2 (item_at w') l its.
Proof.
  intros Hits H. induction Hits as [|x it l its (mx & Hx & Hi) Hits IH]; constructor.
  - exists mx. split; [|done]. rewrite H; [done|set_solver].
  - apply IH. intros y Hy. apply H. set_solver.
Qed.

Lemma dump_spec fuel k du p fp w l m it its :
  owns w l p m -> is_item m it -> Forall2 (item_at w) l its -> (length l < fuel)%nat ->
  stamp_ok (du_stamp du) -> du_fopen du = true ->
  exists w', message_dump_to_file fuel k du p fp w = Ok w' /\
    wfs w' = dumped du k (it :: its) fp (wfs w) /\ mq_holds (wqueue w') [] /\
    (forall q, q ∈ p :: l -> cells (wheap w') !! q = None) /\
    (forall q, q ∉ p :: l -> cells (wheap w') !! q = cells (wheap w) !! q).
Proof using Hdpath Htoken.
  intros Ho Hit Hits Hfuel Hst Hfo. revert k p fp w l m it its Ho Hit Hits Hfuel.
  induction fuel as [|fuel IH]; intros k p fp w l m it its Ho Hit Hits Hfuel; [lia|].
  destruct (dump_one fuel k du p fp w l m it Ho Hit Hst Hfo)
    as (w1 & m1 & Ho1 & Hq1 & Hc1 & Hd & ->).
  rewrite Hd.
  destruct (pop_next w1 l p m1 (wfs w1) Ho1) as (h & -> & Hnone & Hch & Hpop). simpl.
  destruct Hits as [|p' it' l its' (m' & Hm' & Hit') Hits].
  - rewrite Hpop. simpl. eexists. split; [done|]. split_and!; simpl; try done.
    + apply Ho1.
    + intros q Hq%list_elem_of_singleton. by subst.
    + intros q Hq. assert (q <> p) by set_solver. by rewrite Hch, Hc1.
  - destruct Hpop as (q & m2 & -> & Ho2 & Hs2 & Hm2). simpl.
    assert (Hpp : p' <> p). { destruct Ho1 as (_ & Hpl & _). set_solver. }
    rewrite Hc1, Hm' in Hm2 by done. injection Hm2 as <-.
    simpl in Hfuel.
    assert (Hnot : p ∉ p' :: l) by apply Ho1.
    destruct (IH (S k) p' (next_fp du it fp) _ _ m' it' its' Ho2 Hit')
      as (w' & -> & Hfs & Hq & Hfree & Hkeep); [|lia|].
    { eapply items_keep; [exact Hits|]. intros x Hx. simpl.
      rewrite Hch, Hc1; [done|set_solver..]. }
    exists w'. split_and!; try done.
    + intros x [->|Hx]%elem_of_cons; [|by apply Hfree]. rewrite Hkeep by done. done.
    + intros x Hx. rewrite Hkeep by set_solver. simpl. rewrite Hch, Hc1; [done|set_solver..].
Qed.

(** Whatever the message, the body is defined; it leaves the other messages
    alone and a data message as it is. *)
Lemma dump_body_ok k du p fp w l m :
  owns w l p m -> sendable m -> stamp_ok (du_stamp du) ->
  exists stop fp' h fs m', dump_body k du p fp w = Ok (stop, fp', h, fs) /\
    owns (MkWorld h (wqueue w) fs) l p m' /\ sendable m' /\
    (mtype m = 0 /\ m' = m \/ mtype m = 1 /\ mtype m' = 1) /\
    (forall q, q <> p -> cells h !! q = cells (wheap w) !! q).
Proof using Hdpath Htoken.
  intros Ho Hs Hst. pose proof Ho as (_ & Hpl & Hp). unfold dump_body.
  rewrite (load_ok _ _ _ Hp). simpl.
  assert (Hw1 : forall fs, owns (MkWorld (wheap w) (wqueue w) fs) l p m).
  { intros fs. destruct Ho as ([] & ? & ?). done. }
  destruct Hs as [[Ht Hm]|Hm].
  - rewrite Ht. simpl. assert (sendable m) by (by left).
    destruct fp as [name|]; simpl.
    + rewrite payload_read by done. simpl. eexists _, _, _, _, m. split; [done|]. auto 10.
    + rewrite dump_open_spec by done.
      destruct (du_fopen du); simpl; [rewrite payload_read by done; simpl|];
        eexists _, _, _, _, m; (split; [done|]); auto 10.
  - pose proof (proj1 Hm) as Ht. rewrite Ht. simpl.
    destruct (dump_names_safe (names_fuel m) du m (wfs w)) as (m1 & fs & -> & Hm1); [done| |].
    { left. destruct Hm as (_ & ? & _). unfold names_fuel, zlen in *. lia. }
    simpl. destruct (owns_store w l p m m1 Ho) as (h & Eh & Ho1). rewrite Eh. simpl.
    eexists _, _, _, _, m1. split; [done|]. split; [by destruct Ho1 as ([] & ? & ?)|].
    split; [by right|]. split; [right; split; [done|apply Hm1]|].
    intros q Hq. rewrite (store_ok _ _ _ _ Hp) in Eh. injection Eh as <-. simpl.
    by apply lookup_insert_ne.
Qed.

Lemma dump_safe fuel k du p fp w l m :
  owns w l p m -> sendable m -> (length l < fuel)%nat -> stamp_ok (du_stamp du) ->
  is_ok (message_dump_to_file fuel k du p fp w).
Proof using Hdpath Htoken.
  intros Ho Hs Hfuel Hst. revert k p fp w l m Ho Hs Hfuel.
  induction fuel as [|fuel IH]; intros k p fp w l m Ho Hs Hfuel; [lia|].
  rewrite dump_unfold.
  destruct (dump_body_ok k du p fp w l m Ho Hs Hst)
    as (stop & fp' & h & fs & m' & -> & Ho' & _). simpl.
  destruct stop; [by eexists|].
  destruct (pop_next _ l p m' fs Ho') as (h' & E & _ & _ & Hpop). simpl in *. rewrite E. simpl.
  destruct l as [|p' l'].
  - rewrite Hpop. simpl. by eexists.
  - destruct Hpop as (q & m2 & -> & Ho2 & Hs2 & _). simpl in *.
    apply (IH _ _ _ _ l' m2); [done|done|lia].
Qed.

(** ** The outer loop *)
Definition sinput_ok (i : sinput) : Prop :=
  Forall sendable (si_gives i) /\ Forall attempt_ok (si_attempts i) /\
  stamp_ok (du_stamp (si_dump i)).

#[local] Arguments message_dump_to_file : simpl never.
#[local] Arguments receiver_gives : simpl never.
#[local] Arguments inner : simpl never.

(** The messages pushed meanwhile, then the first of the queue in hand. *)
Lemma iter_pop i w l :
  sinv w l -> sinput_ok i ->
  exists w1 l1, receiver_gives (si_gives i) w = Ok w1 /\ sinv w1 (l ++ l1) /\
    match l ++ l1 with
    | [] => mq_pop_wait (wqueue w1) = Ok (None, wqueue w1)
    | p :: l2 => exists q m, mq_pop_wait (wqueue w1) = Ok (Some p, q) /\
        owns (MkWorld (wheap w1) q (wfs w1)) l2 p m /\ sendable m /\
        cells (wheap w1) !! p = Some m
    end /\ forall p m, cells (wheap w) !! p = Some m -> cells (wheap w1) !! p = Some m.
Proof.
  intros Hinv (Hg & _ & _). destruct (gives_inv _ w l Hinv Hg) as (w1 & l1 & E & Hinv1 & _ & _ & Hpres).
  exists w1, l1. split; [done|]. split; [done|]. split; [|intros p m Hp; by apply Hpres].
  destruct Hinv1 as [Hh Hq Hnd Hl]. destruct (l ++ l1) as [|p l2]; [by apply mq_pop_empty|].
  destruct (mq_pop_some _ _ _ Hq) as (q & Eq & Hq' & _).
  apply NoDup_cons in Hnd as [Hp Hnd]. destruct (Hl p) as (m & Hm & Hs); [set_solver|].
  exists q, m. split; [done|]. split; [|done]. split; [|done]. split; simpl; try done.
  intros p' Hp'. apply Hl. set_solver.
Qed.

(** A round of the outer loop is defined, and the queue is in order unless
    the thread has ended. *)
Lemma sender_iter_ok i w l :
  sinv w l -> sinput_ok i ->
  exists e w' ev, sender_iter i w = Ok (e, w', ev) /\
    (e = Again -> exists l', sinv w' l').
Proof using Hdpath Htoken.
  intros Hinv Hi. destruct (iter_pop i w l Hinv Hi) as (w1 & l1 & E1 & Hinv1 & Hpop & _).
  unfold sender_iter. rewrite E1. simpl. destruct Hi as (_ & Hat & Hst).
  destruct (l ++ l1) as [|p l2] eqn:El.
  - rewrite Hpop. simpl. destruct (Receiver.check_workers_quit (si_gquit i) =? 0);
      eexists _, _, _; (split; [done|]); [|done].
    intros _. exists []. by destruct Hinv1.
  - destruct Hpop as (q & m & -> & Ho & Hs & _). simpl.
    destruct (inner_ok (si_attempts i) p _ l2 m Ho Hs Hat)
      as (w2 & l3 & e & ev & -> & Hinv2 & Hc & He). simpl.
    destruct He as [->|[[-> | ->] (m' & Ho' & Hs')]].
    + eexists _, _, _. split; [done|]. eauto.
    + eexists _, _, _. split; [done|]. done.
    + destruct (dump_safe (S (Z.to_nat (mq_cap (wqueue w2)))) 0 (si_dump i) p None w2 _ m' Ho' Hs')
        as [w3 E3]; [|done|].
      { pose proof (mq_bound _ _ (si_queue _ _ Hinv2)) as Hb. unfold zlen in Hb. lia. }
      rewrite E3. simpl. eexists _, _, _. split; [done|]. done.
Qed.

#[local] Arguments sender_iter : simpl never.


#[local] Arguments inner : simpl nomatch.

(** C10 - the fate of a buffer message: while the network fails and the quit
    flag is down it is sent again, unchanged; the first other answer frees it,
    once, and ends the loop, whether the server took it or not; the quit flag
    during a network failure hands it, unchanged, to the dump. *)
Theorem sender_buffer_retry pre a rest p w l m :
  owns w l p m -> mtype m = 0 -> message_wf m -> Forall attempt_ok (pre ++ [a]) ->
  Forall (fun a => goes_on a /\
    send_buff (at_net a 0) (payload m) (mlen m) = Ok Sender.SND_ERR_NET) pre ->
  let fails := repeat (SentBuff (payload m) Sender.SND_ERR_NET) (length pre) in
  exists ret, send_buff (at_net a 0) (payload m) (mlen m) = Ok ret /\
    (ret <> Sender.SND_ERR_NET ->
       exists w', inner (pre ++ a :: rest) p w =
           Ok (Released, w', fails ++ [SentBuff (payload m) ret]) /\
         cells (wheap w') !! p = None) /\
    (ret = Sender.SND_ERR_NET -> at_gquit a = 1 ->
       exists w', inner (pre ++ a :: rest) p w =
           Ok (Leave p, w', fails ++ [SentBuff (payload m) ret]) /\
         cells (wheap w') !! p = Some m) /\
    exists w', inner pre p w = Ok (Going p, w', fails) /\ cells (wheap w') !! p = Some m.
Proof.
  intros Ho Ht Hm Hok Hnet fails. apply Forall_app in Hok as [Hok Ha].
  apply Forall_singleton in Ha as [Ha Hgv].
  destruct (inner_retries pre (a :: rest) p w l m Ho Ht Hm Hok Hnet) as (w1 & l1 & Ho1 & E1).
  destruct (inner_retries pre [] p w l m Ho Ht Hm Hok Hnet) as (w0 & l0 & Ho0 & E0).
  rewrite app_nil_r in E0.
  destruct (attempt_interfere a w1 _ p m Ho1 Hgv) as (w2 & l2 & E2 & Ho2 & _).
  destruct (attempt_buff a p w2 _ m Ho2 Ht Hm Ha) as (ret & Er & Hcase).
  exists ret. split; [done|]. rewrite E1. cbn [inner]. rewrite E2. simpl. split_and!.
  - intros Hne. destruct Hcase as [[? _]|(_ & w3 & _ & Hnone & _ & _ & ->)]; [done|].
    simpl. eauto.
  - intros Heq Hq. destruct Hcase as [[_ ->]|[? _]]; [|done]. simpl.
    rewrite check_quits by done. eexists. split; [done|]. apply Ho2.
  - rewrite E0. eexists. split; [cbn [inner]; simpl; by rewrite app_nil_r|]. apply Ho0.
Qed.

(** C12 - one round over a names message sends the listed files in order,
    moves past each that was sent or refused, stops at a missing file or a
    network error, and leaves in the message exactly the names not yet done. *)
Theorem sender_files_in_order a fcnt m names :
  names_wf fcnt m names -> names <> [] -> fcnt <= 5 -> Forall name_ok names -> net_ok a ->
  exists m' ev rest, send_files (names_fuel m) 0 a m = Ok (m', ev) /\
    visits a 0 names ev rest /\ list_wf fcnt m' rest /\ (exists pre, names = pre ++ rest).
Proof.
  intros Hw Hne Hf Hns Ha. pose proof (names_short _ _ _ Hw Hns).
  destruct (send_files_visits (names_fuel m) 0 a fcnt m names)
    as (m' & ev & rest & ? & ? & ? & _ & ?); try done; eauto 10.
Qed.

(** C11 - a names message is never released by the sender loop: whatever the
    server answers and even when every file of it has been sent, the inner
    loop goes on with it until the quit flag is raised, and until then no
    other message is taken from the queue. *)
Theorem sender_list_never_released i w p l m :
  sinv w (p :: l) -> cells (wheap w) !! p = Some m -> mtype m = 1 -> sinput_ok i ->
  Forall goes_on (si_attempts i) ->
  exists w' ev l', sender_iter i w = Ok (Stuck p, w', ev) /\ sinv w' (l ++ l') /\
    is_Some (cells (wheap w') !! p).
Proof.
  intros Hinv Hp Ht Hi Hgo. destruct (iter_pop i w _ Hinv Hi) as (w1 & l1 & E1 & Hinv1 & Hpop & Hk).
  simpl in Hpop. destruct Hpop as (q & m1 & Eq & Ho & Hs & Hm1).
  rewrite (Hk _ _ Hp) in Hm1. injection Hm1 as <-.
  assert (Hm : list_ok m) by (destruct Hs as [[? _]|?]; [congruence|done]).
  unfold sender_iter. rewrite E1. simpl. rewrite Eq. simpl. destruct Hi as (_ & Hat & _).
  destruct (inner_list (si_attempts i) p _ _ m Ho Hm Hat)
    as (w' & l' & m' & e & ev & -> & Ho' & _ & _ & He).
  assert (e = Going p) as ->.
  { destruct He as [[-> _]|[_ Hex]]; [done|]. exfalso.
    apply Exists_exists in Hex as (a & Ha & Hq). rewrite Forall_forall in Hgo.
    by apply (Hgo a Ha). }
  simpl. exists w', ev, (l1 ++ l'). split; [done|]. rewrite app_assoc. split; [apply Ho'|].
  destruct Ho' as (_ & _ & ->). by eexists.
Qed.

(** ** What the dump leaves on disk *)
Lemma fwrite_whole fs name c d :
  fs !! name = Some c ->
  snd (fwrite None fs name d) !! name = Some (c ++ d) /\
  forall n, n <> name -> snd (fwrite None fs name d) !! n = fs !! n.
Proof.
  intros Hc. unfold fwrite. destruct (Z.eqb_spec (zlen d) 0) as [Hd|Hd]; simpl.
  - apply zlen_zero_nil in Hd as ->. by rewrite app_nil_r.
  - unfold append. rewrite Hc. simpl. split; [apply lookup_insert_eq|].
    intros n Hn. by apply lookup_insert_ne.
Qed.

Lemma dumped_bufs du k ds name fs c :
  (forall j, du_write du j = None) -> fs !! name = Some c ->
  dumped du k (IBuf <$> ds) (Some name) fs !! name = Some (c ++ concat ds) /\
  forall n, n <> name -> dumped du k (IBuf <$> ds) (Some name) fs !! n = fs !! n.
Proof.
  intros Hw. revert k fs c. induction ds as [|d ds IH]; intros k fs c Hc; simpl.
  { by rewrite app_nil_r. }
  rewrite Hw. destruct (fwrite_whole fs name c d Hc) as [H1 H2].
  destruct (IH (S k) _ _ H1) as [H3 H4]. rewrite app_assoc. split; [done|].
  intros n Hn. by rewrite H4, H2.
Qed.

Lemma touch_lookup fs name :
  touch fs name !! name = Some (default [] (fs !! name)) /\
  forall n, n <> name -> touch fs name !! n = fs !! n.
Proof.
  unfold touch. destruct (fs !! name) as [c|] eqn:E; [by rewrite E|].
  split; [apply lookup_insert_eq|]. intros n Hn. by apply lookup_insert_ne.
Qed.


Lemma rename_lookup fs n t d :
  fs !! n = Some d -> n <> t ->
  rename_file fs n t !! t = Some d /\ rename_file fs n t !! n = None /\
  forall x, x <> n -> x <> t -> rename_file fs n t !! x = fs !! x.
Proof.
  intros Hd Hne. unfold rename_file. rewrite Hd. split_and!.
  - apply lookup_insert_eq.
  - rewrite lookup_insert_ne by done. apply lookup_delete_eq.
  - intros x Hx Ht. rewrite lookup_insert_ne, lookup_delete_ne by done. done.
Qed.

Lemma renamed_moves du names fs :
  (forall o n, du_rename du o n = true) -> NoDup names -> NoDup (dump_target <$> names) ->
  (forall n, n ∈ names -> is_Some (fs !! n) /\ dump_target n ∉ names) ->
  (forall n, n ∈ names -> fst (renamed du names fs) !! dump_target n = fs !! n /\
     fst (renamed du names fs) !! n = None) /\
  (forall x, x ∉ names -> x ∉ dump_target <$> names -> fst (renamed du names fs) !! x = fs !! x).
Proof.
  intros Hr. revert fs. induction names as [|n names IH]; intros fs Hnd Hndt Hall.
  { split; [intros n Hn; by apply not_elem_of_nil in Hn|done]. }
  csimpl in Hndt. apply NoDup_cons in Hnd as [Hn Hnd]. apply NoDup_cons in Hndt as [Hnt Hndt].
  destruct (Hall n) as [[d Hd] Ht]; [set_solver|].
  assert (Hne : n <> dump_target n) by set_solver.
  simpl. unfold access. rewrite bool_decide_eq_true_2 by (by eexists). rewrite Hr.
  destruct (rename_lookup fs n (dump_target n) d Hd Hne) as (H1 & H2 & H3).
  destruct (IH (rename_file fs n (dump_target n)) Hnd Hndt) as [H4 H5].
  { intros x Hx. destruct (Hall x) as [[dx Hdx] Htx]; [set_solver|]. split; [|set_solver].
    rewrite H3; [by eexists| |]; set_solver. }
  split.
  - intros x [->|Hx]%elem_of_cons.
    + rewrite !H5 by set_solver. by rewrite H1, H2.
    + destruct (H4 x Hx) as [-> ->]. split; [|done]. apply H3; set_solver.
  - intros x Hx Hxt. csimpl in Hxt. rewrite H5 by set_solver. apply H3; set_solver.
Qed.

End SenderWorker.

(** ** The properties at concrete inputs: the circular queue, one buffer
    message and one names message at address 1. *)
Definition demo_msg : message := MkMessage 0 3 8 (bytes "log" ++ zeros 5).
Definition demo_name : list Z := Eval vm_compute in bytes "/d/a".
Definition demo_list : message := MkMessage 1 5 257 (demo_name ++ zeros 253).
Definition demo_heap (m : message) : heap := MkHeap {[1%positive := m]} 2.
Definition demo_files : files := {[demo_name := [65; 66]]}.
Definition demo_world (m : message) : Receiver.world :=
  Receiver.MkWorld (demo_heap m) Receiver.demo_queue demo_files.
Definition demo_queue1 : Queue.queue ptr :=
  match circ_push_wait Receiver.demo_queue 1%positive with Ok (_, q) => q | UB _ => Receiver.demo_queue end.
Definition full_world (m : message) : Receiver.world :=
  Receiver.MkWorld (demo_heap m) demo_queue1 demo_files.

Lemma demo_queue1_holds : mq_holds demo_queue1 [1%positive].
Proof.
  destruct (mq_push_room Receiver.demo_queue [] 1%positive Receiver.demo_holds)
    as (q' & E & Hq & _); [by vm_compute|].
  unfold demo_queue1. simpl in E. rewrite E. exact Hq.
Qed.

Lemma demo_sinv m : sendable m -> sinv (full_world m) [1%positive].
Proof.
  intros Hm. split; simpl.
  - intros p m'. simpl. intros [<- _]%lookup_singleton_Some. lia.
  - exact demo_queue1_holds.
  - apply NoDup_singleton.
  - intros p ->%list_elem_of_singleton. exists m. by rewrite lookup_singleton_eq.
Qed.

Lemma demo_owns m : owns (demo_world m) [] 1 m.
Proof.
  split; [|split; [set_solver|apply lookup_singleton_eq]]. split; simpl.
  - intros p m'. simpl. intros [<- _]%lookup_singleton_Some. lia.
  - exact Receiver.demo_holds.
  - apply NoDup_nil_2.
  - intros p Hp. set_solver.
Qed.

Lemma demo_msg_wf : message_wf demo_msg.
Proof. by vm_compute. Qed.

Lemma demo_list_names : names_wf 0 demo_list [demo_name].
Proof. by split. Qed.

Lemma demo_list_sendable : sendable demo_list.
Proof. right. by eapply (names_list_ok 0 _ _ demo_list_names). Qed.

Lemma demo_names_ok : Forall name_ok [demo_name].
Proof. repeat constructor; done. Qed.

(** The server accepts everything; the network is down. *)
Definition demo_up (q : Z) : attempt :=
  MkAttempt [] demo_files (fun _ => MkNet true Sender.demo_curl) q.
Definition demo_down (q : Z) : attempt :=
  MkAttempt [] demo_files
    (fun _ => MkNet true (fun _ => Sender.MkAnswer Sender.CURLE_COULDNT_CONNECT 0 [])) q.
Definition demo_dump : dumpin :=
  MkDump (bytes "20190117_133040.dat") true (fun _ _ => true) (fun _ => None).
Definition demo_sinput (ats : list attempt) : sinput := MkSInput [] 0 ats demo_dump.
Definition demo_size (fs : files) (n : list Z) : Z :=
  match fs !! n with Some d => zlen d | None => -1 end.

Lemma demo_up_ok q : attempt_ok (demo_up q).
Proof. split; [|constructor]. intros k rq. repeat constructor. Qed.
Lemma demo_down_ok q : attempt_ok (demo_down q).
Proof. split; [|constructor]. intros k rq. constructor. Qed.
Lemma demo_sinput_ok ats : Forall attempt_ok ats -> sinput_ok (demo_sinput ats).
Proof. intros H. split; [constructor|]. split; [done|]. split; [by vm_compute|]. repeat constructor; done. Qed.

Lemma demo_no_nul : no_nul (bytes "/d").
Proof. repeat constructor; done. Qed.
Lemma dump_stamp : stamp_ok (du_stamp demo_dump).
Proof. split; [by vm_compute|]. repeat constructor; done. Qed.


Lemma sender_buffer_retry_witness :
  exists ret, send_buff Sender.demo_parse Sender.demo_item id (bytes "/x") (bytes "h") (bytes "tk")
      (at_net (demo_up 0) 0) (payload demo_msg) (mlen demo_msg) = Ok ret /\
    (ret <> Sender.SND_ERR_NET ->
       exists w', inner Sender.demo_parse Sender.demo_item id demo_size (bytes "/x") (bytes "h")
           (bytes "tk") [demo_down 0; demo_up 0] 1 (demo_world demo_msg) =
         Ok (Released, w', [SentBuff (payload demo_msg) Sender.SND_ERR_NET;
                            SentBuff (payload demo_msg) ret]) /\
         cells (Receiver.wheap w') !! 1%positive = None).
Proof.
  destruct (sender_buffer_retry Sender.demo_parse Sender.demo_item id demo_size (bytes "/x")
    (bytes "h") (bytes "tk") [demo_down 0] (demo_up 0) [] 1 (demo_world demo_msg) [] demo_msg
    (demo_owns demo_msg) eq_refl demo_msg_wf) as (ret & Er & H & _).
  - apply Forall_cons. split; [apply demo_down_ok|].
    apply Forall_cons. split; [apply demo_up_ok|]. by apply Forall_nil.
  - apply Forall_cons. split; [|by apply Forall_nil]. split; [done|]. by vm_compute.
  - exists ret. split; [exact Er|exact H].
Defined.

Lemma sender_files_in_order_witness :
  exists m' ev rest, send_files Sender.demo_parse Sender.demo_item id demo_size (bytes "/x")
      (bytes "h") (bytes "tk") (names_fuel demo_list) 0 (demo_up 0) demo_list = Ok (m', ev) /\
    visits Sender.demo_parse Sender.demo_item id demo_size (bytes "/x") (bytes "h") (bytes "tk")
      (demo_up 0) 0 [demo_name] ev rest.
Proof.
  destruct (sender_files_in_order Sender.demo_parse Sender.demo_item id demo_size (bytes "/x")
    (bytes "h") (bytes "tk") (demo_up 0) 0 demo_list [demo_name] demo_list_names)
    as (m' & ev & rest & E & Hv & _).
  - done.
  - lia.
  - exact demo_names_ok.
  - apply demo_up_ok.
  - eauto.
Defined.

Lemma sender_list_never_released_witness :
  exists w' ev l', sender_iter Sender.demo_parse Sender.demo_item id demo_size (bytes "/x")
      (bytes "h") (bytes "tk") (bytes "/d") (demo_sinput [demo_up 0; demo_up 0])
      (full_world demo_list) = Ok (Stuck 1, w', ev) /\ sinv w' l'.
Proof.
  destruct (sender_list_never_released Sender.demo_parse Sender.demo_item id demo_size (bytes "/x")
    (bytes "h") (bytes "tk") (bytes "/d") (demo_sinput [demo_up 0; demo_up 0])
    (full_world demo_list) 1 [] demo_list) as (w' & ev & l' & E & Hi & _).
  - apply demo_sinv, demo_list_sendable.
  - apply lookup_singleton_eq.
  - done.
  - apply demo_sinput_ok. repeat (apply Forall_cons; split; [apply demo_up_ok|]). by apply Forall_nil.
  - by repeat constructor.
  - eauto.
Defined.


End SenderWorker.
