(* ===== verification/Pipeline.v ===== *)
(** The two worker threads together (src/useapp/worker.c, with the queue of
    queue.c between them): the receiver of [Receiver] and the sender of
    [SenderWorker] take turns on one heap, one queue and one file system.
    What arrives is followed from the socket to the server, to the data
    files and to the end of the process. *)
From S2P Require Import Prelude Queue MsgQueue Message Datafile Receiver Sender SenderWorker.
Import Message Datafile.

Module Pipeline.

#[local] Set Proof Using Clear Unused.
#[local] Set Default Proof Using "Type".

(** Where the threads are.  The sender's time-out and the test of the quit
    flag that follows it are separate steps. *)
Inductive rpc : Type := RLoop | REnd.
Inductive spc : Type :=
| SIdle
| SCheck
| SBusy (p : ptr)
| SDump (k : nat) (p : ptr) (fp : option (list Z))
| SLeft (p : ptr)
| SEnd.

(** What became of a chunk of received bytes when the receiver let go of it:
    in the queue as data, in a data file, dropped; at shutdown also in the
    queue as if it were a list of names, or refused by a full queue. *)
Inductive fate : Type := ToQueue | ToFile (name : list Z) | Dropped | AsNames | Refused.

Section Pipeline.
Context {Q : Type} {MQ : MsgQueue ptr Q}.
Context (node_size : Z).
Context {json : Type}.
Context (cJSON_Parse : list Z -> option json).
Context (cJSON_GetObjectItem : option json -> list Z -> option json).
Context (valueint : json -> Z).
Context (get_file_size : files -> list Z -> Z).
Context (MONITOR_URLSUFF : list Z).
Context (host access_token dpath : list Z).

Abbreviation world := (Receiver.world (Q := Q)).
Abbreviation MkWorld := (Receiver.MkWorld (Q := Q)).
Abbreviation wheap := (Receiver.wheap (Q := Q)).
Abbreviation wqueue := (Receiver.wqueue (Q := Q)).
Abbreviation wfs := (Receiver.wfs (Q := Q)).
Abbreviation receiver_iter := (Receiver.receiver_iter node_size).
Abbreviation attempt_body := (SenderWorker.attempt_body cJSON_Parse cJSON_GetObjectItem valueint
  get_file_size MONITOR_URLSUFF host access_token).
Abbreviation dump_body := (SenderWorker.dump_body (Q := Q) access_token dpath).
Abbreviation dump_round := (SenderWorker.dump_round access_token dpath).
Abbreviation sinv := (SenderWorker.sinv (Q := Q)).
Abbreviation owns := (SenderWorker.owns (Q := Q)).
Abbreviation rinv := (Receiver.rinv node_size).

(** The daemon: the shared world, the two threads, the quit flag; and, for
    the statements only, the chunks the receiver let go of, everything
    received, and the buffers the sender is done with. *)
Record pstate := MkP {
  pw : world;
  pr : Receiver.rstate;
  prpc : rpc;
  pspc : spc;
  pquit : Z;
  phist : list (fate * list Z);
  pin : list Z;
  pout : list (list Z)
}.

(** A turn of the receiver with what it finds, a turn of the sender with
    what the network and the dump file answer, or the signal to quit. *)
Inductive turn : Type :=
| TurnRecv (i : Receiver.rinput)
| TurnSend (net : nat -> SenderWorker.netin) (du : SenderWorker.dumpin)
| TurnQuit.

(** The value of the quit flag comes from the daemon, and the sender waits
    for its own turn. *)
Definition with_flag (i : Receiver.rinput) (g_quit : Z) : Receiver.rinput :=
  Receiver.MkInput (Receiver.in_nfds i) (Receiver.in_isset i) (Receiver.in_recv i) g_quit
    (Receiver.in_env i) 0.

(** What an iteration handed over, read off the states around it. *)
Definition handed (i : Receiver.rinput) (s : Receiver.rstate) (w : world)
    (s' : Receiver.rstate) (w' : world) : list (fate * list Z) :=
  match Receiver.held s w ++ Receiver.received i with
  | [] => []
  | d =>
      match Receiver.rmsg s' with
      | Some p =>
          match Receiver.held s' w' with
          | [] => [(ToFile (default [] (curr_fp (Receiver.finfo s'))), d)]
          | _ => []
          end
      | None =>
          match cells (wheap w') !! default (brk (wheap w)) (Receiver.rmsg s) with
          | Some _ => [(ToQueue, d)]
          | None => [(Dropped, d)]
          end
      end
  end.

(** What happens to the bytes held when the receiver ends. *)
Definition last_handed (s : Receiver.rstate) (w : world) : list (fate * list Z) :=
  match Receiver.rmsg s with
  | None => []
  | Some p =>
      match cells (wheap w) !! p with
      | None => []
      | Some m =>
          if mlen m =? 0 then []
          else match mq_push_wait (wqueue w) p with
               | Ok (0, _) => [(if mtype m =? 0 then ToQueue else AsNames, payload m)]
               | _ => [(Refused, payload m)]
               end
      end
  end.

(** The data among some messages, in their order. *)
Definition buffer (w : world) (p : ptr) : option (list Z) :=
  match cells (wheap w) !! p with
  | Some m => if mtype m =? 0 then Some (payload m) else None
  | None => None
  end.
Definition buffers (w : world) (l : list ptr) : list (list Z) := omap (buffer w) l.

Definition recv_turn (i : Receiver.rinput) (st : pstate) : res pstate :=
  let i := with_flag i (pquit st) in
  '(b, s, w) ← receiver_iter i (pr st) (pw st);
  Ok (if (b : bool)
      then MkP w s REnd (pspc st) (pquit st) (phist st ++ last_handed (pr st) (pw st)) (pin st)
             (pout st)
      else MkP w s RLoop (pspc st) (pquit st) (phist st ++ handed i (pr st) (pw st) s w)
             (pin st ++ Receiver.received i) (pout st)).

Definition quits (st : pstate) : bool := negb (Receiver.check_workers_quit (pquit st) =? 0).

(** A turn of the sender: what it is doing next, the world, the buffers it
    is done with. *)
Definition send_turn (net : nat -> SenderWorker.netin) (du : SenderWorker.dumpin) (st : pstate)
    : res (spc * world * list (list Z)) :=
  let w := pw st in
  match pspc st with
  | SIdle =>
      '(v, q) ← mq_pop_wait (wqueue w);
      match v with
      | None => Ok (SCheck, MkWorld (wheap w) q (wfs w), [])
      | Some p => Ok (SBusy p, MkWorld (wheap w) q (wfs w), [])
      end
  | SCheck => Ok (if quits st then SEnd else SIdle, w, [])
  | SBusy p =>
      '(msg, w', _) ← attempt_body (SenderWorker.MkAttempt [] (wfs w) net (pquit st)) p w;
      match msg with
      | None => Ok (SIdle, w', buffers w [p])
      | Some p => Ok (if quits st then SDump 0 p None else SBusy p, w', [])
      end
  | SDump k p fp =>
      '(e, w') ← dump_round k du p fp w;
      match e with
      | SenderWorker.DumpNext p' fp' => Ok (SDump (S k) p' fp', w', buffers w [p])
      | SenderWorker.DumpOver => Ok (SEnd, w', buffers w [p])
      | SenderWorker.DumpLeft p => Ok (SLeft p, w', [])
      end
  | SLeft p => Ok (SLeft p, w, [])
  | SEnd => Ok (SEnd, w, [])
  end.

Definition pipe_turn (t : turn) (st : pstate) : res pstate :=
  match t with
  | TurnRecv i => match prpc st with RLoop => recv_turn i st | REnd => Ok st end
  | TurnSend net du =>
      '(pc, w, out) ← send_turn net du st;
      Ok (MkP w (pr st) (prpc st) pc (pquit st) (phist st) (pin st) (pout st ++ out))
  | TurnQuit =>
      Ok (MkP (pw st) (pr st) (prpc st) (pspc st) (Receiver.notify_workers_quit (pquit st))
            (phist st) (pin st) (pout st))
  end.

Fixpoint pipe_run (ts : list turn) (st : pstate) : res pstate :=
  match ts with
  | [] => Ok st
  | t :: ts => st ← pipe_turn t st; pipe_run ts st
  end.

(** The daemon right after both threads have started. *)
Definition pipe_start (s : Receiver.rstate) (w : world) : pstate :=
  MkP w s RLoop SIdle 0 [] [] [].

(** ** Well-formed daemons *)

(** The message the sender has in hand. *)
Definition in_hand (pc : spc) : list ptr :=
  match pc with SBusy p | SDump _ p _ | SLeft p => [p] | _ => [] end.

(** What the receiver must leave alone: that message and the queue. *)
Definition kept (w : world) (l : list ptr) (p : ptr) (m : message) : Prop :=
  p ∈ l /\ cells (wheap w) !! p = Some m.

Record pipe_wf (st : pstate) (l : list ptr) : Prop := {
  pw_queue : sinv (pw st) l;
  pw_hand : forall p, p ∈ in_hand (pspc st) ->
    exists m, owns (pw st) l p m /\ SenderWorker.sendable m;
  pw_recv : prpc st = RLoop -> exists names,
    rinv (kept (pw st) (in_hand (pspc st) ++ l)) (pr st) (pw st) l names
}.

(** A turn the outside may take: see [Receiver.input_ok]; the server answers
    with one of the codes, the stamp has its form. *)
Definition turn_ok (t : turn) : Prop :=
  match t with
  | TurnRecv i =>
      (forall b, Receiver.in_recv i = Some b -> zlen b <= Receiver.MAX_BUFF_SIZE) /\
      stamp_ok (e_stamp (Receiver.in_env i))
  | TurnSend net du =>
      (forall k rq, Sender.answer_ok (SenderWorker.n_curl (net k) rq)) /\
      stamp_ok (SenderWorker.du_stamp du)
  | TurnQuit => True
  end.

(** ** The sender's turns *)
Lemma recv_frame s w w' l l' hand hand' names :
  rinv (kept w (hand ++ l)) s w l names -> sinv w' l' ->
  (forall q, q ∈ l' -> q ∈ l) -> (forall q, q ∈ hand' -> q ∈ hand ++ l) ->
  (forall q, q ∈ hand -> (q ∉ l) /\ is_Some (cells (wheap w) !! q)) ->
  (forall q, q ∉ hand -> cells (wheap w') !! q = cells (wheap w) !! q) ->
  rinv (kept w' (hand' ++ l')) s w' l' names.
Proof.
  intros [Hh Hi Hq Hnd Hno Hmo Hqd Hm Hk] [Hh' Hq' Hnd' Hl'] Hll Hhl Hhand Hc.
  assert (Hkept : forall q, q ∈ hand ++ l ->
    Receiver.rmsg s <> Some q /\ names_msg (Receiver.finfo s) <> Some q).
  { intros q Hin. assert (is_Some (cells (wheap w) !! q)) as [mq Hmq].
    { apply elem_of_app in Hin as [Hin|Hin]; [by apply Hhand|].
      destruct (Hqd q Hin) as (mq & -> & _). by eexists. }
    by destruct (Hk q mq (conj Hin Hmq)). }
  assert (Hhand2 : forall q, Receiver.rmsg s = Some q \/ names_msg (Receiver.finfo s) = Some q ->
    q ∉ hand ++ l).
  { intros q Hq2 Hin. destruct (Hkept q Hin). naive_solver. }
  split; try done.
  - eapply Receiver.info_wf_agree; [done|]. intros np Hnp. apply Hc.
    pose proof (Hhand2 np (or_intror Hnp)). set_solver.
  - intros p Hp Hin. by apply (Hno p Hp), Hll.
  - intros p Hp. destruct (Hmo p Hp). split; [|done]. intros Hin. by apply Hll in Hin.
  - intros p Hp%Hll. rewrite Hc; [by apply Hqd|]. intros Hin. by destruct (Hhand p Hin).
  - intros p Hp. rewrite Hc; [by apply Hm|]. pose proof (Hhand2 p (or_introl Hp)). set_solver.
  - intros q mq [Hin Hmq]. split; [done|]. apply Hkept.
    apply elem_of_app in Hin as [Hin|Hin]; [by apply Hhl|]. apply elem_of_app. right. by apply Hll.
Qed.

(** The part of a well-formed daemon a turn of the sender may change. *)
Lemma send_wf st l pc w' l' out :
  pipe_wf st l -> sinv w' l' ->
  (forall p, p ∈ in_hand pc -> exists m, owns w' l' p m /\ SenderWorker.sendable m) ->
  (forall q, q ∈ l' -> q ∈ l) -> (forall q, q ∈ in_hand pc -> q ∈ in_hand (pspc st) ++ l) ->
  (forall q, q ∉ in_hand (pspc st) -> cells (wheap w') !! q = cells (wheap (pw st)) !! q) ->
  pipe_wf (MkP w' (pr st) (prpc st) pc (pquit st) (phist st) (pin st) (pout st ++ out)) l'.
Proof.
  intros [Hq Hh Hr] Hs Hpc Hl Hhl Hc. split; simpl; [done|done|].
  intros Hp. destruct (Hr Hp) as [names Hinv]. exists names.
  eapply recv_frame; try done. intros q Hin. destruct (Hh q Hin) as (m & (_ & ? & ->) & _).
  split; [done|by eexists].
Qed.

Lemma buffers_app w l l' : buffers w (l ++ l') = buffers w l ++ buffers w l'.
Proof. apply omap_app. Qed.

Lemma buffers_agree w w' l :
  (forall q, q ∈ l -> cells (wheap w') !! q = cells (wheap w) !! q) ->
  buffers w' l = buffers w l.
Proof.
  intros H. induction l as [|q l IH]; [done|]. unfold buffers in *. csimpl.
  rewrite IH by set_solver. unfold buffer. rewrite H by set_solver. done.
Qed.

Lemma buffers_own w p m :
  cells (wheap w) !! p = Some m -> buffers w [p] = if mtype m =? 0 then [payload m] else [].
Proof. intros H. unfold buffers, buffer. simpl. rewrite H. by destruct (mtype m =? 0). Qed.
Definition dumps (pc : spc) : bool :=
  match pc with SDump _ _ _ | SLeft _ => true | _ => false end.

Definition sent (st : pstate) (pc : spc) (w : world) (out : list (list Z)) : pstate :=
  MkP w (pr st) (prpc st) pc (pquit st) (phist st) (pin st) (pout st ++ out).

(** A turn of the sender releases the data it is done with, once, in the
    order of the queue, and leaves the receiver's bytes and - unless it dumps -
    the files alone. *)
Definition sender_moved (st : pstate) (l : list ptr) (pc : spc) (w : world)
    (out : list (list Z)) (l' : list ptr) : Prop :=
  pipe_wf (sent st pc w out) l' /\
  out ++ buffers w (in_hand pc ++ l') = buffers (pw st) (in_hand (pspc st) ++ l) /\
  (prpc st = RLoop -> Receiver.held (pr st) w = Receiver.held (pr st) (pw st)) /\
  (dumps (pspc st) = false -> wfs w = wfs (pw st)).

Lemma sender_moves st l pc w l' out :
  pipe_wf st l -> sinv w l' ->
  (forall p, p ∈ in_hand pc -> exists m, owns w l' p m /\ SenderWorker.sendable m) ->
  (forall q, q ∈ l' -> q ∈ l) -> (forall q, q ∈ in_hand pc -> q ∈ in_hand (pspc st) ++ l) ->
  (forall q, q ∉ in_hand (pspc st) -> cells (wheap w) !! q = cells (wheap (pw st)) !! q) ->
  out ++ buffers w (in_hand pc ++ l') = buffers (pw st) (in_hand (pspc st) ++ l) ->
  (dumps (pspc st) = false -> wfs w = wfs (pw st)) ->
  sender_moved st l pc w out l'.
Proof.
  intros Hwf Hs Hpc Hl Hhl Hc Hb Hf. split; [by eapply send_wf|]. split; [done|].
  split; [|done]. intros Hr. destruct (pw_recv _ _ Hwf Hr) as [names Hinv]. unfold Receiver.held.
  destruct (Receiver.rmsg (pr st)) as [q|] eqn:Eq; [|done]. rewrite Hc; [done|]. intros Hin.
  destruct (pw_hand _ _ Hwf q Hin) as (m & (_ & _ & Hq) & _).
  destruct (Receiver.ri_keep _ _ _ _ _ _ Hinv q m) as (_ & Hne & _); [|by apply Hne].
  split; [|done]. apply elem_of_app. by left.
Qed.

#[local] Arguments buffers : simpl never.

Lemma buffers_hand w p l : buffers w (p :: l) = buffers w [p] ++ buffers w l.
Proof. apply (buffers_app w [p]). Qed.

Lemma in_one (x p : ptr) : x ∉ [p] -> x <> p.
Proof. set_solver. Qed.

(** The message in hand goes, or is replaced by one of the same kind. *)
Lemma hand_gone st l p m pc w :
  pipe_wf st l -> in_hand (pspc st) = [p] -> in_hand pc = [] ->
  owns (pw st) l p m -> sinv w l ->
  (forall q, q <> p -> cells (wheap w) !! q = cells (wheap (pw st)) !! q) ->
  (dumps (pspc st) = false -> wfs w = wfs (pw st)) ->
  sender_moved st l pc w (buffers (pw st) [p]) l.
Proof.
  intros Hwf Eh Epc (_ & Hpl & Hp) Hs Hc Hf. apply sender_moves; try done; rewrite ?Epc, ?Eh.
  - set_solver.
  - set_solver.
  - intros q Hq%in_one. by apply Hc.
  - simpl. rewrite (buffers_hand _ p l). f_equal. apply buffers_agree.
    intros q Hq. apply Hc. congruence.
Qed.

Lemma hand_same st l p m m' pc w :
  pipe_wf st l -> in_hand (pspc st) = [p] -> in_hand pc = [p] ->
  owns (pw st) l p m -> owns w l p m' -> SenderWorker.sendable m' ->
  (mtype m = 0 /\ m' = m \/ mtype m = 1 /\ mtype m' = 1) ->
  (forall q, q <> p -> cells (wheap w) !! q = cells (wheap (pw st)) !! q) ->
  (dumps (pspc st) = false -> wfs w = wfs (pw st)) ->
  sender_moved st l pc w [] l.
Proof.
  intros Hwf Eh Epc (_ & Hpl & Hp) Ho Hs Ht Hc Hf. pose proof Ho as (Hi & _ & Hp').
  apply sender_moves; try done; rewrite ?Epc, ?Eh.
  - intros q ->%list_elem_of_singleton. eauto.
  - set_solver.
  - intros q Hq%in_one. by apply Hc.
  - simpl. rewrite !(buffers_hand _ p l). f_equal.
    + rewrite (buffers_own _ _ _ Hp), (buffers_own _ _ _ Hp').
      destruct Ht as [[_ ->]|[-> ->]]; done.
    + apply buffers_agree.
    intros q Hq. apply Hc. congruence.
Qed.
Context (Hdpath : no_nul dpath) (Htoken : no_nul access_token).

(** The sender at the queue: nothing there, or the first message in hand. *)
Lemma idle_turn net du st l :
  pipe_wf st l -> pspc st = SIdle ->
  exists pc w' l', send_turn net du st = Ok (pc, w', []) /\ sender_moved st l pc w' [] l'.
Proof.
  intros Hwf Epc. unfold send_turn. rewrite Epc. pose proof (pw_queue _ _ Hwf) as Hs.
  pose proof Hs as [Hh Hq Hnd Hl]. destruct l as [|p l].
  - rewrite (mq_pop_empty _ Hq). simpl. eexists _, _, []. split; [done|].
    apply sender_moves; try done; rewrite ?Epc; try set_solver.
  - destruct (mq_pop_some _ _ _ Hq) as (q & -> & Hq' & _). simpl. eexists _, _, l. split; [done|].
    apply NoDup_cons in Hnd as [Hp Hnd].
    assert (Hs' : sinv (MkWorld (wheap (pw st)) q (wfs (pw st))) l).
    { split; simpl; try done. intros p' Hp'. apply Hl. set_solver. }
    apply sender_moves; try done; rewrite ?Epc; try set_solver.
    intros p' ->%list_elem_of_singleton. destruct (Hl p) as (m & Hm & ?); [set_solver|].
    by exists m.
Qed.

(** The sender on the message it has. *)
Lemma busy_turn net du st l p :
  pipe_wf st l -> turn_ok (TurnSend net du) -> pspc st = SBusy p ->
  exists pc w' out, send_turn net du st = Ok (pc, w', out) /\ sender_moved st l pc w' out l.
Proof.
  intros Hwf [Hnet _] Epc. unfold send_turn. rewrite Epc.
  assert (Eh : in_hand (pspc st) = [p]) by (by rewrite Epc).
  destruct (pw_hand _ _ Hwf p) as (m & Ho & Hs); [rewrite Eh; set_solver|].
  set (a := SenderWorker.MkAttempt [] (wfs (pw st)) net (pquit st)).
  assert (Hpc : in_hand (if quits st then SDump 0 p None else SBusy p) = [p]).
  { by destruct (quits st). }
  destruct Hs as [[Ht Hm]|Hm].
  - destruct (SenderWorker.attempt_buff cJSON_Parse cJSON_GetObjectItem valueint get_file_size
      MONITOR_URLSUFF host access_token a p (pw st) l m Ho Ht Hm Hnet)
      as (ret & _ & [[_ E]|(_ & w' & Hi & Hnone & Hfs & _ & E)]);
      pose proof (fun q => SenderWorker.attempt_frame _ _ _ _ _ _ _ _ _ _ _ _ _ q E) as Hfr;
      rewrite E; simpl.
    + eexists _, _, _. split; [done|]. apply (hand_same st l p m m); try done; [by left|by left].
    + eexists _, _, _. split; [done|]. by apply (hand_gone st l p m).
  - destruct (SenderWorker.attempt_list cJSON_Parse cJSON_GetObjectItem valueint get_file_size
      MONITOR_URLSUFF host access_token a p (pw st) l m Ho Hm Hnet)
      as (w' & m' & ev & E & Ho' & Hm' & Hfs & _ & _).
    pose proof (fun q => SenderWorker.attempt_frame _ _ _ _ _ _ _ _ _ _ _ _ _ q E) as Hfr.
    rewrite E. simpl. eexists _, _, _. split; [done|].
    apply (hand_same st l p m m'); try done; [by right|right]. split; [apply Hm|apply Hm'].
Qed.

(** The sender dumping the message it has. *)
Lemma dump_turn net du st l k p fp :
  pipe_wf st l -> turn_ok (TurnSend net du) -> pspc st = SDump k p fp ->
  exists pc w' out l', send_turn net du st = Ok (pc, w', out) /\ sender_moved st l pc w' out l'.
Proof using Hdpath Htoken.
  intros Hwf [_ Hst] Epc. unfold send_turn. rewrite Epc.
  assert (Eh : in_hand (pspc st) = [p]) by (by rewrite Epc).
  assert (Hnf : dumps (pspc st) = false -> False) by (by rewrite Epc).
  destruct (pw_hand _ _ Hwf p) as (m & Ho & Hs); [rewrite Eh; set_solver|].
  unfold SenderWorker.dump_round.
  destruct (SenderWorker.dump_body_ok access_token dpath Hdpath Htoken k du p fp (pw st) l m Ho Hs Hst)
    as (stop & fp' & h & fs & m' & -> & Ho' & Hs' & Ht & Hc). simpl. destruct stop; simpl.
  { eexists _, _, _, l. split; [done|]. by apply (hand_same st l p m m'). }
  destruct (SenderWorker.pop_next _ l p m' fs Ho') as (h' & E & Hnone & Hc' & Hpop). simpl in *.
  rewrite E. simpl.
  assert (Hc2 : forall q, q <> p -> cells h' !! q = cells (wheap (pw st)) !! q).
  { intros q Hq. by rewrite Hc', Hc. }
  destruct Ho' as ([Hh Hq Hnd Hl] & Hpl & Hp). destruct l as [|p' l'].
  - rewrite Hpop. simpl. eexists _, _, _, []. split; [done|]. apply (hand_gone st [] p m); try done.
    split; simpl; [|done|done|intros x Hx; by apply not_elem_of_nil in Hx].
    unfold MESSAGE_DEL in E. res_inv. simplify_eq. eapply (free_wf h p); done.
  - destruct Hpop as (q & m2 & -> & Ho2 & Hs2 & Hm2). simpl.
    eexists _, _, _, l'. split; [done|]. apply sender_moves; try done; rewrite ?Eh; simpl.
    + apply Ho2.
    + intros x ->%list_elem_of_singleton. eauto.
    + set_solver.
    + set_solver.
    + intros x Hx%in_one. by apply Hc2.
    + simpl in *. rewrite (buffers_hand _ p (p' :: l')). f_equal.
      apply buffers_agree. intros x Hx. apply Hc2. congruence.
Qed.

Lemma send_turn_ok net du st l :
  pipe_wf st l -> turn_ok (TurnSend net du) ->
  exists pc w' out l', send_turn net du st = Ok (pc, w', out) /\ sender_moved st l pc w' out l'.
Proof using Hdpath Htoken.
  intros Hwf Ht.
  assert (Hstay : forall pc, in_hand pc = in_hand (pspc st) ->
    sender_moved st l pc (pw st) [] l).
  { intros pc Epc. apply sender_moves; rewrite ?Epc; try done; [apply Hwf|apply Hwf|set_solver]. }
  destruct (pspc st) as [| |p|k p fp|p|] eqn:Epc.
  - destruct (idle_turn net du st l Hwf Epc) as (pc & w' & l' & ? & ?). eauto 10.
  - unfold send_turn. rewrite Epc. eexists _, _, _, l. split; [done|]. apply Hstay.
    by destruct (quits st).
  - destruct (busy_turn net du st l p Hwf Ht Epc) as (pc & w' & out & ? & ?). eauto 10.
  - by apply (dump_turn net du st l k p fp).
  - unfold send_turn. rewrite Epc. eexists _, _, _, l. split; [done|]. by apply Hstay.
  - unfold send_turn. rewrite Epc. eexists _, _, _, l. split; [done|]. by apply Hstay.
Qed.
(** ** The receiver's turns *)
Context (Hnode : 4096 < node_size <= MSG_LIMIT).

Lemma node_bounds : 4096 <= node_size <= MSG_LIMIT.
Proof using Hnode. lia. Qed.

Lemma rinv_sinv keep s w l names : rinv keep s w l names -> sinv w l.
Proof.
  intros [Hh Hi Hq Hnd Hno Hmo Hqd Hm Hk]. split; try done.
  intros p Hp. destruct (Hqd p Hp) as (m & ? & ?). exists m. split; [done|].
  by apply SenderWorker.queued_sendable.
Qed.

(** A receive buffer is fit for the sender, even marked as a list of names. *)
Lemma held_sendable m : Receiver.msg_ok node_size m -> SenderWorker.sendable m.
Proof using Hnode.
  intros [(Hwf & Hz & [Ht|Ht] & Hl) _]; [by left|right].
  unfold Receiver.MAX_BUFF_SIZE in *. split_and!; [done|apply Hwf|apply Hwf|lia|apply Hl; lia].
Qed.

Lemma with_flag_input i g l :
  turn_ok (TurnRecv i) -> Receiver.input_ok (with_flag i g) l.
Proof. intros [? ?]. split_and!; [done..|simpl; lia]. Qed.

(** What an iteration hands over. *)
Lemma handed_outcome i s w l s' w' l' :
  Receiver.iter_outcome node_size i s w l s' w' l' -> Receiver.in_taken i = 0%nat ->
  exists m, payload m = Receiver.held s w ++ Receiver.received i /\ message_wf m /\
    exists l1, (l1 = l \/ exists np nm, names_msg (Receiver.finfo s) = Some np /\ l1 = l ++ [np] /\
      cells (wheap w') !! np = Some nm /\ mtype nm = 1) /\
    ((handed i s w s' w' = [] /\ Receiver.held s' w' = payload m /\ l' = l1 /\ wfs w' = wfs w) \/
     (Receiver.held s' w' = [] /\ exists p, p = default (brk (wheap w)) (Receiver.rmsg s) /\
       ((handed i s w s' w' = [(ToQueue, payload m)] /\ l' = l1 ++ [p] /\ wfs w' = wfs w /\
         cells (wheap w') !! p = Some m /\ mtype m = 0) \/
        (exists f, handed i s w s' w' = [(ToFile f, payload m)] /\ l' = l1 /\
           wfs w' = append (wfs w) f (payload m)) \/
        (handed i s w s' w' = [(Dropped, payload m)] /\ l' = l1 /\ grows (wfs w) (wfs w'))))).
Proof.
  intros (p & m & l1 & Hpay & (Hwf & _) & Hp & _ & Hl1 & Hno & Hyes) Htk. rewrite Htk in Hyes.
  exists m. split; [done|]. split; [done|]. exists l1. split; [done|]. unfold handed. rewrite <- Hpay.
  destruct (Receiver.must_flush i m) eqn:Efl.
  - right. destruct (Hyes eq_refl) as [Haft Hres].
    assert (Hne : exists c d, payload m = c :: d).
    { unfold Receiver.must_flush in Efl. zb. pose proof (payload_len m Hwf) as Hlen.
      destruct (payload m) as [|c d]; [|eauto]. rewrite zlen_nil in Hlen. lia. }
    destruct Hne as (c & d & Hcd). rewrite Hcd. rewrite <- Hp.
    assert (Hheld : Receiver.held s' w' = []).
    { unfold Receiver.held. destruct (Receiver.rmsg s') as [p'|]; [|done].
      destruct Haft as [d' ->]. done. }
    split; [done|]. exists p. split; [done|].
    destruct Hres as [-> Hfs Ht Hr Hc|f -> Hfs Hr Hfp| -> Hc Hg Hr]; rewrite Hr.
    + left. rewrite Hc. by rewrite drop_0.
    + right; left. exists f. rewrite Hheld, Hfp, <- Hcd. done.
    + right; right. by rewrite Hc.
  - left. destruct (Hno eq_refl) as (Hr & Hc & -> & Hfs).
    assert (Hheld : Receiver.held s' w' = payload m).
    { unfold Receiver.held. by rewrite Hr, Hc. }
    split; [|done]. rewrite Hheld, Hr. destruct (payload m); done.
Qed.
(** The bytes the receiver still holds, the chunks that went one way. *)
Definition live (st : pstate) : list Z :=
  match prpc st with RLoop => Receiver.held (pr st) (pw st) | REnd => [] end.
Definition as_queued (c : fate * list Z) : option (list Z) :=
  match c.1 with ToQueue => Some c.2 | _ => None end.
Definition to_queue (h : list (fate * list Z)) : list (list Z) := omap as_queued h.
Definition as_stored (f : list Z) (c : fate * list Z) : option (list Z) :=
  match c.1 with ToFile g => if decide (g = f) then Some c.2 else None | _ => None end.
Definition to_file (f : list Z) (h : list (fate * list Z)) : list (list Z) := omap (as_stored f) h.

Definition content (fs : files) (f : list Z) : list Z := default [] (fs !! f).

(** A turn of the receiver, as the rest of the daemon sees it: [new] is what
    it let go of, [rcv] what arrived. *)
Record received_turn (st st' : pstate) (l l' : list ptr) (new : list (fate * list Z))
    (rcv : list Z) : Prop := {
  rt_hist : phist st' = phist st ++ new;
  rt_in : pin st' = pin st ++ rcv;
  rt_out : pout st' = pout st;
  rt_pc : pspc st' = pspc st;
  rt_bytes : concat (snd <$> new) ++ live st' = live st ++ rcv;
  rt_queue : buffers (pw st') (in_hand (pspc st) ++ l') =
             buffers (pw st) (in_hand (pspc st) ++ l) ++ to_queue new;
  rt_files : forall f, exists k, content (wfs (pw st')) f = content (wfs (pw st)) f ++ k /\
             sublist (concat (to_file f new)) k
}.

Lemma grows_content fs fs' f : grows fs fs' -> exists k, content fs' f = content fs f ++ k.
Proof.
  intros H. unfold content. destruct (fs !! f) as [c|] eqn:E; simpl; [|by eexists].
  destruct (H f c E) as [k ->]. by exists k.
Qed.

Lemma appended_content fs g d f :
  content (append fs g d) f = content fs f ++ (if decide (g = f) then d else []).
Proof.
  unfold content, append. rewrite lookup_insert. destruct (decide (g = f)) as [->|]; [done|].
  by rewrite app_nil_r.
Qed.

(** The receiver's side of a well-formed daemon, with the queue as it is now. *)
Lemma recv_keeps keep s w l names hand :
  rinv keep s w l names -> (forall q, q ∈ hand -> exists m, keep q m) ->
  rinv (kept w (hand ++ l)) s w l names.
Proof.
  intros [Hh Hi Hq Hnd Hno Hmo Hqd Hm Hk] Hhand. split; try done.
  intros q mq [[Hin|Hin]%elem_of_app Hmq]; (split; [done|]).
  - destruct (Hhand q Hin) as [m Hkm]. by destruct (Hk q m Hkm).
  - split; intros Heq; [by destruct (Hmo q Heq)|by apply (Hno q Heq)].
Qed.

(** Whether a message of the sender's can be among those pushed. *)
Lemma hand_apart st l names p :
  pipe_wf st l -> rinv (kept (pw st) (in_hand (pspc st) ++ l)) (pr st) (pw st) l names ->
  p ∈ in_hand (pspc st) ->
  exists m, cells (wheap (pw st)) !! p = Some m /\ SenderWorker.sendable m /\ (p ∉ l) /\
    Receiver.rmsg (pr st) <> Some p /\ names_msg (Receiver.finfo (pr st)) <> Some p /\
    p <> default (brk (wheap (pw st))) (Receiver.rmsg (pr st)).
Proof.
  intros Hwf Hinv Hp. destruct (pw_hand _ _ Hwf p Hp) as (m & (_ & Hpl & Hc) & Hs).
  destruct (Receiver.ri_keep _ _ _ _ _ _ Hinv p m) as (_ & Hr & Hn).
  { split; [|done]. apply elem_of_app. by left. }
  exists m. split_and!; try done. destruct (Receiver.rmsg (pr st)) as [p'|]; simpl; [congruence|].
  intros ->. by rewrite (alloc_fresh _ (Receiver.ri_heap _ _ _ _ _ _ Hinv)) in Hc.
Qed.

Lemma buffers_skip w l np nm :
  cells (wheap w) !! np = Some nm -> mtype nm = 1 -> buffers w (l ++ [np]) = buffers w l.
Proof.
  intros Hc Ht. rewrite buffers_app, (buffers_own _ _ _ Hc), Ht. apply app_nil_r.
Qed.
Definition recv_goal (i : Receiver.rinput) (st : pstate) (l : list ptr) : Prop :=
  exists st' l' new rcv, recv_turn i st = Ok st' /\ pipe_wf st' l' /\
    received_turn st st' l l' new rcv.

(** The messages the iteration pushes come behind those in the queue. *)
Lemma pushed_buffers w w' l l1 p m (names : option ptr) :
  (forall q, q ∈ l -> cells (wheap w') !! q = cells (wheap w) !! q) ->
  (l1 = l \/ exists np nm, names = Some np /\ l1 = l ++ [np] /\
      cells (wheap w') !! np = Some nm /\ mtype nm = 1) ->
  buffers w' l1 = buffers w l /\
  (cells (wheap w') !! p = Some m -> mtype m = 0 ->
     buffers w' (l1 ++ [p]) = buffers w l ++ [payload m]).
Proof.
  intros Hc Hl1. assert (H1 : buffers w' l1 = buffers w l).
  { destruct Hl1 as [->|(np & nm & _ & -> & Hnp & Ht)]; [by apply buffers_agree|].
    rewrite (buffers_skip _ _ _ _ Hnp Ht). by apply buffers_agree. }
  split; [done|]. intros Hp Ht. rewrite buffers_app, H1, (buffers_own _ _ _ Hp), Ht. done.
Qed.

(** What the receiver leaves behind in its iteration. *)
Section Iterated.
Context (st : pstate) (l : list ptr) (names : list (list Z)) (i : Receiver.rinput).
Context (s' : Receiver.rstate) (w' : world) (l' : list ptr) (names' : list (list Z)).
Context (Hwf : pipe_wf st l) (Hr : prpc st = RLoop).
Context (Hinv : rinv (kept (pw st) (in_hand (pspc st) ++ l)) (pr st) (pw st) l names).
Context (Hinv' : rinv (kept (pw st) (in_hand (pspc st) ++ l)) s' w' l' names').
Context (Hout : Receiver.iter_outcome node_size i (pr st) (pw st) l s' w' l').
Context (Htk : Receiver.in_taken i = 0%nat).

Lemma iterated_same q :
  q ∈ in_hand (pspc st) ++ l -> cells (wheap w') !! q = cells (wheap (pw st)) !! q.
Proof using Hwf Hinv Hinv'.
  intros Hq. assert (is_Some (cells (wheap (pw st)) !! q)) as [mq Hmq].
  { apply elem_of_app in Hq as [Hq|Hq].
    - destruct (hand_apart _ _ _ _ Hwf Hinv Hq) as (mq & -> & _). by eexists.
    - destruct (Receiver.ri_queued _ _ _ _ _ _ Hinv q Hq) as (mq & -> & _). by eexists. }
  rewrite Hmq. apply (Receiver.ri_keep _ _ _ _ _ _ Hinv'). done.
Qed.

Lemma iterated_queue q :
  q ∈ l' -> q ∈ l \/ names_msg (Receiver.finfo (pr st)) = Some q \/
    q = default (brk (wheap (pw st))) (Receiver.rmsg (pr st)).
Proof using Hout Htk.
  intros Hq. destruct (handed_outcome _ _ _ _ _ _ _ Hout Htk) as (m & _ & _ & l1 & Hl1 & Hcase).
  assert (Hq1 : q ∈ l1 \/ q = default (brk (wheap (pw st))) (Receiver.rmsg (pr st))).
  { destruct Hcase as [(_ & _ & -> & _)|(_ & p & -> & [(_ & -> & _)|[(f & _ & -> & _)|(_ & -> & _)]])];
      set_solver. }
  destruct Hq1 as [Hq1|]; [|by auto].
  destruct Hl1 as [->|(np & nm & Hnp & -> & _)]; [by auto|].
  apply elem_of_app in Hq1 as [?| ->%list_elem_of_singleton]; auto.
Qed.

Lemma iterated_wf rc g h b o : pipe_wf (MkP w' s' rc (pspc st) g h b o) l'.
Proof using Hwf Hinv Hinv' Hout Htk.
  split; simpl.
  - by eapply rinv_sinv.
  - intros p Hp. destruct (hand_apart _ _ _ _ Hwf Hinv Hp) as (mp & Hc & Hs & Hpl & Hpr & Hpn & Hpb).
    exists mp. split; [|done]. split; [by eapply rinv_sinv|]. split.
    + intros Hin. destruct (iterated_queue p Hin) as [?|[?|?]]; done.
    + rewrite iterated_same; [done|]. apply elem_of_app. by left.
  - intros _. exists names'. eapply recv_keeps; [exact Hinv'|]. intros q Hq.
    destruct (hand_apart _ _ _ _ Hwf Hinv Hq) as (mq & Hc & _). exists mq. split; [|done].
    apply elem_of_app. by left.
Qed.

Lemma iterated_facts :
  received_turn st (MkP w' s' RLoop (pspc st) (pquit st)
      (phist st ++ handed i (pr st) (pw st) s' w') (pin st ++ Receiver.received i) (pout st))
    l l' (handed i (pr st) (pw st) s' w') (Receiver.received i).
Proof using Hwf Hr Hinv Hinv' Hout Htk.
  destruct (handed_outcome _ _ _ _ _ _ _ Hout Htk) as (m & Hpay & Hm & l1 & Hl1 & Hcase).
  assert (Hq : forall q, q ∈ l -> cells (wheap w') !! q = cells (wheap (pw st)) !! q).
  { intros q Hq. apply iterated_same. apply elem_of_app. by right. }
  assert (Hhand : buffers w' (in_hand (pspc st)) = buffers (pw st) (in_hand (pspc st))).
  { apply buffers_agree. intros q Hin. apply iterated_same. apply elem_of_app. by left. }
  split; try done; unfold live; simpl; rewrite ?Hr.
  - rewrite <- Hpay.
    destruct Hcase as [(-> & -> & _)|(-> & p & _ & [(-> & _)|[(f & -> & _)|(-> & _)]])];
      simpl; by rewrite ?app_nil_r.
  - rewrite !buffers_app, Hhand, <- app_assoc. f_equal.
    destruct Hcase as [(-> & _ & -> & _)|(_ & p & _ & Hcase)].
    + rewrite (proj1 (pushed_buffers _ w' l l1 1%positive m _ Hq Hl1)). by rewrite app_nil_r.
    + destruct (pushed_buffers _ w' l l1 p m _ Hq Hl1) as [H1 H2].
      destruct Hcase as [(-> & -> & _ & Hc & Ht)|[(f & -> & -> & _)|(-> & -> & _)]];
        [by apply H2|by rewrite H1, app_nil_r..].
  - intros f. destruct Hcase as [(-> & _ & _ & ->)|(_ & p & _ & Hcase)].
    { exists []. by rewrite app_nil_r. }
    destruct Hcase as [(-> & _ & -> & _)|[(g & -> & _ & ->)|(-> & _ & Hg)]].
    + exists []. by rewrite app_nil_r.
    + eexists. split; [apply appended_content|]. unfold to_file, as_stored. simpl.
      destruct (decide (g = f)); simpl; [by rewrite app_nil_r|done].
    + destruct (grows_content _ _ f Hg) as [k Hk]. exists k. split; [done|]. apply sublist_nil_l.
Qed.
End Iterated.

Lemma stay_turn i st l :
  pipe_wf st l -> prpc st = RLoop -> turn_ok (TurnRecv i) -> 0 <= Receiver.in_nfds i ->
  Receiver.leaves (with_flag i (pquit st)) = false -> recv_goal i st l.
Proof using Hnode.
  intros Hwf Hr Hi Hn Hlv. destruct (pw_recv _ _ Hwf Hr) as [names Hinv].
  destruct (Receiver.iter_stays node_size _ _ (pr st) (pw st) l names node_bounds Hinv
    (with_flag_input i (pquit st) l Hi))
    as (s' & w' & l' & names' & E & Hinv' & Hout); try done.
  { intros q mq _. simpl. rewrite take_0. apply not_elem_of_nil. }
  unfold recv_goal, recv_turn. rewrite E. simpl. eexists _, l', _, _. split; [done|].
  split; [by eapply iterated_wf|by eapply iterated_facts].
Qed.

(** A failed [select] changes nothing. *)
Lemma error_turn i st l :
  pipe_wf st l -> prpc st = RLoop -> Receiver.in_nfds i < 0 -> recv_goal i st l.
Proof.
  intros Hwf Hr Hn. unfold recv_goal, recv_turn, Receiver.receiver_iter. simpl.
  destruct (Z.ltb_spec (Receiver.in_nfds i) 0); [|lia]. simpl.
  assert (Hrc : Receiver.received (with_flag i (pquit st)) = []).
  { unfold Receiver.received. simpl. by destruct (Z.gtb_spec (Receiver.in_nfds i) 0); [lia|]. }
  assert (Hh : handed (with_flag i (pquit st)) (pr st) (pw st) (pr st) (pw st) = []).
  { unfold handed. rewrite Hrc, app_nil_r. unfold Receiver.held.
    destruct (Receiver.rmsg (pr st)) as [p|]; [|done]. by destruct (cells (wheap (pw st)) !! p) as [m|];
      [destruct (payload m)|]. }
  eexists _, l, [], []. split; [done|]. rewrite Hh, Hrc. split.
  - destruct Hwf as [? ? Hw]. split; simpl; [done|done|]. intros _. by apply Hw.
  - split; unfold live; simpl; rewrite ?Hr, ?app_nil_r; try done.
    intros f. exists []. by rewrite app_nil_r.
Qed.

(** The last message, refused or in the queue. *)
Lemma last_refused st l names :
  rinv (kept (pw st) (in_hand (pspc st) ++ l)) (pr st) (pw st) l names ->
  (forall p m, Receiver.rmsg (pr st) = Some p -> cells (wheap (pw st)) !! p = Some m ->
     mlen m = 0 \/ mq_cap (wqueue (pw st)) <= zlen l) ->
  concat (snd <$> last_handed (pr st) (pw st)) = Receiver.held (pr st) (pw st) /\
  to_queue (last_handed (pr st) (pw st)) = [] /\
  forall f, to_file f (last_handed (pr st) (pw st)) = [].
Proof.
  intros Hinv Hno. unfold last_handed, Receiver.held.
  destruct (Receiver.rmsg (pr st)) as [p|] eqn:Ep; [|done].
  destruct (Receiver.rinv_pick _ _ _ _ _ _ p Hinv Ep) as (m & Hok & Hc & _). rewrite Hc.
  destruct (Z.eqb_spec (mlen m) 0) as [E0|E0].
  - split_and!; [|done|done]. simpl. unfold payload. by rewrite E0.
  - destruct (Hno p m eq_refl Hc) as [?|Hfull]; [done|].
    rewrite (mq_push_full _ _ p (Receiver.ri_queue _ _ _ _ _ _ Hinv) Hfull). simpl.
    by rewrite app_nil_r.
Qed.

Lemma last_pushed st l p m q :
  mq_holds (wqueue (pw st)) l -> Receiver.rmsg (pr st) = Some p ->
  cells (wheap (pw st)) !! p = Some m -> 0 < mlen m ->
  mq_holds q (l ++ [p]) -> mq_cap q = mq_cap (wqueue (pw st)) ->
  last_handed (pr st) (pw st) = [(if mtype m =? 0 then ToQueue else AsNames, payload m)].
Proof.
  intros Hq Hp Hc Hm Hq' Hcap. unfold last_handed. rewrite Hp, Hc.
  destruct (Z.eqb_spec (mlen m) 0); [lia|].
  apply mq_bound in Hq'. rewrite zlen_app, zlen_cons, zlen_nil in Hq'.
  destruct (mq_push_room _ l p Hq) as (q2 & -> & _); [lia|]. done.
Qed.

Lemma last_turn i st l :
  pipe_wf st l -> prpc st = RLoop -> 0 <= Receiver.in_nfds i ->
  Receiver.leaves (with_flag i (pquit st)) = true -> recv_goal i st l.
Proof using Hnode.
  intros Hwf Hr Hn Hlv. destruct (pw_recv _ _ Hwf Hr) as [names Hinv].
  unfold recv_goal, recv_turn, Receiver.receiver_iter. simpl.
  destruct (Z.ltb_spec (Receiver.in_nfds i) 0); [lia|]. rewrite Hlv.
  destruct (Receiver.push_last_spec node_size _ (with_flag i (pquit st)) _ _ _ _ Hinv)
    as (w' & -> & Hcase); [simpl; lia|]. simpl. destruct Hwf as [Hq Hh _].
  destruct Hcase as [[-> Hno]|(p & m & q & Hp & Hc & Hok & Hm & Hpl & Hq' & Hcap & Ei)].
  - destruct (last_refused st l names Hinv Hno) as (H1 & H2 & H3).
    eexists _, l, (last_handed (pr st) (pw st)), []. split; [done|]. split; [by split|].
    split; unfold live; simpl; rewrite ?Hr, ?app_nil_r; try done; [by rewrite H2, app_nil_r|].
    intros f. exists []. rewrite app_nil_r, H3. done.
  - unfold Receiver.interfere in Ei. simpl in Ei. injection Ei as <-.
    pose proof (last_pushed st l p m q (SenderWorker.si_queue _ _ Hq) Hp Hc Hm Hq' Hcap) as Hlast.
    eexists _, (l ++ [p]), (last_handed (pr st) (pw st)), []. split; [done|]. rewrite Hlast. split.
    + assert (Hq2 : sinv (MkWorld (wheap (pw st)) q (wfs (pw st))) (l ++ [p])).
      { destruct Hq as [Hh' _ Hnd Hl]. split; simpl; try done.
        - apply NoDup_app. split; [done|]. split; [set_solver|apply NoDup_singleton].
        - intros x [Hx| ->%list_elem_of_singleton]%elem_of_app; [by apply Hl|].
          exists m. split; [done|]. by apply held_sendable. }
      split; simpl; [done| |done]. intros x Hx. destruct (Hh x Hx) as (mx & (_ & Hxl & Hxc) & Hs).
      exists mx. split; [|done]. split; [done|]. split; [|done].
      intros [?| ->%list_elem_of_singleton]%elem_of_app; [done|].
      destruct (Receiver.ri_keep _ _ _ _ _ _ Hinv p mx) as (_ & Hne & _); [|by apply Hne].
      split; [|done]. apply elem_of_app. by left.
    + split; unfold live; simpl; rewrite ?Hr, ?app_nil_r; try done.
      * unfold Receiver.held. by rewrite Hp, Hc.
      * rewrite app_assoc, buffers_app. f_equal. rewrite (buffers_own _ p m) by done.
        by destruct (mtype m =? 0).
      * intros f. exists []. rewrite app_nil_r. unfold to_file, as_stored. simpl.
        destruct (mtype m =? 0); done.
Qed.

Lemma recv_turn_ok i st l :
  pipe_wf st l -> prpc st = RLoop -> turn_ok (TurnRecv i) -> recv_goal i st l.
Proof using Hnode.
  intros Hwf Hr Hi. destruct (Z.lt_ge_cases (Receiver.in_nfds i) 0); [by apply error_turn|].
  destruct (Receiver.leaves (with_flag i (pquit st))) eqn:El; [by apply last_turn|by apply stay_turn].
Qed.
(** ** Every turn *)

(** The sender has not started to dump. *)
Definition before_dump (pc : spc) : bool :=
  match pc with SIdle | SCheck | SBusy _ => true | _ => false end.

Lemma send_before net du st pc w out :
  send_turn net du st = Ok (pc, w, out) -> before_dump pc = true -> before_dump (pspc st) = true.
Proof.
  unfold send_turn. intros H Hb. destruct (pspc st) as [| |p|k p fp|p|]; try done.
  - apply bind_ok in H as ([e w'] & _ & H). destruct e; simplify_eq; by injection H as <- _ _.
  - by injection H as <- _ _.
  - by injection H as <- _ _.
Qed.

(** The accounts of a well-formed daemon. *)
Record accounts (st : pstate) (l : list ptr) : Prop := {
  ac_bytes : concat (snd <$> phist st) ++ live st = pin st;
  ac_queue : to_queue (phist st) = pout st ++ buffers (pw st) (in_hand (pspc st) ++ l);
  ac_files : before_dump (pspc st) = true ->
    forall f, sublist (concat (to_file f (phist st))) (content (wfs (pw st)) f)
}.

Lemma recv_accounts st st' l l' new rcv :
  received_turn st st' l l' new rcv -> accounts st l -> accounts st' l'.
Proof.
  intros [Eh Ei Eo Epc Hb Hq Hf] [Ab Aq Af]. split.
  - rewrite Eh, Ei, <- Ab, fmap_app, concat_app, <- !app_assoc. by rewrite Hb.
  - rewrite Eh, Eo, Epc, Hq, app_assoc, <- Aq. unfold to_queue. apply omap_app.
  - rewrite Epc, Eh. intros Hpc f. destruct (Hf f) as (k & -> & Hk). unfold to_file in *.
    rewrite omap_app, concat_app. by apply sublist_app; [apply Af|].
Qed.

Lemma send_accounts net du st l pc w out l' :
  send_turn net du st = Ok (pc, w, out) -> sender_moved st l pc w out l' ->
  accounts st l -> accounts (sent st pc w out) l'.
Proof.
  intros E (_ & Hb & Hl & Hf) [Ab Aq Af]. split; simpl.
  - rewrite <- Ab. f_equal. unfold live. simpl. destruct (prpc st); [by apply Hl|done].
  - by rewrite Aq, <- app_assoc, Hb.
  - intros Hpc. pose proof (send_before _ _ _ _ _ _ E Hpc) as Hpc'. rewrite Hf; [by apply Af|].
    by destruct (pspc st).
Qed.

(** One turn keeps the daemon well-formed and its accounts in balance. *)
Lemma turn_keeps t st l :
  pipe_wf st l -> turn_ok t ->
  exists st' l', pipe_turn t st = Ok st' /\ pipe_wf st' l' /\ (accounts st l -> accounts st' l').
Proof using Hnode Hdpath Htoken.
  intros Hwf Ht. destruct t as [i|net du|]; simpl.
  - destruct (prpc st) eqn:Er; [|by exists st, l].
    destruct (recv_turn_ok i st l Hwf Er Ht) as (st' & l' & new & rcv & E & Hwf' & Hrt).
    exists st', l'. split; [done|]. split; [done|]. by eapply recv_accounts.
  - destruct (send_turn_ok net du st l Hwf Ht) as (pc & w & out & l' & E & Hmv).
    rewrite E. simpl. exists (sent st pc w out), l'. split; [done|]. split; [apply Hmv|].
    by eapply send_accounts.
  - eexists _, l. split; [done|]. split; [by destruct Hwf|]. by intros [].
Qed.

Lemma run_keeps ts st l :
  pipe_wf st l -> accounts st l -> Forall turn_ok ts ->
  exists st' l', pipe_run ts st = Ok st' /\ pipe_wf st' l' /\ accounts st' l'.
Proof using Hnode Hdpath Htoken.
  intros Hwf Hac Hts. revert st l Hwf Hac. induction Hts as [|t ts Ht Hts IH]; intros st l Hwf Hac.
  { by exists st, l. }
  simpl. destruct (turn_keeps t st l Hwf Ht) as (st1 & l1 & -> & Hwf1 & Hac1). simpl. eauto.
Qed.

Lemma start_keeps sockfd stat_ok mkdir_ok dir fsize fcnt s w :
  Receiver.receiver_start sockfd stat_ok mkdir_ok dir fsize fcnt = Some s ->
  1 <= zlen dir <= 235 -> no_nul dir -> 0 <= fcnt ->
  heap_wf (wheap w) -> mq_holds (wqueue w) [] ->
  pipe_wf (pipe_start s w) [] /\ accounts (pipe_start s w) [].
Proof.
  intros Hst Hd Hn Hf Hh Hq.
  assert (Hr : Receiver.rmsg s = None).
  { unfold Receiver.receiver_start in Hst. repeat case_match; simplify_eq; done. }
  split; split; simpl; try done.
  - split; try done; [apply NoDup_nil_2|]. intros p Hp. by apply not_elem_of_nil in Hp.
  - intros p Hp. by apply not_elem_of_nil in Hp.
  - intros _. exists []. eapply Receiver.start_rinv; try done. by intros p m [_ ?].
  - unfold live, Receiver.held. simpl. by rewrite Hr.
  - intros _ f. apply sublist_nil_l.
Qed.
(** ** Properties *)


(** C5 - Nothing is lost, doubled or reordered without the receiver's saying
    so.  However the two threads take turns from the start of the daemon,
    every turn is defined, and at any moment: the bytes received are the
    chunks the receiver let go of, in order, followed by what it still holds;
    the chunks it queued are the buffers the sender is done with, followed by
    the one in its hands and those in the queue, in the same order, each once;
    and until a dump, the chunks it stored in a file are in that file, in
    order. *)
Theorem pipeline_conserves sockfd stat_ok mkdir_ok dir fsize fcnt s w ts
    (Hstart : Receiver.receiver_start sockfd stat_ok mkdir_ok dir fsize fcnt = Some s)
    (Hdir : 1 <= zlen dir <= 235) (Hnul : no_nul dir) (Hfcnt : 0 <= fcnt)
    (Hheap : heap_wf (wheap w)) (Hqueue : mq_holds (wqueue w) []) (Hts : Forall turn_ok ts) :
  exists st l, pipe_run ts (pipe_start s w) = Ok st /\ mq_holds (wqueue (pw st)) l /\
    concat (snd <$> phist st) ++ live st = pin st /\
    to_queue (phist st) = pout st ++ buffers (pw st) (in_hand (pspc st) ++ l) /\
    (before_dump (pspc st) = true ->
       forall f, sublist (concat (to_file f (phist st))) (content (wfs (pw st)) f)).
Proof using Hnode Hdpath Htoken.
  destruct (start_keeps _ _ _ _ _ _ _ _ Hstart Hdir Hnul Hfcnt Hheap Hqueue) as [Hwf Hac].
  destruct (run_keeps ts _ _ Hwf Hac Hts) as (st & l & E & Hwf' & []).
  exists st, l. split_and!; try done. apply Hwf'.
Qed.

(** C15 - The last message can be lost.  When the signal to quit comes while
    the receiver holds data, the queue is empty and the sender waits at it,
    the sender times out first, sees the flag and ends; the receiver's own
    time-out comes later, it puts the message into the queue and ends: both
    threads are over and the message is in a queue nobody reads. *)
Theorem last_message_lost net du i st p m
    (Hwf : pipe_wf st []) (Hr : prpc st = RLoop) (Hs : pspc st = SIdle) (Hquit : pquit st = 1)
    (Hp : Receiver.rmsg (pr st) = Some p) (Hm : cells (wheap (pw st)) !! p = Some m)
    (Hlen : 0 < mlen m) (Hcap : 0 < mq_cap (wqueue (pw st))) (Hto : Receiver.in_nfds i = 0) :
  exists st', pipe_run [TurnSend net du; TurnSend net du; TurnRecv i] st = Ok st' /\
    prpc st' = REnd /\ pspc st' = SEnd /\ mq_holds (wqueue (pw st')) [p] /\
    cells (wheap (pw st')) !! p = Some m /\ pout st' = pout st.
Proof.
  pose proof (SenderWorker.si_queue _ _ (pw_queue _ _ Hwf)) as Hq. cbn [pipe_run pipe_turn].
  assert (E1 : send_turn net du st = Ok (SCheck, pw st, [])).
  { unfold send_turn. rewrite Hs, (mq_pop_empty _ Hq). simpl. by destruct (pw st). }
  rewrite E1. simpl. unfold send_turn, quits. simpl. rewrite Hquit. simpl.
  rewrite Hr. unfold recv_turn, Receiver.receiver_iter, Receiver.leaves. simpl.
  rewrite Hto. simpl. unfold Receiver.push_last, Receiver.push_wait. rewrite Hp. simpl.
  rewrite (load_ok _ _ _ Hm). simpl. destruct (Z.gtb_spec (mlen m) 0); [|lia].
  destruct (mq_push_room _ [] p Hq Hcap) as (q & -> & Hq' & _). simpl.
  rewrite (Receiver.log_len_ok p _ m) by done. simpl.
  eexists. split; [done|]. split_and!; try done. simpl. by rewrite !app_nil_r.
Qed.

(** The last message goes into the queue with the type it has: a message the
    receiver had set aside for a file, because the list of files had been
    refused, is queued as if it were a list of files.  Its data is never
    sent: the sender looks for a file of that name and goes on to the next. *)
Theorem last_data_as_names i st l p m
    (Hwf : pipe_wf st l) (Hr : prpc st = RLoop) (Hquit : pquit st = 1)
    (Hp : Receiver.rmsg (pr st) = Some p) (Hm : cells (wheap (pw st)) !! p = Some m)
    (Hlen : 0 < mlen m) (Htype : mtype m = 1) (Hroom : zlen l < mq_cap (wqueue (pw st)))
    (Hto : Receiver.in_nfds i = 0) :
  exists st', pipe_turn (TurnRecv i) st = Ok st' /\ mq_holds (wqueue (pw st')) (l ++ [p]) /\
    phist st' = phist st ++ [(AsNames, payload m)] /\
    buffers (pw st') (l ++ [p]) = buffers (pw st) l.
Proof.
  pose proof (SenderWorker.si_queue _ _ (pw_queue _ _ Hwf)) as Hq. simpl. rewrite Hr.
  destruct (mq_push_room _ l p Hq Hroom) as (q & Eq & Hq' & Hc).
  assert (Hlast : last_handed (pr st) (pw st) = [(AsNames, payload m)]).
  { by rewrite (last_pushed st l p m q Hq Hp Hm Hlen Hq' Hc), Htype. }
  unfold recv_turn, Receiver.receiver_iter, Receiver.leaves. simpl.
  rewrite Hto, Hquit. simpl. unfold Receiver.push_last, Receiver.push_wait. rewrite Hp. simpl.
  rewrite (load_ok _ _ _ Hm). simpl. destruct (Z.gtb_spec (mlen m) 0); [|lia].
  rewrite Eq. simpl. rewrite (Receiver.log_len_ok p _ m) by done. simpl.
  eexists. split; [done|]. rewrite Hlast. split_and!; try done. simpl.
  rewrite (buffers_skip _ _ p m) by done. by apply buffers_agree.
Qed.
End Pipeline.

(** ** The properties at concrete inputs: the circular queue, a server that
    takes everything. *)
#[local] Abbreviation demo_run := (pipe_run 8192 Sender.demo_parse Sender.demo_item id
  SenderWorker.demo_size (bytes "/x") (bytes "h") (bytes "tk") (bytes "/d")).
#[local] Abbreviation demo_turn := (pipe_turn 8192 Sender.demo_parse Sender.demo_item id
  SenderWorker.demo_size (bytes "/x") (bytes "h") (bytes "tk") (bytes "/d")).

Definition demo_start : pstate :=
  pipe_start (Receiver.demo_state None) (Receiver.demo_world Receiver.empty_heap).
Definition demo_recv (nfds : Z) (b : list Z) : turn := TurnRecv (Receiver.demo_input nfds b 0).
Definition demo_send : turn :=
  TurnSend (fun _ => SenderWorker.MkNet true Sender.demo_curl) SenderWorker.demo_dump.

Lemma demo_recv_ok nfds b : zlen b <= Receiver.MAX_BUFF_SIZE -> turn_ok (demo_recv nfds b).
Proof. intros Hb. split; [|exact demo_stamp]. by intros b' [= <-]. Qed.
Lemma demo_send_ok : turn_ok demo_send.
Proof. split; [|exact SenderWorker.dump_stamp]. intros k rq. repeat constructor. Qed.

Lemma demo_nodes : 4096 < 8192 <= MSG_LIMIT.
Proof. unfold MSG_LIMIT. lia. Qed.
Lemma demo_token : no_nul (bytes "tk").
Proof. repeat constructor; done. Qed.

Lemma demo_started : pipe_wf 8192 demo_start [] /\ accounts demo_start [].
Proof.
  apply (start_keeps 8192 3 true true (bytes "/d") 1000 2).
  - done.
  - apply Receiver.demo_dir.
  - apply Receiver.demo_dir.
  - done.
  - apply Receiver.empty_heap_wf.
  - apply Receiver.demo_holds.
Qed.


(** A datagram received, queued at the time-out, and sent. *)
Definition demo_turns : list turn :=
  [demo_recv 1 (bytes "event"); demo_recv 0 []; demo_send; demo_send].

Lemma demo_turns_ok : Forall turn_ok demo_turns.
Proof.
  repeat (apply Forall_cons; split; [first [exact demo_send_ok|by apply demo_recv_ok]|]).
  by apply Forall_nil.
Qed.

Lemma pipeline_conserves_witness :
  exists st l, demo_run demo_turns demo_start = Ok st /\ pout st = [bytes "event"] /\
    mq_holds (Receiver.wqueue (pw st)) l /\ pin st = bytes "event".
Proof.
  destruct (pipeline_conserves 8192 Sender.demo_parse Sender.demo_item id SenderWorker.demo_size
    (bytes "/x") (bytes "h") (bytes "tk") (bytes "/d") SenderWorker.demo_no_nul demo_token
    demo_nodes 3 true true (bytes "/d") 1000 2 (Receiver.demo_state None)
    (Receiver.demo_world Receiver.empty_heap) demo_turns eq_refl)
    as (st & l & E & Hq & Hin & Hout & _).
  - apply Receiver.demo_dir.
  - apply Receiver.demo_dir.
  - done.
  - apply Receiver.empty_heap_wf.
  - apply Receiver.demo_holds.
  - apply demo_turns_ok.
  - exists st, l. split; [exact E|]. change (pipe_start _ _) with demo_start in E.
    assert (Ep : (fun st => (pout st, pin st)) <$> demo_run demo_turns demo_start =
      Ok ([bytes "event"], bytes "event")) by (by vm_compute).
    rewrite E in Ep. injection Ep as Eo Ei. exact (conj Eo (conj Hq Ei)).
Defined.

(** The daemon with a datagram held and the flag raised. *)
Definition demo_held : pstate :=
  match demo_run [demo_recv 1 (bytes "event"); TurnQuit] demo_start with
  | Ok st => st
  | UB _ => demo_start
  end.

Lemma demo_held_run : demo_run [demo_recv 1 (bytes "event"); TurnQuit] demo_start = Ok demo_held.
Proof. unfold demo_held. by destruct (demo_run _ _) eqn:E; [|vm_compute in E]. Qed.

Lemma demo_held_wf : pipe_wf 8192 demo_held [].
Proof.
  destruct (run_keeps 8192 Sender.demo_parse Sender.demo_item id SenderWorker.demo_size
    (bytes "/x") (bytes "h") (bytes "tk") (bytes "/d") SenderWorker.demo_no_nul demo_token
    demo_nodes [demo_recv 1 (bytes "event"); TurnQuit] demo_start [] (proj1 demo_started)
    (proj2 demo_started)) as (st & l & E & Hwf & _).
  - apply Forall_cons. split; [by apply demo_recv_ok|]. by repeat constructor.
  - rewrite demo_held_run in E. injection E as <-. destruct l as [|p l]; [done|].
    destruct (mq_pop_some _ p l (SenderWorker.si_queue _ _ (pw_queue _ _ _ Hwf))) as (q & Eq & _).
    by vm_compute in Eq.
Qed.

Lemma last_message_lost_witness :
  exists st', demo_run [demo_send; demo_send; demo_recv 0 []] demo_held = Ok st' /\
    prpc st' = REnd /\ pspc st' = SEnd /\ mq_holds (Receiver.wqueue (pw st')) [1%positive] /\
    pout st' = pout demo_held.
Proof.
  destruct (last_message_lost 8192 Sender.demo_parse Sender.demo_item id SenderWorker.demo_size
    (bytes "/x") (bytes "h") (bytes "tk") (bytes "/d")
    (fun _ => SenderWorker.MkNet true Sender.demo_curl) SenderWorker.demo_dump
    (Receiver.demo_input 0 [] 0) demo_held 1%positive
    (MkMessage 0 5 8192 (bytes "event" ++ zeros 8187)) demo_held_wf)
    as (st' & E & H1 & H2 & H3 & _ & H4); try (by vm_compute).
  exists st'. split; [exact E|]. by split_and!.
Defined.
End Pipeline.
