(* ===== verification/Conf.v ===== *)
(** The configuration of the process (src/useapp/conf.c, conf.h): the getters
    and the setter over the configuration service, the loader with its early
    exits, and the wait for a user's login.  The service and cJSON are
    parameters; [ConfigService] states what the loader relies on. *)
From S2P Require Import Prelude.

Module Conf.

(** Pointers to the strings [strdup] made. *)
Abbreviation sptr := positive.

(** [struct configure] *)
Record configure := MkConf {
  node_size : Z; node_count : Z;
  data_path : option sptr; max_fcnt : Z; max_fsize : Z;
  host : option sptr; access_token : option sptr;
  listener : Z; recv_timeout : Z; send_timeout : Z; ctrl_proc : Z
}.

Inductive op : Type := CONF_JSON_GET | CONF_JSON_SET.

Section Conf.
Context {json svc : Type}.
(** One request to the configuration service, [None] for a failed one. *)
Context (configure_cli_do : svc -> op -> list Z -> option json -> option json * svc).
Context (cJSON_GetObjectItem : option json -> list Z -> option json).
Context (cJSON_CreateNumber : Z -> json).
Context (jtype : json -> Z) (valueint : json -> Z) (valuestring : json -> list Z).
Context (cJSON_Number cJSON_String : Z).

(** The service and the strings on the heap. *)
Record st := MkSt { service : svc; strs : gmap sptr (list Z) }.

(** The calls of the loader: a value, or the early exit ([None]). *)
Definition M (A : Type) : Type := st -> res (option A * st).
#[local] Instance M_ret : MRet M := fun A a s => Ok (Some a, s).
#[local] Instance M_bind : MBind M := fun A B k m s =>
  '(o, s) ← m s; match o with Some a => k a s | None => Ok (None, s) end.

Definition strdup (t : list Z) (s : st) : sptr * st :=
  let p := fresh (dom (strs s)) in (p, MkSt (service s) (<[p := t]> (strs s))).

Definition get_configuration_int (path : list Z) (s : st) : res (Z * st) :=
  let '(result, v) := configure_cli_do (service s) CONF_JSON_GET path None in
  let s := MkSt v (strs s) in
  match result with
  | None => Ok (-1, s)
  | Some r =>
      code ← of_option NullDeref (cJSON_GetObjectItem (Some r) (bytes "code"));
      if negb (valueint code =? 0) then Ok (-1, s)
      else match cJSON_GetObjectItem (Some r) (bytes "data") with
           | Some d => if negb (jtype d =? cJSON_Number) then Ok (-1, s) else Ok (valueint d, s)
           | None => Ok (-1, s)
           end
  end.

Definition set_configuration_int (path : list Z) (val : Z) (s : st) : Z * st :=
  let '(result, v) :=
    configure_cli_do (service s) CONF_JSON_SET path (Some (cJSON_CreateNumber val)) in
  let s := MkSt v (strs s) in
  match cJSON_GetObjectItem result (bytes "code") with
  | Some code => if valueint code =? 0 then (0, s) else (-1, s)
  | None => (-1, s)
  end.

Definition get_configuration_string (path : list Z) (s : st) : res (option sptr * st) :=
  let '(result, v) := configure_cli_do (service s) CONF_JSON_GET path None in
  let s := MkSt v (strs s) in
  match result with
  | None => Ok (None, s)
  | Some r =>
      code ← of_option NullDeref (cJSON_GetObjectItem (Some r) (bytes "code"));
      if negb (valueint code =? 0) then Ok (None, s)
      else match cJSON_GetObjectItem (Some r) (bytes "data") with
           | Some d =>
               if negb (jtype d =? cJSON_String) then Ok (None, s)
               else let '(p, s) := strdup (valuestring d) s in Ok (Some p, s)
           | None => Ok (None, s)
           end
  end.

(** A field that must be there: [-1] and NULL leave the loader. *)
Definition need_int (path : list Z) : M Z := fun s =>
  '(v, s) ← get_configuration_int path s; Ok (if v =? -1 then None else Some v, s).
Definition need_string (path : list Z) : M sptr := get_configuration_string path.
Definition need_set (path : list Z) (val : Z) : M unit := fun s =>
  let '(r, s) := set_configuration_int path val s in Ok (if r =? -1 then None else Some tt, s).

(** [load_configuration]; the early exit frees the struct and nothing else. *)
Definition load_configuration (pid : Z) : M configure :=
  host ← need_string (bytes "/urls/addr");
  listener ← need_int (bytes "/logd/listener");
  path ← need_string (bytes "/logd/data/path");
  fcnt ← need_int (bytes "/logd/data/max_fcount");
  fsize ← need_int (bytes "/logd/data/max_fsize");
  size ← need_int (bytes "/logd/queue/node_size");
  count ← need_int (bytes "/logd/queue/node_count");
  recv ← need_int (bytes "/logd/recv_timeout");
  send ← need_int (bytes "/logd/send_timeout");
  ctrl ← need_int (bytes "/configd/pid");
  _ ← need_set (bytes "/logd/pid") pid;
  mret {| node_size := size; node_count := count;
          data_path := Some path; max_fcnt := fcnt; max_fsize := fsize;
          host := Some host; access_token := None;
          listener := listener; recv_timeout := recv; send_timeout := send;
          ctrl_proc := ctrl |}.

Definition set_token (c : configure) (t : option sptr) : configure :=
  MkConf (node_size c) (node_count c) (data_path c) (max_fcnt c) (max_fsize c)
    (host c) t (listener c) (recv_timeout c) (send_timeout c) (ctrl_proc c).

(** [wait_user_loggin]: one poll per element of [sleeps], which says how the
    service changed during the sleep before the next poll.  [None]: still
    waiting after the last one. *)
Fixpoint wait_user_loggin (sleeps : list (svc -> svc)) (c : configure) (s : st)
    : res (option (Z * configure) * st) :=
  '(t, s) ← get_configuration_string (bytes "/user/access_token") s;
  let c := set_token c t in
  match t with
  | Some _ => Ok (Some (0, c), s)
  | None =>
      match sleeps with
      | [] => Ok (None, s)
      | f :: sleeps => wait_user_loggin sleeps c (MkSt (f (service s)) (strs s))
      end
  end.

(** ** What the loader relies on *)
Inductive cval : Type := VInt (z : Z) | VStr (t : list Z).

(** A reply with a value, and a refusal. *)
Definition reply_value (r : json) (v : cval) : Prop :=
  exists code d,
    cJSON_GetObjectItem (Some r) (bytes "code") = Some code /\ valueint code = 0 /\
    cJSON_GetObjectItem (Some r) (bytes "data") = Some d /\
    match v with
    | VInt z => jtype d = cJSON_Number /\ valueint d = z
    | VStr t => jtype d = cJSON_String /\ valuestring d = t
    end.
Definition reply_refused (r : json) : Prop :=
  exists code, cJSON_GetObjectItem (Some r) (bytes "code") = Some code /\ valueint code <> 0.
Definition reply_done (r : json) : Prop :=
  exists code, cJSON_GetObjectItem (Some r) (bytes "code") = Some code /\ valueint code = 0.

(** The service is a store of values under paths. *)
Class ConfigService := {
  db : svc -> gmap (list Z) cval;
  get_keeps v path : db (snd (configure_cli_do v CONF_JSON_GET path None)) = db v;
  get_some v path c : db v !! path = Some c ->
    exists r, fst (configure_cli_do v CONF_JSON_GET path None) = Some r /\ reply_value r c;
  get_none v path : db v !! path = None ->
    fst (configure_cli_do v CONF_JSON_GET path None) = None \/
    exists r, fst (configure_cli_do v CONF_JSON_GET path None) = Some r /\ reply_refused r;
  set_done v path z :
    exists r, fst (configure_cli_do v CONF_JSON_SET path (Some (cJSON_CreateNumber z))) = Some r /\
      reply_done r /\
      db (snd (configure_cli_do v CONF_JSON_SET path (Some (cJSON_CreateNumber z)))) =
        <[path := VInt z]> (db v);
  types_differ : cJSON_Number <> cJSON_String
}.

#[local] Opaque bytes.

(** Without a "code" in the reply the getters read through NULL; the setter
    tests for it. *)
Lemma get_no_code path s r :
  fst (configure_cli_do (service s) CONF_JSON_GET path None) = Some r ->
  cJSON_GetObjectItem (Some r) (bytes "code") = None ->
  get_configuration_int path s = UB NullDeref /\
  get_configuration_string path s = UB NullDeref.
Proof.
  intros Hr Hc. unfold get_configuration_int, get_configuration_string.
  destruct (configure_cli_do _ _ _ _) as [o v]. simpl in Hr. subst o.
  by rewrite Hc.
Qed.

(** A reply that has no "code" member makes both getters dereference
    NULL, while the setter takes the same reply as a failure. *)
Theorem getters_need_code path z s r :
  fst (configure_cli_do (service s) CONF_JSON_GET path None) = Some r ->
  fst (configure_cli_do (service s) CONF_JSON_SET path (Some (cJSON_CreateNumber z))) = Some r ->
  cJSON_GetObjectItem (Some r) (bytes "code") = None ->
  get_configuration_int path s = UB NullDeref /\
  get_configuration_string path s = UB NullDeref /\
  fst (set_configuration_int path z s) = -1.
Proof.
  intros Hg Hs Hc. destruct (get_no_code path s r Hg Hc) as [H1 H2].
  split; [done|]. split; [done|]. unfold set_configuration_int.
  destruct (configure_cli_do (service s) CONF_JSON_SET path _) as [o v]. simpl in Hs. subst o.
  by rewrite Hc.
Qed.

Section Store.
Context {CS : ConfigService}.

Definition int_at (d : gmap (list Z) cval) (path : list Z) : Z :=
  match d !! path with Some (VInt z) => z | _ => -1 end.
Definition str_at (d : gmap (list Z) cval) (path : list Z) : option (list Z) :=
  match d !! path with Some (VStr t) => Some t | _ => None end.

Lemma get_int_spec path s :
  exists s', get_configuration_int path s = Ok (int_at (db (service s)) path, s') /\
    db (service s') = db (service s) /\ strs s' = strs s.
Proof.
  unfold get_configuration_int, int_at. pose proof (get_keeps (service s) path) as Hk.
  pose proof (get_some (service s) path) as Hsome. pose proof (get_none (service s) path) as Hnone.
  destruct (configure_cli_do (service s) CONF_JSON_GET path None) as [o v]. simpl in *.
  exists (MkSt v (strs s)). split; [|done].
  destruct (db (service s) !! path) as [c|].
  - destruct (Hsome c eq_refl) as (r & -> & code & d & Hc & Hc0 & Hd & Hv).
    rewrite Hc. simpl. rewrite Hc0. simpl. rewrite Hd.
    destruct c as [z|t]; destruct Hv as [Ht Hv]; rewrite Ht.
    + by rewrite Z.eqb_refl, Hv.
    + pose proof types_differ. by destruct (Z.eqb_spec cJSON_String cJSON_Number).
  - destruct (Hnone eq_refl) as [->|(r & -> & code & Hc & Hc0)]; [done|].
    rewrite Hc. simpl. by destruct (Z.eqb_spec (valueint code) 0).
Qed.

Lemma get_string_spec path s :
  exists p s', get_configuration_string path s = Ok (p, s') /\
    db (service s') = db (service s) /\
    match str_at (db (service s)) path with
    | Some t => exists q, p = Some q /\ strs s !! q = None /\ strs s' = <[q := t]> (strs s)
    | None => p = None /\ strs s' = strs s
    end.
Proof.
  unfold get_configuration_string, str_at. pose proof (get_keeps (service s) path) as Hk.
  pose proof (get_some (service s) path) as Hsome. pose proof (get_none (service s) path) as Hnone.
  destruct (configure_cli_do (service s) CONF_JSON_GET path None) as [o v]. simpl in *.
  destruct (db (service s) !! path) as [c|].
  - destruct (Hsome c eq_refl) as (r & -> & code & d & Hc & Hc0 & Hd & Hv).
    rewrite Hc. simpl. rewrite Hc0. simpl. rewrite Hd.
    destruct c as [z|t]; destruct Hv as [Ht Hv]; rewrite Ht.
    + pose proof types_differ. destruct (Z.eqb_spec cJSON_Number cJSON_String); [done|].
      simpl. eauto 10.
    + rewrite Z.eqb_refl. simpl. rewrite Hv. eexists _, _. split; [done|]. split; [done|].
      eexists. split; [done|]. split; [|done]. apply not_elem_of_dom. apply is_fresh.
  - destruct (Hnone eq_refl) as [->|(r & -> & code & Hc & Hc0)]; [eauto 10|].
    rewrite Hc. simpl. destruct (Z.eqb_spec (valueint code) 0); [done|].
    simpl. eauto 10.
Qed.

(** The calls of the loader, in front of the rest of it. *)
Lemma need_int_bind {B} path (k : Z -> M B) s :
  exists s', db (service s') = db (service s) /\ strs s' = strs s /\
    (need_int path ≫= k) s =
      (if int_at (db (service s)) path =? -1 then Ok (None, s')
       else k (int_at (db (service s)) path) s').
Proof.
  destruct (get_int_spec path s) as (s' & E & Hd & Hs). exists s'. split; [done|]. split; [done|].
  unfold mbind, M_bind, need_int. rewrite E. simpl. by destruct (_ =? -1).
Qed.

Lemma need_string_bind {B} path (k : sptr -> M B) s :
  exists q s', db (service s') = db (service s) /\ strs s !! q = None /\
    strs s' = match str_at (db (service s)) path with
              | Some t => <[q := t]> (strs s) | None => strs s end /\
    (need_string path ≫= k) s =
      match str_at (db (service s)) path with
      | Some _ => k q s'
      | None => Ok (None, s')
      end.
Proof.
  destruct (get_string_spec path s) as (p & s' & E & Hd & Hp).
  unfold mbind, M_bind, need_string. rewrite E. simpl.
  destruct (str_at (db (service s)) path) as [t|].
  - destruct Hp as (q & -> & Hq & Hs). by exists q, s'.
  - destruct Hp as [-> Hs]. exists (fresh (dom (strs s))), s'. split_and!; try done.
    apply not_elem_of_dom. apply is_fresh.
Qed.

Lemma need_set_bind {B} path z (k : unit -> M B) s :
  exists s', db (service s') = <[path := VInt z]> (db (service s)) /\ strs s' = strs s /\
    (need_set path z ≫= k) s = k tt s'.
Proof.
  unfold mbind, M_bind, need_set, set_configuration_int.
  destruct (set_done (service s) path z) as (r & Hr & (code & Hc & Hc0) & Hdb).
  destruct (configure_cli_do (service s) CONF_JSON_SET path _) as [o v]. simpl in *. subst o.
  exists (MkSt v (strs s)). split; [done|]. split; [done|].
  rewrite Hc. simpl. by rewrite Hc0.
Qed.

(** The integers the loader asks for, in its order. *)
Definition int_paths : list (list Z) :=
  [bytes "/logd/listener"; bytes "/logd/data/max_fcount"; bytes "/logd/data/max_fsize";
   bytes "/logd/queue/node_size"; bytes "/logd/queue/node_count"; bytes "/logd/recv_timeout";
   bytes "/logd/send_timeout"; bytes "/configd/pid"].

(** Everything the loader needs is stored, with the right type, and no
    integer is [-1]. *)
Definition complete (d : gmap (list Z) cval) : Prop :=
  is_Some (str_at d (bytes "/urls/addr")) /\ is_Some (str_at d (bytes "/logd/data/path")) /\
  Forall (fun p => int_at d p <> -1) int_paths.

(** The loaded configuration says what the store says. *)
Record loaded (d : gmap (list Z) cval) (c : configure) (h : gmap sptr (list Z)) : Prop := {
  ld_host : exists p, host c = Some p /\ h !! p = str_at d (bytes "/urls/addr");
  ld_path : exists p, data_path c = Some p /\ h !! p = str_at d (bytes "/logd/data/path");
  ld_ints : [listener c; max_fcnt c; max_fsize c; node_size c; node_count c; recv_timeout c;
             send_timeout c; ctrl_proc c] = int_at d <$> int_paths;
  ld_token : access_token c = None
}.

Lemma need_int_at {B} d g path (k : Z -> M B) s :
  db (service s) = d -> strs s = g ->
  exists s', db (service s') = d /\ strs s' = g /\
    (need_int path ≫= k) s =
      (if int_at d path =? -1 then Ok (None, s') else k (int_at d path) s').
Proof. intros <- <-. apply need_int_bind. Qed.

Lemma int_needed d path : path ∈ int_paths -> complete d -> int_at d path <> -1.
Proof. intros Hp (_ & _ & Hf). rewrite Forall_forall in Hf. by apply Hf. Qed.

(** The strings before stay, and the host's is among the new ones. *)
Definition keeps_strs (d : gmap (list Z) cval) (g g' : gmap sptr (list Z)) : Prop :=
  g ⊆ g' /\ forall h, str_at d (bytes "/urls/addr") = Some h ->
    exists q, g !! q = None /\ g' !! q = Some h.

Definition loader_result (pid : Z) (d : gmap (list Z) cval) (g : gmap sptr (list Z))
    (r : res (option configure * st)) : Prop :=
  exists o s', r = Ok (o, s') /\ keeps_strs d g (strs s') /\
    match o with
    | Some c => complete d /\ loaded d c (strs s') /\
        db (service s') = <[bytes "/logd/pid" := VInt pid]> d
    | None => ~ complete d /\ db (service s') = d
    end.

Lemma loader_fails pid d g s' :
  keeps_strs d g (strs s') -> ~ complete d -> db (service s') = d ->
  loader_result pid d g (Ok (None, s')).
Proof. intros. exists None, s'. done. Qed.

(** Ask for the next integer; when it is missing the loader fails. *)
Ltac need_next :=
  match goal with
  | D : db (service ?s) = ?d, S : strs ?s = ?g |- loader_result _ _ _ ((need_int ?p ≫= ?k) ?s) =>
      let s' := fresh "s" in
      let E := fresh "E" in
      destruct (need_int_at d g p k s D S) as (s' & ? & ? & ->);
      clear D S; destruct (Z.eqb_spec (int_at d p) (-1)) as [E|E];
      [apply loader_fails;
        [congruence
        |intros Hc; apply (int_needed d p); [unfold int_paths; rewrite !elem_of_cons; tauto|done..]
        |done]
      |]
  end.

Lemma loader_spec pid s :
  loader_result pid (db (service s)) (strs s) (load_configuration pid s).
Proof.
  set (d := db (service s)). unfold load_configuration.
  match goal with |- loader_result _ _ _ ((_ ≫= ?k) _) =>
    destruct (need_string_bind (bytes "/urls/addr") k s) as (q1 & s1 & D1 & N1 & S1 & ->) end.
  fold d in S1 |- *. fold d in D1.
  destruct (str_at d (bytes "/urls/addr")) as [h|] eqn:Eh.
  2: { apply loader_fails; [|intros ([? Hx] & _); congruence|done].
       split; [by rewrite S1|]. congruence. }
  assert (K1 : keeps_strs d (strs s) (strs s1)).
  { rewrite S1. split; [by apply insert_subseteq|]. rewrite Eh. intros h' [= <-]. exists q1.
    split; [done|apply lookup_insert_eq]. }
  assert (S1' : strs s1 = strs s1) by done. need_next.
  match goal with |- loader_result _ _ _ ((_ ≫= ?k) ?s0) =>
    destruct (need_string_bind (bytes "/logd/data/path") k s0) as (q2 & s2 & D2 & N2 & S2 & ->) end.
  rewrite H in D2, S2 |- *. rewrite H0 in N2, S2.
  destruct (str_at d (bytes "/logd/data/path")) as [t|] eqn:Et.
  2: { apply loader_fails; [|intros (_ & [? Hx] & _); congruence|done]. by rewrite S2. }
  assert (K2 : keeps_strs d (strs s) (strs s2)).
  { rewrite S2. destruct K1 as [K1 K1']. split.
    - etrans; [done|]. by apply insert_subseteq.
    - intros h' Hh. destruct (K1' h' Hh) as (q & Hq & Hq'). exists q. split; [done|].
      rewrite lookup_insert_ne; [done|]. intros ->. congruence. }
  assert (S2' : strs s2 = strs s2) by done. do 7 need_next.
  match goal with |- loader_result _ _ _ ((need_set ?p ?z ≫= ?k) ?s0) =>
    destruct (need_set_bind p z k s0) as (s' & D' & S' & ->) end.
  eexists (Some _), s'. split; [done|]. split; [congruence|].
  split; [|split; [|congruence]].
  - split; [by eexists|]. split; [by eexists|]. unfold int_paths. by repeat (apply Forall_cons; split).
  - assert (Hs : strs s' = <[q2 := t]> (<[q1 := h]> (strs s))) by congruence.
    assert (q1 <> q2). { intros ->. rewrite S1, lookup_insert_eq in N2. done. }
    split; simpl; [| |done|done].
    + exists q1. split; [done|]. by rewrite Hs, lookup_insert_ne, lookup_insert_eq by done.
    + exists q2. split; [done|]. by rewrite Hs, lookup_insert_eq.
Qed.


(** A load that fails after the host was read returns NULL and leaves
    the host's string allocated, with nothing left that points to it: the
    early exit frees only the struct. *)
Theorem load_failure_leaks_host pid s h :
  str_at (db (service s)) (bytes "/urls/addr") = Some h -> ~ complete (db (service s)) ->
  exists s' q, load_configuration pid s = Ok (None, s') /\
    strs s !! q = None /\ strs s' !! q = Some h.
Proof.
  intros Hh Hn. destruct (loader_spec pid s) as (o & s' & E & [_ Hk] & Ho).
  destruct (Hk h Hh) as (q & Hq & Hq'). destruct o; [by destruct Ho|]. eauto.
Qed.

(** The token the service has at the first poll at which it has one; [gs] is
    what the sleeps do to the store. *)
Fixpoint logged (gs : list (gmap (list Z) cval -> gmap (list Z) cval)) (d : gmap (list Z) cval)
    : option (list Z) :=
  match str_at d (bytes "/user/access_token") with
  | Some t => Some t
  | None => match gs with [] => None | g :: gs => logged gs (g d) end
  end.

(** The wait for a login ends at the first poll at which the store has a
    token, with that token in the configuration and nothing else changed, and
    goes on as long as there is none. *)
Theorem wait_ends_at_login sleeps gs c s :
  Forall2 (fun f g => forall v, db (f v) = g (db v)) sleeps gs ->
  exists o s', wait_user_loggin sleeps c s = Ok (o, s') /\
    match logged gs (db (service s)) with
    | Some t => exists q, o = Some (0, set_token c (Some q)) /\ strs s !! q = None /\
        strs s' = <[q := t]> (strs s)
    | None => o = None /\ strs s' = strs s
    end.
Proof.
  intros Hs. revert c s. induction Hs as [|f g sleeps gs Hf Hs IH]; intros c s; simpl;
    destruct (get_string_spec (bytes "/user/access_token") s) as (p & s' & -> & Hd & Hp); simpl;
    destruct (str_at (db (service s)) (bytes "/user/access_token")) as [t|].
  - destruct Hp as (q & -> & ? & ?). eauto 10.
  - destruct Hp as [-> ?]. eauto.
  - destruct Hp as (q & -> & ? & ?). eauto 10.
  - destruct Hp as [-> Hstr].
    destruct (IH (set_token c None) (MkSt (f (service s')) (strs s'))) as (o & s2 & -> & Ho).
    simpl in Ho. rewrite Hf, Hd, Hstr in Ho. eauto.
Qed.
End Store.
End Conf.

(** ** The properties at concrete inputs: the service is the store itself, a
    reply is the pair of a code and a value. *)
Inductive demo_json : Type :=
| JReply (code : Z) (v : option cval) | JVal (v : cval).
Abbreviation demo_store := (gmap (list Z) cval).
Definition demo_do (v : demo_store) (o : op) (path : list Z) (arg : option demo_json)
    : option demo_json * demo_store :=
  match o, arg with
  | CONF_JSON_GET, _ =>
      (Some (match v !! path with Some c => JReply 0 (Some c) | None => JReply 1 None end), v)
  | CONF_JSON_SET, Some (JVal c) => (Some (JReply 0 None), <[path := c]> v)
  | CONF_JSON_SET, _ => (None, v)
  end.
Definition demo_item (j : option demo_json) (k : list Z) : option demo_json :=
  match j with
  | Some (JReply code v) =>
      if decide (k = bytes "code") then Some (JVal (VInt code))
      else if decide (k = bytes "data") then JVal <$> v else None
  | _ => None
  end.
Definition demo_type (j : demo_json) : Z :=
  match j with JVal (VInt _) => 8 | JVal (VStr _) => 16 | _ => 0 end.
Definition demo_int (j : demo_json) : Z := match j with JVal (VInt z) => z | _ => 0 end.
Definition demo_string (j : demo_json) : list Z :=
  match j with JVal (VStr t) => t | _ => [] end.

#[export] Program Instance demo_service :
  ConfigService (svc := demo_store) demo_do demo_item (fun z => JVal (VInt z)) demo_type demo_int
    demo_string 8 16 := {| db := fun v => v |}.
Next Obligation. done. Qed.
Next Obligation.
  intros v path c Hc. simpl. rewrite Hc. eexists. split; [done|].
  exists (JVal (VInt 0)), (JVal c). split; [done|]. split; [done|]. split; [done|].
  by destruct c.
Qed.
Next Obligation.
  intros v path Hc. simpl. rewrite Hc. right. eexists. split; [done|].
  by exists (JVal (VInt 1)).
Qed.
Next Obligation.
  intros v path z. simpl. eexists. split; [done|]. split; [|done]. by exists (JVal (VInt 0)).
Qed.
Next Obligation. done. Qed.

Definition demo_db : demo_store :=
  {[bytes "/urls/addr" := VStr (bytes "h"); bytes "/user/access_token" := VStr (bytes "tk")]}.

Lemma getters_need_code_witness :
  let cli (v : unit) (o : op) (p : list Z) (a : option demo_json) := (Some (JVal (VInt 0)), tt) in
  get_configuration_int cli demo_item demo_type demo_int 8 (bytes "/x") (MkSt tt ∅) = UB NullDeref.
Proof.
  intros cli.
  apply (getters_need_code cli demo_item (fun z => JVal (VInt z)) demo_type demo_int demo_string
    8 16 (bytes "/x") 1 (MkSt tt ∅) (JVal (VInt 0)) eq_refl eq_refl eq_refl).
Defined.

(** A store with every value the loader asks for. *)
Definition demo_full : demo_store :=
  <[bytes "/logd/data/path" := VStr (bytes "/d")]>
    (foldr (fun p d => <[p := VInt 5]> d) demo_db int_paths).

Lemma demo_full_complete :
  complete demo_full.
Proof.
  split; [by vm_compute; eexists|]. split; [by vm_compute; eexists|].
  unfold int_paths. repeat (apply Forall_cons; split; [by vm_compute|]). by apply Forall_nil.
Qed.


Lemma load_failure_leaks_host_witness :
  exists s' q, load_configuration demo_do demo_item (fun z => JVal (VInt z)) demo_type demo_int
      demo_string 8 16 7 (MkSt demo_db ∅) = Ok (None, s') /\
    strs s' !! q = Some (bytes "h").
Proof.
  destruct (load_failure_leaks_host demo_do demo_item (fun z => JVal (VInt z)) demo_type demo_int
    demo_string 8 16 7 (MkSt demo_db ∅) (bytes "h")) as (s' & q & E & _ & Hq).
  - by vm_compute.
  - intros (_ & [x Hx] & _). by vm_compute in Hx.
  - eauto.
Defined.

Lemma wait_ends_at_login_witness :
  exists s' c', wait_user_loggin demo_do demo_item demo_type demo_int demo_string 16
    [fun _ => demo_db] (MkConf 0 0 None 0 0 None None 0 0 0 0) (MkSt (∅ : demo_store) ∅) =
    Ok (Some (0, c'), s').
Proof.
  destruct (wait_ends_at_login demo_do demo_item (fun z => JVal (VInt z)) demo_type demo_int
    demo_string 8 16 [fun _ => demo_db] [fun _ => demo_db]
    (MkConf 0 0 None 0 0 None None 0 0 0 0) (MkSt (∅ : demo_store) ∅)) as (o & s' & E & H).
  - by repeat constructor.
  - destruct H as (q & -> & _). eauto.
Defined.
End Conf.
