(* ===== verification/Logmain.v ===== *)
(** The process (src/useapp/logmain.c): start-up, the policy of the signal
    loop, and the life of its four threads (main, the starter, the two
    workers) as a step relation up to the end of the process. *)
From S2P Require Import Prelude Queue Receiver Conf.

Module Logmain.

(** ** Start-up: lines 37-86 *)
Definition main_start {A} (argc conf_fd : Z) (conf : option Conf.configure) (created : bool)
    (calloc_q calloc_cirq : bool) : Z + res (Conf.configure * Queue.queue A) :=
  if negb (2 =? argc) then inl 1
  else if conf_fd <? 0 then inl (-1)
  else match conf with
       | None => inl (-1)
       | Some c =>
           match Queue.queue_init calloc_q calloc_cirq (Conf.node_count c) with
           | UB e => inr (UB e)
           | Ok q => if created then inr (Ok (c, q)) else inl 1
           end
       end.

(** ** The signal loop: lines 88-116 *)
Definition SIGHUP : Z := 1.
Definition SIGQUIT : Z := 3.
Definition SIGTERM : Z := 15.

Inductive verdict : Type := Break | ExitNow | Ignore.

Definition handle_signal (ctrl_proc si_pid si_signo : Z) : verdict :=
  if 1 =? si_pid then Break
  else if (ctrl_proc =? si_pid) && (SIGHUP =? si_signo) then Break
  else if (ctrl_proc =? si_pid) && (SIGQUIT =? si_signo) then Break
  else if (ctrl_proc =? si_pid) && (SIGTERM =? si_signo) then ExitNow
  else Ignore.

(** The signals as they arrive: [None] for a failed wait, otherwise the
    sender's pid and the number.  The result is the verdict that ended the
    loop with its signal, [None] while it still waits. *)
Fixpoint signal_loop (ctrl_proc : Z) (sigs : list (option (Z * Z))) : option (verdict * Z) :=
  match sigs with
  | [] => None
  | None :: sigs => signal_loop ctrl_proc sigs
  | Some (pid, signo) :: sigs =>
      match handle_signal ctrl_proc pid signo with
      | Ignore => signal_loop ctrl_proc sigs
      | v => Some (v, signo)
      end
  end.

(** ** The threads *)

(** Where the main thread is; [MNotify] and later carry the signal that ended
    the loop. [ready] records, for the theorems, whether the starter had
    finished by then. *)
Inductive main_pc : Type :=
| MSignals
| MNotify (signo : Z) (ready : bool)
| MCheckR (signo : Z) (ready : bool)
| MJoinR (signo : Z) (ready : bool)
| MCheckS (signo : Z) (ready : bool)
| MJoinS (signo : Z) (ready : bool)
| MEnd (signo : Z) (ready : bool).

(** [start_workers]: waiting for the login, before each [pthread_create],
    done. *)
Inductive starter_pc : Type := SLogin | SCreateR | SCreateS | SDone.

Inductive worker : Type := NotCreated | Running | Ended.

(** How the process ended: [exit(0)] from the signal loop, the end of main,
    the new image of [execlp], [exit(1)] in another thread. *)
Inductive ending : Type := Quick | Normal | Reexec | Failed.

Record process := MkProcess {
  mp : main_pc;
  sp : starter_pc;
  rtid : Z;
  stid : Z;
  rw : worker;
  sw : worker;
  g_quit : Z;
  exited : option ending
}.

Definition init : process := MkProcess MSignals SLogin 0 0 NotCreated NotCreated 0 None.

Definition set_mp (s : process) (m : main_pc) : process :=
  MkProcess m (sp s) (rtid s) (stid s) (rw s) (sw s) (g_quit s) (exited s).
Definition set_exit (s : process) (e : ending) : process :=
  MkProcess (mp s) (sp s) (rtid s) (stid s) (rw s) (sw s) (g_quit s) (Some e).

(** The next statement of the main thread, when it can run.  [exec_ok]:
    does [execlp] succeed? *)
Definition main_step (exec_ok : bool) (s : process) : option process :=
  match mp s with
  | MSignals => None
  | MNotify g b =>
      Some (MkProcess (MCheckR g b) (sp s) (rtid s) (stid s) (rw s) (sw s)
              (Receiver.notify_workers_quit (g_quit s)) (exited s))
  | MCheckR g b => Some (set_mp s (if rtid s >? 0 then MJoinR g b else MCheckS g b))
  | MJoinR g b => match rw s with Ended => Some (set_mp s (MCheckS g b)) | _ => None end
  | MCheckS g b => Some (set_mp s (if stid s >? 0 then MJoinS g b else MEnd g b))
  | MJoinS g b => match sw s with Ended => Some (set_mp s (MEnd g b)) | _ => None end
  | MEnd g b =>
      Some (set_exit s (if (SIGHUP =? g) && exec_ok then Reexec else Normal))
  end.

Definition starter_done (s : process) : bool :=
  match sp s with SDone => true | _ => false end.

(** A signal for the main thread. *)
Definition signal_step (ctrl_proc pid signo : Z) (s : process) : option process :=
  match mp s with
  | MSignals =>
      Some match handle_signal ctrl_proc pid signo with
           | Break => set_mp s (MNotify signo (starter_done s))
           | ExitNow => set_exit s Quick
           | Ignore => s
           end
  | _ => None
  end.

(** The next statement of [start_workers]; [ok]: has the user logged in, or
    does [pthread_create] succeed?  A created thread has a positive id. *)
Definition starter_step (ok : bool) (s : process) : option process :=
  match sp s with
  | SLogin =>
      if ok then Some (MkProcess (mp s) SCreateR (rtid s) (stid s) (rw s) (sw s) (g_quit s) (exited s))
      else Some s
  | SCreateR =>
      if ok then Some (MkProcess (mp s) SCreateS 1 (stid s) Running (sw s) (g_quit s) (exited s))
      else Some (set_exit s Failed)
  | SCreateS =>
      if ok then Some (MkProcess (mp s) SDone (rtid s) 2 (rw s) Running (g_quit s) (exited s))
      else Some (set_exit s Failed)
  | SDone => None
  end.

(** A worker that finds the quit flag up returns; the receiver may also fail
    to start. *)
Definition receiver_end (s : process) : option process :=
  match rw s with
  | Running =>
      if Receiver.check_workers_quit (g_quit s) >? 0
      then Some (MkProcess (mp s) (sp s) (rtid s) (stid s) Ended (sw s) (g_quit s) (exited s))
      else None
  | _ => None
  end.
Definition receiver_fail (s : process) : option process :=
  match rw s with Running => Some (set_exit s Failed) | _ => None end.
Definition sender_end (s : process) : option process :=
  match sw s with
  | Running =>
      if Receiver.check_workers_quit (g_quit s) >? 0
      then Some (MkProcess (mp s) (sp s) (rtid s) (stid s) (rw s) Ended (g_quit s) (exited s))
      else None
  | _ => None
  end.

(** One statement of one thread of a process that has not ended. *)
Inductive step (ctrl_proc : Z) (s : process) : process -> Prop :=
| step_main b t : exited s = None -> main_step b s = Some t -> step ctrl_proc s t
| step_signal pid signo t :
    exited s = None -> signal_step ctrl_proc pid signo s = Some t -> step ctrl_proc s t
| step_starter b t : exited s = None -> starter_step b s = Some t -> step ctrl_proc s t
| step_receiver t : exited s = None -> receiver_end s = Some t -> step ctrl_proc s t
| step_fail t : exited s = None -> receiver_fail s = Some t -> step ctrl_proc s t
| step_sender t : exited s = None -> sender_end s = Some t -> step ctrl_proc s t.

(** ** The invariant *)
Definition ready_of (m : main_pc) : bool :=
  match m with
  | MSignals => false
  | MNotify _ b | MCheckR _ b | MJoinR _ b | MCheckS _ b | MJoinS _ b | MEnd _ b => b
  end.
Definition notified (m : main_pc) : bool :=
  match m with MSignals | MNotify _ _ => false | _ => true end.
Definition past_r (m : main_pc) : bool :=
  match m with MCheckS _ _ | MJoinS _ _ | MEnd _ _ => true | _ => false end.
Definition at_end (m : main_pc) : bool := match m with MEnd _ _ => true | _ => false end.

Record inv (s : process) : Prop := {
  inv_quit : g_quit s = if notified (mp s) then 1 else 0;
  inv_r : match sp s with
          | SLogin | SCreateR => rw s = NotCreated
          | _ => rw s <> NotCreated
          end;
  inv_s : match sp s with SDone => sw s <> NotCreated | _ => sw s = NotCreated end;
  inv_rtid : rtid s = match rw s with NotCreated => 0 | _ => 1 end;
  inv_stid : stid s = match sw s with NotCreated => 0 | _ => 2 end;
  inv_joinr : match mp s with MJoinR _ _ => rw s <> NotCreated | _ => True end;
  inv_joins : match mp s with MJoinS _ _ => sw s <> NotCreated | _ => True end;
  inv_ready : ready_of (mp s) = true -> sp s = SDone;
  inv_past : ready_of (mp s) = true -> past_r (mp s) = true -> rw s = Ended;
  inv_end : ready_of (mp s) = true -> at_end (mp s) = true -> sw s = Ended;
  inv_exit : exited s = Some Normal \/ exited s = Some Reexec -> at_end (mp s) = true
}.

Lemma inv_init : inv init.
Proof. split; simpl; try done. by intros [?|?]. Qed.

Ltac inv_solve :=
  intros; repeat match goal with H : _ \/ _ |- _ => destruct H end;
  simpl in *; try done; try congruence; try lia; auto;
  try match goal with
      | H : ?b = true, R : ?b = true -> _ = SDone |- _ => by pose proof (R H)
      end.

Lemma inv_main b s t : inv s -> exited s = None -> main_step b s = Some t -> inv t.
Proof.
  intros [Hq Hr Hw Hrt Hst Hjr Hjs Hrd Hp He Hx] Hn H.
  destruct s as [m p rt stt r w g x]. simpl in *. subst x. unfold main_step in H. simpl in H.
  destruct m; simpl in *; repeat case_match; simplify_eq; split; simpl in *; inv_solve.
  all: repeat case_match; inv_solve.
Qed.

Lemma inv_signal ctrl pid signo s t :
  inv s -> exited s = None -> signal_step ctrl pid signo s = Some t -> inv t.
Proof.
  intros [Hq Hr Hw Hrt Hst Hjr Hjs Hrd Hp He Hx] Hn H.
  destruct s as [m p rt stt r w g x]. simpl in *. subst x. unfold signal_step in H. simpl in H.
  destruct m; try done. injection H as <-.
  destruct (handle_signal ctrl pid signo); split; simpl in *; inv_solve.
  unfold starter_done in *. simpl in *. by destruct p.
Qed.

Lemma inv_starter b s t : inv s -> exited s = None -> starter_step b s = Some t -> inv t.
Proof.
  intros [Hq Hr Hw Hrt Hst Hjr Hjs Hrd Hp He Hx] Hn H.
  destruct s as [m p rt stt r w g x]. simpl in *. subst x. unfold starter_step in H. simpl in H.
  destruct p, b; simplify_eq; split; simpl in *; inv_solve.
  all: try (destruct m; simpl in *; inv_solve; fail).
  all: try (exfalso; assert (SCreateR = SDone) by auto; done).
  all: try (exfalso; assert (SCreateS = SDone) by auto; done).
Qed.

Lemma inv_workers s t :
  inv s -> exited s = None ->
  receiver_end s = Some t \/ receiver_fail s = Some t \/ sender_end s = Some t -> inv t.
Proof.
  intros [Hq Hr Hw Hrt Hst Hjr Hjs Hrd Hp He Hx] Hn H.
  destruct s as [m p rt stt r w g x]. simpl in *. subst x.
  unfold receiver_end, receiver_fail, sender_end, set_exit in H. simpl in H.
  destruct H as [H|[H|H]]; repeat case_match; simplify_eq; split; simpl in *; inv_solve.
  all: destruct p, m; inv_solve.
Qed.

Lemma inv_step ctrl s t : inv s -> step ctrl s t -> inv t.
Proof.
  intros Hi [b u Hn H|pid signo u Hn H|b u Hn H|u Hn H|u Hn H|u Hn H].
  - by eapply inv_main.
  - by eapply inv_signal.
  - by eapply inv_starter.
  - eapply inv_workers; eauto.
  - eapply inv_workers; eauto.
  - eapply inv_workers; eauto.
Qed.

Lemma reach_inv ctrl s : star (step ctrl) init s -> inv s.
Proof. apply (star_invariant _ inv); [apply inv_step|exact inv_init]. Qed.

(** ** Shutting down *)
Definition ends (ctrl : Z) (s : process) : Prop :=
  exists t, star (step ctrl) s t /\ exited t <> None.

Lemma ends_step ctrl s u : step ctrl s u -> ends ctrl u -> ends ctrl s.
Proof.
  intros Hs (t & Ht & He). exists t. split; [|done]. by eapply star_head.
Qed.

Lemma ends_main ctrl s t :
  exited s = None -> main_step true s = Some t -> ends ctrl t -> ends ctrl s.
Proof. intros Hn Hm. apply ends_step. by eapply step_main. Qed.

(** The workers answer the quit flag. *)
Lemma ends_join_s ctrl s g b :
  inv s -> exited s = None -> mp s = MJoinS g b -> ends ctrl s.
Proof.
  intros Hi Hn Hm. assert (Hend : forall s, exited s = None -> mp s = MEnd g b -> ends ctrl s).
  { intros s' Hn' Hm'. eexists. split; [eapply star_step; [constructor|]|].
    - eapply (step_main _ _ true); [done|]. unfold main_step. by rewrite Hm'.
    - done. }
  assert (Hdone : forall s, exited s = None -> mp s = MJoinS g b -> sw s = Ended -> ends ctrl s).
  { intros s' Hn' Hm' Hw. eapply ends_main; [done| |].
    - unfold main_step. by rewrite Hm', Hw.
    - by apply Hend. }
  destruct (sw s) eqn:Ew; [|..|by apply Hdone].
  { pose proof (inv_joins _ Hi) as H. by rewrite Hm in H. }
  eapply ends_step; [eapply step_sender; [done|]|].
  - unfold sender_end. by rewrite Ew, (inv_quit _ Hi), Hm.
  - by apply Hdone.
Qed.

Lemma ends_check_s ctrl s g b :
  inv s -> exited s = None -> mp s = MCheckS g b -> ends ctrl s.
Proof.
  intros Hi Hn Hm.
  assert (Hs : main_step true s = Some (set_mp s (if stid s >? 0 then MJoinS g b else MEnd g b)))
    by (unfold main_step; by rewrite Hm).
  eapply ends_main; [done|exact Hs|]. pose proof (inv_main _ _ _ Hi Hn Hs) as Hi'.
  destruct (stid s >? 0); [by eapply ends_join_s|].
  eexists. split; [eapply star_step; [constructor|]|].
  - by eapply (step_main _ _ true).
  - done.
Qed.

Lemma ends_join_r ctrl s g b :
  inv s -> exited s = None -> mp s = MJoinR g b -> ends ctrl s.
Proof.
  intros Hi Hn Hm.
  assert (Hdone : forall s, inv s -> exited s = None -> mp s = MJoinR g b -> rw s = Ended ->
    ends ctrl s).
  { intros s' Hi' Hn' Hm' Hw.
    assert (Hs : main_step true s' = Some (set_mp s' (MCheckS g b)))
      by (unfold main_step; by rewrite Hm', Hw).
    eapply ends_main; [done|exact Hs|]. pose proof (inv_main _ _ _ Hi' Hn' Hs) as Hi2.
    by eapply ends_check_s. }
  destruct (rw s) eqn:Ew; [|..|by apply Hdone].
  { pose proof (inv_joinr _ Hi) as H. by rewrite Hm in H. }
  assert (Hs : receiver_end s = Some (MkProcess (mp s) (sp s) (rtid s) (stid s) Ended (sw s)
    (g_quit s) (exited s))) by (unfold receiver_end; by rewrite Ew, (inv_quit _ Hi), Hm).
  eapply ends_step; [eapply step_receiver; [done|exact Hs]|].
  apply Hdone; try done. by eapply inv_workers; [exact Hi| |left].
Qed.

Lemma ends_from ctrl s : inv s -> exited s = None -> mp s <> MSignals -> ends ctrl s.
Proof.
  intros Hi Hn Hm.
  assert (Hcr : forall s g b, inv s -> exited s = None -> mp s = MCheckR g b -> ends ctrl s).
  { intros s' g b Hi' Hn' Hm'.
    assert (Hs : main_step true s' =
      Some (set_mp s' (if rtid s' >? 0 then MJoinR g b else MCheckS g b)))
      by (unfold main_step; by rewrite Hm').
    eapply ends_main; [done|exact Hs|]. pose proof (inv_main _ _ _ Hi' Hn' Hs) as Hi2.
    destruct (rtid s' >? 0); [by eapply ends_join_r|by eapply ends_check_s]. }
  destruct (mp s) as [|g b|g b|g b|g b|g b|g b] eqn:Em; [done|..].
  - assert (Hs : main_step true s = Some (MkProcess (MCheckR g b) (sp s) (rtid s) (stid s) (rw s)
      (sw s) (Receiver.notify_workers_quit (g_quit s)) (exited s)))
      by (unfold main_step; by rewrite Em).
    eapply ends_main; [done|exact Hs|]. pose proof (inv_main _ _ _ Hi Hn Hs) as Hi2.
    by eapply Hcr.
  - by eapply Hcr.
  - by eapply ends_join_r.
  - by eapply ends_check_s.
  - by eapply ends_join_s.
  - eexists. split; [eapply star_step; [constructor|]|].
    + eapply (step_main _ _ true); [done|]. unfold main_step. by rewrite Em.
    + done.
Qed.

(** ** Properties *)



(** A signal from init that arrives between the creation of the two
    workers ends the process while the sender thread, created meanwhile, is
    still running: main looked at its id too early. *)
Theorem shutdown_race ctrl :
  exists s, star (step ctrl) init s /\ exited s = Some Normal /\ rw s = Ended /\ sw s = Running.
Proof.
  eexists (MkProcess (MEnd 15 false) SDone 1 2 Ended Running 1 (Some Normal)).
  split; [|done].
  eapply star_head; [by eapply (step_starter _ _ true)|].
  eapply star_head; [by eapply (step_starter _ _ true)|].
  eapply star_head; [by eapply (step_signal _ _ 1 15)|].
  eapply star_head; [by eapply (step_main _ _ false)|].
  eapply star_head; [by eapply (step_main _ _ false)|].
  eapply star_head; [by eapply step_receiver|].
  eapply star_head; [by eapply (step_main _ _ false)|].
  eapply star_head; [by eapply (step_main _ _ false)|].
  eapply star_head; [by eapply (step_starter _ _ true)|].
  eapply star_head; [by eapply (step_main _ _ false)|].
  constructor.
Qed.

Definition ignored (ctrl_proc : Z) (x : option (Z * Z)) : Prop :=
  match x with
  | None => True
  | Some (pid, signo) => handle_signal ctrl_proc pid signo = Ignore
  end.

(** The signal loop ends at the first signal that counts: any signal
    from process 1, HUP or QUIT from the control process (leave the loop), or
    TERM from it (exit at once); every other signal and every failed wait is
    passed over. *)
Theorem signal_loop_policy ctrl_proc sigs v signo :
  signal_loop ctrl_proc sigs = Some (v, signo) <->
  exists pre pid post, sigs = pre ++ Some (pid, signo) :: post /\
    Forall (ignored ctrl_proc) pre /\
    ((v = Break /\ (pid = 1 \/ (pid = ctrl_proc /\ (signo = SIGHUP \/ signo = SIGQUIT)))) \/
     (v = ExitNow /\ pid <> 1 /\ pid = ctrl_proc /\ signo = SIGTERM)).
Proof.
  assert (Hh : forall pid g w, w <> Ignore -> handle_signal ctrl_proc pid g = w <->
    ((w = Break /\ (pid = 1 \/ (pid = ctrl_proc /\ (g = SIGHUP \/ g = SIGQUIT)))) \/
     (w = ExitNow /\ pid <> 1 /\ pid = ctrl_proc /\ g = SIGTERM))).
  { intros pid g w Hw. unfold handle_signal, SIGHUP, SIGQUIT, SIGTERM.
    destruct (Z.eqb_spec 1 pid), (Z.eqb_spec ctrl_proc pid), (Z.eqb_spec 1 g),
      (Z.eqb_spec 3 g), (Z.eqb_spec 15 g); simpl; destruct w; try done; split; try done; try lia;
      intros; try (left; split; [done|lia]); try (right; split; [done|lia]);
      repeat match goal with H : _ \/ _ |- _ => destruct H | H : _ /\ _ |- _ => destruct H end;
      try done; try lia. }
  split.
  - induction sigs as [|[[pid g]|] sigs IH]; simpl; [done| |].
    + destruct (handle_signal ctrl_proc pid g) eqn:E.
      * intros [= <- <-]. exists [], pid, sigs. split; [done|]. split; [constructor|].
        by apply Hh.
      * intros [= <- <-]. exists [], pid, sigs. split; [done|]. split; [constructor|].
        by apply Hh.
      * intros H. destruct (IH H) as (pre & pid' & post & -> & Hp & Hv).
        exists (Some (pid, g) :: pre), pid', post. split; [done|]. split; [by constructor|done].
    + intros H. destruct (IH H) as (pre & pid' & post & -> & Hp & Hv).
      exists (None :: pre), pid', post. split; [done|]. split; [by constructor|done].
  - intros (pre & pid & post & -> & Hp & Hv). induction Hp as [|[[pid' g]|] pre Hx Hp IH]; simpl.
    + assert (v <> Ignore) as Hne by (destruct Hv as [[-> _]|[-> _]]; done).
      apply Hh in Hv; [|done]. rewrite Hv. by destruct v.
    + simpl in Hx. by rewrite Hx.
    + done.
Qed.


End Logmain.
