(* ===== verification/TlogTime.v ===== *)
(** The time of a log line (src/useapp/tlog.c, lines 142-158 and 204-280): a
    cache of one broken-down time behind a spin lock, shared by all threads,
    and the conversion to the fields of a line. *)
From S2P Require Import Prelude.

Module TlogTime.

(** [struct tm] as far as it is used, and [struct tlog_time]. *)
Record tm := MkTm {
  tm_year : Z; tm_mon : Z; tm_mday : Z; tm_hour : Z; tm_min : Z; tm_sec : Z
}.
Record tlog_time := MkTime {
  year : Z; usec : Z; mon : Z; mday : Z; hour : Z; min : Z; sec : Z
}.

Definition zero_tm : tm := MkTm 0 0 0 0 0 0.

(** The static variables of [_tlog_localtime] and its lock. *)
Record tcache := MkCache { locked : bool; last_time : Z; last_tm : tm }.
Definition tcache_init : tcache := MkCache false 0 zero_tm.

(** Where a thread is in [_tlog_localtime]: at the first lock, at the
    comparison, copying the cached time, calling [localtime_r] without the
    lock, at the second lock, at the two assignments, at the last unlock, and
    back in the caller with the answer. *)
Inductive tpc : Type :=
| TLock (t : Z)
| TCompare (t : Z)
| TCopy (t : Z)
| TCall (t : Z)
| TRelock (t : Z) (r : option tm)
| TSetTime (t : Z) (m : tm)
| TSetTm (t : Z) (m : tm)
| TUnlock (t : Z) (r : option tm)
| TDone (t : Z) (r : option tm).

Section Localtime.
(** [localtime_r] of the C library, for a fixed time zone. *)
Context (localtime_r : Z -> option tm).

Definition set_locked (c : tcache) (b : bool) : tcache := MkCache b (last_time c) (last_tm c).

(** One statement; [None] while the compare-and-swap of the lock fails. *)
Definition tstep (c : tcache) (p : tpc) : option (tcache * tpc) :=
  match p with
  | TLock t => if locked c then None else Some (set_locked c true, TCompare t)
  | TCompare t =>
      if t =? last_time c then Some (c, TCopy t) else Some (set_locked c false, TCall t)
  | TCopy t => Some (c, TUnlock t (Some (last_tm c)))
  | TCall t => Some (c, TRelock t (localtime_r t))
  | TRelock t r =>
      if locked c then None
      else Some (set_locked c true, match r with Some m => TSetTime t m | None => TUnlock t None end)
  | TSetTime t m => Some (MkCache (locked c) t (last_tm c), TSetTm t m)
  | TSetTm t m => Some (MkCache (locked c) (last_time c) m, TUnlock t (Some m))
  | TUnlock t r => Some (set_locked c false, TDone t r)
  | TDone t r => None
  end.

Inductive tsys_step : tcache * list tpc -> tcache * list tpc -> Prop :=
| tsys_intro c ps i p c' p' :
    ps !! i = Some p -> tstep c p = Some (c', p') -> tsys_step (c, ps) (c', <[i := p']> ps).

Definition tstart (ts : list Z) : tcache * list tpc := (tcache_init, TLock <$> ts).

(** [_tlog_localtime] by a thread that nothing disturbs. *)
Definition localtime (t : Z) (c : tcache) : option tm * tcache :=
  if t =? last_time c then (Some (last_tm c), c)
  else match localtime_r t with
       | Some m => (Some m, MkCache (locked c) t m)
       | None => (None, c)
       end.

(** The conversion in [_tlog_gettime] and [_tlog_getmtime]; the fields from
    [mon] on are bytes. *)
Definition time_of (m : tm) (us : Z) : tlog_time :=
  MkTime (i32 (tm_year m + 1900)) us (i32 (tm_mon m + 1) mod 256) (tm_mday m mod 256)
    (tm_hour m mod 256) (tm_min m mod 256) (tm_sec m mod 256).

(** [_tlog_gettime]: [now] is the answer of [gettimeofday]. *)
Definition gettime (now : option (Z * Z)) (c : tcache) : option tlog_time * tcache :=
  match now with
  | None => (None, c)
  | Some (s, us) =>
      let '(r, c) := localtime s c in (m ← r; Some (time_of m (u32 us)), c)
  end.

(** [_tlog_getmtime]: [mtime] is the time [stat] gives, if the file exists. *)
Definition getmtime (mtime : option Z) (c : tcache) : option tlog_time * tcache :=
  match mtime with
  | None => (None, c)
  | Some s => let '(r, c) := localtime s c in (m ← r; Some (time_of m 0), c)
  end.

(** ** The invariant *)

(** What the function answers for [t]: the broken-down time, or the initial
    contents of the cache for the time 0. *)
Definition answer_ok (t : Z) (r : option tm) : Prop :=
  r = localtime_r t \/ (t = 0 /\ r = Some zero_tm).

Definition consistent (c : tcache) : Prop := answer_ok (last_time c) (Some (last_tm c)).

Definition critical (p : tpc) : Z :=
  match p with
  | TCompare _ | TCopy _ | TSetTime _ _ | TSetTm _ _ | TUnlock _ _ => 1
  | _ => 0
  end.

Definition pc_ok (c : tcache) (p : tpc) : Prop :=
  match p with
  | TCopy t => last_time c = t
  | TRelock t r => r = localtime_r t
  | TSetTime t m => localtime_r t = Some m
  | TSetTm t m => localtime_r t = Some m /\ last_time c = t
  | TUnlock t r | TDone t r => answer_ok t r
  | _ => True
  end.

(** Between the two assignments the cache is not consistent. *)
Definition mid_store (p : tpc) : bool := match p with TSetTm _ _ => true | _ => false end.

Record tinv (s : tcache * list tpc) : Prop := {
  tinv_lock : sumz critical s.2 = if locked s.1 then 1 else 0;
  tinv_pcs : Forall (pc_ok s.1) s.2;
  tinv_cache : consistent s.1 \/ exists i p, s.2 !! i = Some p /\ mid_store p = true
}.

Lemma critical_nonneg p : 0 <= critical p.
Proof. by destruct p. Qed.

(** Two threads are never in the critical section together. *)
Lemma critical_alone s i j p q :
  tinv s -> s.2 !! i = Some p -> s.2 !! j = Some q ->
  critical p = 1 -> critical q = 1 -> i = j.
Proof.
  intros [Hl _ _] Hi Hj Hp Hq. destruct (decide (i = j)) as [|Hne]; [done|]. exfalso.
  pose proof (sumz_insert critical s.2 i p (TLock 0) Hi) as E.
  assert (Hj' : <[i := TLock 0]> s.2 !! j = Some q) by (by rewrite list_lookup_insert_ne).
  pose proof (sumz_elem critical _ j q critical_nonneg Hj'). simpl in E.
  destruct (locked s.1); lia.
Qed.

(** A thread outside the critical section does not depend on the cache. *)
Lemma pc_ok_outside c c' p : critical p = 0 -> pc_ok c p -> pc_ok c' p.
Proof. by destruct p. Qed.

Lemma pc_ok_same c c' p : last_time c' = last_time c -> pc_ok c p -> pc_ok c' p.
Proof. intros E. destruct p; simpl; by rewrite ?E. Qed.

(** A thread in the critical section holds the lock. *)
Lemma critical_locked s i p :
  tinv s -> s.2 !! i = Some p -> critical p = 1 -> locked s.1 = true.
Proof.
  intros [Hl _ _] Hi Hp. pose proof (sumz_elem critical s.2 i p critical_nonneg Hi).
  destruct (locked s.1); [done|lia].
Qed.

(** What one statement does to the lock and to the cache. *)
Lemma tstep_lock c p c' p' :
  tstep c p = Some (c', p') -> (critical p = 1 -> locked c = true) ->
  critical p' - critical p = (if locked c' then 1 else 0) - (if locked c then 1 else 0).
Proof.
  intros H Hl. destruct (locked c) eqn:E; destruct p as [t|t|t|t|t r|t m|t m|t r|t r];
    simpl in H; rewrite ?E in H; try done; simpl in Hl; try (specialize (Hl eq_refl); done);
    try (destruct (t =? last_time c)); try destruct r; simplify_eq/=; rewrite ?E; done.
Qed.

Lemma tstep_cache c p c' p' :
  tstep c p = Some (c', p') ->
  (last_time c' = last_time c /\ last_tm c' = last_tm c) \/
  (critical p = 1 /\ ((exists t m, p = TSetTime t m) \/ (exists t m, p = TSetTm t m))).
Proof.
  intros H. destruct p; simpl in H; repeat case_match; simplify_eq/=; eauto 10.
Qed.

Lemma tstep_pc_ok c p c' p' :
  tstep c p = Some (c', p') -> pc_ok c p ->
  (critical p = 1 -> mid_store p = false -> consistent c) -> pc_ok c' p'.
Proof.
  intros H Hp Hc. destruct p as [t|t|t|t|t r|t m|t m|t r|t r]; simpl in *; repeat case_match; simplify_eq/=.
  all: try done; try (by apply symmetry, Z.eqb_eq); try (by left).
  - by apply Hc.
  - left. by destruct Hp as [-> _].
Qed.

Lemma tinv_step s s' : tinv s -> tsys_step s s' -> tinv s'.
Proof.
  intros Hinv Hs. destruct Hs as [c ps i p c' p' Hi Hst]. pose proof Hinv as [Hl Hp Hc]. simpl in *.
  pose proof (Forall_lookup_1 _ _ _ _ Hp Hi) as Hpi.
  assert (Halone : forall j q, critical p = 1 -> j <> i -> ps !! j = Some q -> critical q = 0).
  { intros j q Hcr Hne Hj. assert (critical q = 1 \/ critical q = 0) as [Hq|] by (destruct q; auto); [|done].
    exfalso. apply Hne. by apply (critical_alone (c, ps) j i q p). }
  assert (Hmid : critical p = 1 -> mid_store p = false -> consistent c).
  { intros Hcr Hm. destruct Hc as [|(j & q & Hj & Hq)]; [done|]. exfalso.
    destruct (decide (j = i)) as [->|Hne]; [by rewrite Hi in Hj; simplify_eq; rewrite Hm in Hq|].
    pose proof (Halone j q Hcr Hne Hj). by destruct q. }
  split; simpl.
  - rewrite (sumz_insert critical ps i p) by done.
    pose proof (tstep_lock _ _ _ _ Hst (critical_locked (c, ps) i p Hinv Hi)). simpl in *. lia.
  - apply Forall_lookup. intros j q. rewrite list_lookup_insert. case_decide as E.
    { intros [= <-]. by eapply tstep_pc_ok. }
    intros Hj. pose proof (Forall_lookup_1 _ _ _ _ Hp Hj) as Hq.
    destruct (tstep_cache _ _ _ _ Hst) as [[E1 _]|[Hcr _]]; [by apply (pc_ok_same c)|].
    apply (pc_ok_outside c); [|done]. apply (Halone j); [done| |done].
    intros ->. apply E. split; [done|]. by eapply lookup_lt_Some.
  - assert (Hlen : (i < length ps)%nat) by (by eapply lookup_lt_Some).
    clear Hl Hp Hinv Halone. destruct p as [t|t|t|t|t r|t m|t m|t r|t r].
    all: try (simpl in Hst; repeat case_match; simplify_eq/=).
    all: try (destruct Hc as [Hc|(j & q & Hj & Hq)]; [by left|]).
    all: try (right; exists j, q; split; [|done]; rewrite list_lookup_insert_ne; [done|];
              intros <-; rewrite Hi in Hj; by simplify_eq).
    + right. exists i, (TSetTm t m). split; [by apply list_lookup_insert_eq|done].
    + left. left. simpl. destruct Hpi as [? ->]. done.
Qed.

Lemma tinv_start ts : tinv (tstart ts).
Proof.
  split; simpl.
  - apply sumz_zero. intros p (t & -> & _)%list_elem_of_fmap. done.
  - apply Forall_fmap. by apply Forall_true.
  - left. by right.
Qed.

(** ** Properties *)

(** C31 - the cache is transparent: with any number of threads that call
    [_tlog_localtime] at once, interleaved statement by statement, each call
    answers what [localtime_r] answers for its own time (or the initial
    contents of the cache, for the time 0 only), and never two threads use
    the cache together. *)
Theorem localtime_cached ts s i t r :
  star tsys_step (tstart ts) s ->
  s.2 !! i = Some (TDone t r) ->
  answer_ok t r /\
  (forall j k p q, s.2 !! j = Some p -> s.2 !! k = Some q -> critical p = 1 -> critical q = 1 -> j = k).
Proof.
  intros Hs Hi.
  assert (Hinv : tinv s) by (apply (star_invariant tsys_step tinv (tstart ts)); [apply tinv_step|apply tinv_start|done]).
  split; [exact (Forall_lookup_1 _ _ _ _ (tinv_pcs _ Hinv) Hi)|].
  intros j k p q Hj Hk. by apply (critical_alone s).
Qed.

(** A thread that nothing disturbs runs to the answer of [localtime]. *)
Lemma localtime_run t c :
  locked c = false -> consistent c ->
  answer_ok t (localtime t c).1 /\ consistent (localtime t c).2 /\
  locked (localtime t c).2 = false.
Proof.
  intros Hl Hc. unfold localtime. destruct (Z.eqb_spec t (last_time c)) as [->|Hne]; [done|].
  destruct (localtime_r t) as [m|] eqn:E; simpl.
  - split_and!; [by left|by left|done].
  - split_and!; [by left|done|done].
Qed.

(** What [_tlog_gettime] fills in, given the cache is not at its start. *)
Lemma gettime_fields s us c :
  locked c = false -> consistent c -> s <> 0 -> 0 <= us < 1000000 ->
  (gettime (Some (s, us)) c).1 = (fun m => time_of m us) <$> localtime_r s /\
  consistent (gettime (Some (s, us)) c).2.
Proof.
  intros Hl Hc Hs Hus. unfold gettime. destruct (localtime_run s c Hl Hc) as (Ha & Hc' & _).
  destruct (localtime s c) as [r c']. simpl in *. split; [|done].
  destruct Ha as [->|[? _]]; [|done]. rewrite u32_id by lia. by destruct (localtime_r s).
Qed.

End Localtime.

(** ** The property at a concrete input: two threads ask for the same time *)
Definition demo_localtime (t : Z) : option tm := Some (MkTm 124 0 (t mod 28) 0 0 0).

(** Run the threads of a schedule, one statement each. *)
Definition sched_step (s : tcache * list tpc) (i : nat) : tcache * list tpc :=
  match s.2 !! i with
  | Some p => match tstep demo_localtime s.1 p with
              | Some (c, p') => (c, <[i := p']> s.2) | None => s end
  | None => s
  end.

Lemma sched_star l s : star (tsys_step demo_localtime) s (fold_left sched_step l s).
Proof.
  revert s. induction l as [|i l IH]; intros s; simpl; [constructor|].
  etrans; [|apply IH]. unfold sched_step. destruct s as [c ps]. simpl.
  destruct (ps !! i) as [p|] eqn:Hi; [|done].
  destruct (tstep demo_localtime c p) as [[c' p']|] eqn:E; [|done].
  eapply star_step; [constructor|]. by apply tsys_intro with (p := p).
Qed.

Definition demo_after : tcache * list tpc :=
  fold_left sched_step [0; 0; 1; 1; 0; 1; 0; 0; 0; 0; 1; 1; 1; 1]%nat (tstart [5; 5]).

Lemma localtime_cached_witness :
  demo_after.2 = [TDone 5 (demo_localtime 5); TDone 5 (demo_localtime 5)] /\
  answer_ok demo_localtime 5 (demo_localtime 5).
Proof.
  split; [reflexivity|].
  apply (localtime_cached demo_localtime [5; 5] demo_after 1 5 (demo_localtime 5));
    [apply sched_star|reflexivity].
Defined.
End TlogTime.
