(* ===== verification/TlogRing.v ===== *)
(** The buffer of a log (src/useapp/tlog.c, lines 39-88, 390-542, 1101-1108,
    1247-1308 and 1378-1415): writers append lines under the lock, the work
    thread takes what is there, writes it out without the lock and releases
    it, then wakes the writers that wait.  The log and its buffer exist, the
    format is given; the signal to the work thread ([notify_log],
    [tlog.cond]) is in [TlogNotify]. *)
From S2P Require Import Prelude.

Module TlogRing.

Definition TLOG_MAX_LINE_LEN : Z := 1024.
Definition TLOG_SEGMENT_MAGIC : list Z := [84; 97; 68; 255].
Definition HEAD_SIZE : Z := 6.

(** The fields of [struct tlog_log] the buffer uses. *)
Record tlog_log := MkLog {
  buff : list Z;
  buffsize : Z;
  start : Z;
  lend : Z;
  ext_end : Z;
  dropped : Z;
  block : bool;
  segment_log : bool
}.

Definition set_dropped (l : tlog_log) (n : Z) : tlog_log :=
  MkLog (buff l) (buffsize l) (start l) (lend l) (ext_end l) n (block l) (segment_log l).
Definition set_ends (l : tlog_log) (b : list Z) (e x : Z) : tlog_log :=
  MkLog b (buffsize l) (start l) e x (dropped l) (block l) (segment_log l).

(** ** Writers *)

(** Free space behind [end].  In the loop of [_tlog_vprintf] the variable
    keeps its value when the buffer is full; it is then below the limit from
    the round before, or 0. *)
Definition maxlen (l : tlog_log) : Z :=
  if lend l =? start l then (if ext_end l =? 0 then buffsize l - lend l else 0)
  else if lend l >? start l then buffsize l - lend l
  else start l - lend l.

Definition tlog_need_drop (l : tlog_log) : bool * tlog_log :=
  if block l then (false, l)
  else if maxlen l <? TLOG_MAX_LINE_LEN then (true, set_dropped l (i32 (dropped l + 1)))
  else (false, l).

(** The bytes of one record in segment mode: the head with the magic number
    and the length, the text, a NUL. *)
Definition segment (d : list Z) : list Z :=
  TLOG_SEGMENT_MAGIC ++
  [u16 (zlen d + 1) mod 256; u16 (zlen d + 1) / 256] ++ d ++ [0].

Definition append_line (d : list Z) (l : tlog_log) : res tlog_log :=
  let rec := if segment_log l then segment d else d in
  b ← buf_write (buff l) (lend l) rec;
  let e := i32 (lend l + zlen rec) in
  if e >? buffsize l - TLOG_MAX_LINE_LEN
  then Ok (set_ends l b 0 e)
  else Ok (set_ends l b e (ext_end l)).

(** What a call does once it has the lock: it answers, or waits for room. *)
Inductive vret : Type := VRet (r : Z) | VWait.

Definition vprintf_locked (d : list Z) (l : tlog_log) : res (vret * tlog_log) :=
  if maxlen l <? TLOG_MAX_LINE_LEN then
    if block l then Ok (VWait, l) else Ok (VRet (-1), set_dropped l (i32 (dropped l + 1)))
  else l ← append_line d l; Ok (VRet (zlen d), l).

(** [_tlog_print_buffer] on a format that gives [text]. *)
Definition print_buffer (text : option (list Z)) (b : list Z) (max : Z) : res (Z * list Z) :=
  '(len, b) ← vsnprintf b 0 max text;
  Ok (if (len <? 0) || (len =? max) then -1 else len, b).

(** The line [_tlog_vprintf] makes of what the callback answered: [None] when
    it returns before the lock. *)
Definition DISCARD : list Z := bytes "[LOG TOO LONG, DISCARD]" ++ [10].
Definition line_of (len : Z) (b : list Z) : option (list Z) :=
  if len <=? 0 then None
  else if len >=? TLOG_MAX_LINE_LEN then Some DISCARD
  else Some (take (Z.to_nat len) b).

(** [_tlog_vprintf] by a thread that is not disturbed; [stack] is what its
    local buffer holds at first. *)
Definition vprintf (print_callback : list Z -> Z -> res (Z * list Z)) (stack : list Z)
    (l : tlog_log) : res (vret * tlog_log) :=
  let '(drop, l) := tlog_need_drop l in
  if (drop : bool) then Ok (VRet (-1), l)
  else
    '(len, b) ← print_callback stack TLOG_MAX_LINE_LEN;
    match line_of len b with
    | None => Ok (VRet (-1), l)
    | Some d => vprintf_locked d l
    end.

Definition tlog_vprintf (text : option (list Z)) (stack : list Z) (l : tlog_log)
  : res (vret * tlog_log) := vprintf (print_buffer text) stack l.

(** ** The work thread *)
Definition tlog_has_data (l : tlog_log) : bool :=
  negb (lend l =? start l) || (ext_end l >? 0).

(** What it remembers while it writes without the lock. *)
Record snap := MkSnap {
  log_len : Z; log_extlen : Z; log_end : Z; log_extend : Z; log_dropped : Z
}.

Definition take_snapshot (l : tlog_log) : option (snap * tlog_log) :=
  if tlog_has_data l then
    let '(len, extend) :=
      if ext_end l >? 0 then (i32 (ext_end l - start l), ext_end l) else (0, 0) in
    let '(len, extlen) :=
      if lend l <? start l then (len, lend l)
      else if lend l >? start l then (i32 (lend l - start l), 0)
      else (len, 0) in
    Some (MkSnap len extlen (lend l) extend (dropped l), set_dropped l 0)
  else None.

(** [_tlog_write_buff_log]: the two calls of the output function. *)
Definition write_buff_log (l : tlog_log) (s : snap) : res (list (list Z)) :=
  a ← buf_read (buff l) (start l) (log_len s);
  if log_extlen s >? 0 then b ← buf_read (buff l) 0 (log_extlen s); Ok [a; b] else Ok [a].

(** [_tlog_write_one_segment_log] from offset [off] of the buffer; [fuel]
    bounds the records. *)
Fixpoint write_one_segment (fuel : nat) (b : list Z) (off len written : Z) : res (list (list Z)) :=
  match fuel with
  | O => UB OutOfFuel
  | S fuel =>
      if written <? len then
        magic ← buf_read b (off + written) 4;
        if negb (bool_decide (magic = TLOG_SEGMENT_MAGIC)) then Ok []
        else
          lo ← arr_get b (off + written + 4);
          hi ← arr_get b (off + written + 5);
          let n := lo + 256 * hi in
          d ← buf_read b (off + written + HEAD_SIZE) (n - 1);
          r ← write_one_segment fuel b off len (written + n + HEAD_SIZE);
          Ok (d :: r)
      else Ok []
  end.

Definition write_segments_log (l : tlog_log) (s : snap) : res (list (list Z)) :=
  a ← write_one_segment (S (length (buff l))) (buff l) (start l) (log_len s) 0;
  if log_extlen s >? 0
  then b ← write_one_segment (S (length (buff l))) (buff l) 0 (log_extlen s) 0; Ok (a ++ b)
  else Ok a.

(** [_tlog_work_write]: what is handed to the output function, and the number
    of dropped messages it reports. *)
Definition work_write (l : tlog_log) (s : snap) : res (list (list Z) * option Z) :=
  out ← (if segment_log l then write_segments_log l s else write_buff_log l s);
  Ok (out, if log_dropped s >? 0 then Some (log_dropped s) else None).

Definition release (l : tlog_log) (s : snap) : tlog_log :=
  MkLog (buff l) (buffsize l) (log_end s) (lend l)
    (if log_extend s >? 0 then 0 else ext_end l) (dropped l) (block l) (segment_log l).

(** ** The system: any number of writers and the work thread *)
Inductive work_pc : Type := Idle | Taken (s : snap) | Written (s : snap).

(** [accepted] and [output] are the bytes that went in and came out,
    [refused] and [reported] the messages dropped and reported. *)
Record sys := MkSys {
  log : tlog_log;
  work : work_pc;
  accepted : list Z;
  output : list Z;
  refused : Z;
  reported : Z
}.

Inductive step (s : sys) : sys -> Prop :=
| step_need_drop l :
    tlog_need_drop (log s) = (true, l) ->
    step s (MkSys l (work s) (accepted s) (output s) (refused s + 1) (reported s))
| step_print d l :
    0 < zlen d < TLOG_MAX_LINE_LEN ->
    vprintf_locked d (log s) = Ok (VRet (zlen d), l) ->
    step s (MkSys l (work s) (accepted s ++ d) (output s) (refused s) (reported s))
| step_refuse d l :
    vprintf_locked d (log s) = Ok (VRet (-1), l) ->
    step s (MkSys l (work s) (accepted s) (output s) (refused s + 1) (reported s))
| step_take sn l :
    work s = Idle -> take_snapshot (log s) = Some (sn, l) ->
    step s (MkSys l (Taken sn) (accepted s) (output s) (refused s) (reported s))
| step_write sn out n :
    work s = Taken sn -> work_write (log s) sn = Ok (out, n) ->
    step s (MkSys (log s) (Written sn) (accepted s) (output s ++ concat out) (refused s)
              (reported s + default 0 n))
| step_release sn :
    work s = Written sn ->
    step s (MkSys (release (log s) sn) Idle (accepted s) (output s) (refused s) (reported s)).

(** A new log, as [tlog_open] leaves it; [b] is what [malloc] gave. *)
Definition new_log (b : list Z) (blk seg : bool) : tlog_log :=
  MkLog b (zlen b) 0 0 0 0 blk seg.
Definition start_sys (b : list Z) (blk : bool) : sys :=
  MkSys (new_log b blk false) Idle [] [] 0 0.

(** ** Blocking writers

    A writer that finds the buffer full gives up the lock of the logger and
    takes the lock of the log before it waits; the work thread, after it has
    released the buffer, wakes those that wait then.  (The system may wake a
    waiter for no reason; that is not modelled.) *)
Inductive writer : Type :=
  | WTry (d : list Z) | WFull (d : list Z) | WWaiting (d : list Z) | WDone.

Record wsys := MkW { base : sys; waking : bool; writers : list writer }.

Definition is_waiting (w : writer) : bool := match w with WWaiting _ => true | _ => false end.
Definition woken (w : writer) : writer := match w with WWaiting d => WTry d | _ => w end.

(** [_tlog_wakeup_waiters]: [waiters] counts the threads that wait. *)
Definition waiters (ws : list writer) : nat := length (filter (fun w => is_waiting w = true) ws).
Definition wakeup_waiters (ws : list writer) : list writer :=
  if (0 <? waiters ws)%nat then woken <$> ws else ws.

Inductive wstep (w : wsys) : wsys -> Prop :=
| ws_print i d l :
    writers w !! i = Some (WTry d) -> vprintf_locked d (log (base w)) = Ok (VRet (zlen d), l) ->
    wstep w (MkW (MkSys l (work (base w)) (accepted (base w) ++ d) (output (base w))
                    (refused (base w)) (reported (base w))) (waking w) (<[i := WDone]> (writers w)))
| ws_full i d l :
    writers w !! i = Some (WTry d) -> vprintf_locked d (log (base w)) = Ok (VWait, l) ->
    wstep w (MkW (base w) (waking w) (<[i := WFull d]> (writers w)))
| ws_wait i d :
    writers w !! i = Some (WFull d) ->
    wstep w (MkW (base w) (waking w) (<[i := WWaiting d]> (writers w)))
| ws_take sn l :
    waking w = false -> work (base w) = Idle -> take_snapshot (log (base w)) = Some (sn, l) ->
    wstep w (MkW (MkSys l (Taken sn) (accepted (base w)) (output (base w)) (refused (base w))
                    (reported (base w))) false (writers w))
| ws_write sn out n :
    work (base w) = Taken sn -> work_write (log (base w)) sn = Ok (out, n) ->
    wstep w (MkW (MkSys (log (base w)) (Written sn) (accepted (base w))
                    (output (base w) ++ concat out) (refused (base w))
                    (reported (base w) + default 0 n)) (waking w) (writers w))
| ws_release sn :
    work (base w) = Written sn ->
    wstep w (MkW (MkSys (release (log (base w)) sn) Idle (accepted (base w)) (output (base w))
                    (refused (base w)) (reported (base w))) true (writers w))
| ws_wake :
    waking w = true ->
    wstep w (MkW (base w) false (wakeup_waiters (writers w))).

Definition start_writers (b : list Z) (ds : list (list Z)) : wsys :=
  MkW (start_sys b true) false (WTry <$> ds).

(** ** The contents of the buffer *)
Definition sub (b : list Z) (off n : Z) : list Z := take (Z.to_nat n) (drop (Z.to_nat off) b).

Definition content (l : tlog_log) : list Z :=
  if ext_end l =? 0 then sub (buff l) (start l) (lend l - start l)
  else sub (buff l) (start l) (ext_end l - start l) ++ sub (buff l) 0 (lend l).

(** Not wrapped, or wrapped with the end behind the start. *)
Record log_wf (l : tlog_log) : Prop := {
  wf_buff : zlen (buff l) = buffsize l;
  wf_size : TLOG_MAX_LINE_LEN <= buffsize l <= 1073741824;
  wf_start : 0 <= start l <= buffsize l - TLOG_MAX_LINE_LEN;
  wf_end : 0 <= lend l <= buffsize l - TLOG_MAX_LINE_LEN;
  wf_shape : (ext_end l = 0 /\ start l <= lend l) \/
    (buffsize l - TLOG_MAX_LINE_LEN < ext_end l < buffsize l /\
     (lend l < start l \/ (lend l = 0 /\ start l = 0)))
}.

Lemma sub_split b a n m : 0 <= a -> 0 <= n -> 0 <= m -> sub b a (n + m) = sub b a n ++ sub b (a + n) m.
Proof.
  intros. unfold sub. rewrite !Z2Nat.inj_add by lia.
  rewrite <- take_take_drop. f_equal. by rewrite drop_drop.
Qed.

Lemma sub_zero b a : sub b a 0 = [].
Proof. done. Qed.

Lemma sub_read b a n : 0 <= a -> 0 <= n -> a + n <= zlen b -> buf_read b a n = Ok (sub b a n).
Proof.
  intros. unfold buf_read. assert (in_bounds b a n = true) as ->; [|done].
  apply in_bounds_true. lia.
Qed.

(** A write leaves the rest alone and puts its bytes where it says. *)
Lemma sub_write b off d b' a n :
  buf_write b off d = Ok b' -> 0 <= a -> 0 <= n -> a + n <= off \/ off + zlen d <= a ->
  sub b' a n = sub b a n.
Proof.
  unfold buf_write. destruct (in_bounds _ _ _) eqn:E; [|done]. intros [= <-] Ha Hn H.
  apply in_bounds_true in E as (?&?&?). unfold sub, zlen in *. destruct H as [H|H].
  - rewrite drop_app_le by (rewrite length_take; lia).
    rewrite take_app_le by (rewrite length_drop, length_take; lia).
    rewrite !take_drop_commute, take_take. do 2 f_equal. lia.
  - rewrite drop_app_ge by (rewrite length_take; lia). rewrite length_take, drop_app_ge by lia.
    rewrite drop_drop. do 2 f_equal. lia.
Qed.

Lemma sub_write_same b off d b' : buf_write b off d = Ok b' -> sub b' off (zlen d) = d.
Proof.
  intros H. pose proof (buf_read_write _ _ _ _ H) as Hr.
  pose proof (buf_write_ok _ _ _ _ H) as (?&?&?). pose proof (zlen_nonneg d).
  rewrite sub_read in Hr by lia. by injection Hr.
Qed.

(** ** Appending a line *)

(** What stays and what moves: either the end moves on, or a buffer that was
    not wrapped is wrapped behind the line. *)
Record appended (d : list Z) (l l' : tlog_log) : Prop := {
  ap_write : buf_write (buff l) (lend l) d = Ok (buff l');
  ap_same : start l' = start l /\ dropped l' = dropped l /\ block l' = block l /\
    buffsize l' = buffsize l /\ segment_log l' = segment_log l;
  ap_ends : (lend l' = lend l + zlen d /\ ext_end l' = ext_end l /\
             (ext_end l <> 0 -> lend l + zlen d < start l)) \/
            (ext_end l = 0 /\ lend l' = 0 /\ ext_end l' = lend l + zlen d)
}.

Lemma append_spec d l :
  log_wf l -> segment_log l = false -> 0 < zlen d < TLOG_MAX_LINE_LEN ->
  TLOG_MAX_LINE_LEN <= maxlen l ->
  exists l', append_line d l = Ok l' /\ appended d l l' /\ log_wf l'.
Proof.
  intros [Hb Hsz Hs He Hsh] Hseg Hd Hm. unfold append_line, TLOG_MAX_LINE_LEN in *. rewrite Hseg.
  assert (Hroom : lend l + zlen d < buffsize l /\ (ext_end l <> 0 -> lend l + zlen d < start l)).
  { unfold maxlen in Hm. destruct (Z.eqb_spec (lend l) (start l)).
    - destruct (Z.eqb_spec (ext_end l) 0); lia.
    - destruct (Z.gtb_spec (lend l) (start l)); lia. }
  destruct (buf_write_is_ok (buff l) (lend l) d) as [b Hw]; [lia..|].
  rewrite Hw, bind_ret, i32_id by (unfold in_i32; lia).
  pose proof (buf_write_ok _ _ _ _ Hw) as (_ & _ & Hlen).
  destruct (Z.gtb_spec (lend l + zlen d) (buffsize l - 1024)) as [Hgt|Hle];
    (eexists; split; [done|]; split); split; simpl; unfold TLOG_MAX_LINE_LEN; try done; lia.
Qed.

Lemma append_content d l l' :
  log_wf l -> log_wf l' -> appended d l l' -> 0 < zlen d -> content l' = content l ++ d.
Proof.
  intros [Hb Hsz Hs He Hsh] Hwf' [Hw (Es & _) Hends] Hd.
  pose proof (sub_write_same _ _ _ _ Hw) as Hsame. unfold TLOG_MAX_LINE_LEN in *.
  assert (Hgrow : start l <= lend l ->
    sub (buff l') (start l) (lend l + zlen d - start l) =
    sub (buff l) (start l) (lend l - start l) ++ d).
  { intros Hle. replace (lend l + zlen d - start l) with ((lend l - start l) + zlen d) by lia.
    rewrite sub_split by lia. replace (start l + (lend l - start l)) with (lend l) by lia.
    rewrite Hsame. f_equal. apply (sub_write _ _ _ _ _ _ Hw); lia. }
  unfold content. rewrite Es. destruct Hends as [(E1 & E2 & Hlt)|(E1 & E2 & E3)].
  - rewrite E1, E2. destruct (Z.eqb_spec (ext_end l) 0) as [H0|H0].
    + apply Hgrow. lia.
    + rewrite (sub_split _ 0 (lend l) (zlen d)) by lia. rewrite Z.add_0_l, Hsame, app_assoc.
      do 2 f_equal; apply (sub_write _ _ _ _ _ _ Hw); lia.
  - rewrite E1, E2, E3. simpl. destruct (Z.eqb_spec (lend l + zlen d) 0); [lia|].
    rewrite sub_zero, app_nil_r. apply Hgrow. lia.
Qed.

(** ** Taking and releasing *)

(** A snapshot the work thread still holds: either of a buffer that was not
    wrapped then (it may be now), or of one that was and still is. *)
Definition snap_ok (l : tlog_log) (s : snap) : Prop :=
  (log_extend s = 0 /\ log_extlen s = 0 /\ start l < log_end s <= buffsize l - TLOG_MAX_LINE_LEN /\
   log_len s = log_end s - start l /\ (ext_end l = 0 -> log_end s <= lend l)) \/
  (0 < log_extend s /\ log_extend s = ext_end l /\ log_len s = ext_end l - start l /\
   log_extlen s = log_end s /\ 0 <= log_end s <= lend l).

Definition taken (l : tlog_log) (s : snap) : list Z :=
  sub (buff l) (start l) (log_len s) ++ sub (buff l) 0 (log_extlen s).

Lemma snapshot_ok l s l' :
  log_wf l -> take_snapshot l = Some (s, l') ->
  snap_ok l s /\ l' = set_dropped l 0 /\ log_dropped s = dropped l.
Proof.
  intros [Hb Hsz Hs He Hsh]. unfold take_snapshot, tlog_has_data, snap_ok, TLOG_MAX_LINE_LEN in *.
  destruct (Z.eqb_spec (lend l) (start l)) as [Heq|Hne], (Z.gtb_spec (ext_end l) 0) as [Hx|Hx];
    simpl; try done; destruct (Z.ltb_spec (lend l) (start l)), (Z.gtb_spec (lend l) (start l));
    try lia; intros [= <- <-]; simpl; rewrite ?i32_id by (unfold in_i32; lia);
    (split; [|done]); (left; lia) || (right; lia).
Qed.

(** What was taken comes first, and releasing leaves exactly the rest. *)
Lemma release_content l s :
  log_wf l -> snap_ok l s -> content l = taken l s ++ content (release l s) /\ log_wf (release l s).
Proof.
  intros [Hb Hsz Hs He Hsh] Hsn. unfold taken, content, release, TLOG_MAX_LINE_LEN in *. simpl.
  destruct Hsn as [(X & E & Hlt & Hl & Hle)|(X & E & Hl & El & Hle)]; unfold TLOG_MAX_LINE_LEN in *.
  - rewrite X, E. simpl. rewrite sub_zero, app_nil_r. split.
    + destruct (Z.eqb_spec (ext_end l) 0) as [H0|H0].
      * replace (lend l - start l) with (log_len s + (lend l - log_end s)) by lia.
        rewrite sub_split by lia. by replace (start l + log_len s) with (log_end s) by lia.
      * replace (ext_end l - start l) with (log_len s + (ext_end l - log_end s)) by lia.
        rewrite sub_split by lia. replace (start l + log_len s) with (log_end s) by lia.
        by rewrite app_assoc.
    + split; simpl; unfold TLOG_MAX_LINE_LEN; try done; lia.
  - destruct (Z.gtb_spec (log_extend s) 0); [|lia]. simpl.
    destruct (Z.eqb_spec (ext_end l) 0); [lia|]. split.
    + rewrite Hl, El. replace (lend l) with (log_end s + (lend l - log_end s)) at 1 by lia.
      rewrite sub_split, Z.add_0_l by lia. by rewrite app_assoc.
    + split; simpl; unfold TLOG_MAX_LINE_LEN; try done; lia.
Qed.

(** Writers leave alone what was taken. *)
Lemma append_snap d l l' s :
  log_wf l -> log_wf l' -> appended d l l' -> 0 < zlen d -> snap_ok l s ->
  snap_ok l' s /\ taken l' s = taken l s.
Proof.
  intros [Hb Hsz Hs He Hsh] [_ _ _ _ Hsh'] [Hw (Es & _ & _ & Eb & _) Hends] Hd Hsn.
  unfold snap_ok, taken, TLOG_MAX_LINE_LEN in *. rewrite Es, Eb.
  destruct Hsn as [(X & E & Hlt & Hl & Hle)|(X & E & Hl & El & Hle)].
  - split. { left. split_and!; try done; try lia. }
    rewrite E, !sub_zero, !app_nil_r. apply (sub_write _ _ _ _ _ _ Hw); lia.
  - destruct Hends as [(E1 & E2 & Hlt)|(E1 & _)]; [|lia]. split.
    { right. rewrite E2. split_and!; try done; lia. }
    f_equal; apply (sub_write _ _ _ _ _ _ Hw); lia.
Qed.

(** The two calls of the output function hand over what was taken. *)
Lemma write_taken l s :
  log_wf l -> snap_ok l s ->
  exists out, write_buff_log l s = Ok out /\ concat out = taken l s.
Proof.
  intros [Hb Hsz Hs He Hsh] Hsn. unfold write_buff_log, taken, snap_ok, TLOG_MAX_LINE_LEN in *.
  rewrite (sub_read _ (start l)) by lia. rewrite bind_ret. destruct (Z.gtb_spec (log_extlen s) 0).
  - rewrite sub_read by lia. rewrite bind_ret. eexists. split; [done|]. simpl. by rewrite app_nil_r.
  - eexists. split; [done|]. simpl. assert (log_extlen s = 0) as -> by lia. by rewrite sub_zero.
Qed.

(** ** The invariant of the system *)
Definition pending (s : sys) : list Z :=
  match work s with
  | Idle | Taken _ => content (log s)
  | Written sn => content (release (log s) sn)
  end.
Definition unreported (s : sys) : Z :=
  match work s with Taken sn => log_dropped sn | _ => 0 end.

Record inv (s : sys) : Prop := {
  inv_wf : log_wf (log s);
  inv_plain : segment_log (log s) = false;
  inv_snap : match work s with Idle => True | Taken sn | Written sn => snap_ok (log s) sn end;
  inv_fifo : accepted s = output s ++ pending s;
  inv_drops : refused s <= INT_MAX ->
    refused s = reported s + unreported s + dropped (log s) /\
    0 <= dropped (log s) /\ 0 <= unreported s /\ 0 <= reported s
}.

Lemma wf_dropped l n : log_wf l -> log_wf (set_dropped l n).
Proof. by intros []. Qed.

Lemma ring_inv_start b blk :
  TLOG_MAX_LINE_LEN <= zlen b <= 1073741824 -> inv (start_sys b blk).
Proof.
  intros Hb. unfold TLOG_MAX_LINE_LEN in *. split; simpl; try done.
  split; simpl; unfold TLOG_MAX_LINE_LEN; try done; lia.
Qed.

(** A refused message is counted, and nothing else changes. *)
Lemma ring_inv_refused s :
  inv s ->
  inv (MkSys (set_dropped (log s) (i32 (dropped (log s) + 1))) (work s) (accepted s) (output s)
         (refused s + 1) (reported s)).
Proof.
  intros [Hwf Hp Hs Hf Hd]. split; simpl; try done.
  - by apply wf_dropped.
  - intros Hr. unfold INT_MAX, unreported in *. simpl in *. destruct Hd as (E & ? & ? & ?); [lia|].
    rewrite i32_id by (unfold in_i32; destruct (work s); lia). lia.
Qed.

Lemma ring_inv_print s d l :
  inv s -> 0 < zlen d < TLOG_MAX_LINE_LEN -> vprintf_locked d (log s) = Ok (VRet (zlen d), l) ->
  inv (MkSys l (work s) (accepted s ++ d) (output s) (refused s) (reported s)).
Proof.
  intros [Hwf Hp Hsn Hf Hd] Hd0 H. unfold vprintf_locked in H.
  destruct (Z.ltb_spec (maxlen (log s)) TLOG_MAX_LINE_LEN) as [?|Hm].
  { destruct (block (log s)); [done|]. injection H as H _. pose proof (zlen_nonneg d). lia. }
  destruct (append_spec d (log s) Hwf Hp Hd0 Hm) as (l' & E & Hap & Hwf').
  rewrite E, bind_ret in H. injection H as <-. clear E.
  pose proof (append_content _ _ _ Hwf Hwf' Hap (proj1 Hd0)) as Hc.
  pose proof (ap_same _ _ _ Hap) as (_ & Edr & _ & _ & Eseg).
  split; simpl; [done|by rewrite Eseg| | |by rewrite Edr].
  - destruct (work s) as [|sn|sn]; [done|..];
      apply (append_snap _ _ _ _ Hwf Hwf' Hap (proj1 Hd0) Hsn).
  - rewrite Hf, <- app_assoc. f_equal. unfold pending. simpl.
    destruct (work s) as [|sn|sn]; [done|done|].
    destruct (append_snap _ _ _ _ Hwf Hwf' Hap (proj1 Hd0) Hsn) as [Hsn' Ht].
    destruct (release_content _ _ Hwf Hsn) as [Hr _].
    destruct (release_content _ _ Hwf' Hsn') as [Hr' _].
    rewrite Hr, Hr', Ht, <- app_assoc in Hc. by apply app_inv_head in Hc.
Qed.

Lemma ring_inv_step s t : inv s -> step s t -> inv t.
Proof.
  intros Hinv Hs. pose proof Hinv as [Hwf Hp Hsn Hf Hd].
  destruct Hs as [l H|d l Hd0 H|d l H|sn l Hw H|sn out n Hw H|sn Hw]; [|by apply ring_inv_print|..].
  - unfold tlog_need_drop in H. destruct (block (log s)); [done|].
    destruct (maxlen (log s) <? TLOG_MAX_LINE_LEN); [|done]. injection H as <-.
    by apply ring_inv_refused.
  - unfold vprintf_locked in H. destruct (maxlen (log s) <? TLOG_MAX_LINE_LEN) eqn:Em.
    + destruct (block (log s)); [done|]. injection H as <-. by apply ring_inv_refused.
    + destruct (append_line d (log s)) as [l'|e]; [|done]. injection H as H _.
      pose proof (zlen_nonneg d). lia.
  - destruct (snapshot_ok _ _ _ Hwf H) as (Hok & -> & Edr). rewrite Hw in *.
    split; simpl; [by apply wf_dropped|done|done| |].
    + rewrite Hf. unfold pending. by rewrite Hw.
    + intros Hr. unfold unreported in *. simpl. rewrite Hw in Hd.
      destruct (Hd Hr) as (? & ? & ? & ?). lia.
  - unfold work_write in H. rewrite Hw, Hp in *.
    destruct (write_taken _ _ Hwf Hsn) as (out' & E & Hout). rewrite E, bind_ret in H.
    injection H as <- <-. destruct (release_content _ _ Hwf Hsn) as [Hr _].
    split; simpl; try done.
    + rewrite Hf, <- app_assoc. f_equal. unfold pending. rewrite Hw. simpl. by rewrite Hr, Hout.
    + intros Hr'. unfold unreported in *. simpl. rewrite Hw in Hd.
      destruct (Hd Hr') as (? & ? & ? & ?). destruct (Z.gtb_spec (log_dropped sn) 0); simpl; lia.
  - rewrite Hw in *. destruct (release_content _ _ Hwf Hsn) as [Hr Hwf'].
    split; simpl; try done.
    + rewrite Hf. unfold pending. by rewrite Hw.
    + intros Hr'. unfold unreported in *. rewrite Hw in Hd. simpl. by apply Hd.
Qed.

Lemma ring_reach_inv b blk s :
  TLOG_MAX_LINE_LEN <= zlen b <= 1073741824 -> star step (start_sys b blk) s -> inv s.
Proof. intros Hb. apply (star_invariant _ inv); [apply ring_inv_step|by apply ring_inv_start]. Qed.

(** ** Properties *)

(** C20 - under every interleaving of any number of writers with the work
    thread, which writes without the lock, the log's buffer is a lossless
    FIFO: the bytes accepted are the bytes written out followed by those still
    pending, so that nothing is lost, duplicated, reordered or overwritten
    before it is written, and an idle log without data has written all. *)
Theorem ring_fifo b blk s :
  TLOG_MAX_LINE_LEN <= zlen b <= 1073741824 -> star step (start_sys b blk) s ->
  accepted s = output s ++ pending s /\
  (work s = Idle -> tlog_has_data (log s) = false -> output s = accepted s).
Proof.
  intros Hb Hr. pose proof (ring_reach_inv b blk s Hb Hr) as [Hwf _ _ Hf _]. split; [done|].
  intros Hi Hn. rewrite Hf. unfold pending, content, tlog_has_data in *. rewrite Hi.
  apply orb_false_iff in Hn as [H1 H2]. apply negb_false_iff, Z.eqb_eq in H1.
  rewrite Z.gtb_ltb in H2. apply Z.ltb_ge in H2. destruct (wf_shape _ Hwf) as [[-> _]|?].
  - by rewrite H1, Z.sub_diag, sub_zero, app_nil_r.
  - pose proof (wf_size _ Hwf). lia.
Qed.



(** ** Segment mode *)
Lemma segment_len d : zlen (segment d) = zlen d + 7.
Proof. unfold segment, TLOG_SEGMENT_MAGIC. autorewrite with zlen. lia. Qed.

(** In segment mode a record is up to seven bytes longer than its line
    but the room is checked for the line only: where exactly 1024 bytes are
    left at the end of the buffer, which the code counts as enough, a line of
    1018 bytes or more is written past the end of the block. *)
Theorem segment_overflow d l :
  log_wf l -> segment_log l = true -> ext_end l = 0 ->
  lend l = buffsize l - TLOG_MAX_LINE_LEN -> 1018 <= zlen d < TLOG_MAX_LINE_LEN ->
  maxlen l = TLOG_MAX_LINE_LEN /\ vprintf_locked d l = UB OutOfBounds.
Proof.
  intros [Hb Hsz Hs He Hsh] Hseg Hx Hl Hd. unfold TLOG_MAX_LINE_LEN in *.
  assert (Hm : maxlen l = 1024).
  { unfold maxlen. rewrite Hx. destruct (Z.eqb_spec (lend l) (start l)); simpl; [lia|].
    destruct (Z.gtb_spec (lend l) (start l)); lia. }
  split; [done|]. unfold vprintf_locked, TLOG_MAX_LINE_LEN. rewrite Hm. simpl.
  unfold append_line. rewrite Hseg. rewrite buf_write_out; [done|]. rewrite segment_len. lia.
Qed.

(** Reading one record and going on behind it. *)
Lemma read_segment fuel p d r len written :
  written < len -> zlen d < 65535 ->
  write_one_segment (S fuel) (p ++ segment d ++ r) (zlen p - written) len written =
    (ds ← write_one_segment fuel (p ++ segment d ++ r) (zlen p - written) len
            (written + (zlen d + 7));
     Ok (d :: ds)).
Proof.
  intros Hw Hd. cbn [write_one_segment]. pose proof (zlen_nonneg d).
  assert ((written <? len) = true) as -> by lia.
  replace (zlen p - written + written) with (zlen p) by lia. unfold segment.
  set (lo := u16 (zlen d + 1) mod 256). set (hi := u16 (zlen d + 1) / 256).
  assert (Hn : lo + 256 * hi = zlen d + 1).
  { unfold lo, hi. rewrite (u16_id (zlen d + 1)) by lia.
    pose proof (Z.div_mod (zlen d + 1) 256). lia. }
  rewrite <- !app_assoc.
  assert (E1 : buf_read (p ++ TLOG_SEGMENT_MAGIC ++ [lo; hi] ++ d ++ [0] ++ r) (zlen p) 4 =
    Ok TLOG_SEGMENT_MAGIC) by apply (buf_read_mid p TLOG_SEGMENT_MAGIC).
  rewrite E1, bind_ret, bool_decide_eq_true_2 by done. cbn [negb].
  assert (E2 : arr_get (p ++ TLOG_SEGMENT_MAGIC ++ [lo; hi] ++ d ++ [0] ++ r) (zlen p + 4) = Ok lo).
  { rewrite app_assoc. replace (zlen p + 4) with (zlen (p ++ TLOG_SEGMENT_MAGIC))
      by (by rewrite zlen_app). apply arr_get_app. }
  rewrite E2, bind_ret.
  assert (E3 : arr_get (p ++ TLOG_SEGMENT_MAGIC ++ [lo; hi] ++ d ++ [0] ++ r) (zlen p + 5) = Ok hi).
  { change ([lo; hi] ++ d ++ [0] ++ r) with ([lo] ++ hi :: d ++ [0] ++ r). rewrite !app_assoc.
    replace (zlen p + 5) with (zlen ((p ++ TLOG_SEGMENT_MAGIC) ++ [lo]))
      by (rewrite !zlen_app; done || (change (zlen TLOG_SEGMENT_MAGIC) with 4;
          change (zlen [lo]) with 1; lia)). apply arr_get_app. }
  rewrite E3, bind_ret, Hn. replace (zlen d + 1 - 1) with (zlen d) by lia.
  assert (E4 : buf_read (p ++ TLOG_SEGMENT_MAGIC ++ [lo; hi] ++ d ++ [0] ++ r)
    (zlen p + HEAD_SIZE) (zlen d) = Ok d).
  { rewrite !app_assoc. rewrite <- !app_assoc, (app_assoc p), (app_assoc (p ++ _)).
    replace (zlen p + HEAD_SIZE) with (zlen ((p ++ TLOG_SEGMENT_MAGIC) ++ [lo; hi])).
    2: { rewrite !zlen_app. change (zlen TLOG_SEGMENT_MAGIC) with 4.
         change (zlen [lo; hi]) with 2. unfold HEAD_SIZE. lia. }
    apply (buf_read_mid _ d ([0] ++ r)). }
  rewrite E4, bind_ret.
  replace (written + (zlen d + 1) + HEAD_SIZE) with (written + (zlen d + 7))
    by (unfold HEAD_SIZE; lia). done.
Qed.

Lemma read_segments ds fuel p r written :
  Forall (fun d => zlen d < 65535) ds -> (length ds < fuel)%nat ->
  write_one_segment fuel (p ++ concat (segment <$> ds) ++ r) (zlen p - written)
    (written + zlen (concat (segment <$> ds))) written = Ok ds.
Proof.
  intros Hds. revert fuel p written. induction Hds as [|d ds Hd Hds IH];
    intros [|fuel] p written Hf; simpl in Hf; try lia.
  - cbn [write_one_segment]. csimpl. change (zlen (@nil Z)) with 0.
    by destruct (Z.ltb_spec written (written + 0)); [lia|].
  - change (concat (segment <$> d :: ds)) with (segment d ++ concat (segment <$> ds)).
    rewrite <- app_assoc, zlen_app, segment_len.
    pose proof (zlen_nonneg d). pose proof (zlen_nonneg (concat (segment <$> ds))).
    rewrite read_segment by lia.
    assert (E : write_one_segment fuel (p ++ segment d ++ concat (segment <$> ds) ++ r)
      (zlen p - written) (written + (zlen d + 7 + zlen (concat (segment <$> ds))))
      (written + (zlen d + 7)) = Ok ds).
    { rewrite app_assoc.
      replace (zlen p - written) with (zlen (p ++ segment d) - (written + (zlen d + 7)))
        by (rewrite zlen_app, segment_len; lia).
      replace (written + (zlen d + 7 + zlen (concat (segment <$> ds))))
        with (written + (zlen d + 7) + zlen (concat (segment <$> ds))) by lia.
      apply IH. lia. }
    rewrite E. done.
Qed.

(** The work thread finds the records of segment mode again: from a
    region that holds the records of some lines it hands over exactly these
    lines, in order, and stops at the end of the region. *)
Theorem segments_roundtrip p ds r :
  Forall (fun d => zlen d < 65535) ds ->
  let b := p ++ concat (segment <$> ds) ++ r in
  write_one_segment (S (length b)) b (zlen p) (zlen (concat (segment <$> ds))) 0 = Ok ds.
Proof.
  intros Hds b. pose proof (read_segments ds (S (length b)) p r 0 Hds) as H.
  rewrite Z.sub_0_r, Z.add_0_l in H. apply H.
  unfold b. rewrite !length_app. clear.
  assert (length ds <= length (concat (segment <$> ds)))%nat; [|lia].
  induction ds as [|d ds IH]; csimpl; [lia|]. rewrite length_app.
  pose proof (segment_len d). pose proof (zlen_nonneg d). unfold zlen in *. lia.
Qed.

(** ** One call of a writer *)

(** What a callback makes of its message decides what [vprintf] does. *)
Lemma vprintf_result cb stack l line len b :
  log_wf l -> segment_log l = false ->
  cb stack TLOG_MAX_LINE_LEN = Ok (len, b) -> line_of len b = line ->
  (forall d, line = Some d -> 0 < zlen d < TLOG_MAX_LINE_LEN) ->
  if maxlen l <? TLOG_MAX_LINE_LEN then
    (block l = false -> vprintf cb stack l = Ok (VRet (-1), set_dropped l (i32 (dropped l + 1)))) /\
    (block l = true -> is_Some line -> vprintf cb stack l = Ok (VWait, l))
  else
    match line with
    | None => vprintf cb stack l = Ok (VRet (-1), l)
    | Some d => exists l', vprintf cb stack l = Ok (VRet (zlen d), l') /\
        content l' = content l ++ d /\ log_wf l' /\ dropped l' = dropped l
    end.
Proof.
  intros Hwf Hp Hcb Hl Hd. unfold vprintf, tlog_need_drop.
  destruct (Z.ltb_spec (maxlen l) TLOG_MAX_LINE_LEN) as [Hlt|Hm].
  - split; intros Hbl; rewrite Hbl; [done|]. intros [d E].
    rewrite Hcb, bind_ret, Hl, E. unfold vprintf_locked.
    destruct (Z.ltb_spec (maxlen l) TLOG_MAX_LINE_LEN); [by rewrite Hbl|lia].
  - assert (E : (if block l then (false, l) else (false, l)) = (false, l)) by (by destruct (block l)).
    rewrite E, Hcb, bind_ret, Hl. destruct line as [d|]; [|done].
    destruct (append_spec d l Hwf Hp (Hd d eq_refl) Hm) as (l' & Ha & Hap & Hwf').
    exists l'. unfold vprintf_locked. rewrite Ha, bind_ret.
    destruct (Z.ltb_spec (maxlen l) TLOG_MAX_LINE_LEN); [lia|]. split; [done|].
    pose proof (Hd d eq_refl). split; [apply (append_content d l l'); tauto|]. split; [done|]. apply Hap.
Qed.

(** What the caller of [tlog_vprintf] gets for a text of a given length. *)
Definition line_for (text : list Z) : option (list Z) :=
  if (zlen text =? 0) || (zlen text =? TLOG_MAX_LINE_LEN) then None
  else if zlen text <? TLOG_MAX_LINE_LEN then Some text
  else Some DISCARD.

Lemma print_buffer_line text stack :
  zlen stack = TLOG_MAX_LINE_LEN ->
  exists len b, print_buffer (Some text) stack TLOG_MAX_LINE_LEN = Ok (len, b) /\
    line_of len b = line_for text.
Proof.
  intros Hst. unfold print_buffer, vsnprintf, line_for, line_of, TLOG_MAX_LINE_LEN in *.
  pose proof (zlen_nonneg text). pose proof (zlen_snprintf 1024 text) as Hn.
  destruct (buf_write_is_ok stack 0 (snprintf_bytes 1024 text)) as [b Hb]; [lia..|].
  rewrite Hb, !bind_ret. destruct (Z.ltb_spec (zlen text) 0); [lia|]. rewrite orb_false_l.
  eexists _, b. split; [done|]. destruct (Z.eqb_spec (zlen text) 1024) as [E|Hne].
  { rewrite E. done. }
  rewrite orb_false_r. destruct (Z.eqb_spec (zlen text) 0) as [->|Hz]; [done|].
  destruct (Z.leb_spec (zlen text) 0); [lia|]. rewrite Z.geb_leb.
  destruct (Z.leb_spec 1024 (zlen text)), (Z.ltb_spec (zlen text) 1024); try lia; [done|].
  f_equal. apply buf_read_write in Hb. rewrite snprintf_fits in Hb by lia.
  unfold buf_read in Hb. destruct (in_bounds _ _ _); [|done].
  injection Hb as Hb. change (drop (Z.to_nat 0) b) with b in Hb.
  rewrite zlen_app in Hb. change (zlen [0]) with 1 in Hb. rewrite Z2Nat.inj_add in Hb by lia.
  apply (f_equal (take (Z.to_nat (zlen text)))) in Hb. rewrite take_take in Hb.
  rewrite Nat.min_l in Hb by lia. rewrite Hb. apply take_app_length'. unfold zlen. lia.
Qed.

(** A call of [tlog_vprintf] with room in the buffer appends the text,
    or the discard notice for one longer than 1024 bytes, and answers its
    length; a text of exactly 1024 bytes disappears without being counted as
    dropped; without room a non-blocking log counts the message and a
    blocking one waits. *)
Theorem tlog_vprintf_result text stack l :
  log_wf l -> segment_log l = false -> zlen stack = TLOG_MAX_LINE_LEN ->
  if maxlen l <? TLOG_MAX_LINE_LEN then
    (block l = false -> tlog_vprintf (Some text) stack l =
       Ok (VRet (-1), set_dropped l (i32 (dropped l + 1)))) /\
    (block l = true -> is_Some (line_for text) -> tlog_vprintf (Some text) stack l = Ok (VWait, l))
  else
    match line_for text with
    | None => tlog_vprintf (Some text) stack l = Ok (VRet (-1), l)
    | Some d => exists l', tlog_vprintf (Some text) stack l = Ok (VRet (zlen d), l') /\
        content l' = content l ++ d /\ log_wf l' /\ dropped l' = dropped l
    end.
Proof.
  intros Hwf Hp Hst. destruct (print_buffer_line text stack Hst) as (len & b & E & Hl).
  apply (vprintf_result _ stack l (line_for text) len b Hwf Hp E Hl).
  unfold line_for, TLOG_MAX_LINE_LEN. pose proof (zlen_nonneg text). intros d.
  destruct (Z.eqb_spec (zlen text) 0), (Z.eqb_spec (zlen text) 1024); try done; simpl.
  destruct (Z.ltb_spec (zlen text) 1024); intros [= <-]; [lia|done].
Qed.

(** ** Writers that wait *)

(** What a writer still has to print. *)
Definition line_left (w : writer) : list Z :=
  match w with WTry d | WFull d | WWaiting d => d | WDone => [65] end.
Definition is_line (d : list Z) : Prop := 0 < zlen d < TLOG_MAX_LINE_LEN.

Lemma lines_insert ws i w v :
  Forall (fun x => is_line (line_left x)) ws -> ws !! i = Some w ->
  (v = WDone \/ line_left v = line_left w) ->
  Forall (fun x => is_line (line_left x)) (<[i := v]> ws).
Proof.
  intros Hf Hi Hv. apply Forall_insert; [done|].
  destruct Hv as [Hv | Hv]; rewrite Hv; [by split|].
  by eapply (Forall_lookup_1 (fun x => is_line (line_left x))).
Qed.

Lemma lines_wakeup ws :
  Forall (fun x => is_line (line_left x)) ws ->
  Forall (fun x => is_line (line_left x)) (wakeup_waiters ws).
Proof.
  intros Hf. unfold wakeup_waiters. destruct (0 <? waiters ws)%nat; [|done].
  apply Forall_fmap. eapply Forall_impl; [done|]. by intros [].
Qed.

(** A run with waiting writers is a run of the system. *)
Lemma writers_run b ds w :
  Forall is_line ds -> star wstep (start_writers b ds) w ->
  star step (start_sys b true) (base w) /\
  Forall (fun x => is_line (line_left x)) (writers w).
Proof.
  intros Hds. apply (star_invariant _ (fun w => star step (start_sys b true) (base w) /\
    Forall (fun x => is_line (line_left x)) (writers w))).
  - intros u v [Hs Hf] Hst. destruct Hst; simpl.
    + split; [|by eapply lines_insert; eauto]. eapply star_step; [done|]. apply step_print; [|done].
      pose proof (Forall_lookup_1 _ _ _ _ Hf H). done.
    + split; [done|]. eapply lines_insert; eauto.
    + split; [done|]. eapply lines_insert; eauto.
    + split; [|done]. eapply star_step; [done|]. by apply step_take.
    + split; [|done]. eapply star_step; [done|]. by eapply step_write.
    + split; [|done]. eapply star_step; [done|]. by apply step_release.
    + split; [done|]. by apply lines_wakeup.
  - split; [constructor|]. simpl. apply Forall_fmap. eapply Forall_impl; [done|]. done.
Qed.

Lemma vprintf_block d l r l' : vprintf_locked d l = Ok (r, l') -> block l' = block l.
Proof.
  unfold vprintf_locked, append_line. destruct (_ <? _).
  - destruct (block l) eqn:E; intros H; injection H as <- <-; by rewrite ?E.
  - destruct (buf_write _ _ _); simpl; [|done]. destruct (_ >? _); simpl; by intros [= <- <-].
Qed.

Lemma snapshot_block l sn l' : take_snapshot l = Some (sn, l') -> block l' = block l.
Proof.
  unfold take_snapshot. destruct (tlog_has_data _); [|done].
  destruct (ext_end l >? 0), (lend l <? start l), (lend l >? start l); by intros [= <- <-].
Qed.

Lemma step_block s t : step s t -> block (log t) = block (log s).
Proof.
  destruct 1 as [l H|d l ? H|d l H|sn l ? H|sn out n ? H|sn ?]; simpl; try done.
  - unfold tlog_need_drop in H. destruct (block (log s)) eqn:E; [done|].
    destruct (maxlen (log s) <? TLOG_MAX_LINE_LEN); [|done]. by injection H as <-.
  - by eapply vprintf_block.
  - by eapply vprintf_block.
  - by eapply snapshot_block.
Qed.

Lemma run_block b blk s : star step (start_sys b blk) s -> block (log s) = blk.
Proof.
  apply (star_invariant _ (fun s => block (log s) = blk)); [|done].
  intros s0 t <- Hs. by apply step_block.
Qed.

(** A log that is too full for a line has something to take, and once it is
    taken and released nothing is left. *)
Lemma full_has_data l : log_wf l -> maxlen l < TLOG_MAX_LINE_LEN -> tlog_has_data l = true.
Proof.
  intros [Hb Hsz Hs He Hsh]. unfold maxlen, tlog_has_data, TLOG_MAX_LINE_LEN in *.
  destruct (Z.eqb_spec (lend l) (start l)); [|done].
  destruct (Z.eqb_spec (ext_end l) 0); simpl; [lia|]. intros _.
  destruct (Z.gtb_spec (ext_end l) 0); [done|lia].
Qed.

Lemma drained l sn l' :
  log_wf l -> take_snapshot l = Some (sn, l') ->
  tlog_has_data (release l' sn) = false /\ TLOG_MAX_LINE_LEN <= maxlen (release l' sn).
Proof.
  intros Hwf H. pose proof (snapshot_ok _ _ _ Hwf H) as (Hok & -> & _).
  revert H. unfold take_snapshot. destruct (tlog_has_data l); [|done].
  destruct Hwf as [Hb Hsz Hs He Hsh]. unfold tlog_has_data, maxlen, release, TLOG_MAX_LINE_LEN in *.
  intros H. assert (E : log_end sn = lend l /\ log_extend sn = ext_end l).
  { revert H. destruct (Z.gtb_spec (ext_end l) 0), (lend l <? start l), (lend l >? start l);
      intros [= <-]; simpl; split; lia. }
  destruct E as [E1 E2]. simpl. rewrite E1, E2, Z.eqb_refl. simpl.
  destruct (Z.gtb_spec (ext_end l) 0); simpl; [lia|].
  assert (ext_end l = 0) as -> by lia. simpl. lia.
Qed.

Lemma wakeup_none ws : Forall (fun x => is_waiting x = false) ws -> wakeup_waiters ws = ws.
Proof.
  intros H. unfold wakeup_waiters, waiters.
  assert (filter (fun w => is_waiting w = true) ws = []) as ->; [|done].
  induction H as [|x ws Hx _ IH]; [done|]. rewrite filter_cons_False; [done|by rewrite Hx].
Qed.

(** What the work thread does with a log that is too full for a line. *)
Lemma full_round l :
  log_wf l -> segment_log l = false -> maxlen l < TLOG_MAX_LINE_LEN ->
  exists sn l' out n, take_snapshot l = Some (sn, l') /\ work_write l' sn = Ok (out, n) /\
    tlog_has_data (release l' sn) = false /\ TLOG_MAX_LINE_LEN <= maxlen (release l' sn).
Proof.
  intros Hwf Hp Hm. destruct (take_snapshot l) as [[sn l']|] eqn:Et.
  2: { unfold take_snapshot in Et. rewrite (full_has_data _ Hwf Hm) in Et. simpl in Et.
       destruct (ext_end l >? 0), (lend l <? start l), (lend l >? start l); done. }
  destruct (snapshot_ok _ _ _ Hwf Et) as (Hok & El & _).
  destruct (drained _ _ _ Hwf Et) as [Hno Hroom].
  destruct (write_taken l' sn) as (out & E & _); [rewrite El; by apply wf_dropped|by rewrite El|].
  assert (Hout : exists n, work_write l' sn = Ok (out, n)).
  { unfold work_write. rewrite El in *. simpl. rewrite Hp, E, bind_ret. eauto. }
  destruct Hout as [n Hout]. by exists sn, l', out, n.
Qed.

(** Threads that have ended or wait, and an idle work thread without data. *)
Lemma all_wait s ws :
  work s = Idle -> tlog_has_data (log s) = false ->
  (forall j x, ws !! j = Some x -> x = WDone \/ exists d, x = WWaiting d) ->
  forall u, ~ wstep (MkW s false ws) u.
Proof.
  intros Hi Hno Hst u Hu. inversion Hu; simpl in *; simplify_eq; try congruence.
  - destruct (Hst _ _ H) as [|[? ?]]; done.
  - destruct (Hst _ _ H) as [|[? ?]]; done.
  - destruct (Hst _ _ H) as [|[? ?]]; done.
  - unfold take_snapshot in H1. by rewrite Hno in H1.
Qed.

(** C23 - a wake-up can be lost: the last writer that still prints finds the
    buffer full and, before it waits, the work thread writes everything,
    releases the buffer and wakes nobody; the writer then waits on an empty
    log with room for its line, and nothing the logger does wakes it. *)
Theorem lost_wakeup b ds w i d :
  TLOG_MAX_LINE_LEN <= zlen b <= 1073741824 -> Forall is_line ds ->
  star wstep (start_writers b ds) w ->
  work (base w) = Idle -> waking w = false -> maxlen (log (base w)) < TLOG_MAX_LINE_LEN ->
  writers w !! i = Some (WTry d) ->
  (forall j x, j <> i -> writers w !! j = Some x -> x = WDone) ->
  exists w', star wstep w w' /\ writers w' !! i = Some (WWaiting d) /\
    tlog_has_data (log (base w')) = false /\ TLOG_MAX_LINE_LEN <= maxlen (log (base w')) /\
    forall u, ~ wstep w' u.
Proof.
  intros Hb Hds Hr Hi Hk Hm Hw Hoth. destruct (writers_run _ _ _ Hds Hr) as [Hs _].
  pose proof (ring_reach_inv _ _ _ Hb Hs) as [Hwf Hp _ _ _].
  pose proof (run_block _ _ _ Hs) as Hbl.
  destruct (full_round _ Hwf Hp Hm) as (sn & l & out & n & Et & Hout & Hno & Hroom).
  assert (Hlen : (i < length (writers w))%nat) by (by eapply lookup_lt_Some).
  set (ws := <[i := WFull d]> (writers w)).
  assert (Hws : wakeup_waiters ws = ws).
  { apply wakeup_none, Forall_lookup. intros j x. unfold ws. rewrite list_lookup_insert.
    case_decide as E; [by intros [= <-]|]. intros Hj.
    destruct (decide (i = j)) as [->|Hne]; [tauto|]. by rewrite (Hoth j x) by done. }
  set (s2 := MkSys (release l sn) Idle (accepted (base w)) (output (base w) ++ concat out)
               (refused (base w)) (reported (base w) + default 0 n)).
  exists (MkW s2 false (<[i := WWaiting d]> ws)). split_and!.
  - eapply star_head. { eapply ws_full; [exact Hw|]. unfold vprintf_locked.
      destruct (Z.ltb_spec (maxlen (log (base w))) TLOG_MAX_LINE_LEN); [|lia]. by rewrite Hbl. }
    fold ws. eapply star_head; [by apply (ws_take _ sn l)|].
    eapply star_head; [by apply (ws_write _ sn out n)|].
    eapply star_head; [by apply (ws_release _ sn)|].
    eapply star_head; [by apply ws_wake|]. simpl. rewrite Hws.
    eapply star_head; [|constructor]. apply ws_wait. simpl. unfold ws.
    by apply list_lookup_insert_eq.
  - simpl. apply list_lookup_insert_eq. unfold ws. by rewrite length_insert.
  - done.
  - done.
  - assert (Hst : forall j x, <[i := WWaiting d]> ws !! j = Some x -> x = WDone \/ exists d', x = WWaiting d').
    { intros j x. unfold ws. rewrite list_insert_insert_eq, list_lookup_insert.
      case_decide; [intros [= <-]; eauto|]. intros Hj. left. destruct (decide (i = j)) as [->|]; [tauto|].
      by apply (Hoth j). }
    by apply all_wait.
Qed.

(** ** The properties at concrete inputs: a buffer of 2048 bytes *)
Definition demo_buff : list Z := zeros 2048.

Lemma demo_size : TLOG_MAX_LINE_LEN <= zlen demo_buff <= 1073741824.
Proof. unfold TLOG_MAX_LINE_LEN, demo_buff. rewrite zlen_zeros by lia. lia. Qed.

(** A line is printed and the work thread takes it. *)
Definition demo_line : list Z := [104; 105; 10].
Definition demo_reached : sys :=
  match vprintf_locked demo_line (new_log demo_buff false false) with
  | Ok (_, l) => MkSys l Idle demo_line [] 0 0
  | UB _ => start_sys demo_buff false
  end.

Lemma demo_star : star step (start_sys demo_buff false) demo_reached.
Proof.
  eapply star_step; [constructor|].
  apply (step_print (start_sys demo_buff false) demo_line); [split; done|].
  by vm_compute.
Qed.

Lemma ring_fifo_witness :
  accepted demo_reached = output demo_reached ++ pending demo_reached /\
  accepted demo_reached = demo_line.
Proof.
  destruct (ring_fifo demo_buff false demo_reached demo_size demo_star) as [H _].
  split; [exact H|]. by vm_compute.
Defined.



Definition demo_full (seg : bool) : tlog_log := MkLog demo_buff 2048 0 1024 0 0 false seg.

Lemma demo_full_wf seg : log_wf (demo_full seg).
Proof.
  pose proof demo_size as H. unfold TLOG_MAX_LINE_LEN in H.
  split; simpl; unfold TLOG_MAX_LINE_LEN; try lia. unfold demo_buff. by rewrite zlen_zeros by lia.
Qed.

(** The state of the overflow is reached by one line of 1017 bytes. *)
Example overflow_reached :
  exists l, vprintf_locked (zeros 1017) (new_log demo_buff false true) = Ok (VRet 1017, l) /\
    lend l = 1024 /\ start l = 0 /\ ext_end l = 0.
Proof. eexists. split; [by vm_compute|]. done. Qed.

Lemma segment_overflow_witness :
  vprintf_locked (zeros 1020) (demo_full true) = UB OutOfBounds.
Proof.
  apply (segment_overflow (zeros 1020) (demo_full true)).
  - apply demo_full_wf.
  - done.
  - done.
  - done.
  - rewrite zlen_zeros by lia. unfold TLOG_MAX_LINE_LEN. lia.
Defined.

Lemma segments_roundtrip_witness :
  let b := segment demo_line ++ segment [65] ++ [7] in
  write_one_segment (S (length b)) b 0 18 0 = Ok [demo_line; [65]].
Proof.
  apply (segments_roundtrip [] [demo_line; [65]] [7]). repeat constructor; done.
Defined.

Lemma tlog_vprintf_result_witness :
  exists l', tlog_vprintf (Some demo_line) (zeros 1024) (demo_full false) = Ok (VRet 3, l') /\
    content l' = content (demo_full false) ++ demo_line.
Proof.
  pose proof (tlog_vprintf_result demo_line (zeros 1024) (demo_full false) (demo_full_wf false)
    eq_refl eq_refl) as H.
  change (maxlen (demo_full false) <? TLOG_MAX_LINE_LEN) with false in H. cbn match in H.
  change (line_for demo_line) with (Some demo_line) in H. cbn match in H.
  destruct H as (l' & E & Hc & _). exists l'. split; [exact E|exact Hc].
Defined.
(** Three threads print lines of 1023 bytes; two of them fill the buffer. *)
Definition long_line : list Z := repeat 65 1023.
Definition demo_lines : list (list Z) := [long_line; long_line; long_line].
Definition printed (i : nat) (w : wsys) : wsys :=
  match vprintf_locked long_line (log (base w)) with
  | Ok (_, l) => MkW (MkSys l (work (base w)) (accepted (base w) ++ long_line) (output (base w))
                        (refused (base w)) (reported (base w))) (waking w)
                   (<[i := WDone]> (writers w))
  | UB _ => w
  end.
Definition demo_blocked : wsys := printed 1 (printed 0 (start_writers demo_buff demo_lines)).

Lemma demo_blocked_star : star wstep (start_writers demo_buff demo_lines) demo_blocked.
Proof.
  eapply star_step; [eapply star_step; [constructor|]|].
  - apply (ws_print _ 0 long_line); [done|]. by vm_compute.
  - apply (ws_print _ 1 long_line); [done|]. by vm_compute.
Qed.

Lemma lost_wakeup_witness :
  exists w', star wstep demo_blocked w' /\ writers w' !! 2%nat = Some (WWaiting long_line) /\
    forall u, ~ wstep w' u.
Proof.
  destruct (lost_wakeup demo_buff demo_lines demo_blocked 2 long_line) as (w' & H1 & H3 & _ & _ & H2).
  - exact demo_size.
  - repeat constructor; done.
  - exact demo_blocked_star.
  - by vm_compute.
  - by vm_compute.
  - by vm_compute.
  - by vm_compute.
  - intros [|[|[|j]]] x Hj; vm_compute; intros [= <-]; done.
  - exists w'. split; [exact H1|]. split; [exact H3|exact H2].
Defined.

End TlogRing.
