(* ===== verification/TlogRoot.v ===== *)
(** The line of a log call (src/useapp/tlog.c, lines 133-140, 300-388,
    556-613, 1293-1328 and 1427-1434): the prefix with time, level and place,
    the newline, the truncation, the head that segment mode puts in front, what
    the root log's output function makes of it, and [tlog_vext], which decides
    whether a call logs at all. *)
From S2P Require Import Prelude TlogTime TlogRing.

Module TlogRoot.
Import TlogTime TlogRing.

(** ** Levels *)
Definition TLOG_DEBUG : Z := 0.
Definition TLOG_INFO : Z := 1.
Definition TLOG_FATAL : Z := 5.
Definition TLOG_END : Z := 6.

Definition tlog_level_str : list (list Z) :=
  [bytes "DEBUG"; bytes "INFO"; bytes "NOTICE"; bytes "WARN"; bytes "ERROR"; bytes "FATAL"].

(** The enumeration is unsigned.  [None] is a null pointer. *)
Definition tlog_get_level_string (level : Z) : option (list Z) :=
  if level >=? TLOG_END then None else tlog_level_str !! Z.to_nat level.

(** [struct tlog_loginfo]; [file] and [func] are addresses of strings. *)
Record loginfo := MkInfo { level : Z; file : Z; func : Z; line : Z; time : tlog_time }.

(** Its bytes in memory: packed, little-endian. *)
Definition info_bytes (i : loginfo) : list Z :=
  le_encode 4 (level i) ++ le_encode 8 (file i) ++ le_encode 8 (func i) ++
  le_encode 4 (u32 (line i)) ++ le_encode 4 (u32 (year (time i))) ++ le_encode 4 (usec (time i)) ++
  [mon (time i); mday (time i); hour (time i); min (time i); sec (time i)].
Definition INFO_SIZE : Z := 37.
Definition ROOT_HEAD : Z := 39.

(** ** The prefix *)
Definition pad_left (n : nat) (s : list Z) : list Z := replicate (n - length s) 32 ++ s.
Definition pad_right (n : nat) (s : list Z) : list Z := s ++ replicate (n - length s) 32.

Section Root.
(** The strings in memory, and [getpid]. *)
Context (str : Z -> list Z) (getpid : Z).

Definition stamp (t : tlog_time) : list Z :=
  bytes "[" ++ fmt_dec 4 (year t) ++ bytes "-" ++ fmt_dec 2 (mon t) ++ bytes "-" ++
  fmt_dec 2 (mday t) ++ bytes " " ++ fmt_dec 2 (hour t) ++ bytes ":" ++ fmt_dec 2 (min t) ++
  bytes ":" ++ fmt_dec 2 (sec t) ++ bytes "," ++ fmt_dec 3 (usec t / 1000) ++ bytes "]".

Definition place (i : loginfo) : list Z :=
  bytes "[" ++ pad_left 17 (str (file i)) ++ bytes ":" ++ pad_right 4 (fmt_dec 1 (line i)) ++
  bytes "] ".

(** The text of the first [snprintf] of [_tlog_format]. *)
Definition prefix (multi_log : bool) (i : loginfo) : res (list Z) :=
  lvl ← of_option NullDeref (tlog_get_level_string (level i));
  Ok (if multi_log
      then stamp (time i) ++ bytes "[" ++ pad_left 5 (fmt_dec 1 getpid) ++ bytes "][" ++
           pad_left 4 lvl ++ bytes "]" ++ place i
      else stamp (time i) ++ bytes "[" ++ pad_left 5 lvl ++ bytes "]" ++ place i).

(** A formatter: buffer, offset and room; the length or -1. *)
Definition tlog_format_func : Type := list Z -> Z -> Z -> res (Z * list Z).

(** [_tlog_format]; [text] is what the caller's format gives. *)
Definition format (multi_log : bool) (i : loginfo) (text : option (list Z)) : tlog_format_func :=
  fun b off maxlen =>
    p ← prefix multi_log i;
    '(len, b) ← vsnprintf b off maxlen (Some p);
    if (len <? 0) || (len >=? maxlen) then Ok (-1, b)
    else
      '(len2, b) ← vsnprintf b (off + len) (maxlen - len) text;
      if (len2 <? 0) || (len2 =? maxlen - len) then Ok (-1, b) else Ok (len + len2, b).

(** [_tlog_root_log_buffer], the callback of the root log. *)
Definition put_head (seg : bool) (i : loginfo) (b : list Z) : res (list Z) :=
  if seg then buf_write b 0 (info_bytes i) else Ok b.

Definition put_dots (b : list Z) (last : Z) : res (list Z) :=
  b ← arr_set b last 46; b ← arr_set b (last - 1) 46; arr_set b (last - 2) 46.

Definition put_newline (b : list Z) (len maxlen : Z) : res (list Z * Z) :=
  c ← arr_get b (len - 1);
  if negb (c =? 10) && (len + 1 <? maxlen - 1)
  then b ← arr_set b len 10; Ok (b, 1) else Ok (b, 0).

Definition put_tail (b : list Z) (len log_len maxlen : Z) : res (Z * list Z) :=
  '(b, n) ← (if len + 1 <? maxlen - 1 then b ← arr_set b len 0; Ok (b, 1) else Ok (b, 0));
  b ← buf_write b INFO_SIZE (le_encode 2 (u16 (log_len + n)));
  Ok (len + n, b).

Definition root_log_buffer (fmt : option tlog_format_func) (seg : bool) (i : loginfo)
    (b : list Z) (maxlen : Z) : res (Z * list Z) :=
  match fmt with
  | None => Ok (-1, b)
  | Some fmt =>
      b ← put_head seg i b;
      let hd := if seg then ROOT_HEAD else 0 in
      let max_format_len := maxlen - hd - 2 in
      b ← arr_set b (maxlen - 1) 0;
      '(log_len, b) ← fmt b hd max_format_len;
      if log_len <? 0 then Ok (-1, b)
      else
        b ← (if log_len >=? max_format_len then put_dots b (hd + max_format_len - 2) else Ok b);
        let log_len := if log_len >=? max_format_len then max_format_len - 1 else log_len in
        let len := hd + log_len in
        '(b, n) ← put_newline b len maxlen;
        if seg then put_tail b (len + n) (log_len + n) maxlen else Ok (len + n, b)
  end.

(** ** Output of the root log *)

(** What is handed on: bytes to the log file, or a message to the callback
    that the application registered. *)
Inductive out : Type := ToFile (d : list Z) | ToCallback (info d : list Z).

(** [_tlog_root_write_log] on the message [buff]. *)
Definition root_write_log (callback seg is_root : bool) (buff : list Z) : res out :=
  let head_len := lo ← arr_get buff INFO_SIZE; hi ← arr_get buff (INFO_SIZE + 1);
                  Ok (lo + 256 * hi) in
  if negb callback then
    if seg then n ← head_len; d ← buf_read buff ROOT_HEAD n; Ok (ToFile d)
    else Ok (ToFile buff)
  else if seg && is_root then
    n ← head_len; i ← buf_read buff 0 INFO_SIZE;
    d ← buf_read buff ROOT_HEAD (n - 1); Ok (ToCallback i d)
  else Ok (ToCallback (zeros INFO_SIZE) buff).

(** The report of dropped messages in [_tlog_work_write]: the initialised part
    of its local buffer. *)
Definition drop_msg (n : Z) : list Z :=
  bytes "[Totoal Dropped " ++ fmt_dec 1 n ++ bytes " Messages]" ++ [10; 0].

(** ** A log call *)

(** [_tlog_early_print]: the result and what it writes to the standard
    output.  The length is unsigned, so a failed format prints the buffer. *)
Definition early_print (disabled : bool) (text : option (list Z)) : res (Z * list Z) :=
  if disabled then Ok (0, [])
  else match text with
       | None => UB Uninitialised
       | Some s =>
           if zlen s <=? 0 then Ok (-1, [])
           else
             let buf := snprintf_bytes TLOG_MAX_LINE_LEN s in
             let out_len := if zlen s >=? TLOG_MAX_LINE_LEN then TLOG_MAX_LINE_LEN else zlen s in
             d ← buf_read buf 0 out_len;
             c ← arr_get buf (out_len - 1);
             Ok (zlen s, if negb (c =? 10) then d ++ [10] else d)
       end.

(** The static variables that a call uses. *)
Record globals := MkGlobals {
  root : option tlog_log;
  root_logsize : Z;
  root_multi : bool;
  set_level : Z;
  disable_early_print : bool;
  custom_format : option (option (loginfo -> option (list Z) -> tlog_format_func))
}.
Definition set_root (g : globals) (l : tlog_log) : globals :=
  MkGlobals (Some l) (root_logsize g) (root_multi g) (set_level g) (disable_early_print g)
    (custom_format g).

(** [tlog_format]: the default unless a formatter (or NULL) was registered. *)
Definition the_format (g : globals) (i : loginfo) (text : option (list Z))
  : option tlog_format_func :=
  match custom_format g with
  | None => Some (format (root_multi g) i text)
  | Some f => (fun f => f i text) <$> f
  end.

(** [tlog_vext]: the answer, the state, what goes to the standard output.
    [now] is the answer of [_tlog_gettime], [stack] the contents of the local
    buffer. *)
Definition tlog_vext (lv fl ln fn : Z) (now : option tlog_time) (text : option (list Z))
    (stack : list Z) (g : globals) : res (vret * globals * list Z) :=
  if lv <? set_level g then Ok (VRet 0, g, [])
  else match root g with
  | None => '(r, o) ← early_print (disable_early_print g) text; Ok (VRet r, g, o)
  | Some l =>
      if root_logsize g <=? 0 then Ok (VRet 0, g, [])
      else if lv >=? TLOG_END then Ok (VRet (-1), g, [])
      else match now with
      | None => Ok (VRet (-1), g, [])
      | Some t =>
          let i := MkInfo lv fl fn ln t in
          '(r, l) ← vprintf (root_log_buffer (the_format g i text) (segment_log l) i) stack l;
          Ok (r, set_root g l, [])
      end
  end.

(** ** What a line should be *)

(** The line for a text [t] when at most [m] bytes fit: the text with a
    newline if it has none, or its beginning with dots and a newline. *)
Definition line_text (m : Z) (t : list Z) : list Z :=
  if zlen t <? m then (if bool_decide (last t = Some 10) then t else t ++ [10])
  else take (Z.to_nat (m - 4)) t ++ [46; 46; 46; 10].

(** The whole message of the root log for a line. *)
Definition nul_for (line : list Z) : list Z := if ROOT_HEAD + zlen line <? 1022 then [0] else [].
Definition root_msg (seg : bool) (i : loginfo) (line : list Z) : list Z :=
  if seg then info_bytes i ++ le_encode 2 (zlen line + zlen (nul_for line)) ++ line ++ nul_for line
  else line.

Definition head_size (seg : bool) : Z := if seg then ROOT_HEAD else 0.
Definition room (seg : bool) : Z := TLOG_MAX_LINE_LEN - head_size seg - 2.

Lemma info_bytes_len i : zlen (info_bytes i) = INFO_SIZE.
Proof. unfold info_bytes. autorewrite with zlen. unfold zlen. by rewrite !le_encode_len. Qed.

(** ** The formatter *)
Lemma format_result multi i m p H R M :
  prefix multi i = Ok p -> 0 < zlen p < M -> M <= zlen R ->
  exists R' b, format multi i (Some m) (H ++ R) (zlen H) M =
      Ok (if zlen (p ++ m) =? M then -1 else zlen (p ++ m), b) /\
    b = H ++ take (Z.to_nat (M - 1)) (p ++ m) ++ 0 :: R' /\ zlen b = zlen (H ++ R).
Proof.
  intros Hp Hlen HM. unfold format. rewrite Hp, bind_ret. unfold vsnprintf. pose proof (zlen_nonneg m).
  rewrite snprintf_fits by lia. rewrite buf_write_at by (rewrite ?zlen_app; done || (change (zlen [0]) with 1; lia)).
  rewrite !bind_ret. destruct (Z.ltb_spec (zlen p) 0); [lia|]. rewrite Z.geb_leb.
  destruct (Z.leb_spec M (zlen p)); [lia|]. cbn [orb].
  set (R1 := drop (length (p ++ [0])) R).
  assert (HR1 : zlen R1 = zlen R - zlen p - 1).
  { unfold R1, zlen in *. rewrite length_drop, length_app. simpl. lia. }
  pose proof (zlen_snprintf (M - zlen p) m ltac:(lia)) as Hd.
  set (d := snprintf_bytes (M - zlen p) m) in *.
  replace (H ++ (p ++ [0]) ++ R1) with ((H ++ p) ++ (0 :: R1)) by (by rewrite <- !app_assoc).
  rewrite buf_write_at by (rewrite ?zlen_app, ?zlen_cons; lia). rewrite !bind_ret.
  destruct (Z.ltb_spec (zlen m) 0); [lia|]. cbn [orb].
  exists (drop (length d) (0 :: R1)). eexists. rewrite zlen_app.
  replace (zlen m =? M - zlen p) with (zlen p + zlen m =? M) by lia.
  split; [by destruct (_ =? M)|]. split.
  - rewrite <- !app_assoc. f_equal. rewrite take_app_ge by (unfold zlen in *; lia).
    rewrite <- app_assoc. f_equal. replace (Z.to_nat (M - 1) - length p)%nat
      with (Z.to_nat (M - zlen p - 1)) by (unfold zlen in *; lia).
    unfold d, snprintf_bytes. destruct (Z.leb_spec (M - zlen p) 0); [lia|]. by rewrite <- app_assoc.
  - assert (Hb : zlen (drop (length d) (0 :: R1)) = zlen R1 + 1 - zlen d).
    { unfold zlen in *. rewrite length_drop. simpl. lia. }
    rewrite !zlen_app, Hb, Hd. lia.
Qed.
(** ** The end of the line *)
Definition with_newline (t : list Z) : list Z :=
  if bool_decide (last t = Some 10) then t else t ++ [10].

Lemma newline_result H t R :
  0 < zlen t -> zlen H + zlen t <= 1021 ->
  exists R' n, put_newline (H ++ t ++ 0 :: R) (zlen H + zlen t) TLOG_MAX_LINE_LEN =
      Ok (H ++ with_newline t ++ R', n) /\
    zlen (with_newline t) = zlen t + n /\ zlen (with_newline t ++ R') = zlen (t ++ 0 :: R).
Proof.
  intros Ht Hle. destruct (exists_last (l := t)) as (q & c & ->); [by intros ->|].
  unfold put_newline, with_newline. rewrite <- (app_assoc q). cbn [app].
  rewrite (app_assoc H q), (arr_get_at (H ++ q)) by (rewrite !zlen_app; change (zlen [c]) with 1; lia).
  rewrite bind_ret, last_snoc. rewrite <- app_assoc.
  destruct (Z.eqb_spec c 10) as [->|Hc]; cbn [negb andb].
  - rewrite bool_decide_eq_true_2 by done. exists (0 :: R), 0. rewrite <- app_assoc.
    split_and!; [done|lia|done].
  - rewrite bool_decide_eq_false_2 by congruence. unfold TLOG_MAX_LINE_LEN.
    destruct (Z.ltb_spec (zlen H + zlen (q ++ [c]) + 1) (1024 - 1)); [|lia].
    change (H ++ q ++ c :: 0 :: R) with (H ++ q ++ [c] ++ 0 :: R).
    rewrite (app_assoc q), (app_assoc H). rewrite (arr_set_at (H ++ q ++ [c])) by (by rewrite (zlen_app H)).
    rewrite bind_ret. exists R, 1. rewrite <- !app_assoc. split_and!; [done|autorewrite with zlen; lia..].
Qed.

Lemma dots_result H a x y z R e :
  e = zlen (H ++ a) + 2 ->
  put_dots (H ++ (a ++ [x; y; z]) ++ R) e = Ok (H ++ (a ++ [46; 46; 46]) ++ R).
Proof.
  intros ->. unfold put_dots. rewrite <- app_assoc. cbn [app].
  rewrite (app_assoc H a). change (x :: y :: z :: R) with ([x; y] ++ z :: R).
  rewrite (app_assoc (H ++ a)), (arr_set_at ((H ++ a) ++ [x; y])) by (rewrite (zlen_app (H ++ a)); done).
  rewrite bind_ret. change ([x; y]) with ([x] ++ [y]). rewrite (app_assoc (H ++ a)), <- (app_assoc _ [y]).
  cbn [app]. rewrite (arr_set_at ((H ++ a) ++ [x])) by (rewrite (zlen_app (H ++ a)); change (zlen [x]) with 1; lia).
  rewrite bind_ret, <- (app_assoc _ [x]). cbn [app].
  rewrite (arr_set_at (H ++ a)) by lia. f_equal. by rewrite <- !app_assoc.
Qed.

(** Cut and completed, the buffer holds the line behind the head. *)
Lemma line_result H t R :
  let M := 1022 - zlen H in
  4 <= M -> 0 < zlen t -> zlen t <> M ->
  exists R' n b, (if zlen t >=? M then put_dots (H ++ take (Z.to_nat (M - 1)) t ++ 0 :: R) (zlen H + M - 2)
           else Ok (H ++ take (Z.to_nat (M - 1)) t ++ 0 :: R)) = Ok b /\
    put_newline b (zlen H + (if zlen t >=? M then M - 1 else zlen t)) TLOG_MAX_LINE_LEN =
      Ok (H ++ line_text M t ++ R', n) /\
    zlen (line_text M t) = (if zlen t >=? M then M - 1 else zlen t) + n /\
    zlen (line_text M t ++ R') = zlen (take (Z.to_nat (M - 1)) t ++ 0 :: R).
Proof.
  intros M HM Ht Hne. unfold line_text. rewrite Z.geb_leb.
  destruct (Z.leb_spec M (zlen t)) as [Hle|Hlt], (Z.ltb_spec (zlen t) M); try lia.
  - set (a := take (Z.to_nat (M - 4)) t).
    assert (Ha : zlen a = M - 4) by (unfold a; apply zlen_take; lia).
    assert (E : exists x y z, take (Z.to_nat (M - 1)) t = a ++ [x; y; z]).
    { set (w := drop (Z.to_nat (M - 4)) (take (Z.to_nat (M - 1)) t)).
      assert (Hw : length w = 3%nat) by (unfold w, zlen in *; rewrite length_drop, length_take; lia).
      destruct w as [|x [|y [|z [|? ?]]]] eqn:Ew; try done. exists x, y, z. rewrite <- Ew. unfold w, a.
      rewrite <- (take_drop (Z.to_nat (M - 4)) (take (Z.to_nat (M - 1)) t)) at 1.
      rewrite take_take. do 2 f_equal. lia. }
    destruct E as (x & y & z & ->). rewrite dots_result by (rewrite zlen_app; lia).
    assert (Hd : zlen (a ++ [46; 46; 46]) = M - 1) by (rewrite zlen_app; change (zlen [46; 46; 46]) with 3; lia).
    destruct (newline_result H (a ++ [46; 46; 46]) R) as (R' & n & E & E1 & E2); [lia..|].
    exists R', n. eexists. split; [done|]. rewrite Hd in *.
    assert (El : with_newline (a ++ [46; 46; 46]) = a ++ [46; 46; 46; 10]).
    { unfold with_newline. change [46; 46; 46] with ([46; 46] ++ [46]). rewrite app_assoc, last_snoc.
      by rewrite <- !app_assoc. }
    rewrite El in *. split_and!; [done|lia|]. rewrite E2, !zlen_app. done.
  - rewrite take_ge by (unfold zlen in *; lia).
    destruct (newline_result H t R) as (R' & n & E & E1 & E2); [lia..|].
    exists R', n. eexists. split; [done|]. split_and!; done.
Qed.

(** ** The callback of the root log *)
Lemma arr_set_behind (H R : list Z) i v :
  zlen H <= i < zlen H + zlen R ->
  exists R', arr_set (H ++ R) i v = Ok (H ++ R') /\ zlen R' = zlen R.
Proof.
  intros Hi. unfold arr_set. pose proof (zlen_nonneg H).
  assert (in_bounds (H ++ R) i 1 = true) as -> by (apply in_bounds_true; rewrite zlen_app; lia).
  exists (<[Z.to_nat (i - zlen H) := v]> R). rewrite zlen_insert. split; [|done]. f_equal.
  rewrite insert_app_r_alt by (unfold zlen in *; lia). do 2 f_equal. unfold zlen in *. lia.
Qed.

Lemma put_head_result seg i b :
  zlen b = TLOG_MAX_LINE_LEN ->
  exists H R, put_head seg i b = Ok (H ++ R) /\ zlen H = head_size seg /\
    zlen R = TLOG_MAX_LINE_LEN - head_size seg /\
    (if seg then exists u v, H = info_bytes i ++ [u; v] else H = []).
Proof.
  unfold TLOG_MAX_LINE_LEN. intros Hb. destruct seg; simpl; [|by exists [], b].
  destruct (buf_write_is_ok b 0 (info_bytes i)) as [b' E]; [done|rewrite info_bytes_len, Hb; done|].
  pose proof (buf_write_ok _ _ _ _ E) as (_ & _ & Hb'). rewrite E.
  apply (buf_write_app [] b) in E. cbn [app] in E.
  pose proof (info_bytes_len i) as Hi. unfold INFO_SIZE in Hi.
  remember (drop (length (info_bytes i)) b) as r eqn:Er.
  assert (Hr : zlen r = 987) by (rewrite E, zlen_app in Hb'; lia).
  destruct r as [|u [|v r]]; [done..|]. exists (info_bytes i ++ [u; v]), r.
  rewrite <- app_assoc. split_and!; [by rewrite E| | |by exists u, v].
  - rewrite zlen_app, Hi. done.
  - autorewrite with zlen in Hr. unfold ROOT_HEAD. lia.
Qed.

Lemma prefix_pos multi i p : prefix multi i = Ok p -> 0 < zlen p.
Proof.
  unfold prefix. intros H. res_inv.
  destruct multi; unfold stamp; change (bytes "[") with [91]; autorewrite with zlen;
    repeat match goal with |- context [zlen ?l] =>
      lazymatch goal with _ : 0 <= zlen l |- _ => fail | _ => pose proof (zlen_nonneg l) end end; lia.
Qed.

(** The tail of segment mode: a NUL if there is room, and the length. *)
Lemma tail_result i u v line R :
  zlen line <= 983 -> zlen (line ++ R) = 985 ->
  exists b, put_tail ((info_bytes i ++ [u; v]) ++ line ++ R) (ROOT_HEAD + zlen line) (zlen line)
      TLOG_MAX_LINE_LEN = Ok (zlen (root_msg true i line), b) /\
    take (Z.to_nat (zlen (root_msg true i line))) b = root_msg true i line.
Proof.
  intros Hl Ht. pose proof (info_bytes_len i) as Hi. unfold INFO_SIZE in Hi. rewrite zlen_app in Ht.
  assert (Hm : zlen (root_msg true i line) = 39 + zlen line + zlen (nul_for line)).
  { unfold root_msg. rewrite !zlen_app, Hi. unfold zlen at 1. rewrite le_encode_len. lia. }
  assert (Ew : forall n S, buf_write ((info_bytes i ++ [u; v]) ++ S) INFO_SIZE (le_encode 2 n) =
    Ok ((info_bytes i ++ le_encode 2 n) ++ S)).
  { intros n S. rewrite <- !app_assoc. unfold INFO_SIZE. rewrite <- Hi. rewrite buf_write_mid; [done|].
    unfold zlen. by rewrite le_encode_len. }
  unfold put_tail, nul_for, ROOT_HEAD, TLOG_MAX_LINE_LEN in *.
  destruct R as [|c R]; [simpl in Ht; change (zlen (@nil Z)) with 0 in Ht; lia|].
  rewrite zlen_cons in Ht. pose proof (zlen_nonneg line).
  destruct (Z.ltb_spec (39 + zlen line + 1) (1024 - 1)) as [Hlt|Hge].
  - destruct (Z.ltb_spec (39 + zlen line) 1022); [|lia].
    rewrite (app_assoc (info_bytes i ++ [u; v]) line).
    rewrite arr_set_at by (rewrite !zlen_app, Hi; change (zlen [u; v]) with 2; lia).
    rewrite !bind_ret. rewrite <- (app_assoc _ line), Ew, bind_ret, u16_id by lia.
    change (zlen [0]) with 1 in Hm. eexists. rewrite Hm. split; [do 2 f_equal; lia|].
    unfold root_msg, nul_for, ROOT_HEAD. destruct (Z.ltb_spec (39 + zlen line) 1022); [|lia].
    change (zlen [0]) with 1. rewrite <- !app_assoc. change (0 :: R) with ([0] ++ R).
    rewrite (app_assoc line), (app_assoc (le_encode _ _)), (app_assoc (info_bytes i)).
    apply take_app_length'. rewrite !length_app, le_encode_len. simpl.
    unfold zlen in *. lia.
  - destruct (Z.ltb_spec (39 + zlen line) 1022); [lia|].
    rewrite !bind_ret. rewrite Ew, bind_ret, Z.add_0_r, u16_id by lia.
    change (zlen []) with 0 in Hm. eexists. rewrite Hm. split; [do 2 f_equal; lia|].
    unfold root_msg, nul_for, ROOT_HEAD. destruct (Z.ltb_spec (39 + zlen line) 1022); [lia|].
    change (zlen []) with 0. rewrite app_nil_r, Z.add_0_r. rewrite <- !app_assoc.
    rewrite (app_assoc (le_encode _ _)), (app_assoc (info_bytes i)).
    apply take_app_length'. rewrite !length_app, le_encode_len. unfold zlen in *. lia.
Qed.

Lemma line_text_bound M t : 4 <= M -> zlen t <> M -> zlen (line_text M t) <= M.
Proof.
  intros HM Hne. unfold line_text. destruct (Z.ltb_spec (zlen t) M).
  - case_bool_decide; [lia|]. rewrite zlen_app. change (zlen [10]) with 1. lia.
  - rewrite zlen_app, zlen_take by lia. change (zlen [46; 46; 46; 10]) with 4. lia.
Qed.

(** The callback of the root log, on any text. *)
Lemma root_log_line multi seg i m p b :
  zlen b = TLOG_MAX_LINE_LEN -> prefix multi i = Ok p -> zlen p < room seg ->
  let msg := root_msg seg i (line_text (room seg) (p ++ m)) in
  exists b', root_log_buffer (Some (format multi i (Some m))) seg i b TLOG_MAX_LINE_LEN =
      Ok (if zlen (p ++ m) =? room seg then -1 else zlen msg, b') /\
    (zlen (p ++ m) <> room seg -> take (Z.to_nat (zlen msg)) b' = msg).
Proof.
  intros Hb Hp Hlt msg. pose proof (prefix_pos _ _ _ Hp) as Hpos.
  destruct (put_head_result seg i b Hb) as (H & R & E & HH & HR & Hhead).
  unfold root_log_buffer. rewrite E, bind_ret.
  assert (Hhd : 0 <= head_size seg <= 39) by (destruct seg; done).
  assert (Hm : room seg = 1022 - zlen H) by (unfold room; rewrite HH; unfold TLOG_MAX_LINE_LEN; lia).
  fold (head_size seg). fold (room seg). rewrite <- HH. unfold TLOG_MAX_LINE_LEN in HR.
  destruct (arr_set_behind H R (TLOG_MAX_LINE_LEN - 1) 0) as (R0 & E0 & HR0);
    [unfold TLOG_MAX_LINE_LEN; lia|]. rewrite E0, bind_ret.
  destruct (format_result multi i m p H R0 (room seg) Hp) as (R1 & b1 & E1 & -> & Hb1); [lia..|].
  rewrite E1, bind_ret. set (t := p ++ m) in *. pose proof (zlen_nonneg m).
  assert (Ht : 0 < zlen t) by (unfold t; rewrite zlen_app; lia).
  destruct (Z.eqb_spec (zlen t) (room seg)) as [Heq|Hne]; [by eexists|].
  destruct (Z.ltb_spec (zlen t) 0); [lia|]. rewrite Hm in Hne.
  destruct (line_result H t R1) as (R2 & n & b2 & E2 & E3 & Hn & HR2); [lia..|].
  rewrite Hm. rewrite Z.add_sub_assoc in *. rewrite E2, bind_ret, E3, bind_ret.
  pose proof (line_text_bound (1022 - zlen H) t ltac:(lia) Hne) as Hbound. unfold msg. rewrite Hm.
  set (line := line_text (1022 - zlen H) t) in *.
  assert (Htot : zlen (line ++ R2) = 1024 - zlen H).
  { rewrite HR2. rewrite Hm, (zlen_app H), (zlen_app H R0) in Hb1. lia. }
  rewrite <- !Z.add_assoc, <- Hn. destruct seg.
  - destruct Hhead as (u & v & ->). rewrite HH in *. change (head_size true) with ROOT_HEAD in *.
    destruct (tail_result i u v line R2) as (b3 & E4 & Ht3).
    + unfold ROOT_HEAD in *. lia.
    + rewrite Htot. unfold ROOT_HEAD in *. lia.
    + rewrite E4. by exists b3.
  - subst H. change (zlen (@nil Z)) with 0. rewrite Z.add_0_l. cbn [app root_msg].
    eexists. split; [done|]. intros _. apply take_app_length'. unfold zlen. lia.
Qed.

(** C30 - the callback of the root log turns prefix and text into one line: a
    text that leaves room gets a newline unless it ends in one, a longer text
    is cut and ends in three dots and a newline, and in segment mode the head
    with the log information and the length comes first and a NUL last, when
    there is room for it; nothing is written outside the buffer.  Only a text
    that fills the room exactly is lost. *)
Theorem root_log_buffer_result multi seg i m p b :
  zlen b = TLOG_MAX_LINE_LEN -> prefix multi i = Ok p -> zlen p < room seg ->
  let msg := root_msg seg i (line_text (room seg) (p ++ m)) in
  exists b', root_log_buffer (Some (format multi i (Some m))) seg i b TLOG_MAX_LINE_LEN =
      Ok (if zlen (p ++ m) =? room seg then -1 else zlen msg, b') /\
    (zlen (p ++ m) <> room seg -> take (Z.to_nat (zlen msg)) b' = msg).
Proof. exact (root_log_line multi seg i m p b). Qed.

(** ** A log call *)
Definition kept_line (t : list Z) : option (list Z) :=
  if zlen t =? 1022 then None else Some (line_text 1022 t).

Lemma root_line_of multi i m p stack :
  zlen stack = TLOG_MAX_LINE_LEN -> prefix multi i = Ok p -> zlen p < 1022 ->
  exists len b, root_log_buffer (Some (format multi i (Some m))) false i stack TLOG_MAX_LINE_LEN =
      Ok (len, b) /\ line_of len b = kept_line (p ++ m) /\
    (forall d, kept_line (p ++ m) = Some d -> 0 < zlen d < TLOG_MAX_LINE_LEN).
Proof.
  intros Hst Hp Hlt. destruct (root_log_line multi false i m p stack Hst Hp Hlt) as (b & E & Ht).
  eexists _, b. split; [exact E|]. pose proof (prefix_pos _ _ _ Hp).
  change (room false) with 1022 in *. cbn [root_msg] in *. unfold kept_line, line_of, TLOG_MAX_LINE_LEN.
  set (t := p ++ m) in *. assert (0 < zlen t) by (unfold t; rewrite zlen_app; pose proof (zlen_nonneg m); lia).
  destruct (Z.eqb_spec (zlen t) 1022) as [Heq|Hne]; [done|].
  pose proof (line_text_bound 1022 t ltac:(lia) Hne) as Hb.
  assert (0 < zlen (line_text 1022 t)).
  { unfold line_text. destruct (zlen t <? 1022); [case_bool_decide; [lia|]|];
      rewrite zlen_app; [change (zlen [10]) with 1; lia|].
    pose proof (zlen_nonneg (take (Z.to_nat (1022 - 4)) t)). change (zlen [46; 46; 46; 10]) with 4. lia. }
  destruct (Z.leb_spec (zlen (line_text 1022 t)) 0); [lia|]. rewrite Z.geb_leb.
  destruct (Z.leb_spec 1024 (zlen (line_text 1022 t))); [lia|]. split; [by rewrite Ht|].
  intros d [= <-]. lia.
Qed.


(** ** What the output of the root log reads *)
Lemma read_len i line :
  zlen (line ++ nul_for line) < 65536 ->
  (lo ← arr_get (root_msg true i line) INFO_SIZE; hi ← arr_get (root_msg true i line) (INFO_SIZE + 1);
   Ok (lo + 256 * hi)) = Ok (zlen (line ++ nul_for line)).
Proof.
  intros Hl. unfold root_msg. rewrite <- zlen_app. set (n := zlen (line ++ nul_for line)) in *.
  assert (0 <= n) by apply zlen_nonneg. cbn [le_encode]. cbn [app].
  pose proof (info_bytes_len i) as Hi.
  rewrite (arr_get_at (info_bytes i) _ (n mod 256) INFO_SIZE) by done. rewrite bind_ret.
  change (n mod 256 :: n / 256 mod 256 :: line ++ nul_for line)
    with ([n mod 256] ++ n / 256 mod 256 :: line ++ nul_for line).
  rewrite app_assoc, arr_get_at by (rewrite zlen_app, Hi; done). rewrite bind_ret. f_equal.
  rewrite (Z.mod_small (n / 256)); [pose proof (Z.div_mod n 256); lia|].
  split; [apply Z.div_pos; lia|apply Z.div_lt_upper_bound; lia].
Qed.

(** C34 - segment mode hands every line of the root log on as it was logged: a
    registered callback gets the log information and the line, the log file
    gets the line followed by the NUL that ends the message; only where the
    NUL had no room does the callback lose the line's last byte. *)
Theorem root_msg_roundtrip i line :
  0 < zlen line <= 983 ->
  root_write_log true true true (root_msg true i line) =
    Ok (ToCallback (info_bytes i)
          (if ROOT_HEAD + zlen line <? 1022 then line
           else take (length line - 1) line)) /\
  root_write_log false true true (root_msg true i line) = Ok (ToFile (line ++ nul_for line)).
Proof.
  intros Hl. pose proof (info_bytes_len i) as Hi.
  assert (Hn : zlen (line ++ nul_for line) < 65536).
  { rewrite zlen_app. unfold nul_for. destruct (_ <? _); change (zlen [0]) with 1;
      change (zlen (@nil Z)) with 0; lia. }
  pose proof (read_len i line Hn) as Hlen. unfold root_write_log. cbn [negb andb].
  rewrite Hlen, !bind_ret.
  assert (Hhd : zlen (info_bytes i ++ le_encode 2 (zlen line + zlen (nul_for line))) = ROOT_HEAD).
  { rewrite zlen_app, Hi. unfold zlen. by rewrite le_encode_len. }
  assert (E0 : buf_read (root_msg true i line) 0 INFO_SIZE = Ok (info_bytes i)).
  { unfold root_msg. rewrite <- Hi. apply (buf_read_mid [] (info_bytes i)). }
  assert (Er : forall d s, line ++ nul_for line = d ++ s ->
    buf_read (root_msg true i line) ROOT_HEAD (zlen d) = Ok d).
  { intros d s E. unfold root_msg. rewrite E, (app_assoc (info_bytes i)), <- Hhd. apply buf_read_mid. }
  split.
  - rewrite E0, bind_ret. unfold nul_for in *. destruct (Z.ltb_spec (ROOT_HEAD + zlen line) 1022).
    + rewrite zlen_app. change (zlen [0]) with 1. rewrite Z.add_simpl_r.
      by rewrite (Er line [0]), bind_ret.
    + rewrite app_nil_r in *.
      assert (El : zlen line - 1 = zlen (take (length line - 1) line))
        by (unfold zlen in *; rewrite length_take; lia).
      rewrite El, (Er _ (drop (length line - 1) line)); [done|by rewrite take_drop].
  - by rewrite (Er _ []), bind_ret by (by rewrite app_nil_r).
Qed.

(** The length of a report of dropped messages. *)
Lemma drop_msg_len n : 0 <= n <= INT_MAX -> zlen (drop_msg n) <= 38.
Proof.
  unfold INT_MAX. intros Hn. unfold drop_msg. autorewrite with zlen. unfold fmt_dec.
  destruct (Z.ltb_spec n 0); [lia|].
  change (zlen (bytes "[Totoal Dropped ")) with 16. change (zlen (bytes " Messages]")) with 10.
  pose proof (ndigits_le 20 9 n) as Hd. change (10 ^ Z.of_nat 10) with 10000000000 in Hd.
  unfold zlen. rewrite digits_len. lia.
Qed.

(** With the root log in segment mode the report of dropped messages is
    not a message with a head, but the output function reads one: whatever
    the number, the two bytes of the length lie beyond the report, in the part
    of the work thread's buffer that was never written. *)
Theorem drop_report_misread callback n :
  0 <= n <= INT_MAX -> root_write_log callback true true (drop_msg n) = UB OutOfBounds.
Proof.
  intros Hn. pose proof (drop_msg_len n Hn) as Hl. unfold root_write_log.
  assert (Hout : arr_get (drop_msg n) (INFO_SIZE + 1) = UB OutOfBounds)
    by (apply arr_get_out; unfold INFO_SIZE; lia).
  assert (E : (lo ← arr_get (drop_msg n) INFO_SIZE; hi ← arr_get (drop_msg n) (INFO_SIZE + 1);
             Ok (lo + 256 * hi)) = UB OutOfBounds).
  { destruct (arr_get (drop_msg n) INFO_SIZE) as [lo|e] eqn:E0; [by rewrite bind_ret, Hout|].
    unfold arr_get in E0. change (0 <=? INFO_SIZE) with true in E0. cbv iota in E0.
    destruct (drop_msg n !! Z.to_nat INFO_SIZE); simpl in *; congruence. }
  rewrite E. by destruct callback.
Qed.

(** ** Printing before the logger is there *)
Lemma early_print_result s :
  0 < zlen s ->
  exists o, early_print false (Some s) = Ok (zlen s, o) /\
    o = (if zlen s <? TLOG_MAX_LINE_LEN then with_newline s
         else take 1023 s ++ [0; 10]).
Proof.
  intros Hs. unfold early_print. destruct (Z.leb_spec (zlen s) 0); [lia|].
  rewrite Z.geb_leb. unfold TLOG_MAX_LINE_LEN, with_newline.
  destruct (Z.leb_spec 1024 (zlen s)), (Z.ltb_spec (zlen s) 1024); try lia.
  - rewrite snprintf_cut by lia. change (Z.to_nat (1024 - 1)) with 1023%nat.
    assert (Hk : zlen (take 1023 s) = 1023) by (unfold zlen in *; rewrite length_take; lia).
    assert (E : buf_read (take 1023 s ++ [0]) 0 1024 = Ok (take 1023 s ++ [0])).
    { assert (H24 : 1024 = zlen (take 1023 s ++ [0])) by (rewrite zlen_app, Hk; done).
      rewrite H24 at 1. pose proof (buf_read_mid [] (take 1023 s ++ [0]) []) as Hr.
      by rewrite app_nil_r in Hr. }
    rewrite E, bind_ret, (arr_get_at (take 1023 s) []) by (rewrite Hk; done).
    rewrite bind_ret. cbn. eexists. split; [done|]. by rewrite <- app_assoc.
  - rewrite snprintf_fits by lia. assert (E : buf_read (s ++ [0]) 0 (zlen s) = Ok s) by apply (buf_read_mid [] s [0]).
    rewrite E, bind_ret.
    destruct (exists_last (l := s)) as (q & c & ->); [by intros ->|].
    assert (E2 : arr_get ((q ++ [c]) ++ [0]) (zlen (q ++ [c]) - 1) = Ok c).
    { rewrite <- app_assoc. apply (arr_get_at q [0] c). rewrite zlen_app. change (zlen [c]) with 1. lia. }
    rewrite E2, bind_ret, last_snoc. eexists. split; [done|].
    destruct (Z.eqb_spec c 10) as [->|Hc]; cbn [negb].
    + by rewrite bool_decide_eq_true_2.
    + by rewrite bool_decide_eq_false_2 by congruence.
Qed.

End Root.

(** ** The properties at concrete inputs *)
Definition demo_str (a : Z) : list Z := bytes "main.c".
Definition demo_time : tlog_time := MkTime 2024 5000 2 29 12 30 5.
Definition demo_info : loginfo := MkInfo 1 100 200 42 demo_time.
Definition demo_prefix : list Z :=
  bytes "[2024-02-29 12:30:05,005][ INFO][           main.c:42  ] ".

Example prefix_demo : prefix demo_str 7 false demo_info = Ok demo_prefix.
Proof. by vm_compute. Qed.

Lemma root_log_buffer_result_witness :
  exists b, root_log_buffer (Some (format demo_str 7 false demo_info (Some (bytes "hi")))) true
      demo_info (zeros 1024) TLOG_MAX_LINE_LEN = Ok (100, b) /\
    take 100 b = root_msg true demo_info (demo_prefix ++ bytes "hi" ++ [10]).
Proof.
  destruct (root_log_buffer_result demo_str 7 false true demo_info (bytes "hi") demo_prefix
    (zeros 1024)) as (b & E & H).
  - reflexivity.
  - by vm_compute.
  - by vm_compute.
  - exists b. split; [exact E|]. apply H. by vm_compute.
Defined.

Definition demo_globals : globals :=
  MkGlobals (Some (demo_full false)) 1000 false TLOG_INFO false None.


Lemma root_msg_roundtrip_witness :
  root_write_log true true true (root_msg true demo_info demo_prefix) =
    Ok (ToCallback (info_bytes demo_info) demo_prefix).
Proof. apply (root_msg_roundtrip demo_info demo_prefix). by vm_compute. Defined.

Lemma drop_report_misread_witness :
  root_write_log false true true (drop_msg 12) = UB OutOfBounds.
Proof. apply (drop_report_misread false 12). by vm_compute. Defined.

End TlogRoot.
