(* ===== verification/TlogFile.v ===== *)
(** The files of a log (src/useapp/tlog.c, lines 627-857 and 922-1094): the
    write of a block, the rotation of a full file into an archive with or
    without compression, the names of archives, the removal of the oldest ones
    and the lock between processes. *)
From S2P Require Import Prelude TlogTime.

Module TlogFile.
Import TlogTime.

(** ** The log directory

    Names are relative to the directory of the log.  A file that gzip made
    keeps, in the model, the bytes it stands for and is marked. *)
Definition name : Type := list Z.
Record inode := MkIno { content : list Z; mtime : Z; zipped : bool }.
Record fs := MkFs { dir : gmap name nat; inodes : gmap nat inode; screen : list Z }.

Definition set_dir (s : fs) (d : gmap name nat) : fs := MkFs d (inodes s) (screen s).
Definition exists_file (s : fs) (n : name) : bool := bool_decide (is_Some (dir s !! n)).
Definition file_at (s : fs) (n : name) : option inode := i ← dir s !! n; inodes s !! i.
Definition size_of (s : fs) (i : nat) : Z := default (-1) ((fun x => zlen (content x)) <$> inodes s !! i).

(** [open] with [O_CREAT], and a write at the end. *)
Definition create (s : fs) (n : name) (now : Z) : nat * fs :=
  match dir s !! n with
  | Some i => (i, s)
  | None =>
      let i := fresh (dom (inodes s)) in
      (i, MkFs (<[n := i]> (dir s)) (<[i := MkIno [] now false]> (inodes s)) (screen s))
  end.
Definition append (s : fs) (i : nat) (d : list Z) (now : Z) : fs :=
  MkFs (dir s) (alter (fun x => MkIno (content x ++ d) now (zipped x)) i (inodes s)) (screen s).

(** The fields of [struct tlog_log] for the files.  A descriptor is [None]
    when the code has -1; descriptors 0 to 2 are taken to be open already. *)
Record tlog_file := MkFile {
  logname : name;
  suffix : name;
  logsize : Z;
  logcount : Z;
  multi_log : bool;
  nocompress : bool;
  logscreen : bool;
  fd : option nat;
  filesize : Z;
  zipping : bool;
  fd_lock : bool;
  last_try : Z
}.

Definition set_fd (f : tlog_file) (o : option nat) (n : Z) : tlog_file :=
  MkFile (logname f) (suffix f) (logsize f) (logcount f) (multi_log f) (nocompress f) (logscreen f)
    o n (zipping f) (fd_lock f) (last_try f).
Definition set_multi (f : tlog_file) : tlog_file :=
  MkFile (logname f) (suffix f) (logsize f) (logcount f) true (nocompress f) (logscreen f)
    (fd f) (filesize f) (zipping f) (fd_lock f) (last_try f).
Definition set_zip (f : tlog_file) (b : bool) : tlog_file :=
  MkFile (logname f) (suffix f) (logsize f) (logcount f) (multi_log f) (nocompress f) (logscreen f)
    (fd f) (filesize f) b (fd_lock f) (last_try f).
Definition set_lock (f : tlog_file) (b : bool) : tlog_file :=
  MkFile (logname f) (suffix f) (logsize f) (logcount f) (multi_log f) (nocompress f) (logscreen f)
    (fd f) (filesize f) (zipping f) b (last_try f).
Definition set_try (f : tlog_file) (t : Z) : tlog_file :=
  MkFile (logname f) (suffix f) (logsize f) (logcount f) (multi_log f) (nocompress f) (logscreen f)
    (fd f) (filesize f) (zipping f) (fd_lock f) t.

Definition pending (f : tlog_file) : name := logname f ++ bytes ".pending".
Definition pending_gz (f : tlog_file) : name := logname f ++ bytes ".pending.gz".
Definition lock_name (f : tlog_file) : name := logname f ++ bytes ".lock".

(** What the system answers during one call: the time, whether the directory
    is there, whether the file and the lock file open, whether the lock is
    granted, whether a process can be started, and how much is written of the
    block and of the notice. *)
Record env := MkEnv {
  now : Z; mkdir_ok : bool; open_ok : bool; lock_open_ok : bool; lock_ok : bool;
  fork_ok : bool; wrote : Z; no_space : bool; notice : Z
}.

#[local] Set Proof Using Clear Unused.
#[local] Set Default Proof Using "Type".

Section Files.
Context (localtime_r : Z -> option tm).
(** The order in which a directory is read, or a failure to open it. *)
Context (readdir : gmap name nat -> option (list name)).
(** Whether a rename between two names fails. *)
Context (rename_err : fs -> name -> name -> bool).

Definition rename (s : fs) (a b : name) : option fs :=
  match dir s !! a with
  | None => None
  | Some i => if rename_err s a b then None else Some (set_dir s (<[b := i]> (delete a (dir s))))
  end.

(** ** Archives *)
Definition stamp_name (t : tlog_time) : list Z :=
  fmt_dec 4 (year t) ++ fmt_dec 2 (mon t) ++ fmt_dec 2 (mday t) ++ bytes "-" ++
  fmt_dec 2 (hour t) ++ fmt_dec 2 (min t) ++ fmt_dec 2 (sec t).

Definition archive_name (f : tlog_file) (t : tlog_time) (i : Z) : name :=
  logname f ++ bytes "-" ++ stamp_name t ++
  (if i =? 0 then [] else bytes "-" ++ fmt_dec 1 i) ++ suffix f.

(** The loop of [_tlog_rename_logfile] from number [i] on. *)
Fixpoint free_name (fuel : nat) (d : gmap name nat) (f : tlog_file) (t : tlog_time) (i : Z)
  : res name :=
  match fuel with
  | O => UB OutOfFuel
  | S fuel =>
      if bool_decide (is_Some (d !! archive_name f t i)) then free_name fuel d f t (i + 1)
      else Ok (archive_name f t i)
  end.

(** [None] where the code returns -1. *)
Definition rename_logfile (f : tlog_file) (n : name) (s : fs) : res (option fs) :=
  match (x ← file_at s n; localtime_r (mtime x)) with
  | None => Ok None
  | Some m =>
      a ← free_name (S (size (dir s))) (dir s) f (time_of m 0) 0;
      Ok (rename s n a)
  end.

(** ** Removal of old archives *)
Fixpoint is_prefix (p s : list Z) : bool :=
  match p, s with
  | [], _ => true
  | a :: p, c :: s => (a =? c) && is_prefix p s
  | _, _ => false
  end.
Fixpoint strstr (s p : list Z) : bool :=
  is_prefix p s || match s with [] => false | _ :: s => strstr s p end.

(** The test in both callbacks. *)
Definition is_archive (f : tlog_file) (n : name) : bool :=
  strstr n (suffix f) && is_prefix (logname f ++ bytes "-") n.

(** [_tlog_list_dir]: the entries the callback sees. *)
Definition list_dir (s : fs) : option (list name) :=
  filter (fun n => n <> bytes "." /\ n <> bytes "..") <$> readdir (dir s).

Definition count_log (f : tlog_file) (l : list name) : Z :=
  zlen (filter (fun n => is_archive f n = true) l).

(** [_tlog_get_oldest_callback] on all entries; the array for the name has 128
    bytes. *)
Definition NAME_LEN : nat := 127.
Fixpoint get_oldest (f : tlog_file) (s : fs) (l : list name) (o : name * Z) : option (name * Z) :=
  match l with
  | [] => Some o
  | n :: l =>
      if negb (is_archive f n) then get_oldest f s l o
      else match mtime <$> file_at s n with
           | None => None
           | Some t =>
               get_oldest f s l
                 (if (o.2 =? 0) || (o.2 >? t) then (take NAME_LEN n, t) else o)
           end
  end.

Definition remove_oldestlog (f : tlog_file) (s : fs) : fs :=
  match (l ← list_dir s; get_oldest f s l ([], 0)) with
  | None => s
  | Some (n, _) => set_dir s (delete n (dir s))
  end.

Definition remove_oldlog (f : tlog_file) (s : fs) : fs :=
  match list_dir s with
  | None => s
  | Some l => Nat.iter (Z.to_nat (count_log f l - logcount f)) (remove_oldestlog f) s
  end.

(** ** The lock between processes *)
Definition log_unlock (f : tlog_file) (s : fs) : tlog_file * fs :=
  if fd_lock f then (set_lock f false, set_dir s (delete (lock_name f) (dir s))) else (f, s).

Definition log_lock (e : env) (f : tlog_file) (s : fs) : bool * tlog_file * fs :=
  if negb (multi_log f) then (true, f, s)
  else if negb (lock_open_ok e) then (false, f, s)
  else
    let s := (create s (lock_name f) (now e)).2 in
    if lock_ok e then (true, set_lock f true, s) else (false, f, s).

(** The exit through [errout]. *)
Definition errout (f : tlog_file) (s : fs) : bool * tlog_file * fs :=
  let '(f, s) := log_unlock f s in (false, f, s).

(** ** Rotation *)
Definition to_pending (f : tlog_file) (s : fs) : option fs :=
  if exists_file s (pending f) then Some s else rename s (logname f) (pending f).

Definition archive_nocompress (e : env) (f : tlog_file) (s : fs) : res (bool * tlog_file * fs) :=
  let '(ok, f, s) := log_lock e f s in
  if negb ok then Ok (false, f, s)
  else match to_pending f s with
       | None => Ok (errout f s)
       | Some s =>
           r ← rename_logfile f (pending f) s;
           match r with
           | None => Ok (errout f s)
           | Some s => let '(f, s) := log_unlock f (remove_oldlog f s) in Ok (true, f, s)
           end
       end.

Definition archive_compressed (e : env) (f : tlog_file) (s : fs) : res (bool * tlog_file * fs) :=
  let '(ok, f, s) := log_lock e f s in
  if negb ok then Ok (false, f, s)
  else
    r ← (if exists_file s (pending_gz f) then rename_logfile f (pending_gz f) s else Ok (Some s));
    match r with
    | None => Ok (errout f s)
    | Some s =>
        match to_pending f s with
        | None => Ok (errout f s)
        | Some s =>
            if zipping f then Ok (true, f, s)
            else if fork_ok e then Ok (true, set_zip f true, s)
            else Ok (errout f s)
        end
    end.

Definition archive_log (e : env) (f : tlog_file) (s : fs) : res (bool * tlog_file * fs) :=
  if nocompress f then archive_nocompress e f s else archive_compressed e f s.

(** [_tlog_wait_pid] where [waitpid] returns the process. *)
Definition wait_pid (f : tlog_file) (s : fs) : res (tlog_file * fs) :=
  if negb (zipping f) then Ok (f, s)
  else
    let f := set_zip f false in
    r ← rename_logfile f (pending_gz f) s;
    match r with
    | None => Ok (log_unlock f s)
    | Some s => Ok (log_unlock f (remove_oldlog f s))
    end.

(** ** Writing a block *)
Definition NOTICE : list Z :=
  bytes "[Auto enable multi-process write mode, log may be lost, please enable multi-process write mode manually]" ++ [10].

Definition rotate (e : env) (f : tlog_file) (s : fs) : res (tlog_file * fs) :=
  let endpos := default (-1) (size_of s <$> fd f) in
  let '(f, s) :=
    if (filesize f <? endpos) && negb (multi_log f)
    then (set_multi f,
          match fd f with
          | Some i => append s i (take (Z.to_nat (notice e)) NOTICE) (now e) | None => s end)
    else (f, s) in
  '(_, f, s) ← archive_log e (set_fd f None 0) s;
  Ok (f, s).

(** The second part: [None] where the code gives up with -1. *)
Definition open_log (e : env) (f : tlog_file) (s : fs) : option nat * tlog_file * fs :=
  match fd f with
  | Some i => (Some i, f, s)
  | None =>
      if now e =? last_try f then (None, f, s)
      else
        let f := set_try f (now e) in
        if negb (mkdir_ok e) then (None, f, s)
        else if negb (open_ok e) then (None, set_fd f None 0, s)
        else
          let '(i, s) := create s (logname f) (now e) in
          (Some i, set_fd (set_try f 0) (Some i) (size_of s i), s)
  end.

Definition write_block (e : env) (f : tlog_file) (s : fs) (buff : list Z) : Z * tlog_file * fs :=
  let '(o, f, s) := open_log e f s in
  match o with
  | None => (-1, f, s)
  | Some i =>
      if wrote e >? 0
      then (wrote e, set_fd f (Some i) (filesize f + wrote e),
            append s i (take (Z.to_nat (wrote e)) buff) (now e))
      else (wrote e, if no_space e then set_fd f None (filesize f) else f, s)
  end.

Definition tlog_write (e : env) (f : tlog_file) (s : fs) (buff : list Z) : res (Z * tlog_file * fs) :=
  if zlen buff <=? 0 then Ok (0, f, s)
  else
    let s := if logscreen f then MkFs (dir s) (inodes s) (screen s ++ buff) else s in
    let f := match fd f with
             | Some i => if multi_log f then set_fd f (Some i) (size_of s i) else f
             | None => f end in
    '(f, s) ← (if (filesize f >? logsize f) && negb (zipping f) then rotate e f s else Ok (f, s));
    Ok (write_block e f s buff).

(** gzip, started on the pending file, has ended well. *)
Definition gzip_done (f : tlog_file) (s : fs) : option fs :=
  i ← dir s !! pending f;
  if exists_file s (pending_gz f) then None
  else Some (MkFs (<[pending_gz f := i]> (delete (pending f) (dir s)))
               (alter (fun x => MkIno (content x) (mtime x) true) i (inodes s)) (screen s)).

(** ** Names *)
Lemma is_prefix_app p s : is_prefix p (p ++ s) = true.
Proof. induction p as [|a p IH]; simpl; [by destruct s|]. by rewrite Z.eqb_refl, IH. Qed.

Lemma is_prefix_spec p s : is_prefix p s = true <-> exists r, s = p ++ r.
Proof.
  split; [|intros [r ->]; apply is_prefix_app]. revert s.
  induction p as [|a p IH]; intros s; [by exists s|]. destruct s as [|c s]; simpl; [done|].
  intros [->%Z.eqb_eq H]%andb_true_iff. destruct (IH s H) as [r ->]. by exists r.
Qed.

Lemma strstr_end s p : strstr (s ++ p) p = true.
Proof.
  induction s as [|c s IH]; simpl.
  - pose proof (is_prefix_app p []) as H. rewrite app_nil_r in H. by destruct p; simpl in *; rewrite ?H.
  - by rewrite IH, orb_true_r.
Qed.

Lemma archive_is_archive f t i : is_archive f (archive_name f t i) = true.
Proof.
  unfold is_archive, archive_name. apply andb_true_iff. split.
  - rewrite !app_assoc. apply strstr_end.
  - rewrite app_assoc. apply is_prefix_app.
Qed.

(** An archive is never the log file itself, nor a pending or lock file. *)
Lemma archive_not f n : is_archive f n = true -> n <> logname f /\ n <> pending f /\ n <> lock_name f.
Proof.
  unfold is_archive. intros [_ [r ->]%is_prefix_spec]%andb_true_iff.
  rewrite <- app_assoc. split_and!.
  - rewrite <- (app_nil_r (logname f)) at 2. by intros H%app_inv_head.
  - unfold pending. by intros H%app_inv_head.
  - unfold lock_name. by intros H%app_inv_head.
Qed.

Lemma archive_name_inj f t i j :
  0 <= i < 10 ^ 20 -> 0 <= j < 10 ^ 20 -> archive_name f t i = archive_name f t j -> i = j.
Proof.
  intros Hi Hj H. unfold archive_name in H. do 3 apply app_inv_head in H. apply app_inv_tail in H.
  change (bytes "-") with [45] in H.
  destruct (Z.eqb_spec i 0), (Z.eqb_spec j 0); [lia|done|done|].
  apply app_inv_head, (f_equal number_of) in H. by rewrite !fmt_dec_number in H.
Qed.

(** ** The search for a free name ends *)
Lemma free_name_from fuel d f t i k :
  (k < fuel)%nat -> d !! archive_name f t (i + Z.of_nat k) = None ->
  exists j, free_name fuel d f t i = Ok (archive_name f t j) /\ i <= j <= i + Z.of_nat k /\
    d !! archive_name f t j = None.
Proof.
  revert i k. induction fuel as [|fuel IH]; intros i k Hk Hf; [lia|]. cbn [free_name].
  case_bool_decide as E.
  - destruct k as [|k]; [rewrite Z.add_0_r in Hf; rewrite Hf in E; by destruct E|].
    destruct (IH (i + 1) k) as (j & Ej & Hj & Hn); [lia| |].
    { by replace (i + 1 + Z.of_nat k) with (i + Z.of_nat (S k)) by lia. }
    exists j. split_and!; [done|lia|lia|done].
  - exists i. split_and!; [done|lia|lia|]. by apply eq_None_not_Some.
Qed.

Definition small (s : fs) : Prop := Z.of_nat (size (dir s)) < 10 ^ 20.

Lemma free_name_found s f t :
  small s -> exists j, free_name (S (size (dir s))) (dir s) f t 0 = Ok (archive_name f t j) /\
    0 <= j <= Z.of_nat (size (dir s)) /\ dir s !! archive_name f t j = None.
Proof.
  intros Hs. destruct (free_key (dir s) (fun k => archive_name f t (Z.of_nat k))) as (k & Hk & E).
  - intros j k Hj Hk H%archive_name_inj; unfold small in Hs; lia.
  - destruct (free_name_from (S (size (dir s))) (dir s) f t 0 k) as (j & ? & ? & ?);
      [lia|by rewrite Z.add_0_l|]. exists j. split_and!; try done; lia.
Qed.

Lemma rename_logfile_cases f n s :
  small s ->
  rename_logfile f n s = Ok None \/
  exists a, rename_logfile f n s = Ok (rename s n a) /\ is_archive f a = true /\ dir s !! a = None.
Proof.
  intros Hs. unfold rename_logfile. destruct (x ← file_at s n; localtime_r (mtime x)) as [m|]; [|by left].
  destruct (free_name_found s f (time_of m 0) Hs) as (j & E & _ & Hn). right.
  exists (archive_name f (time_of m 0) j). rewrite E, bind_ret. split_and!; [done| |done].
  apply archive_is_archive.
Qed.

(** Giving a file its archive name ends, whatever is in the directory,
    and never overwrites anything: the file gets the first free name of the
    sequence, which was not in use, or keeps its own when the time or the
    rename fails. *)
Theorem rename_logfile_fresh f n s :
  small s ->
  exists r, rename_logfile f n s = Ok r /\
  forall s', r = Some s' ->
    exists a i, is_archive f a = true /\ dir s !! a = None /\ dir s !! n = Some i /\
      dir s' = <[a := i]> (delete n (dir s)) /\ inodes s' = inodes s /\
      forall k j, dir s !! k = Some j -> k <> n -> dir s' !! k = Some j.
Proof.
  intros Hs. destruct (rename_logfile_cases f n s Hs) as [->|(a & -> & Ha & Hn)]; [by eexists|].
  eexists. split; [done|]. unfold rename. intros s'. destruct (dir s !! n) as [i|] eqn:Ei; [|done].
  destruct (rename_err s n a); [done|]. intros [= <-]. exists a, i. split_and!; try done.
  intros k j Hk Hne. simpl. rewrite lookup_insert_ne by congruence. by rewrite lookup_delete_ne.
Qed.

(** ** Retention *)
Definition archives (f : tlog_file) (s : fs) : gmap name nat :=
  filter (fun p => is_archive f p.1 = true) (dir s).

Definition readdir_ok : Prop := forall d, exists l,
  readdir d = Some l /\ NoDup l /\
  forall n, n ∈ l <-> is_Some (d !! n) \/ n = bytes "." \/ n = bytes "..".

(** Every archive has a time and a name that fits the array. *)
Definition archives_ok (f : tlog_file) (s : fs) : Prop :=
  forall n i, dir s !! n = Some i -> is_archive f n = true ->
    (length n <= NAME_LEN)%nat /\ exists x, inodes s !! i = Some x /\ 0 < mtime x.

Definition older (s : fs) (n n' : name) : Prop :=
  forall x x', file_at s n = Some x -> file_at s n' = Some x' -> mtime x <= mtime x'.

Lemma archive_not_dots f n : is_archive f n = true -> n <> bytes "." /\ n <> bytes "..".
Proof.
  unfold is_archive. intros [_ [r ->]%is_prefix_spec]%andb_true_iff.
  assert (Hin : 45 ∈ (logname f ++ bytes "-") ++ r) by (change (bytes "-") with [45]; set_solver).
  split; intros E; rewrite E in Hin; vm_compute in Hin; set_solver.
Qed.

Lemma lookup_archives f s n i :
  archives f s !! n = Some i <-> dir s !! n = Some i /\ is_archive f n = true.
Proof. unfold archives. by rewrite map_lookup_filter_Some. Qed.

(** The names the callbacks see. *)
Lemma list_dir_archives f s :
  readdir_ok -> exists l, list_dir s = Some l /\ NoDup l /\
    (forall n, is_archive f n = true -> n ∈ l <-> is_Some (dir s !! n)) /\
    count_log f l = Z.of_nat (size (archives f s)).
Proof.
  intros Hr. destruct (Hr (dir s)) as (l0 & E & Hnd & Hl). unfold list_dir. rewrite E.
  eexists. split; [done|]. set (l := filter _ l0).
  assert (Hndl : NoDup l) by (by apply NoDup_filter).
  assert (Hin : forall n, is_archive f n = true -> n ∈ l <-> is_Some (dir s !! n)).
  { intros n Ha. pose proof (archive_not_dots f n Ha). unfold l. rewrite list_elem_of_filter, Hl. tauto. }
  split_and!; [done|done|]. unfold count_log, zlen. f_equal.
  rewrite <- size_dom, <- (size_list_to_set (C := gset name)) by (by apply NoDup_filter).
  f_equal. apply set_eq. intros n. rewrite elem_of_list_to_set, list_elem_of_filter, elem_of_dom.
  unfold is_Some. setoid_rewrite lookup_archives. split.
  - intros [Ha Hn]. apply (Hin n Ha) in Hn as [i Hi]. eauto.
  - intros (i & Hi & Ha). split; [done|]. apply (Hin n Ha). by eexists.
Qed.

Lemma get_oldest_spec f s l o :
  archives_ok f s -> (forall n, n ∈ l -> is_archive f n = true -> is_Some (dir s !! n)) -> 0 <= o.2 ->
  exists r, get_oldest f s l o = Some r /\
    ((r = o /\ forall n x, n ∈ l -> is_archive f n = true -> file_at s n = Some x -> 0 < o.2 <= mtime x) \/
     (exists n x, n ∈ l /\ is_archive f n = true /\ file_at s n = Some x /\ r = (n, mtime x) /\
        (0 < o.2 -> mtime x <= o.2) /\
        forall n' x', n' ∈ l -> is_archive f n' = true -> file_at s n' = Some x' -> mtime x <= mtime x')).
Proof.
  intros Hok. revert o. induction l as [|n l IH]; intros o Hl Ho.
  { exists o. split; [done|]. left. split; [done|]. set_solver. }
  simpl. destruct (is_archive f n) eqn:Ea; simpl.
  2: { destruct (IH o) as (r & E & H); [set_solver|done|]. exists r. split; [done|].
       destruct H as [[-> H]|(n0 & x & Hn & H)].
       - left. split; [done|]. intros n' x [->|Hn']%elem_of_cons Ha; [congruence|by apply H].
       - right. exists n0, x. split; [set_solver|]. destruct H as (? & ? & ? & ? & H).
         split_and!; try done. intros n' x' [->|Hn']%elem_of_cons Ha; [congruence|by apply H]. }
  destruct (Hl n) as [i Hi]; [set_solver|done|]. destruct (Hok n i Hi Ea) as (Hlen & x & Hx & Hpos).
  assert (Ef : file_at s n = Some x) by (unfold file_at; by rewrite Hi).
  rewrite Ef. simpl. rewrite (take_ge n) by done.
  set (o' := if (o.2 =? 0) || (o.2 >? mtime x) then (n, mtime x) else o).
  destruct (IH o') as (r & E & H); [set_solver|unfold o'; destruct (_ || _); simpl; lia|].
  exists r. split; [done|].
  assert (Ho' : o'.2 <= mtime x /\ (0 < o.2 -> o'.2 <= o.2) /\ 0 < o'.2 /\ (o' = (n, mtime x) \/ (o' = o /\ 0 < o.2 <= mtime x))).
  { unfold o'. destruct (Z.eqb_spec (o.2) 0), (Z.gtb_spec (o.2) (mtime x)); simpl;
      (split; [lia|split; [lia|split; [lia|]]]); first [by left | right; split; [done|lia]]. }
  destruct Ho' as (H1 & H2 & H3 & H4). destruct H as [[-> H]|(n0 & x0 & Hn & Ha0 & Hx0 & -> & Hle & H)].
  - destruct H4 as [->|[-> H4]].
    + right. exists n, x. split_and!; try done; [set_solver|].
      intros n' x' [->|Hn']%elem_of_cons Ha Hx'; [by simplify_eq|].
      apply (H n' x' Hn' Ha Hx').
    + left. split; [done|]. intros n' x' [->|Hn']%elem_of_cons Ha Hx'; [by simplify_eq|].
      by apply (H n').
  - right. exists n0, x0. pose proof (Hle H3). split_and!; try done; [set_solver|lia|].
    intros n' x' [->|Hn']%elem_of_cons Ha Hx'; [simplify_eq; lia|by apply (H n')].
Qed.

Lemma remove_oldest_spec f s :
  readdir_ok -> archives_ok f s -> archives f s <> ∅ ->
  exists n, is_Some (archives f s !! n) /\ remove_oldestlog f s = set_dir s (delete n (dir s)) /\
    forall n', is_Some (archives f s !! n') -> older s n n'.
Proof.
  intros Hr Hok Hne. destruct (list_dir_archives f s Hr) as (l & El & _ & Hl & _).
  unfold remove_oldestlog. rewrite El. simpl.
  destruct (get_oldest_spec f s l ([], 0) Hok) as (r & E & H); [intros n Hn Ha; by apply Hl|done|].
  rewrite E. destruct H as [[-> H]|(n & x & Hn & Ha & Hx & -> & _ & H)].
  - exfalso. apply map_choose in Hne as (n & i & [Hi Ha]%lookup_archives).
    destruct (Hok n i Hi Ha) as (_ & x & Hx & _).
    assert (Ef : file_at s n = Some x) by (unfold file_at; by rewrite Hi).
    assert (Hn : n ∈ l) by (apply Hl; [done|by eexists]).
    specialize (H n x Hn Ha Ef). simpl in H. lia.
  - exists n. pose proof (proj1 (Hl n Ha) Hn) as [i Hi]. split_and!; [|done|].
    + exists i. by apply lookup_archives.
    + intros n' [j [Hj Ha']%lookup_archives] y y' Hy Hy'. rewrite Hx in Hy. simplify_eq.
      apply (H n' y'); try done. apply Hl; [done|by eexists].
Qed.

(** [k] removals take [k] archives, none of them newer than one that stays. *)
Record removed (f : tlog_file) (s s' : fs) (k : nat) : Prop := {
  rm_inodes : inodes s' = inodes s;
  rm_sub : forall n i, dir s' !! n = Some i -> dir s !! n = Some i;
  rm_other : forall n, is_archive f n = false -> dir s' !! n = dir s !! n;
  rm_size : size (archives f s) = (size (archives f s') + k)%nat;
  rm_old : forall n n', is_Some (archives f s !! n) -> dir s' !! n = None ->
    is_Some (archives f s' !! n') -> older s n n'
}.

Lemma archives_delete f s n : archives f (set_dir s (delete n (dir s))) = delete n (archives f s).
Proof. unfold archives. simpl. by rewrite map_filter_delete. Qed.

Lemma file_at_same s s' n :
  inodes s' = inodes s -> (forall i, dir s' !! n = Some i -> dir s !! n = Some i) ->
  is_Some (dir s' !! n) -> file_at s' n = file_at s n.
Proof. intros Hi Hd [i E]. unfold file_at. rewrite E, (Hd i E). simpl. by rewrite Hi. Qed.

Lemma remove_iter f s k :
  readdir_ok -> archives_ok f s -> (k <= size (archives f s))%nat ->
  removed f s (Nat.iter k (remove_oldestlog f) s) k.
Proof.
  intros Hr Hok. induction k as [|k IH]; intros Hk.
  { split; simpl; [done|done|done|lia|]. intros n n' [i Hi%lookup_archives] Hn.
    destruct Hi as [Hi _]. congruence. }
  destruct IH as [Ei Hsub Hoth Hsz Hold]; [lia|].
  set (s1 := Nat.iter k (remove_oldestlog f) s) in *. change (Nat.iter (S k) _ s) with (remove_oldestlog f s1).
  assert (Hok1 : archives_ok f s1).
  { intros n i Hn Ha. rewrite Ei. by apply (Hok n i); [apply Hsub|]. }
  assert (Hne : archives f s1 <> ∅) by (intros E; rewrite E, map_size_empty in Hsz; lia).
  destruct (remove_oldest_spec f s1 Hr Hok1 Hne) as (m & [j Hj] & -> & Hmin).
  pose proof (proj1 (lookup_archives f s1 m j) Hj) as [Hm Ham].
  split; simpl; [done| | | |].
  - intros n i [_ H]%lookup_delete_Some. by apply Hsub.
  - intros n Ha. rewrite lookup_delete_ne; [by apply Hoth|]. intros ->. congruence.
  - rewrite archives_delete, map_size_delete_Some by eauto. lia.
  - intros n n' Hn Hgone Hn'. rewrite archives_delete in Hn'.
    destruct Hn' as [i' [Hne' Hi']%lookup_delete_Some].
    pose proof (proj1 (lookup_archives f s1 n' i') Hi') as [Hd' Ha'].
    destruct (decide (n = m)) as [->|Hnm].
    + intros x x' Hx Hx'. apply (Hmin n'); [by eexists| |].
      * rewrite (file_at_same s s1); [done|done|by intros; apply Hsub|by eexists].
      * rewrite (file_at_same s s1); [done|done|by intros; apply Hsub|by eexists].
    + apply Hold; [done| |by eexists]. by rewrite lookup_delete_ne in Hgone by done.
Qed.


(** A log whose name fills its array (127 bytes) breaks the retention: the
    name of an archive does not fit the array for the oldest one, which then
    holds the name of the log itself, and instead of the archive the log file
    in use is removed. *)
Theorem retention_long_name f s t i j :
  readdir_ok -> length (logname f) = NAME_LEN ->
  archives f s = {[ archive_name f t i := j ]} ->
  (exists x, inodes s !! j = Some x /\ 0 < mtime x) ->
  dir (remove_oldestlog f s) = delete (logname f) (dir s).
Proof.
  intros Hr Hlen Ha (x & Hx & Hpos). destruct (list_dir_archives f s Hr) as (l & El & Hnd & Hl & _).
  assert (Hj : dir s !! archive_name f t i = Some j).
  { apply (lookup_archives f s). rewrite Ha. apply lookup_singleton_eq. }
  assert (Hin : archive_name f t i ∈ l) by (apply Hl; [apply archive_is_archive|by eexists]).
  assert (Huniq : forall n, n ∈ l -> is_archive f n = true -> n = archive_name f t i).
  { intros n Hn Han. apply (Hl n Han) in Hn as [k Hk].
    pose proof (proj2 (lookup_archives f s n k) (conj Hk Han)) as H. rewrite Ha in H.
    by apply lookup_singleton_Some in H as [-> _]. }
  unfold remove_oldestlog. rewrite El. cbn [mbind option_bind].
  assert (Htake : take NAME_LEN (archive_name f t i) = logname f).
  { unfold archive_name. by rewrite take_app_length' by done. }
  assert (Hskip : forall l', (forall n, n ∈ l' -> is_archive f n = false) ->
    forall o, get_oldest f s l' o = Some o).
  { induction l' as [|n l' IH]; intros H o; [done|]. simpl. rewrite (H n) by set_solver. simpl.
    apply IH. set_solver. }
  apply list_elem_of_split in Hin as (l1 & l2 & ->).
  assert (H1 : forall n, n ∈ l1 ++ l2 -> is_archive f n = false).
  { intros n Hn. destruct (is_archive f n) eqn:E; [|done]. exfalso.
    assert (n = archive_name f t i) as -> by (apply Huniq; [set_solver|done]).
    apply NoDup_app in Hnd as (_ & Hd & [Hn2 _]%NoDup_cons).
    apply elem_of_app in Hn as [Hn|Hn]; [|done]. apply (Hd _ Hn). set_solver. }
  assert (Happ : forall l', (forall n, n ∈ l' -> is_archive f n = false) ->
    forall l'' o, get_oldest f s (l' ++ l'') o = get_oldest f s l'' o).
  { induction l' as [|n l' IH]; intros H l'' o; [done|]. simpl. rewrite (H n) by set_solver. simpl.
    apply IH. set_solver. }
  rewrite Happ by (intros n Hn; apply H1; set_solver). simpl.
  rewrite archive_is_archive. unfold file_at. rewrite Hj. simpl. rewrite Hx. simpl.
  rewrite Htake, Hskip by (intros n Hn; apply H1; set_solver). done.
Qed.

(** ** What the operations leave alone *)

(** No contents change and the log file's name is not given to another file;
    at most the name goes. *)
Record quiet (f : tlog_file) (s s' : fs) : Prop := {
  q_keep : forall i x, inodes s !! i = Some x ->
    exists x', inodes s' !! i = Some x' /\ content x' = content x;
  q_log : dir s' !! logname f = dir s !! logname f \/ dir s' !! logname f = None;
  q_wf : (forall n i, dir s !! n = Some i -> is_Some (inodes s !! i)) ->
    forall n i, dir s' !! n = Some i -> is_Some (inodes s' !! i)
}.

Lemma quiet_refl f s : quiet f s s.
Proof. split; eauto. Qed.

Lemma quiet_trans f s1 s2 s3 : quiet f s1 s2 -> quiet f s2 s3 -> quiet f s1 s3.
Proof.
  intros [K1 L1 W1] [K2 L2 W2]. split; [|destruct L1, L2; (right; congruence) || (left; congruence)|by intros Hwf; apply W2, W1].
  intros i x Hx. destruct (K1 i x Hx) as (x1 & H1 & E1). destruct (K2 i x1 H1) as (x2 & H2 & E2).
  exists x2. by rewrite E2.
Qed.

Lemma quiet_dir f s d :
  (d !! logname f = dir s !! logname f \/ d !! logname f = None) ->
  (forall n i, d !! n = Some i -> exists m, dir s !! m = Some i) -> quiet f s (set_dir s d).
Proof.
  intros Hl Hd. split; simpl; [eauto|done|]. intros Hwf n i Hn. destruct (Hd n i Hn) as [m Hm]. eauto.
Qed.

Lemma quiet_delete f s n : quiet f s (set_dir s (delete n (dir s))).
Proof.
  apply quiet_dir.
  - destruct (decide (n = logname f)) as [->|Hne]; [right; apply lookup_delete_eq|left; by rewrite lookup_delete_ne].
  - intros m i [_ H]%lookup_delete_Some. eauto.
Qed.

Lemma quiet_rename f s a b s' : b <> logname f -> rename s a b = Some s' -> quiet f s s'.
Proof.
  intros Hb. unfold rename. destruct (dir s !! a) as [i|] eqn:Ha; [|done].
  destruct (rename_err s a b); [done|]. intros [= <-]. apply quiet_dir.
  - rewrite lookup_insert_ne by done.
    destruct (decide (a = logname f)) as [->|]; [right; apply lookup_delete_eq|left; by rewrite lookup_delete_ne].
  - intros n j. rewrite lookup_insert. case_decide; [intros [= <-]; eauto|].
    intros [_ Hj]%lookup_delete_Some. eauto.
Qed.

Lemma names_differ f : pending f <> logname f /\ pending_gz f <> logname f /\ lock_name f <> logname f.
Proof.
  assert (H : forall k, k <> [] -> logname f ++ k <> logname f).
  { intros k Hk E. rewrite <- (app_nil_r (logname f)) in E at 2. by apply app_inv_head in E. }
  split_and!; by apply H.
Qed.

Lemma quiet_to_pending f s s' : to_pending f s = Some s' -> quiet f s s'.
Proof.
  unfold to_pending. destruct (exists_file s (pending f)); [intros [= <-]; apply quiet_refl|].
  apply quiet_rename. apply names_differ.
Qed.

Lemma quiet_rename_logfile f n s :
  small s -> exists r, rename_logfile f n s = Ok r /\ forall s', r = Some s' -> quiet f s s'.
Proof.
  intros Hs. destruct (rename_logfile_cases f n s Hs) as [->|(a & -> & Ha & _)]; [by eexists|].
  eexists. split; [done|]. intros s'. apply quiet_rename. by apply archive_not in Ha as (? & _).
Qed.

Lemma quiet_oldest f s : quiet f s (remove_oldestlog f s).
Proof.
  unfold remove_oldestlog. destruct (l ← list_dir s; get_oldest f s l ([], 0)) as [[n t]|]; [apply quiet_delete|apply quiet_refl].
Qed.

Lemma quiet_oldlog f s : quiet f s (remove_oldlog f s).
Proof.
  unfold remove_oldlog. destruct (list_dir s); [|apply quiet_refl].
  induction (Z.to_nat _) as [|k IH]; [apply quiet_refl|]. eapply quiet_trans; [exact IH|apply quiet_oldest].
Qed.

Lemma quiet_create f s n t : n <> logname f -> quiet f s (create s n t).2.
Proof.
  intros Hn. unfold create. destruct (dir s !! n) as [i|] eqn:E; [apply quiet_refl|]. simpl.
  set (i := fresh (dom (inodes s))). assert (Hi : inodes s !! i = None) by (apply not_elem_of_dom, is_fresh).
  split; simpl.
  - intros j x Hx. exists x. rewrite lookup_insert_ne by (intros ->; congruence). done.
  - left. by rewrite lookup_insert_ne.
  - intros Hwf m j. rewrite lookup_insert. case_decide; [intros [= <-]; by rewrite lookup_insert_eq|].
    intros Hj. rewrite lookup_insert. case_decide; [done|eauto].
Qed.

(** The fields that rotation does not touch. *)
Definition same_log (f f' : tlog_file) : Prop :=
  logname f' = logname f /\ fd f' = fd f /\ filesize f' = filesize f /\ nocompress f' = nocompress f.

Lemma quiet_name f f' s s' : logname f' = logname f -> quiet f s s' -> quiet f' s s'.
Proof. intros E [K L W]. split; [done|by rewrite E|done]. Qed.

Lemma unlock_quiet f s f' s' : log_unlock f s = (f', s') -> same_log f f' /\ quiet f s s'.
Proof.
  unfold log_unlock. destruct (fd_lock f); intros [= <- <-]; (split; [done|]);
    [apply quiet_delete|apply quiet_refl].
Qed.

Lemma lock_quiet e f s ok f' s' : log_lock e f s = (ok, f', s') -> same_log f f' /\ quiet f s s'.
Proof.
  pose proof (quiet_create f s (lock_name f) (now e)) as Hq. pose proof (names_differ f) as (_ & _ & Hn).
  unfold log_lock. destruct (negb (multi_log f)); [intros [= <- <- <-]; split; [done|apply quiet_refl]|].
  destruct (negb (lock_open_ok e)); [intros [= <- <- <-]; split; [done|apply quiet_refl]|].
  destruct (lock_ok e); intros [= <- <- <-]; (split; [done|]); by apply Hq.
Qed.

(** Renames and removals keep a directory small. *)
Lemma small_rename s a b s' : small s -> rename s a b = Some s' -> small s'.
Proof.
  unfold small, rename. intros Hs. destruct (dir s !! a) as [i|] eqn:Ha; [|done].
  destruct (rename_err s a b); [done|]. intros [= <-]. simpl.
  rewrite map_size_insert, map_size_delete, Ha.
  assert (size (dir s) <> 0%nat) by (apply (map_size_ne_0_lookup_2 _ a); eauto).
  destruct (delete a (dir s) !! b); simpl; lia.
Qed.

Definition roomy (s : fs) : Prop := Z.of_nat (size (dir s)) + 1 < 10 ^ 20.

Lemma roomy_small s : roomy s -> small s.
Proof. unfold roomy, small. lia. Qed.

Lemma small_lock e f s ok f' s' : roomy s -> log_lock e f s = (ok, f', s') -> small s'.
Proof.
  intros Hr. assert (Hc : small (create s (lock_name f) (now e)).2).
  { unfold create, roomy, small in *. destruct (dir s !! lock_name f) eqn:E; simpl; [lia|].
    rewrite map_size_insert, E. lia. }
  unfold log_lock. destruct (negb (multi_log f)); [intros [= <- <- <-]; by apply roomy_small|].
  destruct (negb (lock_open_ok e)); [intros [= <- <- <-]; by apply roomy_small|].
  destruct (lock_ok e); by intros [= <- <- <-].
Qed.

Lemma small_to_pending f s s' : small s -> to_pending f s = Some s' -> small s'.
Proof.
  unfold to_pending. intros Hs. destruct (exists_file s (pending f)); [by intros [= <-]|by apply small_rename].
Qed.

(** Every way through a rotation is defined and quiet. *)
Definition archived (f : tlog_file) (s : fs) (r : res (bool * tlog_file * fs)) : Prop :=
  exists ok f' s', r = Ok (ok, f', s') /\ same_log f f' /\ quiet f s s'.

Lemma archived_errout f s f1 s1 :
  same_log f f1 -> quiet f s s1 -> archived f s (Ok (errout f1 s1)).
Proof.
  intros (A & B & C & D) Hq. unfold errout. destruct (log_unlock f1 s1) as [f2 s2] eqn:E.
  apply unlock_quiet in E as ((A2 & B2 & C2 & D2) & Hq2). exists false, f2, s2. split; [done|].
  split; [split_and!; congruence|]. eapply quiet_trans; [exact Hq|by apply (quiet_name f1)].
Qed.

Lemma archive_quiet e f s : roomy s -> archived f s (archive_log e f s).
Proof.
  intros Hs. unfold archive_log, archive_nocompress, archive_compressed.
  destruct (log_lock e f s) as [[ok f1] s1] eqn:El. pose proof (lock_quiet _ _ _ _ _ _ El) as [Hf1 Hq1].
  pose proof (small_lock _ _ _ _ _ _ Hs El) as Hs1. pose proof Hf1 as (A & B & C & D).
  assert (Hback : forall s2, quiet f1 s1 s2 -> quiet f s s2)
    by (intros s2 Hq; eapply quiet_trans; [exact Hq1|by apply (quiet_name f1)]).
  destruct ok; cbn [negb].
  2: { destruct (nocompress f); exists false, f1, s1; done. }
  destruct (nocompress f) eqn:En.
  - destruct (to_pending f1 s1) as [s2|] eqn:Ep; [|by apply archived_errout].
    pose proof (quiet_to_pending _ _ _ Ep) as Hq2. pose proof (small_to_pending _ _ _ Hs1 Ep) as Hs2.
    destruct (quiet_rename_logfile f1 (pending f1) s2 Hs2) as (r & -> & Hr). rewrite bind_ret.
    destruct r as [s3|]; [|by apply archived_errout; auto]. specialize (Hr s3 eq_refl).
    destruct (log_unlock f1 (remove_oldlog f1 s3)) as [f4 s4] eqn:Eu.
    apply unlock_quiet in Eu as ((A2 & B2 & C2 & D2) & Hq4). exists true, f4, s4. split; [done|].
    split; [split_and!; congruence|]. apply Hback.
    eapply quiet_trans; [exact Hq2|]. eapply quiet_trans; [exact Hr|].
    eapply quiet_trans; [apply quiet_oldlog|exact Hq4].
  - assert (Hgz : exists r, (if exists_file s1 (pending_gz f1) then rename_logfile f1 (pending_gz f1) s1
                              else Ok (Some s1)) = Ok r /\ forall s2, r = Some s2 -> quiet f1 s1 s2).
    { destruct (exists_file s1 (pending_gz f1)); [by apply quiet_rename_logfile|].
      eexists. split; [done|]. intros s2 [= <-]. apply quiet_refl. }
    destruct Hgz as (r & -> & Hr). rewrite bind_ret.
    destruct r as [s2|]; [|by apply archived_errout]. specialize (Hr s2 eq_refl).
    destruct (to_pending f1 s2) as [s3|] eqn:Ep; [|by apply archived_errout; auto].
    pose proof (quiet_trans _ _ _ _ Hr (quiet_to_pending _ _ _ Ep)) as Hq3.
    destruct (zipping f1); [exists true, f1, s3; auto|].
    destruct (fork_ok e); [|by apply archived_errout; auto].
    exists true, (set_zip f1 true), s3. split; [done|]. split; [done|auto].
Qed.

(** ** The stream of the log *)

(** [accepted]: the bytes that [tlog_write] said it wrote; [chain]: the files
    it wrote them to, in order. *)
Record lsys := MkL { lf : tlog_file; lfs : fs; accepted : list Z; chain : list nat }.

Definition extend (c : list nat) (o : option nat) : list nat :=
  match o with Some i => if bool_decide (i ∈ c) then c else c ++ [i] | None => c end.

#[local] Arguments extend : simpl never.

Inductive lstep (l : lsys) : lsys -> Prop :=
| ls_write e buff r f s :
    roomy (lfs l) -> wrote e <= zlen buff -> tlog_write e (lf l) (lfs l) buff = Ok (r, f, s) ->
    lstep l (MkL f s (accepted l ++ take (Z.to_nat r) buff) (extend (chain l) (fd f)))
| ls_gzip s :
    gzip_done (lf l) (lfs l) = Some s -> zipping (lf l) = true ->
    lstep l (MkL (lf l) s (accepted l) (chain l))
| ls_wait f s :
    roomy (lfs l) -> wait_pid (lf l) (lfs l) = Ok (f, s) -> lstep l (MkL f s (accepted l) (chain l)).

Definition content_of (s : fs) (i : nat) : list Z := default [] (content <$> inodes s !! i).

(** A log that was just opened, on a directory that may hold anything. *)
Definition start_log (f : tlog_file) (s : fs) : lsys :=
  match dir s !! logname f with
  | Some i => MkL f s (content_of s i) [i]
  | None => MkL f s [] []
  end.

Record linv (l : lsys) : Prop := {
  li_wf : forall n i, dir (lfs l) !! n = Some i -> is_Some (inodes (lfs l) !! i);
  li_chain : NoDup (chain l) /\ forall i, i ∈ chain l -> is_Some (inodes (lfs l) !! i);
  li_fd : forall i, fd (lf l) = Some i ->
    last (chain l) = Some i /\ filesize (lf l) = size_of (lfs l) i;
  li_log : forall i, dir (lfs l) !! logname (lf l) = Some i ->
    last (chain l) = Some i \/ ((i ∉ chain l) /\ content_of (lfs l) i = []);
  li_stream : accepted l = concat (content_of (lfs l) <$> chain l)
}.

Lemma content_keep f s s' i : quiet f s s' -> is_Some (inodes s !! i) ->
  content_of s' i = content_of s i /\ size_of s' i = size_of s i /\ is_Some (inodes s' !! i).
Proof.
  intros Hq [x Hx]. destruct (q_keep _ _ _ Hq i x Hx) as (x' & Hx' & E).
  unfold content_of, size_of. rewrite Hx, Hx'. simpl. rewrite E. eauto.
Qed.

(** The invariant survives whatever is quiet. *)
Lemma linv_quiet l f s :
  linv l -> quiet (lf l) (lfs l) s -> logname f = logname (lf l) ->
  (fd f = None \/ (fd f = fd (lf l) /\ filesize f = filesize (lf l))) ->
  linv (MkL f s (accepted l) (chain l)).
Proof.
  intros [Hwf [Hnd Hch] Hfd Hlog Hst] Hq En Hf. split; simpl.
  - by apply (q_wf _ _ _ Hq).
  - split; [done|]. intros i Hi. by apply (content_keep _ _ _ i Hq), Hch.
  - intros i Hi. destruct Hf as [Hf|[Hf Ef]]; [congruence|]. rewrite Hf in Hi.
    destruct (Hfd i Hi) as [Hl Hsz]. split; [done|]. rewrite Ef, Hsz. symmetry.
    apply (content_keep _ _ _ i Hq), Hch. apply last_Some in Hl as [q ->]. set_solver.
  - intros i Hi. rewrite En in Hi. destruct (q_log _ _ _ Hq) as [E|E]; [|congruence].
    rewrite E in Hi. destruct (Hlog i Hi) as [|[Hni Hc]]; [by left|]. right. split; [done|].
    by rewrite (proj1 (content_keep _ _ _ i Hq (Hwf _ _ Hi))).
  - rewrite Hst. f_equal. apply list_fmap_ext. intros k i Hi. symmetry.
    apply (content_keep _ _ _ i Hq), Hch. by apply list_elem_of_lookup_2 in Hi.
Qed.

Lemma nodup_snoc {A} (l : list A) x : NoDup l -> x ∉ l -> NoDup (l ++ [x]).
Proof. intros Hl Hx. apply NoDup_app. split_and!; [done| |apply NoDup_singleton]. set_solver. Qed.

Lemma last_in {A} (l : list A) x : last l = Some x -> x ∈ l.
Proof. intros [q ->]%last_Some. set_solver. Qed.

Lemma extend_last c i : last c = Some i -> extend c (Some i) = c.
Proof. intros H%last_in. unfold extend. by rewrite bool_decide_eq_true_2. Qed.

(** Opening the log file: the file is the last of the chain, or is empty and
    becomes the last. *)
(** Opening a file that is there, and one that is not. *)
Lemma open_old_inv f f1 s acc ch i :
  linv (MkL f s acc ch) -> logname f1 = logname f -> dir s !! logname f = Some i ->
  linv (MkL (set_fd f1 (Some i) (size_of s i)) s acc (extend ch (Some i))) /\
  (i ∈ ch \/ content_of s i = []).
Proof.
  intros [Hwf [Hnd Hch] _ Hlog Hst] En Ei. simpl in *. split.
  2: { destruct (Hlog i Ei) as [H|[_ H]]; [left; by apply last_in|by right]. }
  destruct (Hlog i Ei) as [Hlast|[Hni Hc]].
  - rewrite extend_last by done. split; simpl; try done.
    + by intros j [= <-].
    + intros j Hj. rewrite En, Ei in Hj. injection Hj as <-. by left.
  - unfold extend. rewrite bool_decide_eq_false_2 by done. split; simpl.
    + done.
    + split; [by apply nodup_snoc|]. intros j [Hj|Hj]%elem_of_app; [by apply Hch|].
      apply list_elem_of_singleton in Hj as ->. eauto.
    + intros j [= <-]. by rewrite last_snoc.
    + intros j Hj. left. rewrite En, Ei in Hj. injection Hj as <-. by rewrite last_snoc.
    + rewrite Hst, fmap_app, concat_app. simpl. by rewrite Hc, !app_nil_r.
Qed.

Lemma open_new_inv f f1 s acc ch t :
  linv (MkL f s acc ch) -> logname f1 = logname f ->
  let i := fresh (dom (inodes s)) in
  let s1 := MkFs (<[logname f := i]> (dir s)) (<[i := MkIno [] t false]> (inodes s)) (screen s) in
  linv (MkL (set_fd f1 (Some i) (size_of s1 i)) s1 acc (extend ch (Some i))) /\ content_of s1 i = [].
Proof.
  intros [Hwf [Hnd Hch] _ Hlog Hst] En i s1. simpl in *.
  assert (Hi : inodes s !! i = None) by (apply not_elem_of_dom, is_fresh).
  assert (Hni : i ∉ ch) by (intros H; destruct (Hch i H); congruence).
  assert (Hc1 : content_of s1 i = []) by (unfold content_of; simpl; by rewrite lookup_insert_eq).
  assert (Hold : forall j, is_Some (inodes s !! j) -> content_of s1 j = content_of s j /\ is_Some (inodes s1 !! j)).
  { intros j [x Hx]. unfold content_of. simpl. rewrite lookup_insert_ne by congruence.
    rewrite Hx. eauto. }
  split; [|done]. unfold extend. rewrite bool_decide_eq_false_2 by done. split; simpl.
  - intros n j. rewrite lookup_insert. case_decide.
    + intros [= <-]. rewrite lookup_insert_eq. eauto.
    + intros Hj. apply Hold. eauto.
  - split; [by apply nodup_snoc|]. intros j [Hj|Hj]%elem_of_app; [by apply Hold, Hch|].
    apply list_elem_of_singleton in Hj as ->. rewrite lookup_insert_eq. eauto.
  - intros j [= <-]. by rewrite last_snoc.
  - intros j. rewrite En, lookup_insert_eq. intros [= <-]. left. by rewrite last_snoc.
  - rewrite fmap_app, concat_app. simpl. rewrite Hc1, !app_nil_r, Hst. f_equal.
    apply list_fmap_ext. intros k j Hj. symmetry. apply Hold, Hch. by apply list_elem_of_lookup_2 in Hj.
Qed.

Lemma open_inv e f s acc ch o f' s' :
  linv (MkL f s acc ch) -> open_log e f s = (o, f', s') ->
  match o with
  | Some i => linv (MkL f' s' acc (extend ch (Some i))) /\ fd f' = Some i /\
      (i ∈ ch \/ content_of s' i = [])
  | None => linv (MkL f' s' acc ch) /\ fd f' = None
  end.
Proof.
  intros Hl. unfold open_log. destruct (fd f) as [i|] eqn:Ef.
  { intros [= <- <- <-]. destruct (li_fd _ Hl i Ef) as [Hlast _]. simpl in Hlast.
    rewrite extend_last by done. split; [done|]. split; [done|]. left. by apply last_in. }
  assert (Hnone : forall f1, logname f1 = logname f -> fd f1 = None -> linv (MkL f1 s acc ch)).
  { intros f1 E1 E2. apply (linv_quiet (MkL f s acc ch)); [done|apply quiet_refl|done|by left]. }
  destruct (now e =? last_try f); [intros [= <- <- <-]; auto|].
  destruct (negb (mkdir_ok e)); [intros [= <- <- <-]; auto|].
  destruct (negb (open_ok e)); [intros [= <- <- <-]; auto|].
  change (logname (set_try f (now e))) with (logname f). unfold create.
  destruct (dir s !! logname f) as [i|] eqn:Ei; intros [= <- <- <-].
  - by destruct (open_old_inv f (set_try (set_try f (now e)) 0) s acc ch i Hl eq_refl Ei).
  - destruct (open_new_inv f (set_try (set_try f (now e)) 0) s acc ch (now e) Hl eq_refl) as [H1 H2].
    split; [exact H1|]. split; [done|by right].
Qed.

(** Appending to the last file of the chain. *)
Lemma append_inv f s acc ch i d t :
  linv (MkL f s acc ch) -> fd f = Some i ->
  linv (MkL (set_fd f (Some i) (filesize f + zlen d)) (append s i d t) (acc ++ d) ch).
Proof.
  intros [Hwf [Hnd Hch] Hfd Hlog Hst] Hf. simpl in *. destruct (Hfd i Hf) as [Hlast Hsz].
  pose proof (last_in _ _ Hlast) as Hin. destruct (Hch i Hin) as [x Hx].
  assert (Hsome : forall j, is_Some (inodes s !! j) -> is_Some (inodes (append s i d t) !! j)).
  { intros j Hj. simpl. destruct (decide (j = i)) as [->|Hne]; [rewrite lookup_alter_eq, Hx; eauto|].
    by rewrite lookup_alter_ne. }
  assert (Hother : forall j, j <> i -> content_of (append s i d t) j = content_of s j).
  { intros j Hne. unfold content_of. simpl. by rewrite lookup_alter_ne. }
  assert (Hsame : content_of (append s i d t) i = content_of s i ++ d).
  { unfold content_of. simpl. by rewrite lookup_alter_eq, Hx. }
  split; simpl.
  - intros n j Hj. apply Hsome. eauto.
  - split; [done|]. intros j Hj. by apply Hsome, Hch.
  - intros j [= <-]. split; [done|]. rewrite Hsz. unfold size_of. simpl. rewrite lookup_alter_eq, Hx. simpl.
    by rewrite zlen_app.
  - intros j Hj. destruct (Hlog j Hj) as [|[Hni Hc]]; [by left|]. right. split; [done|].
    rewrite Hother; [done|]. by intros ->.
  - rewrite Hst. apply last_Some in Hlast as [q ->].
    rewrite !fmap_app, !concat_app. simpl. rewrite Hsame, !app_nil_r, app_assoc. do 2 f_equal.
    apply NoDup_app in Hnd as (_ & Hd & _).
    f_equal. apply list_fmap_ext. intros k j Hj%list_elem_of_lookup_2. symmetry. apply Hother.
    intros ->. apply (Hd i Hj). set_solver.
Qed.

Lemma write_block_inv e f s buff r f' s' acc ch :
  linv (MkL f s acc ch) -> wrote e <= zlen buff -> write_block e f s buff = (r, f', s') ->
  linv (MkL f' s' (acc ++ take (Z.to_nat r) buff) (extend ch (fd f'))).
Proof.
  intros Hl Hw. unfold write_block. destruct (open_log e f s) as [[o f1] s1] eqn:Eo.
  pose proof (open_inv _ _ _ _ _ _ _ _ Hl Eo) as Ho. destruct o as [i|].
  - destruct Ho as (Hl1 & Hf1 & Hc). destruct (Z.gtb_spec (wrote e) 0) as [Hpos|Hneg].
    + intros [= <- <- <-]. simpl. set (d := take (Z.to_nat (wrote e)) buff).
      assert (Hd : wrote e = zlen d) by (unfold d; rewrite zlen_take; lia).
      rewrite Hd at 1. by apply append_inv.
    + intros [= <- <- <-]. replace (Z.to_nat (wrote e)) with 0%nat by lia.
      rewrite take_0, app_nil_r. destruct (no_space e); [|by rewrite Hf1]. simpl.
      assert (Hl2 : linv (MkL (set_fd f1 None (filesize f1)) s1 acc (extend ch (Some i)))).
      { apply (linv_quiet (MkL f1 s1 acc (extend ch (Some i)))); [done|apply quiet_refl|done|by left]. }
      unfold extend in Hl2. case_bool_decide as Hin; [done|]. destruct Hc as [|Hc]; [done|].
      destruct Hl2 as [Hwf [Hnd Hch] _ Hlog Hst]. simpl in *. split; simpl.
      * done.
      * apply NoDup_app in Hnd as (Hnd & _ & _). split; [done|]. intros j Hj. apply Hch. set_solver.
      * done.
      * intros j Hj. right. destruct (Hlog j Hj) as [Hj'|[Hni Hcj]].
        { rewrite last_snoc in Hj'. by injection Hj' as <-. }
        split; [|done]. set_solver.
      * rewrite Hst, fmap_app, concat_app. simpl. by rewrite Hc, !app_nil_r.
  - destruct Ho as [Hl1 Hf1]. intros [= <- <- <-]. rewrite Hf1. simpl. by rewrite app_nil_r.
Qed.

Lemma rotate_inv e f s acc ch :
  linv (MkL f s acc ch) -> roomy s ->
  exists f' s', rotate e f s = Ok (f', s') /\ linv (MkL f' s' acc ch).
Proof.
  intros Hl Hs. unfold rotate.
  assert (E : exists f1, (if (filesize f <? default (-1) (size_of s <$> fd f)) && negb (multi_log f)
     then (set_multi f, match fd f with
            Some i => append s i (take (Z.to_nat (notice e)) NOTICE) (now e) | None => s end)
     else (f, s)) = (f1, s) /\ logname f1 = logname f).
  { destruct (fd f) as [i|] eqn:Ef; simpl.
    - destruct (li_fd _ Hl i Ef) as [_ Hsz]. simpl in Hsz. rewrite Hsz, Z.ltb_irrefl. simpl. by exists f.
    - destruct ((filesize f <? -1) && negb (multi_log f)); eexists; done. }
  destruct E as (f1 & -> & E1).
  destruct (archive_quiet e (set_fd f1 None 0) s Hs) as (ok & f2 & s2 & -> & (A & B & _ & _) & Hq).
  rewrite bind_ret. exists f2, s2. split; [done|].
  apply (linv_quiet (MkL f s acc ch)); [done| |simpl in *; congruence|by left].
  by apply (quiet_name (set_fd f1 None 0)).
Qed.

(** A write is defined and keeps the invariant. *)
Lemma write_inv e f s buff acc ch :
  linv (MkL f s acc ch) -> roomy s -> wrote e <= zlen buff ->
  exists r f' s', tlog_write e f s buff = Ok (r, f', s') /\
    linv (MkL f' s' (acc ++ take (Z.to_nat r) buff) (extend ch (fd f'))).
Proof.
  intros Hl Hs Hw. unfold tlog_write. destruct (Z.leb_spec (zlen buff) 0).
  { exists 0, f, s. split; [done|]. rewrite take_0, app_nil_r.
    destruct (fd f) as [i|] eqn:Ef; [|done]. by rewrite extend_last by (by apply (li_fd _ Hl)). }
  set (s0 := if logscreen f then _ else s).
  set (f0 := match fd f with Some _ => _ | None => f end).
  assert (Hs0 : roomy s0) by (unfold s0; by destruct (logscreen f)).
  assert (Hl0 : linv (MkL f0 s0 acc ch)).
  { apply (linv_quiet (MkL f s acc ch)); simpl; [done| | |].
    - unfold s0. destruct (logscreen f); [split; simpl; eauto|apply quiet_refl].
    - unfold f0. by destruct (fd f), (multi_log f).
    - right. unfold f0. destruct (fd f) as [i|] eqn:Ef; [|done]. destruct (multi_log f); [|done].
      simpl. split; [done|]. destruct (li_fd _ Hl i Ef) as [_ Hsz]. simpl in Hsz. rewrite Hsz.
      unfold s0, size_of. by destruct (logscreen f). }
  assert (Hrot : exists f1 s1, (if (filesize f0 >? logsize f0) && negb (zipping f0)
                                then rotate e f0 s0 else Ok (f0, s0)) = Ok (f1, s1) /\
            linv (MkL f1 s1 acc ch)).
  { destruct (_ && _); [by apply rotate_inv|by exists f0, s0]. }
  destruct Hrot as (f1 & s1 & -> & Hl1). rewrite bind_ret.
  destruct (write_block e f1 s1 buff) as [[r f2] s2] eqn:E. exists r, f2, s2. split; [done|].
  by eapply write_block_inv.
Qed.

Lemma gzip_quiet f s s' : gzip_done f s = Some s' -> quiet f s s'.
Proof.
  unfold gzip_done. destruct (dir s !! pending f) as [i|] eqn:Ei; [|done]. simpl.
  destruct (exists_file s (pending_gz f)); [done|]. intros [= <-].
  destruct (names_differ f) as (Hp & Hg & _).
  assert (Hk : forall j x, inodes s !! j = Some x -> exists x',
    alter (fun x => MkIno (content x) (mtime x) true) i (inodes s) !! j = Some x' /\ content x' = content x).
  { intros j x Hx. destruct (decide (j = i)) as [->|Hne].
    - rewrite lookup_alter_eq, Hx. simpl. eauto.
    - rewrite lookup_alter_ne by done. eauto. }
  split; simpl; [done| |].
  - left. rewrite lookup_insert_ne, lookup_delete_ne by done. done.
  - intros Hwf n j Hj. assert (is_Some (inodes s !! j)) as [x Hx].
    { revert Hj. rewrite lookup_insert. case_decide; [intros [= <-]; eauto|].
      intros [_ Hn]%lookup_delete_Some. eauto. }
    destruct (Hk j x Hx) as (x' & Hx' & _). eauto.
Qed.

Lemma wait_quiet f s f' s' :
  small s -> wait_pid f s = Ok (f', s') -> same_log f f' /\ quiet f s s'.
Proof.
  intros Hs. unfold wait_pid. destruct (negb (zipping f)); [intros [= <- <-]; split; [done|apply quiet_refl]|].
  destruct (quiet_rename_logfile (set_zip f false) (pending_gz (set_zip f false)) s Hs) as (r & -> & Hr).
  rewrite bind_ret. destruct r as [s1|]; intros [= H].
  - apply unlock_quiet in H as [Hf Hq]. split; [done|].
    eapply quiet_trans; [by apply (quiet_name (set_zip f false)), Hr|].
    eapply quiet_trans; [|by apply (quiet_name (set_zip f false))].
    apply (quiet_name (set_zip f false)); [done|apply quiet_oldlog].
  - apply unlock_quiet in H as [Hf Hq]. split; [done|]. by apply (quiet_name (set_zip f false)).
Qed.

Lemma linv_step l l' : linv l -> lstep l l' -> linv l'.
Proof.
  intros Hl Hst. destruct l as [f s acc ch]. destruct Hst as [e buff r f' s' Hr Hw E|s' E Hz|f' s' Hr E]; simpl in *.
  - destruct (write_inv e f s buff acc ch Hl Hr Hw) as (r1 & f1 & s1 & E1 & Hl1).
    rewrite E in E1. by injection E1 as <- <- <-.
  - apply (linv_quiet (MkL f s acc ch)); [done|by apply gzip_quiet|done|by right].
  - apply wait_quiet in E as [(A & B & C & _) Hq]; [|by apply roomy_small].
    apply (linv_quiet (MkL f s acc ch)); [done|done|done|by right].
Qed.

Lemma linv_start f s :
  fd f = None -> (forall n i, dir s !! n = Some i -> is_Some (inodes s !! i)) -> linv (start_log f s).
Proof.
  intros Hf Hwf. unfold start_log. destruct (dir s !! logname f) as [i|] eqn:Ei; split; simpl; try done.
  - split; [apply NoDup_singleton|]. intros j ->%list_elem_of_singleton. eauto.
  - intros j Hj. congruence.
  - intros j Hj. left. congruence.
  - by rewrite app_nil_r.
  - split; [constructor|]. set_solver.
  - intros j Hj. congruence.
  - intros j Hj. congruence.
Qed.


(** ** One rotation *)
Lemma oldlog_inodes f s : inodes (remove_oldlog f s) = inodes s.
Proof.
  unfold remove_oldlog. destruct (list_dir s); [|done].
  induction (Z.to_nat _) as [|k IH]; [done|]. simpl. unfold remove_oldestlog at 1.
  by destruct (l ← list_dir _; get_oldest f _ l ([], 0)) as [[? ?]|].
Qed.

(** The rotation alone: the file gets a free archive name and the retention
    is applied. *)
Definition rotated (f : tlog_file) (s : fs) (i : nat) (a : name) : fs :=
  remove_oldlog (set_fd f None 0) (set_dir s (<[a := i]> (delete (logname f) (dir s)))).

Lemma rotated_name f s i a : is_archive f a = true -> dir (rotated f s i a) !! logname f = None.
Proof.
  intros Ha. destruct (archive_not f a Ha) as (Han & _ & _). unfold rotated. set (s2 := set_dir s _).
  destruct (q_log _ _ _ (quiet_oldlog (set_fd f None 0) s2)) as [E|E]; [|exact E].
  change (logname (set_fd f None 0)) with (logname f) in E. rewrite E. simpl.
  rewrite lookup_insert_ne by done. apply lookup_delete_eq.
Qed.

Lemma rotate_moves e f s i x m :
  nocompress f = true -> multi_log f = false -> fd_lock f = false -> fd f = Some i ->
  filesize f = size_of s i -> dir s !! logname f = Some i -> inodes s !! i = Some x ->
  dir s !! pending f = None -> localtime_r (mtime x) = Some m ->
  (forall s a b, rename_err s a b = false) -> small s ->
  exists a, rotate e f s = Ok (set_fd f None 0, rotated f s i a) /\ is_archive f a = true /\ dir s !! a = None.
Proof.
  intros Hnc Hmu Hlk Hfd Hfs Hdir Hino Hpend Hm Hren Hsm. destruct (names_differ f) as (Hpn & _ & _).
  unfold rotate. rewrite Hfd. cbn [fmap option_fmap option_map default].
  rewrite Hfs, Z.ltb_irrefl. cbn [andb]. set (f1 := set_fd f None 0).
  unfold archive_log. change (nocompress f1) with (nocompress f). rewrite Hnc.
  unfold archive_nocompress, log_lock. change (multi_log f1) with (multi_log f). rewrite Hmu. cbn [negb].
  unfold to_pending, exists_file. change (pending f1) with (pending f). change (logname f1) with (logname f).
  rewrite bool_decide_eq_false_2 by (rewrite Hpend; by intros []).
  unfold rename at 1. rewrite Hdir, Hren. set (s1 := set_dir s _).
  assert (Hs1 : small s1) by (apply (small_rename s (logname f) (pending f)); [done|]; unfold rename; by rewrite Hdir, Hren).
  unfold rename_logfile. assert (Ef : file_at s1 (pending f) = Some x).
  { unfold file_at, s1. simpl. rewrite lookup_insert_eq. simpl. done. }
  rewrite Ef. cbn [mbind option_bind]. rewrite Hm.
  destruct (free_name_found s1 f1 (time_of m 0) Hs1) as (n & -> & _ & Hfree). rewrite !bind_ret.
  set (a := archive_name f1 (time_of m 0) n) in *.
  pose proof (archive_is_archive f1 (time_of m 0) n) as Ha. fold a in Ha.
  destruct (archive_not f1 a Ha) as (Han & Hap & _).
  unfold rename. unfold s1 at 1. simpl (dir _). rewrite lookup_insert_eq, Hren.
  assert (Ed : set_dir s1 (<[a:=i]> (delete (pending f) (<[pending f := i]> (delete (logname f) (dir s))))) =
               set_dir s (<[a:=i]> (delete (logname f) (dir s)))).
  { unfold s1, set_dir. simpl. do 2 f_equal. rewrite delete_insert_eq. apply delete_id.
    by rewrite lookup_delete_ne. }
  rewrite Ed. unfold log_unlock. change (fd_lock f1) with (fd_lock f). rewrite Hlk, !bind_ret.
  exists a. split; [done|]. split; [done|]. destruct (dir s !! a) as [k|] eqn:Ek; [|done].
  unfold s1 in Hfree. simpl in Hfree. rewrite lookup_insert_ne, lookup_delete_ne in Hfree by done. congruence.
Qed.

(** C33 - a write to a file above its size moves the file, untouched, to a free
    archive name, applies the retention and starts a new file with the bytes
    of the write; this is for a log that does not compress, when no system
    call fails. *)
Theorem rotation_result e f s buff i x m :
  nocompress f = true -> multi_log f = false -> zipping f = false -> fd_lock f = false ->
  logscreen f = false -> fd f = Some i -> filesize f = size_of s i -> logsize f < filesize f ->
  dir s !! logname f = Some i -> inodes s !! i = Some x -> dir s !! pending f = None ->
  localtime_r (mtime x) = Some m -> (forall s a b, rename_err s a b = false) -> small s ->
  0 < zlen buff -> wrote e = zlen buff -> mkdir_ok e = true -> open_ok e = true -> now e <> last_try f ->
  exists a j f' s', tlog_write e f s buff = Ok (zlen buff, f', s') /\
    is_archive f a = true /\ dir s !! a = None /\ inodes s !! j = None /\
    dir s' = <[logname f := j]> (dir (remove_oldlog (set_fd f None 0)
                                       (set_dir s (<[a := i]> (delete (logname f) (dir s)))))) /\
    inodes s' = <[j := MkIno buff (now e) false]> (inodes s) /\
    fd f' = Some j /\ filesize f' = zlen buff.
Proof.
  intros Hnc Hmu Hz Hlk Hscr Hfd Hfs Hbig Hdir Hino Hpend Hm Hren Hsm Hb Hwr Hmk Hop Hnow.
  unfold tlog_write. destruct (Z.leb_spec (zlen buff) 0); [lia|]. rewrite Hscr, Hfd, Hmu.
  destruct (Z.gtb_spec (filesize f) (logsize f)); [|lia]. rewrite Hz. cbn [andb negb].
  destruct (rotate_moves e f s i x m) as (a & -> & Ha & Hfree); [done..|]. rewrite bind_ret.
  set (f1 := set_fd f None 0). set (s3 := rotated f s i a).
  assert (Ei : inodes s3 = inodes s) by exact (oldlog_inodes f1 _).
  unfold write_block, open_log. change (fd f1) with (@None nat). cbv iota.
  change (last_try f1) with (last_try f). destruct (Z.eqb_spec (now e) (last_try f)); [done|].
  rewrite Hmk, Hop. cbn [negb]. unfold create. change (logname (set_try f1 (now e))) with (logname f).
  unfold s3 at 1 2. rewrite (rotated_name f s i a Ha). fold s3. set (j := fresh (dom (inodes s3))).
  rewrite Hwr. destruct (Z.gtb_spec (zlen buff) 0); [|lia].
  exists a, j. eexists _, _. split; [done|]. split_and!; try done.
  - rewrite <- Ei. apply not_elem_of_dom, is_fresh.
  - simpl. rewrite Ei, alter_insert_eq. unfold zlen. by rewrite Nat2Z.id, firstn_all.
  - simpl. unfold size_of. simpl. rewrite lookup_insert_eq. simpl. done.
Qed.

(** ** How many names a write adds *)
Definition adds (k : nat) (s s' : fs) : Prop := (size (dir s') <= size (dir s) + k)%nat.

Lemma adds_delete s n : adds 0 s (set_dir s (delete n (dir s))).
Proof. unfold adds. simpl. rewrite map_size_delete. destruct (dir s !! n); simpl; lia. Qed.

Lemma adds_rename s a b s' : rename s a b = Some s' -> adds 0 s s'.
Proof.
  unfold rename, adds. destruct (dir s !! a) as [i|] eqn:Ha; [|done].
  destruct (rename_err s a b); [done|]. intros [= <-]. simpl.
  rewrite map_size_insert, map_size_delete, Ha.
  assert (size (dir s) <> 0%nat) by (apply (map_size_ne_0_lookup_2 _ a); eauto).
  destruct (delete a (dir s) !! b); simpl; lia.
Qed.

Lemma adds_create s n t : adds 1 s (create s n t).2.
Proof.
  unfold create, adds. destruct (dir s !! n) eqn:E; simpl; [lia|]. rewrite map_size_insert, E. lia.
Qed.

Lemma adds_to_pending f s s' : to_pending f s = Some s' -> adds 0 s s'.
Proof.
  unfold to_pending. destruct (exists_file s (pending f)); [|by apply adds_rename].
  intros [= <-]. unfold adds. lia.
Qed.

Lemma adds_rename_logfile f n s s' : rename_logfile f n s = Ok (Some s') -> adds 0 s s'.
Proof.
  unfold rename_logfile. destruct (x ← file_at s n; localtime_r (mtime x)); [|done].
  intros H. apply bind_ok in H as (a & _ & [= H]). by eapply adds_rename.
Qed.

Lemma adds_oldlog f s : adds 0 s (remove_oldlog f s).
Proof.
  unfold remove_oldlog. destruct (list_dir s); [|unfold adds; lia].
  induction (Z.to_nat _) as [|k IH]; [unfold adds; simpl; lia|]. simpl. set (s1 := Nat.iter k _ s) in *.
  unfold remove_oldestlog. destruct (l ← list_dir s1; get_oldest f s1 l ([], 0)) as [[n t]|]; [|done].
  pose proof (adds_delete s1 n). unfold adds in *. lia.
Qed.

Lemma adds_unlock f s f' s' : log_unlock f s = (f', s') -> adds 0 s s'.
Proof.
  unfold log_unlock. destruct (fd_lock f); intros [= <- <-]; [apply adds_delete|unfold adds; lia].
Qed.

Lemma adds_wait f s f' s' : wait_pid f s = Ok (f', s') -> adds 0 s s'.
Proof.
  unfold wait_pid. destruct (negb (zipping f)); [intros [= <- <-]; unfold adds; lia|]. intros H.
  apply bind_ok in H as (o & Ho & H). destruct o as [s1|]; injection H as H; apply adds_unlock in H; [|done].
  apply adds_rename_logfile in Ho. pose proof (adds_oldlog (set_zip f false) s1). unfold adds in *. lia.
Qed.

Lemma adds_lock e f s ok f' s' : log_lock e f s = (ok, f', s') -> adds 1 s s'.
Proof.
  pose proof (adds_create s (lock_name f) (now e)) as Hc. assert (Hn : adds 1 s s) by (unfold adds; lia).
  unfold log_lock. destruct (negb (multi_log f)); [by intros [= <- <- <-]|].
  destruct (negb (lock_open_ok e)); [by intros [= <- <- <-]|].
  destruct (lock_ok e); by intros [= <- <- <-].
Qed.

Lemma adds_errout f s ok f' s' : errout f s = (ok, f', s') -> adds 0 s s'.
Proof.
  unfold errout. destruct (log_unlock f s) as [f1 s1] eqn:E. intros [= <- <- <-]. by eapply adds_unlock.
Qed.

Lemma adds_archive e f s ok f' s' : archive_log e f s = Ok (ok, f', s') -> adds 1 s s'.
Proof.
  unfold archive_log, archive_nocompress, archive_compressed.
  destruct (log_lock e f s) as [[ok1 f1] s1] eqn:El. apply adds_lock in El. unfold adds in El.
  destruct (nocompress f), ok1; cbn [negb]; try (by intros [= <- <- <-]).
  - destruct (to_pending f1 s1) as [s2|] eqn:Ep.
    2: { intros [= H]. apply adds_errout in H. unfold adds in *. lia. }
    apply adds_to_pending in Ep. intros H. apply bind_ok in H as (r & Er & H). destruct r as [s3|].
    2: { injection H as H. apply adds_errout in H. unfold adds in *. lia. }
    apply adds_rename_logfile in Er. pose proof (adds_oldlog f1 s3).
    destruct (log_unlock f1 (remove_oldlog f1 s3)) as [f4 s4] eqn:Eu. apply adds_unlock in Eu.
    injection H as <- <- <-. unfold adds in *. lia.
  - intros H. apply bind_ok in H as (r & Er & H). destruct r as [s2|].
    2: { injection H as H. apply adds_errout in H. unfold adds in *. lia. }
    assert (Hr : adds 0 s1 s2).
    { destruct (exists_file s1 (pending_gz f1)); [by eapply adds_rename_logfile|].
      injection Er as <-. unfold adds. lia. }
    destruct (to_pending f1 s2) as [s3|] eqn:Ep.
    2: { injection H as H. apply adds_errout in H. unfold adds in *. lia. }
    apply adds_to_pending in Ep. destruct (zipping f1); [injection H as <- <- <-; unfold adds in *; lia|].
    destruct (fork_ok e); [injection H as <- <- <-; unfold adds in *; lia|].
    injection H as H. apply adds_errout in H. unfold adds in *. lia.
Qed.

Lemma adds_open e f s o f' s' : open_log e f s = (o, f', s') -> adds 1 s s'.
Proof.
  pose proof (adds_create s (logname f) (now e)) as Hc. assert (Hn : adds 1 s s) by (unfold adds; lia).
  unfold open_log. destruct (fd f); [by intros [= <- <- <-]|].
  destruct (now e =? last_try f); [by intros [= <- <- <-]|].
  destruct (negb (mkdir_ok e)); [by intros [= <- <- <-]|].
  destruct (negb (open_ok e)); [by intros [= <- <- <-]|].
  change (logname (set_try f (now e))) with (logname f).
  destruct (create s (logname f) (now e)) as [i s1]. by intros [= <- <- <-].
Qed.

(** A write adds at most two names: the lock and the new log file. *)
Lemma adds_write e f s buff r f' s' : tlog_write e f s buff = Ok (r, f', s') -> adds 2 s s'.
Proof.
  unfold tlog_write. destruct (zlen buff <=? 0); [intros [= <- <- <-]; unfold adds; lia|].
  set (s0 := if logscreen f then _ else s). set (f0 := match fd f with Some _ => _ | None => f end).
  assert (H0 : size (dir s0) = size (dir s)) by (unfold s0; by destruct (logscreen f)).
  intros H. apply bind_ok in H as ([f1 s1] & E1 & H). injection H as H.
  assert (H1 : adds 1 s0 s1).
  { destruct (_ && _); [|injection E1 as <- <-; unfold adds; lia]. unfold rotate in E1.
    match type of E1 with (let '(_, _) := ?q in _) = _ => destruct q as [f2 s2] eqn:E2 end.
    assert (H2 : dir s2 = dir s0).
    { destruct (_ && _); injection E2 as <- <-; [|done]. by destruct (fd f0). }
    apply bind_ok in E1 as ([[ok f3] s3] & E3 & [= <- <-]). apply adds_archive in E3.
    unfold adds in *. by rewrite H2 in E3. }
  unfold write_block in H. destruct (open_log e f1 s1) as [[o f2] s2] eqn:Eo. apply adds_open in Eo.
  assert (H2 : size (dir s') = size (dir s2)).
  { destruct o as [i|]; [|by injection H as <- <- <-].
    destruct (wrote e >? 0); injection H as <- <- <-; done. }
  unfold adds in *. lia.
Qed.

End Files.

(** ** The log directory itself *)
Section Mkdir.
(** Whether the system refuses to make a directory. *)
Context (mkdir_err : gset name -> name -> bool).

Definition PATH_MAX : Z := 4096.

(** [mkdir]; an empty path names nothing. *)
Definition mkdir (d : gset name) (p : name) : option (gset name) :=
  if bool_decide (p = []) || mkdir_err d p then None else Some ({[p]} ∪ d).

(** The loop over the path: [pre] is what is before the cursor. *)
Fixpoint mkdir_walk (d : gset name) (pre rest : list Z) : bool * gset name :=
  match rest with
  | [] => (true, d)
  | c :: rest =>
      if negb (c =? 47) then mkdir_walk d (pre ++ [c]) rest
      else if bool_decide (pre ∈ d) then mkdir_walk d (pre ++ [c]) rest
      else match mkdir d pre with
           | None => (false, d)
           | Some d => mkdir_walk d (pre ++ [c]) rest
           end
  end.

(** [_tlog_mkdir] on the directories [d]: the path is copied into an array and
    gets a slash. *)
Definition tlog_mkdir (d : gset name) (path : name) : res (bool * gset name) :=
  if bool_decide (path ∈ d) then Ok (true, d)
  else
    let path_c := strncpy_bytes path (PATH_MAX - 1) ++ [0] in
    len ← c_strlen path_c;
    path_c ← arr_set path_c len 47;
    path_c ← arr_set path_c (len + 1) 0;
    s ← c_string path_c;
    Ok (mkdir_walk d [] s).

Lemma tlog_mkdir_walk d path :
  no_nul path -> zlen path <= PATH_MAX - 2 -> path ∉ d ->
  tlog_mkdir d path = Ok (mkdir_walk d [] (path ++ [47])).
Proof.
  unfold PATH_MAX. intros Hn Hl Hd. unfold tlog_mkdir. rewrite bool_decide_eq_false_2 by done.
  rewrite strncpy_fits by (unfold PATH_MAX; lia). unfold PATH_MAX.
  pose proof (zlen_nonneg path).
  assert (E : zeros (4096 - 1 - zlen path) ++ [0] = 0 :: 0 :: zeros (4096 - 2 - zlen path)).
  { rewrite (zeros_cons (4096 - 1 - zlen path)) by lia. cbn [app]. f_equal.
    change [0] with (zeros 1). rewrite <- zeros_app by lia. rewrite zeros_cons by lia. do 2 f_equal. lia. }
  rewrite <- app_assoc, E. rewrite c_strlen_app by done. rewrite bind_ret, arr_set_app, bind_ret.
  change (47 :: 0 :: zeros (4096 - 2 - zlen path)) with ([47] ++ 0 :: zeros (4096 - 2 - zlen path)).
  rewrite app_assoc. rewrite arr_set_at by (by rewrite zlen_app). rewrite bind_ret.
  rewrite c_string_app; [done|]. apply Forall_app. split; [done|]. by constructor.
Qed.

(** What the walk makes when the system refuses nothing. *)
Lemma mkdir_walk_all d pre rest :
  (forall d p, mkdir_err d p = false) -> pre <> [] ->
  exists d', mkdir_walk d pre rest = (true, d') /\
    forall p, p ∈ d' <-> p ∈ d \/ exists q r, rest = q ++ 47 :: r /\ p = pre ++ q.
Proof.
  intros He. revert d pre. induction rest as [|c rest IH]; intros d pre Hp; simpl.
  { exists d. split; [done|]. intros p. split; [by left|]. intros [|(q & r & E & _)]; [done|].
    by destruct q. }
  assert (Hnext : forall d1, exists d', mkdir_walk d1 (pre ++ [c]) rest = (true, d') /\
    forall p, p ∈ d' <-> p ∈ d1 \/ exists q r, rest = q ++ 47 :: r /\ p = (pre ++ [c]) ++ q)
    by (intros d1; apply IH; by destruct pre).
  assert (Hstep : forall d1 : gset name, (forall p, p ∈ d1 <-> p ∈ d \/ (c = 47 /\ p = pre)) ->
    forall d' : gset name,
    (forall p, p ∈ d' <-> p ∈ d1 \/ exists q r, rest = q ++ 47 :: r /\ p = (pre ++ [c]) ++ q) ->
    forall p, p ∈ d' <-> p ∈ d \/ exists q r, c :: rest = q ++ 47 :: r /\ p = pre ++ q).
  { intros d1 H1 d' H2 p. rewrite H2, H1. split.
    - intros [[?|[-> ->]]|(q & r & -> & ->)]; [by left| |].
      + right. exists [], rest. by rewrite app_nil_r.
      + right. exists (c :: q), r. split; [done|]. by rewrite <- app_assoc.
    - intros [?|(q & r & E & ->)]; [by left; left|]. destruct q as [|c' q]; simplify_eq/=.
      + left. right. by rewrite app_nil_r.
      + right. exists q, r. split; [done|]. by rewrite <- app_assoc. }
  destruct (Z.eqb_spec c 47) as [->|Hc]; simpl.
  - case_bool_decide as Hin.
    + destruct (Hnext d) as (d' & E & H). exists d'. split; [done|]. apply (Hstep d); [|done].
      intros p. split; [by left|]. intros [|[_ ->]]; done.
    + unfold mkdir. rewrite bool_decide_eq_false_2, He by done. simpl.
      destruct (Hnext ({[pre]} ∪ d)) as (d' & E & H). exists d'. split; [done|].
      apply (Hstep ({[pre]} ∪ d)); [|done]. intros p. rewrite elem_of_union, elem_of_singleton. tauto.
  - destruct (Hnext d) as (d' & E & H). exists d'. split; [done|]. apply (Hstep d); [|done].
    intros p. split; [by left|]. by intros [|[-> _]].
Qed.

(** [_tlog_mkdir] makes a missing relative directory together with all
    its missing parents and nothing else; but a missing directory with an
    absolute path is never made: the part before the first slash is empty, and
    the function gives up there. *)
Theorem tlog_mkdir_result d path :
  (forall d p, mkdir_err d p = false) -> no_nul path -> 0 < zlen path <= PATH_MAX - 2 ->
  path ∉ d -> [] ∉ d ->
  match path with
  | 47 :: _ => tlog_mkdir d path = Ok (false, d)
  | _ => exists d', tlog_mkdir d path = Ok (true, d') /\
      forall p, p ∈ d' <-> p ∈ d \/ exists r, path ++ [47] = p ++ 47 :: r
  end.
Proof.
  intros He Hn Hl Hd H0. destruct path as [|c path]; [change (zlen (@nil Z)) with 0 in Hl; lia|].
  rewrite tlog_mkdir_walk by (done || lia).
  destruct (decide (c = 47)) as [->|Hc].
  { cbn [app mkdir_walk]. change (47 =? 47) with true. cbn [negb].
    by rewrite bool_decide_eq_false_2. }
  assert (Hw : exists d', Ok (mkdir_walk d [] ((c :: path) ++ [47])) = Ok (true, d') /\
    forall p, p ∈ d' <-> p ∈ d \/ exists r, (c :: path) ++ [47] = p ++ 47 :: r).
  { cbn [app mkdir_walk]. destruct (Z.eqb_spec c 47); [done|]. cbn [negb].
    destruct (mkdir_walk_all d [c] (path ++ [47]) He ltac:(done)) as (d' & E & H).
    exists d'. split; [by rewrite E|]. intros p. rewrite H. split.
    - intros [?|(q & r & E1 & ->)]; [by left|]. right. exists r. by rewrite E1.
    - intros [?|(r & E1)]; [by left|]. right. destruct p as [|c' p]; simplify_eq/=.
      exists p, r. by split. }
  destruct c as [|c|c]; [done|repeat (destruct c as [c|c|]; try done)|done].
Qed.
End Mkdir.

(** ** The properties at concrete inputs *)
Definition demo_readdir (d : gmap name nat) : option (list name) :=
  Some (filter (fun n => n <> bytes "." /\ n <> bytes "..") (map_to_list d).*1 ++ [bytes "."; bytes ".."]).

Lemma demo_readdir_ok : readdir_ok demo_readdir.
Proof.
  intros d. eexists. split; [done|]. split.
  - apply NoDup_app. split_and!.
    + apply NoDup_filter, NoDup_fst_map_to_list.
    + intros n [[H1 H2] _]%list_elem_of_filter. set_solver.
    + by apply (bool_decide_unpack _).
  - intros n. rewrite elem_of_app, list_elem_of_filter.
    assert (Hin : n ∈ (map_to_list d).*1 <-> is_Some (d !! n)).
    { rewrite list_elem_of_fmap. split.
      - intros ([k i] & -> & Hk%elem_of_map_to_list). by eexists.
      - intros [i Hi]. exists (n, i). split; [done|by apply elem_of_map_to_list]. }
    rewrite Hin. destruct (decide (n = bytes ".")), (decide (n = bytes "..")); set_solver.
Qed.

Definition no_err {A B C : Type} (a : A) (b : B) (c : C) : bool := false.

(** A full log of three bytes and two older archives. *)
Definition demo_log (count : Z) : tlog_file :=
  MkFile (bytes "log") [] 2 count false true false (Some 0%nat) 3 false false 0.
Definition old_name (k : Z) : name := bytes "log-2023-" ++ [k].
Definition demo_fs : fs :=
  MkFs {[ bytes "log" := 0%nat; old_name 49 := 1%nat; old_name 50 := 2%nat ]}
    {[ 0%nat := MkIno [97; 98; 99] 30 false; 1%nat := MkIno [] 10 false; 2%nat := MkIno [] 20 false ]} [].
Definition demo_env (n : Z) : env := MkEnv 40 true true true true true n false 0.

Lemma demo_small : small demo_fs.
Proof. by vm_compute. Qed.

Lemma rename_logfile_fresh_witness :
  exists r, rename_logfile demo_localtime no_err (demo_log 5) (bytes "log") demo_fs = Ok r.
Proof.
  destruct (rename_logfile_fresh demo_localtime no_err (demo_log 5) (bytes "log") demo_fs
    demo_small) as (r & E & _). exists r. exact E.
Defined.

Lemma demo_archives_ok : archives_ok (demo_log 1) demo_fs.
Proof.
  intros n i H Ha. simpl in H. apply lookup_insert_Some in H as [[<- <-]|[_ H]]; [done|].
  apply lookup_insert_Some in H as [[<- <-]|[_ H]].
  { split; [by apply (bool_decide_unpack _)|]. eexists. by split. }
  apply lookup_singleton_Some in H as [<- <-].
  split; [by apply (bool_decide_unpack _)|]. eexists. by split.
Qed.


Definition long_log : tlog_file :=
  MkFile (repeat 97 127) [] 2 5 false true false (Some 0%nat) 3 false false 0.
Definition demo_time : tlog_time := MkTime 2024 0 2 3 4 5 6.
Definition long_archive : name := archive_name long_log demo_time 0.
Definition long_fs : fs :=
  MkFs {[ repeat 97 127 := 0%nat; long_archive := 1%nat ]}
    {[ 0%nat := MkIno [97] 30 false; 1%nat := MkIno [] 10 false ]} [].

Lemma long_archives : archives long_log long_fs = {[ archive_name long_log demo_time 0 := 1%nat ]}.
Proof.
  apply map_eq. intros n. apply option_eq. intros i.
  rewrite lookup_archives, lookup_singleton_Some. simpl.
  rewrite lookup_insert_Some, lookup_singleton_Some.
  pose proof (archive_is_archive long_log demo_time 0) as Hyes. split.
  - intros [[[<- <-]|[_ [<- <-]]] Ha]; [by vm_compute in Ha|done].
  - intros [<- <-]. split; [|done]. right. split; [|done]. intros E.
    unfold long_archive in E. rewrite <- E in Hyes. by vm_compute in Hyes.
Qed.

Lemma retention_long_name_witness :
  dir (remove_oldestlog demo_readdir long_log long_fs) = delete (repeat 97 127) (dir long_fs).
Proof.
  apply (retention_long_name demo_readdir long_log long_fs demo_time 0 1 demo_readdir_ok).
  - reflexivity.
  - exact long_archives.
  - eexists. split; [reflexivity|reflexivity].
Defined.

Definition demo_new : tlog_file :=
  MkFile (bytes "log") [] 2 5 false true false None 0 false false 0.


Lemma rotation_result_witness :
  exists a j f s, tlog_write demo_localtime demo_readdir no_err (demo_env 2) (demo_log 5) demo_fs [100; 101]
      = Ok (2, f, s) /\ is_archive (demo_log 5) a = true /\ fd f = Some j.
Proof.
  destruct (rotation_result demo_localtime demo_readdir no_err (demo_env 2) (demo_log 5) demo_fs [100; 101]
    0 (MkIno [97; 98; 99] 30 false) (MkTm 124 0 (30 mod 28) 0 0 0)) as (a & j & f & s & H).
  all: try done.
  destruct H as (E & Ha & _ & _ & _ & _ & Hf & _). exists a, j, f, s. split; [exact E|split; [exact Ha|exact Hf]].
Defined.

Definition no_mkdir_err (d : gset name) (p : name) : bool := false.

Lemma tlog_mkdir_result_witness :
  tlog_mkdir no_mkdir_err {[ bytes "x" ]} (bytes "/a/b") = Ok (false, {[ bytes "x" ]}) /\
  exists d, tlog_mkdir no_mkdir_err {[ bytes "x" ]} (bytes "a/b") = Ok (true, d) /\ bytes "a/b" ∈ d.
Proof.
  split.
  - apply (tlog_mkdir_result no_mkdir_err {[ bytes "x" ]} (bytes "/a/b")).
    + done.
    + by repeat constructor.
    + by vm_compute.
    + set_solver.
    + set_solver.
  - destruct (tlog_mkdir_result no_mkdir_err {[ bytes "x" ]} (bytes "a/b")) as (d & E & H).
    + done.
    + by repeat constructor.
    + by vm_compute.
    + set_solver.
    + set_solver.
    + exists d. split; [exact E|]. apply H. right. exists []. reflexivity.
Defined.
End TlogFile.
