(* ===== verification/TlogWork.v ===== *)
(** The list of logs and the thread that serves it (src/useapp/tlog.c, lines
    1110-1247, 1310-1420 and 1656-1674): which log is next, the watch over
    gzip processes, one round of the work thread from the buffer to the file,
    the close of a log and the end of the logger. *)
From S2P Require Import Prelude TlogTime TlogRing TlogRoot TlogFile.

Module TlogWork.
Import TlogRing TlogRoot TlogFile.

(** A log with its buffer, its files and its directory, which no other log
    uses; [root_out] says that its output function is the root log's. *)
Record wlog := MkWlog {
  ring : tlog_log;
  tf : tlog_file;
  tfs : fs;
  root_out : bool;
  is_exit : bool;
  last_waitpid : Z
}.

Definition set_ring (w : wlog) (l : tlog_log) : wlog :=
  MkWlog l (tf w) (tfs w) (root_out w) (is_exit w) (last_waitpid w).
Definition set_files (w : wlog) (f : tlog_file) (s : fs) : wlog :=
  MkWlog (ring w) f s (root_out w) (is_exit w) (last_waitpid w).

(** [struct tlog]: [logs] are the logs in the order of their [next] pointers,
    [heap] those that are allocated, [last_log] the static variable of
    [_tlog_wait_pids], [calls] what a registered callback got. *)
Record logger := MkLogger {
  run : bool;
  logs : list nat;
  heap : gmap nat wlog;
  last_log : option nat;
  calls : list (list Z * list Z)
}.

Definition set_heap (g : logger) (h : gmap nat wlog) : logger :=
  MkLogger (run g) (logs g) h (last_log g) (calls g).
Definition set_last (g : logger) (o : option nat) : logger :=
  MkLogger (run g) (logs g) (heap g) o (calls g).
Definition set_logs (g : logger) (l : list nat) (h : gmap nat wlog) : logger :=
  MkLogger (run g) l h (last_log g) (calls g).

Definition get (g : logger) (p : nat) : res wlog := of_option UseAfterFree (heap g !! p).

(** [_tlog_any_has_data_locked]. *)
Fixpoint any_has_data (g : logger) (l : list nat) : res bool :=
  match l with
  | [] => Ok false
  | p :: l => w ← get g p; if tlog_has_data (ring w) then Ok true else any_has_data g l
  end.

(** [_tlog_next_log]. *)
Fixpoint next_of (l : list nat) (p : nat) : option nat :=
  match l with
  | [] => None
  | q :: l => if (q =? p)%nat then head l else next_of l p
  end.
Definition next_log (g : logger) (cur : option nat) : res (option nat) :=
  match cur with
  | None => Ok (head (logs g))
  | Some p => _ ← get g p; Ok (next_of (logs g) p)
  end.

#[local] Set Proof Using Clear Unused.
#[local] Set Default Proof Using "Type".

Section Work.
Context (localtime_r : Z -> option TlogTime.tm).
Context (readdir : gmap name nat -> option (list name)).
Context (rename_err : fs -> name -> name -> bool).
(** Whether an output callback is registered; the root log. *)
Context (callback : bool) (root : nat).

(** [_tlog_wait_pid] of a log; [reaped] is the answer of [waitpid]. *)
Definition wait_log (reaped : bool) (w : wlog) : res wlog :=
  if zipping (tf w) && reaped
  then '(f, s) ← wait_pid localtime_r readdir rename_err (tf w) (tfs w); Ok (set_files w f s)
  else Ok w.

(** [_tlog_wait_pids] at the time [t]. *)
Fixpoint wait_pids (t : Z) (reaped : bool) (g : logger) (l : list nat) : res logger :=
  match l with
  | [] => Ok (set_last g None)
  | p :: l =>
      w ← get g p;
      if negb (zipping (tf w)) || bool_decide (last_log g = Some p) || (last_waitpid w =? t)
      then wait_pids t reaped g l
      else
        w ← wait_log reaped (MkWlog (ring w) (tf w) (tfs w) (root_out w) (is_exit w) t);
        Ok (set_last (set_heap g (<[p := w]> (heap g))) (Some p))
  end.

(** [_tlog_close]: the answer and the state. *)
Definition tlog_close (reaped : bool) (p : nat) (g : logger) : res (Z * logger) :=
  w ← get g p;
  w ← wait_log reaped w;
  if zipping (tf w) then Ok (-1, set_heap g (<[p := w]> (heap g)))
  else
    let '(f, s) := log_unlock (set_fd (tf w) None (filesize (tf w))) (tfs w) in
    match logs g with
    | q :: l =>
        if (q =? p)%nat then Ok (0, set_logs g l (delete p (heap g)))
        else if bool_decide (p ∈ l)
        then Ok (-1, set_logs g (q :: filter (fun r => r <> p) l) (delete p (heap g)))
        else Ok (0, set_heap g (<[p := set_files w f s]> (heap g)))
    | [] => Ok (0, set_heap g (<[p := set_files w f s]> (heap g)))
    end.

(** The output function of a log on one message; each write to the file has
    the answers of the system in [e]. *)
Definition output (e : env) (p : nat) (w : wlog) (b : list Z) : res (wlog * list (list Z * list Z)) :=
  o ← (if root_out w then root_write_log callback (segment_log (ring w)) (p =? root)%nat b
       else Ok (ToFile b));
  match o with
  | ToFile d => '(_, f, s) ← tlog_write localtime_r readdir rename_err e (tf w) (tfs w) d; Ok (set_files w f s, [])
  | ToCallback i d => Ok (w, [(i, d)])
  end.

Fixpoint outputs (es : list env) (p : nat) (w : wlog) (bs : list (list Z))
  : res (wlog * list (list Z * list Z)) :=
  match bs, es with
  | [], _ => Ok (w, [])
  | _, [] => UB OutOfFuel
  | b :: bs, e :: es =>
      '(w, c) ← output e p w b; '(w, c') ← outputs es p w bs; Ok (w, c ++ c')
  end.

(** The report of dropped messages, as text. *)
Definition drop_text (n : Z) : list Z :=
  bytes "[Totoal Dropped " ++ fmt_dec 1 n ++ bytes " Messages]" ++ [10].
Definition report (o : option Z) : list (list Z) :=
  match o with Some n => [drop_text n] | None => [] end.

(** The part of a round on a log with data, when no writer comes between. *)
Definition serve (es : list env) (p : nat) (w : wlog) : res (wlog * list (list Z * list Z)) :=
  match take_snapshot (ring w) with
  | None => Ok (w, [])
  | Some (sn, l) =>
      '(out, n) ← work_write l sn;
      '(w, c) ← outputs es p (set_ring w l) (out ++ report n);
      Ok (set_ring w (release (ring w) sn), c)
  end.

(** What happens around one round: the time, [waitpid] in the watch and in a
    close, the log that [_tlog_wait_log_locked] answers, the writes. *)
Record round := MkRound {
  r_now : Z; r_reaped : bool; r_close_reaped : bool; r_notify : option nat; r_writes : list env
}.

(** The part of a round after a log has been chosen: the log the thread is
    at. *)
Definition work_on (r : round) (p : nat) (g : logger) : res (option nat * logger) :=
  w ← get g p;
  if negb (tlog_has_data (ring w)) then
    if is_exit w then
      '(ret, g) ← tlog_close (r_close_reaped r) p g;
      Ok (if ret =? 0 then None else Some p, g)
    else Ok (Some p, g)
  else
    '(w, c) ← serve (r_writes r) p w;
    Ok (Some p, MkLogger (run g) (logs g) (<[p := w]> (heap g)) (last_log g) (calls g ++ c)).

(** One round of [_tlog_work]: [None] when the thread ends, else the log it is
    at. *)
Definition work_round (r : round) (cur : option nat) (g : logger)
  : res (option (option nat * logger)) :=
  some ← any_has_data g (logs g);
  if negb (run g) && negb some then Ok None
  else
    g ← wait_pids (r_now r) (r_reaped r) g (logs g);
    cur ← next_log g cur;
    match cur with
    | None => Ok (Some (None, g))
    | Some p =>
        match (if negb some && run g then r_notify r else Some p) with
        | None => Ok (Some (None, g))
        | Some p => Some <$> work_on r p g
        end
    end.

(** The loop of [_tlog_work] over the rounds [rs], until it ends. *)
Fixpoint work_runs (rs : list round) (cur : option nat) (g : logger) : res logger :=
  match rs with
  | [] => UB OutOfFuel
  | r :: rs =>
      x ← work_round r cur g;
      match x with
      | None => Ok g
      | Some (cur, g) => work_runs rs cur g
      end
  end.

(** The loop of [tlog_exit], after the work thread has been joined. *)
Fixpoint close_all (fuel : nat) (reaped : bool) (g : logger) : res logger :=
  match logs g with
  | [] => Ok g
  | p :: _ =>
      match fuel with
      | O => UB OutOfFuel
      | S fuel => '(_, g) ← tlog_close reaped p g; close_all fuel reaped g
      end
  end.

(** ** From the buffer to the file *)

(** What [serve] needs of a log's files: the invariant of the stream and a
    directory that is not absurdly large. *)
Definition files_ok (w : wlog) (acc : list Z) (ch : list nat) (k : nat) : Prop :=
  linv (MkL (tf w) (tfs w) acc ch) /\ Z.of_nat (size (dir (tfs w))) + Z.of_nat k + 1 < 10 ^ 20.

(** The blocks, each cut to what the write reported. *)
Definition written (rs : list Z) (bs : list (list Z)) : list Z :=
  concat (zip_with (fun r b => take (Z.to_nat r) b) rs bs).

Lemma outputs_spec es p w bs acc ch :
  callback = false -> segment_log (ring w) = false ->
  files_ok w acc ch (2 * length bs) -> Forall2 (fun e b => wrote e <= zlen b) es bs ->
  exists w' ch' rs, outputs es p w bs = Ok (w', []) /\ ring w' = ring w /\ is_exit w' = is_exit w /\
    length rs = length bs /\ files_ok w' (acc ++ written rs bs) ch' 0.
Proof.
  intros Hc Hseg Hf Hes. revert w acc ch Hseg Hf. induction Hes as [|e b es bs He Hes IH]; intros w acc ch Hseg Hf.
  - exists w, ch, []. unfold written. simpl. by rewrite app_nil_r.
  - destruct Hf as [Hl Hk]. cbn [length] in Hk.
    destruct (write_inv localtime_r readdir rename_err e (tf w) (tfs w) b acc ch Hl) as (r & f & s & E & Hl1);
      [unfold roomy; lia|done|].
    pose proof (adds_write _ _ _ _ _ _ _ _ _ _ E) as Ha. unfold adds in Ha.
    destruct (IH (set_files w f s) (acc ++ take (Z.to_nat r) b) (extend ch (fd f)) Hseg) as (w' & ch' & rs & E1 & E2 & E3 & E4 & Hf').
    { split; [exact Hl1|]. simpl. lia. }
    exists w', ch', (r :: rs). cbn [outputs]. unfold output.
    assert (Eo : (if root_out w then root_write_log callback (segment_log (ring w)) (p =? root)%nat b
                  else Ok (ToFile b)) = Ok (ToFile b)).
    { rewrite Hseg. unfold root_write_log. rewrite Hc. by destruct (root_out w). }
    rewrite Eo, bind_ret, E, !bind_ret, E1, bind_ret. split; [done|]. split; [done|]. split; [done|].
    split; [cbn; by rewrite E4|]. unfold written in *. simpl. by rewrite <- app_assoc in Hf'.
Qed.

Lemma files_ok_ring w l acc ch k : files_ok w acc ch k -> files_ok (set_ring w l) acc ch k.
Proof. done. Qed.

(** The one or two blocks that a round takes from a buffer. *)
Definition blocks (l : tlog_log) : list (list Z) :=
  match take_snapshot l with
  | Some (sn, l) => match write_buff_log l sn with Ok bs => bs | UB _ => [] end
  | None => []
  end.

(** The report of dropped messages that follows the blocks. *)
Definition reports (l : tlog_log) : list (list Z) :=
  if dropped l >? 0 then [drop_text (dropped l)] else [].

(** A round's work on one log. *)
Lemma serve_spec es p w acc ch :
  callback = false -> log_wf (ring w) -> segment_log (ring w) = false ->
  tlog_has_data (ring w) = true -> files_ok w acc ch 6 ->
  concat (blocks (ring w)) = TlogRing.content (ring w) /\ (length (blocks (ring w)) <= 2)%nat /\
  let bs := blocks (ring w) in
  let rep := reports (ring w) in
  (Forall2 (fun e b => wrote e <= zlen b) es (bs ++ rep) ->
   exists w' ch' rs, serve es p w = Ok (w', []) /\
     length rs = length (bs ++ rep) /\
     files_ok w' (acc ++ written rs (bs ++ rep)) ch' 0 /\
     tlog_has_data (ring w') = false /\ dropped (ring w') = 0 /\ log_wf (ring w') /\
     is_exit w' = is_exit w).
Proof.
  intros Hc Hwf Hseg Hdata Hf.
  destruct (take_snapshot (ring w)) as [[sn l]|] eqn:Et.
  2: { unfold take_snapshot in Et. rewrite Hdata in Et. simpl in Et.
       destruct (ext_end (ring w) >? 0), (lend (ring w) <? start (ring w)), (lend (ring w) >? start (ring w)); done. }
  destruct (snapshot_ok _ _ _ Hwf Et) as (Hok & El & Hdr).
  destruct (drained _ _ _ Hwf Et) as [Hno _].
  pose proof (wf_dropped (ring w) 0 Hwf) as Hwf1. rewrite <- El in Hwf1.
  assert (Hok1 : snap_ok l sn) by (by rewrite El).
  destruct (write_taken l sn Hwf1 Hok1) as (bs & Ew & Hbs).
  destruct (release_content l sn Hwf1 Hok1) as [Hcont Hwf2].
  assert (Hnil : TlogRing.content (release l sn) = []).
  { unfold TlogRing.content, tlog_has_data in *. apply orb_false_iff in Hno as [H1 H2].
    apply negb_false_iff, Z.eqb_eq in H1. destruct (wf_shape _ Hwf2) as [[E _]|[Hx _]].
    - by rewrite E, H1, Z.sub_diag.
    - pose proof (wf_size _ Hwf2). rewrite Z.gtb_ltb in H2. apply Z.ltb_ge in H2. lia. }
  assert (Hlen : (length bs <= 2)%nat).
  { unfold write_buff_log in Ew. apply bind_ok in Ew as (x & _ & Ew).
    destruct (log_extlen sn >? 0); [apply bind_ok in Ew as (y & _ & Ew)|]; injection Ew as <-; simpl; lia. }
  assert (Ebs : blocks (ring w) = bs) by (unfold blocks; by rewrite Et, Ew).
  rewrite Ebs. assert (Hcl : TlogRing.content l = TlogRing.content (ring w)) by (by rewrite El).
  split; [by rewrite Hbs, <- Hcl, Hcont, Hnil, app_nil_r|]. split; [done|]. intros bs' rep Hes.
  assert (Hwk : work_write l sn = Ok (bs, if dropped (ring w) >? 0 then Some (dropped (ring w)) else None)).
  { unfold work_write. assert (segment_log l = false) as -> by (by rewrite El). by rewrite Ew, bind_ret, Hdr. }
  assert (Hrep : report (if dropped (ring w) >? 0 then Some (dropped (ring w)) else None) = rep)
    by (unfold rep, reports; by destruct (_ >? 0)).
  assert (Hsz : files_ok (set_ring w l) acc ch (2 * length (bs ++ rep))).
  { destruct Hf as [Hl Hk]. split; [exact Hl|]. simpl in *. rewrite length_app.
    assert (length rep <= 1)%nat by (unfold rep, reports; destruct (_ >? 0); simpl; lia). lia. }
  assert (Hsegl : segment_log (ring (set_ring w l)) = false) by (simpl; by rewrite El).
  destruct (outputs_spec es p (set_ring w l) (bs ++ rep) acc ch Hc Hsegl Hsz Hes)
    as (w1 & ch1 & rs & E1 & E2 & E3 & E4 & Hf1).
  exists (set_ring w1 (release (ring w1) sn)), ch1, rs.
  unfold serve. rewrite Et, Hwk, bind_ret, Hrep, E1, bind_ret. split; [done|]. split; [done|].
  split; [by apply files_ok_ring|]. simpl. rewrite E2. simpl. split; [done|]. split; [by rewrite El|]. by split.
Qed.

(** ** A round of the work thread *)
Definition all_alive (g : logger) : Prop := forall p, p ∈ logs g -> is_Some (heap g !! p).
Definition no_gzip (g : logger) : Prop := forall p w, heap g !! p = Some w -> zipping (tf w) = false.

Lemma any_has_data_ok g l : (forall p, p ∈ l -> is_Some (heap g !! p)) -> is_ok (any_has_data g l).
Proof.
  induction l as [|p l IH]; intros H; simpl; [by eexists|]. destruct (H p) as [w Hw]; [set_solver|].
  unfold get. rewrite Hw. simpl. destruct (tlog_has_data (ring w)); [by eexists|]. apply IH. set_solver.
Qed.

Lemma wait_pids_idle t reaped g l :
  no_gzip g -> (forall p, p ∈ l -> is_Some (heap g !! p)) -> wait_pids t reaped g l = Ok (set_last g None).
Proof.
  intros Hz. induction l as [|p l IH]; intros H; [done|]. simpl. destruct (H p) as [w Hw]; [set_solver|].
  unfold get. rewrite Hw. simpl. rewrite (Hz p w Hw). simpl. apply IH. set_solver.
Qed.

Lemma any_has_data_true g l p w :
  (forall q, q ∈ l -> is_Some (heap g !! q)) -> p ∈ l -> heap g !! p = Some w ->
  tlog_has_data (ring w) = true -> any_has_data g l = Ok true.
Proof.
  intros H Hp Hw Hd. induction l as [|q l IH]; [by apply elem_of_nil in Hp|]. simpl.
  destruct (H q) as [wq Hq]; [set_solver|]. unfold get. rewrite Hq. simpl.
  destruct (tlog_has_data (ring wq)) eqn:E; [done|]. apply IH; [set_solver|].
  apply elem_of_cons in Hp as [->|Hp]; [|done]. rewrite Hq in Hw. injection Hw as ->. congruence.
Qed.

(** A round at a log with data, and at a log without. *)
Lemma work_on_serves r p g w :
  heap g !! p = Some w -> tlog_has_data (ring w) = true ->
  work_on r p g =
    ('(w, c) ← serve (r_writes r) p w;
     Ok (Some p, MkLogger (run g) (logs g) (<[p := w]> (heap g)) (last_log g) (calls g ++ c))).
Proof. intros Hw Hd. unfold work_on, get. rewrite Hw. simpl. by rewrite Hd. Qed.

Lemma work_on_closes r p g w :
  heap g !! p = Some w -> tlog_has_data (ring w) = false -> is_exit w = true ->
  work_on r p g =
    ('(ret, g) ← tlog_close (r_close_reaped r) p g; Ok (if ret =? 0 then None else Some p, g)).
Proof. intros Hw Hd He. unfold work_on, get. rewrite Hw. simpl. by rewrite Hd, He. Qed.


(** ** Closing a log *)
(** Only the newest log can be closed: when the work thread closes
    another one, which [tlog_close] marked, the log is freed but the answer is
    -1, the thread keeps the pointer, and its next round, whatever happens in
    between, reads the freed log. *)
Theorem close_dangles r r' cur g q l p w :
  run g = true -> logs g = q :: l -> p ∈ l -> p <> q -> all_alive g -> no_gzip g ->
  heap g !! p = Some w -> is_exit w = true -> tlog_has_data (ring w) = false ->
  any_has_data g (logs g) = Ok true -> next_log g cur = Ok (Some p) ->
  exists g', work_round r cur g = Ok (Some (Some p, g')) /\ heap g' !! p = None /\ (p ∉ logs g') /\
    work_round r' (Some p) g' = UB UseAfterFree.
Proof.
  intros Hrun Hl Hp Hpq Halive Hz Hw Hex Hno Hany Hnext.
  set (g' := MkLogger true (q :: filter (fun r => r <> p) l) (delete p (heap g)) None (calls g)).
  assert (Hq : (q =? p)%nat = false) by (by apply Nat.eqb_neq).
  assert (Hclose : tlog_close (r_close_reaped r) p (set_last g None) = Ok (-1, g')).
  { unfold tlog_close, get. simpl. rewrite Hw. simpl. unfold wait_log. rewrite (Hz p w Hw). simpl.
    rewrite (Hz p w Hw). destruct (log_unlock _ _) as [f s]. rewrite Hl, Hq, bool_decide_eq_true_2 by done.
    unfold g', set_logs. simpl. by rewrite Hrun. }
  exists g'. split.
  { unfold work_round. rewrite Hany, bind_ret, Hrun. cbn [negb andb].
    rewrite wait_pids_idle by done. rewrite bind_ret.
    assert (En : next_log (set_last g None) cur = Ok (Some p)) by done. rewrite En, bind_ret.
    by rewrite (work_on_closes r p (set_last g None) w), Hclose by done. }
  split; [apply lookup_delete_eq|].
  split; [simpl; rewrite elem_of_cons, list_elem_of_filter; tauto|].
  assert (Halive' : forall k, k ∈ logs g' -> is_Some (heap g' !! k)).
  { simpl. intros k Hk. rewrite elem_of_cons, list_elem_of_filter in Hk.
    assert (k <> p) by (intros ->; tauto). rewrite lookup_delete_ne by done.
    apply Halive. rewrite Hl, elem_of_cons. tauto. }
  unfold work_round. destruct (any_has_data_ok g' (logs g') Halive') as [b ->]. rewrite bind_ret.
  cbn [run g' negb andb]. rewrite wait_pids_idle.
  - rewrite bind_ret. unfold next_log, get. simpl. by rewrite lookup_delete_eq.
  - intros k w' H. simpl in H. apply lookup_delete_Some in H as [_ H]. by apply (Hz k).
  - done.
Qed.

(** ** The watch over gzip *)
(** The watch over a log's gzip process is defined and keeps its stream. *)
Lemma wait_log_ok b w acc ch k :
  files_ok w acc ch k ->
  exists w', wait_log b w = Ok w' /\ ring w' = ring w /\ is_exit w' = is_exit w /\ files_ok w' acc ch k.
Proof.
  intros [Hl Hk]. unfold wait_log. destruct (zipping (tf w) && b) eqn:Ez; [|by exists w].
  apply andb_true_iff in Ez as [Ez _]. assert (Hr : roomy (tfs w)) by (unfold roomy; lia).
  assert (E : is_ok (wait_pid localtime_r readdir rename_err (tf w) (tfs w))).
  { unfold wait_pid. rewrite Ez. simpl.
    destruct (quiet_rename_logfile localtime_r rename_err (set_zip (tf w) false)
      (pending_gz (set_zip (tf w) false)) (tfs w) (roomy_small _ Hr)) as ([s1|] & -> & _); by eexists. }
  destruct E as [[f s] E]. rewrite E, bind_ret. exists (set_files w f s). split; [done|].
  split; [done|]. split; [done|]. pose proof (adds_wait _ _ _ _ _ _ _ E) as Ha. unfold adds in Ha. split; [|simpl; lia].
  apply (linv_step localtime_r readdir rename_err (MkL (tf w) (tfs w) acc ch)); [done|].
  by apply (ls_wait _ _ _ (MkL (tf w) (tfs w) acc ch)).
Qed.

(** With one log it does not matter whether it is its turn. *)
Lemma wait_pids_one t b g p w acc ch k :
  heap g !! p = Some w -> files_ok w acc ch k ->
  exists g' w', wait_pids t b g [p] = Ok g' /\ logs g' = logs g /\ run g' = run g /\ calls g' = calls g /\
    heap g' = <[p := w']> (heap g) /\ ring w' = ring w /\ is_exit w' = is_exit w /\ files_ok w' acc ch k.
Proof.
  intros Hw Hf. cbn [wait_pids]. unfold get at 1. rewrite Hw. cbn [of_option]. rewrite bind_ret.
  destruct (_ || _).
  - exists (set_last g None), w. by rewrite insert_id.
  - destruct (wait_log_ok b (MkWlog (ring w) (tf w) (tfs w) (root_out w) (is_exit w) t) acc ch k)
      as (w' & -> & ? & ? & ?); [done|]. rewrite bind_ret. eexists _, w'. split; [done|]. done.
Qed.

(** ** The last rounds of the only log *)
Definition one_log (g : logger) (p : nat) (w : wlog) : Prop := logs g = [p] /\ heap g !! p = Some w.
Definition to_write (l : tlog_log) : list (list Z) := if tlog_has_data l then blocks l ++ reports l else [].
Definition takes (r : round) (bs : list (list Z)) : Prop :=
  Forall2 (fun e b => wrote e <= zlen b) (r_writes r) bs.

Lemma any_data_one g p w : one_log g p w -> any_has_data g (logs g) = Ok (tlog_has_data (ring w)).
Proof.
  intros [-> Hw]. cbn [any_has_data]. unfold get. rewrite Hw. cbn [of_option]. rewrite bind_ret.
  by destruct (tlog_has_data (ring w)).
Qed.

Lemma round_ends r cur g p w :
  one_log g p w -> run g = false -> tlog_has_data (ring w) = false -> work_round r cur g = Ok None.
Proof. intros Ho Hr Hd. unfold work_round. by rewrite (any_data_one g p w Ho), bind_ret, Hr, Hd. Qed.

Lemma round_passes r g p w acc ch k :
  one_log g p w -> tlog_has_data (ring w) = true -> files_ok w acc ch k ->
  exists g' w', work_round r (Some p) g = Ok (Some (None, g')) /\ one_log g' p w' /\ run g' = run g /\
    ring w' = ring w /\ files_ok w' acc ch k.
Proof.
  intros Ho Hd Hf. unfold work_round. rewrite (any_data_one g p w Ho), bind_ret, Hd, andb_false_r.
  destruct Ho as [Hl Hw]. rewrite Hl.
  destruct (wait_pids_one (r_now r) (r_reaped r) g p w acc ch k Hw Hf)
    as (g' & w' & -> & El & Er & _ & Eh & Ew & _ & Hf').
  rewrite bind_ret. assert (Hw' : heap g' !! p = Some w') by (rewrite Eh; apply lookup_insert_eq).
  unfold next_log, get. rewrite Hw'. cbn [of_option]. rewrite bind_ret, El, Hl. cbn [next_of head].
  rewrite Nat.eqb_refl, bind_ret. exists g', w'. split; [done|]. split; [by split; [rewrite El|]|done].
Qed.

Lemma round_serves r g p w acc ch :
  one_log g p w -> callback = false -> log_wf (ring w) -> segment_log (ring w) = false ->
  tlog_has_data (ring w) = true -> files_ok w acc ch 6 -> takes r (to_write (ring w)) ->
  exists g' w' ch' ws, work_round r None g = Ok (Some (Some p, g')) /\ one_log g' p w' /\
    run g' = run g /\ length ws = length (to_write (ring w)) /\
    files_ok w' (acc ++ written ws (to_write (ring w))) ch' 0 /\ tlog_has_data (ring w') = false.
Proof.
  intros Ho Hc Hwf Hseg Hd Hf Ht. unfold to_write, takes in *. rewrite Hd in *. unfold work_round.
  rewrite (any_data_one g p w Ho), bind_ret, Hd, andb_false_r. destruct Ho as [Hl Hw]. rewrite Hl.
  destruct (wait_pids_one (r_now r) (r_reaped r) g p w acc ch 6 Hw Hf)
    as (g' & w' & -> & El & Er & _ & Eh & Ew & _ & Hf').
  rewrite bind_ret. assert (Hw' : heap g' !! p = Some w') by (rewrite Eh; apply lookup_insert_eq).
  unfold next_log. rewrite El, Hl. cbn [head]. rewrite bind_ret. cbn [negb andb].
  rewrite <- Ew in Hwf, Hseg, Hd, Ht. rewrite (work_on_serves r p g' w') by done.
  destruct (serve_spec (r_writes r) p w' acc ch Hc Hwf Hseg Hd Hf') as (_ & _ & Hserve).
  destruct (Hserve Ht) as (w2 & ch2 & ws & -> & Hlen & Hf2 & Hn & _). rewrite bind_ret, Ew in *.
  eexists _, w2, ch2, ws. split; [done|]. split; [|done].
  split; simpl; [by rewrite El|]. rewrite Eh. apply lookup_insert_eq.
Qed.

(** The thread ends and has moved everything into the log's file. *)
Definition drains (rs : list round) (cur : option nat) (g : logger) (p : nat) (w : wlog) (acc : list Z) : Prop :=
  exists g' w' ch' ws, work_runs rs cur g = Ok g' /\ one_log g' p w' /\ run g' = false /\
    length ws = length (to_write (ring w)) /\
    files_ok w' (acc ++ written ws (to_write (ring w))) ch' 0 /\ tlog_has_data (ring w') = false.

Lemma drains_nothing r rs cur g p w acc ch k :
  one_log g p w -> run g = false -> tlog_has_data (ring w) = false -> files_ok w acc ch k ->
  drains (r :: rs) cur g p w acc.
Proof.
  intros Ho Hr Hd [Hl Hk]. exists g, w, ch, []. cbn [work_runs].
  rewrite (round_ends r cur g p w Ho Hr Hd), bind_ret. unfold to_write, written. rewrite Hd. simpl.
  rewrite app_nil_r. do 4 (split; [done|]). split; [|done]. split; [done|lia].
Qed.

Section Drain.
Context (p : nat) (acc : list Z) (ch : list nat) (Hc : callback = false).

Lemma drains_start rs g w :
  one_log g p w -> run g = false -> log_wf (ring w) -> segment_log (ring w) = false ->
  files_ok w acc ch 6 -> (2 <= length rs)%nat -> Forall (fun r => takes r (to_write (ring w))) rs ->
  drains rs None g p w acc.
Proof using Hc.
  intros Ho Hr Hwf Hseg Hf Hlen Ht. destruct rs as [|r1 [|r2 rs]]; simpl in Hlen; [lia|lia|].
  inversion_clear Ht as [|? ? Ht1 _].
  destruct (tlog_has_data (ring w)) eqn:Hd; [|by eapply drains_nothing].
  destruct (round_serves r1 g p w acc ch Ho Hc Hwf Hseg Hd Hf Ht1)
    as (g' & w' & ch' & ws & E & Ho' & Hr' & Hl & Hf' & Hn).
  exists g', w', ch', ws. cbn [work_runs].
  rewrite E, bind_ret, (round_ends r2 (Some p) g' p w' Ho'), bind_ret by congruence.
  split; [done|]. split; [done|]. split; [congruence|done].
Qed.

(** Three rounds are enough. *)
Lemma runs_drain rs cur g w :
  one_log g p w -> run g = false -> cur = None \/ cur = Some p ->
  log_wf (ring w) -> segment_log (ring w) = false -> files_ok w acc ch 6 ->
  (3 <= length rs)%nat -> Forall (fun r => takes r (to_write (ring w))) rs ->
  drains rs cur g p w acc.
Proof using Hc.
  intros Ho Hr Hcur Hwf Hseg Hf Hlen Ht.
  destruct Hcur as [->| ->]; [apply drains_start; auto; lia|].
  destruct rs as [|r1 rs]; simpl in Hlen; [lia|]. inversion_clear Ht as [|? ? _ Ht'].
  destruct (tlog_has_data (ring w)) eqn:Hd; [|by eapply drains_nothing].
  destruct (round_passes r1 g p w acc ch 6 Ho Hd Hf) as (g1 & w1 & E & Ho1 & Hr1 & Ew & Hf1).
  rewrite <- Ew in Hwf, Hseg, Ht'. rewrite Hr in Hr1. assert (Hlen1 : (2 <= length rs)%nat) by lia.
  destruct (drains_start rs g1 w1 Ho1 Hr1 Hwf Hseg Hf1 Hlen1 Ht') as (g' & w' & ch' & ws & E' & H).
  exists g', w', ch', ws. cbn [work_runs]. rewrite E, bind_ret, <- Ew. done.
Qed.
End Drain.

(** ** The end of the logger *)
Lemma close_head reaped p l g w :
  logs g = p :: l -> heap g !! p = Some w -> zipping (tf w) = false \/ (reaped = true /\ small (tfs w)) ->
  tlog_close reaped p g = Ok (0, set_logs g l (delete p (heap g))).
Proof.
  intros Hl Hw Hz. unfold tlog_close, get. rewrite Hw. simpl.
  assert (E : exists w', wait_log reaped w = Ok w' /\ zipping (tf w') = false).
  { unfold wait_log. destruct (zipping (tf w)) eqn:Ez; [|by exists w]. destruct Hz as [|[-> Hs]]; [done|]. simpl.
    unfold wait_pid. rewrite Ez. simpl.
    destruct (quiet_rename_logfile localtime_r rename_err (set_zip (tf w) false)
      (pending_gz (set_zip (tf w) false)) (tfs w) Hs) as (o & E & _). rewrite E, bind_ret.
    assert (Hu : forall s, exists f s', log_unlock (set_zip (tf w) false) s = (f, s') /\ zipping f = false).
    { intros s. unfold log_unlock. destruct (fd_lock _); eauto. }
    destruct o as [s1|].
    - destruct (Hu (remove_oldlog readdir (set_zip (tf w) false) s1)) as (f & s' & -> & Hf).
      rewrite bind_ret. by eexists.
    - destruct (Hu (tfs w)) as (f & s' & -> & Hf). rewrite bind_ret. by eexists. }
  destruct E as (w' & -> & E). rewrite bind_ret, E.
  destruct (log_unlock _ _) as [f s]. by rewrite Hl, Nat.eqb_refl.
Qed.

(** The loop of [tlog_exit] ends after one close per log and frees them
    all, when every gzip process that still runs can be waited for; when
    [waitpid] cannot answer for the first log's process, as in a program that
    ignores SIGCHLD, the loop never ends. *)
Theorem exit_closes_all g :
  (NoDup (logs g) -> all_alive g -> (forall p w, heap g !! p = Some w -> small (tfs w)) ->
   exists g', close_all (length (logs g)) true g = Ok g' /\ logs g' = [] /\
     forall p, heap g' !! p = if bool_decide (p ∈ logs g) then None else heap g !! p) /\
  (forall p l w, logs g = p :: l -> heap g !! p = Some w -> zipping (tf w) = true ->
     forall fuel, close_all fuel false g = UB OutOfFuel).
Proof.
  split.
  - intros Hnd Halive Hs. remember (logs g) as l eqn:El. symmetry in El.
    revert g El Halive Hs. induction l as [|p l IH]; intros g El Halive Hs.
    { exists g. simpl. by rewrite El. }
    apply NoDup_cons in Hnd as [Hp Hnd].
    destruct (Halive p) as [w Hw]; [rewrite El; set_solver|].
    set (g1 := set_logs g l (delete p (heap g))).
    assert (Hc : tlog_close true p g = Ok (0, g1)) by (apply (close_head true p l g w); eauto).
    destruct (IH Hnd g1) as (g' & E & Hl' & Hgone); [done| | |].
    + intros k Hk. simpl in *. rewrite lookup_delete_ne by (intros ->; done).
      apply Halive. rewrite El. set_solver.
    + intros k w' H. simpl in H. apply lookup_delete_Some in H as [_ H]. by apply (Hs k w').
    + exists g'. cbn [length close_all]. rewrite El, Hc, bind_ret. split; [done|]. split; [done|].
      intros k. rewrite Hgone. simpl. destruct (decide (k = p)) as [->|Hk].
      * rewrite lookup_delete_eq. rewrite (bool_decide_eq_true_2 (p ∈ p :: l)) by set_solver.
        by destruct (bool_decide (p ∈ l)).
      * rewrite lookup_delete_ne by done. by rewrite (bool_decide_ext (k ∈ p :: l) (k ∈ l)) by set_solver.
  - intros p l w Hl Hw Hz fuel. revert g w Hl Hw Hz. induction fuel as [|fuel IH]; intros g w Hl Hw Hz.
    { simpl. by rewrite Hl. }
    cbn [close_all]. rewrite Hl. unfold tlog_close, get. rewrite Hw. simpl.
    unfold wait_log. rewrite andb_false_r. simpl. rewrite Hz. simpl.
    apply (IH _ w); simpl; [done|apply lookup_insert_eq|done].
Qed.

End Work.

(** ** The properties at concrete inputs *)
Definition demo_ring : tlog_log :=
  match vprintf_locked demo_line (new_log demo_buff false false) with
  | Ok (_, l) => l | UB _ => new_log demo_buff false false end.
Definition demo_wlog : wlog := MkWlog demo_ring demo_new demo_fs true false 0.

Lemma demo_ring_wf : log_wf demo_ring.
Proof.
  split; [by vm_compute|by vm_compute|by vm_compute|by vm_compute|]. left. by vm_compute.
Qed.

Lemma demo_files_ok : files_ok demo_wlog [97; 98; 99] [0%nat] 6.
Proof.
  split; [|by vm_compute]. apply (linv_start demo_new demo_fs); [done|]. intros n i H. simpl in H.
  apply lookup_insert_Some in H as [[<- <-]|[_ H]]; [by eexists|].
  apply lookup_insert_Some in H as [[<- <-]|[_ H]]; [by eexists|].
  apply lookup_singleton_Some in H as [<- <-]. by eexists.
Qed.

(** Two logs: the newer has data, the older is closed. *)
Definition demo_old : wlog := MkWlog (new_log demo_buff false false) demo_new demo_fs false true 0.
Definition demo_logger : logger :=
  MkLogger true [1; 0]%nat {[ 0%nat := demo_old; 1%nat := demo_wlog ]} None [].
Definition demo_round : round := MkRound 50 false false None [].

Lemma demo_alive : all_alive demo_logger.
Proof. intros p [-> | [-> | []%elem_of_nil]%elem_of_cons]%elem_of_cons; by eexists. Qed.

Lemma demo_logs k w : heap demo_logger !! k = Some w -> w = demo_old \/ w = demo_wlog.
Proof.
  intros H. simpl in H. apply lookup_insert_Some in H as [[_ <-]|[_ H]]; [by left|].
  apply lookup_singleton_Some in H as [_ <-]. by right.
Qed.

Lemma demo_no_gzip : no_gzip demo_logger.
Proof. intros k w [-> | ->]%demo_logs; reflexivity. Qed.


Lemma close_dangles_witness :
  exists g, work_round TlogTime.demo_localtime demo_readdir no_err false 0 demo_round (Some 1%nat) demo_logger =
      Ok (Some (Some 0%nat, g)) /\
    work_round TlogTime.demo_localtime demo_readdir no_err false 0 demo_round (Some 0%nat) g = UB UseAfterFree.
Proof.
  destruct (close_dangles TlogTime.demo_localtime demo_readdir no_err false 0 demo_round demo_round
    (Some 1%nat) demo_logger 1 [0%nat] 0 demo_old) as (g & E & _ & _ & H).
  - reflexivity.
  - reflexivity.
  - set_solver.
  - done.
  - exact demo_alive.
  - exact demo_no_gzip.
  - reflexivity.
  - reflexivity.
  - reflexivity.
  - by vm_compute.
  - reflexivity.
  - exists g. split; [exact E|exact H].
Defined.

Lemma exit_closes_all_witness :
  exists g, close_all TlogTime.demo_localtime demo_readdir no_err 2 true demo_logger = Ok g /\ logs g = [].
Proof.
  destruct (proj1 (exit_closes_all TlogTime.demo_localtime demo_readdir no_err demo_logger))
    as (g & E & Hl & _).
  - by apply (bool_decide_unpack _).
  - exact demo_alive.
  - intros k w [-> | ->]%demo_logs; exact demo_small.
  - exists g. split; [exact E|exact Hl].
Defined.
End TlogWork.
