(* ===== verification/TlogNotify.v ===== *)
(** The sleep of the work thread (src/useapp/tlog.c, [_tlog_wait_log_locked]
    and the lines that signal [tlog.cond]): who wakes it, for which log, on
    the list of logs and the rounds of [TlogWork]. *)
From S2P Require Import Prelude TlogTime TlogRing TlogRoot TlogFile TlogWork.

Module TlogNotify.
Import TlogRing TlogRoot TlogFile TlogWork.

#[local] Set Proof Using Clear Unused.
#[local] Set Default Proof Using "Type".

(** Where the work thread is: before a round, at [cur]; in
    [pthread_cond_timedwait]; at its end. *)
Inductive wpc : Type := Awake (cur : option nat) | Asleep | Ended.
#[global] Instance wpc_eq_dec : EqDecision wpc.
Proof. solve_decision. Defined.

(** [struct tlog] with the fields of the sleep; [signalled]: a signal has
    reached the sleeping thread. *)
Record nstate := MkN {
  core : logger;
  notify_log : option nat;
  is_wait : bool;
  wait_on_log : option nat;
  signalled : bool;
  at_pc : wpc
}.

Definition set_core (st : nstate) (g : logger) : nstate :=
  MkN g (notify_log st) (is_wait st) (wait_on_log st) (signalled st) (at_pc st).
Definition set_notify (st : nstate) (o : option nat) : nstate :=
  MkN (core st) o (is_wait st) (wait_on_log st) (signalled st) (at_pc st).

(** [pthread_cond_signal(&tlog.cond)]: nobody else waits there; without a
    sleeper the signal is lost. *)
Definition cond_signal (st : nstate) : nstate :=
  match at_pc st with
  | Asleep => MkN (core st) (notify_log st) (is_wait st) (wait_on_log st) true Asleep
  | _ => st
  end.

(** The part of [_tlog_vprintf] under the lock, on the log [p]. *)
Definition print (p : nat) (d : list Z) (st : nstate) : res (vret * nstate) :=
  w ← get (core st) p;
  '(r, l) ← vprintf_locked d (ring w);
  let st' := set_core st (set_heap (core st) (<[p := set_ring w l]> (heap (core st)))) in
  if maxlen (ring w) <? TLOG_MAX_LINE_LEN then
    if negb (lend (ring w) =? start (ring w)) then Ok (r, cond_signal (set_notify st' (Some p)))
    else Ok (r, st')
  else if is_wait st then Ok (r, cond_signal (set_notify st' (Some p)))
  else Ok (r, st').

(** [tlog_close] by the owner of a log; the start of [tlog_exit]. *)
Definition mark_exit (p : nat) (st : nstate) : res nstate :=
  w ← get (core st) p;
  Ok (set_core st (set_heap (core st)
    (<[p := MkWlog (ring w) (tf w) (tfs w) (root_out w) true (last_waitpid w)]> (heap (core st))))).
Definition quit (st : nstate) : nstate :=
  let g := core st in
  cond_signal (set_core st (MkLogger false (logs g) (heap g) (last_log g) (calls g))).

Definition ETIMEDOUT : Z := 110.

(** [_tlog_wait_log_locked], up to the wait and after it. *)
Definition wait_enter (last_log : option nat) (st : nstate) : nstate :=
  MkN (core st) (notify_log st) true last_log false Asleep.
Definition wait_leave (ret : Z) (st : nstate) : option nat * nstate :=
  let awake o := MkN (core st) o false None false (Awake None) in
  if (ret =? 0) || (ret =? ETIMEDOUT) then (notify_log st, awake None)
  else (None, awake (notify_log st)).

Definition go_on (cur : option nat) (g : logger) (st : nstate) : nstate :=
  MkN g (notify_log st) (is_wait st) (wait_on_log st) (signalled st) (Awake cur).

Section Notify.
Context (localtime_r : Z -> option TlogTime.tm).
Context (readdir : gmap name nat -> option (list name)).
Context (rename_err : fs -> name -> name -> bool).
Context (callback : bool) (root : nat).

Abbreviation wait_pids := (TlogWork.wait_pids localtime_r readdir rename_err).
Abbreviation work_on := (TlogWork.work_on localtime_r readdir rename_err callback root).
Abbreviation work_round := (TlogWork.work_round localtime_r readdir rename_err callback root).
Abbreviation serve := (TlogWork.serve localtime_r readdir rename_err callback root).
Abbreviation tlog_close := (TlogWork.tlog_close localtime_r readdir rename_err).

(** The work thread from its place to the next: a round, or up to the wait;
    from the wait, which ended with [ret], to the end of the round. *)
Definition work_step (r : round) (ret : Z) (st : nstate) : res nstate :=
  let g := core st in
  match at_pc st with
  | Ended => Ok st
  | Awake cur =>
      some ← any_has_data g (logs g);
      if negb (run g) && negb some
      then Ok (MkN g (notify_log st) (is_wait st) (wait_on_log st) (signalled st) Ended)
      else
        g ← wait_pids (r_now r) (r_reaped r) g (logs g);
        cur ← next_log g cur;
        match cur with
        | None => Ok (go_on None g st)
        | Some p =>
            if negb some && run g then Ok (wait_enter (Some p) (set_core st g))
            else '(cur, g) ← work_on r p g; Ok (go_on cur g st)
        end
  | Asleep =>
      let '(log, st) := wait_leave ret st in
      match log with
      | None => Ok st
      | Some p => '(cur, g) ← work_on r p g; Ok (go_on cur g st)
      end
  end.

(** One step of the threads; those that print have a log of the list, and a
    line as [_tlog_vprintf] makes it. *)
Inductive nstep : nstate -> nstate -> Prop :=
| n_print p d r st st' :
    p ∈ logs (core st) -> 0 < zlen d < TLOG_MAX_LINE_LEN ->
    print p d st = Ok (r, st') -> nstep st st'
| n_exit p st st' : p ∈ logs (core st) -> mark_exit p st = Ok st' -> nstep st st'
| n_quit st : nstep st (quit st)
| n_work r ret st st' : work_step r ret st = Ok st' -> nstep st st'.

(** ** The invariant *)
Definition usable (g : logger) : Prop :=
  NoDup (logs g) /\
  forall p, p ∈ logs g ->
    exists w, heap g !! p = Some w /\ log_wf (ring w) /\ segment_log (ring w) = false.

Definition with_data (g : logger) (p : nat) : Prop :=
  p ∈ logs g /\ exists w, heap g !! p = Some w /\ tlog_has_data (ring w) = true.

Record ninv (st : nstate) : Prop := {
  ni_usable : usable (core st);
  ni_wait : is_wait st = bool_decide (at_pc st = Asleep);
  ni_data p : at_pc st = Asleep -> with_data (core st) p ->
    signalled st = true /\ exists q, notify_log st = Some q /\ with_data (core st) q;
  ni_quit : at_pc st = Asleep -> run (core st) = true \/ signalled st = true
}.

Definition start_state (g : logger) : nstate := MkN g None false None false (Awake None).

Lemma awake_start g : usable g -> ninv (start_state g).
Proof. intros Hg. by split. Qed.

(** The rings of the logs, and the list, are the same. *)
Definition same_rings (g g' : logger) : Prop :=
  logs g' = logs g /\ forall p, ring <$> heap g' !! p = ring <$> heap g !! p.

Lemma same_rings_refl g : same_rings g g.
Proof. done. Qed.

Lemma same_rings_trans g1 g2 g3 : same_rings g1 g2 -> same_rings g2 g3 -> same_rings g1 g3.
Proof. intros [? H1] [? H2]. split; [congruence|]. intros p. by rewrite H2. Qed.

Lemma same_rings_insert g p w w' :
  heap g !! p = Some w -> ring w' = ring w -> same_rings g (set_heap g (<[p := w']> (heap g))).
Proof.
  intros Hw Hr. split; [done|]. intros q. simpl.
  destruct (decide (q = p)) as [->|Hne]; [|by rewrite lookup_insert_ne].
  rewrite lookup_insert_eq, Hw. exact (f_equal Some Hr).
Qed.

Lemma same_ring g g' p w :
  same_rings g g' -> heap g !! p = Some w -> exists w', heap g' !! p = Some w' /\ ring w' = ring w.
Proof.
  intros [_ H] Hw. specialize (H p). rewrite Hw in H.
  destruct (heap g' !! p) as [w'|]; [|done]. injection H as H. exists w'. done.
Qed.

Lemma same_usable g g' : same_rings g g' -> usable g -> usable g'.
Proof.
  intros Hs [Hn Hl]. pose proof Hs as [El _]. split; [by rewrite El|]. intros p Hp. rewrite El in Hp.
  destruct (Hl p Hp) as (w & Hw & ? & ?). destruct (same_ring _ _ _ _ Hs Hw) as (w' & ? & Er).
  exists w'. by rewrite Er.
Qed.

Lemma same_with_data g g' p : same_rings g g' -> with_data g' p -> with_data g p.
Proof.
  intros [El H] (Hp & w & Hw & Hd). split; [by rewrite <- El|]. specialize (H p). rewrite Hw in H.
  destruct (heap g !! p) as [w'|]; [|done]. injection H as H. exists w'. by rewrite <- H.
Qed.

(** The watch over gzip leaves the rings alone. *)
Lemma wait_log_ring b w w' : wait_log localtime_r readdir rename_err b w = Ok w' -> ring w' = ring w.
Proof.
  unfold wait_log. destruct (_ && _); [|by intros [= <-]]. intros H.
  apply bind_ok in H as ([f s] & _ & [= <-]). done.
Qed.

Lemma wait_pids_rings t b g l g' : wait_pids t b g l = Ok g' -> same_rings g g'.
Proof.
  revert g. induction l as [|p l IH]; intros g H; simpl in H; [by injection H as <-|].
  apply bind_ok in H as (w & Hw & H). apply of_option_ok in Hw.
  destruct (_ || _); [by apply IH|]. apply bind_ok in H as (w' & Hr & [= <-]).
  apply wait_log_ring in Hr. by apply (same_rings_insert g p w w').
Qed.

(** ** The work thread keeps the list usable *)
Lemma output_ring e p w b w' c :
  output localtime_r readdir rename_err callback root e p w b = Ok (w', c) -> ring w' = ring w.
Proof.
  unfold output. intros H. apply bind_ok in H as (o & _ & H). destruct o; [|by injection H as <- _].
  apply bind_ok in H as ([[r f] s] & _ & H). by injection H as <- _.
Qed.

Lemma outputs_ring es p w bs w' c :
  outputs localtime_r readdir rename_err callback root es p w bs = Ok (w', c) -> ring w' = ring w.
Proof.
  revert es w c. induction bs as [|b bs IH]; intros [|e es] w c H; simpl in H;
    [by injection H as <- _|by injection H as <- _|done|]. apply bind_ok in H as ([w1 c1] & H1 & H).
  apply bind_ok in H as ([w2 c2] & H2 & H). injection H as <- _.
  rewrite (IH _ _ _ H2). by eapply output_ring.
Qed.

Lemma serve_ring es p w w' c :
  log_wf (ring w) -> segment_log (ring w) = false -> serve es p w = Ok (w', c) ->
  log_wf (ring w') /\ segment_log (ring w') = false.
Proof.
  intros Hwf Hseg H. unfold TlogWork.serve in H.
  destruct (take_snapshot (ring w)) as [[sn l]|] eqn:Et; [|by injection H as <- _].
  destruct (snapshot_ok _ _ _ Hwf Et) as (Hok & -> & _).
  apply bind_ok in H as ([out n] & _ & H). apply bind_ok in H as ([w1 c1] & Ho & H).
  injection H as <- _. apply outputs_ring in Ho. simpl in *. rewrite Ho. split; [|done].
  by apply (release_content (set_dropped (ring w) 0)); [apply wf_dropped|].
Qed.

(** A log of the list is changed, or one that is not in it. *)
Lemma usable_insert g p w :
  usable g -> (p ∈ logs g -> log_wf (ring w) /\ segment_log (ring w) = false) ->
  usable (set_heap g (<[p := w]> (heap g))).
Proof.
  intros [Hn Hl] Hw. split; [done|]. simpl. intros q Hq.
  destruct (decide (q = p)) as [->|Hne]; [rewrite lookup_insert_eq|rewrite lookup_insert_ne by done].
  - exists w. split; [done|]. by apply Hw.
  - by apply Hl.
Qed.

Lemma usable_drop g p l :
  usable g -> NoDup l -> (forall q, q ∈ l -> q ∈ logs g /\ q <> p) ->
  usable (set_logs g l (delete p (heap g))).
Proof.
  intros [_ Hl] Hn Hq. split; [done|]. simpl. intros q Hin. destruct (Hq q Hin).
  rewrite lookup_delete_ne by done. by apply Hl.
Qed.

Lemma close_usable b p g ret g' : usable g -> tlog_close b p g = Ok (ret, g') -> usable g'.
Proof.
  intros Hg H. unfold TlogWork.tlog_close in H. pose proof Hg as [Hn Hl].
  apply bind_ok in H as (w & Hw & H). apply of_option_ok in Hw.
  apply bind_ok in H as (w' & Hr & H). apply wait_log_ring in Hr.
  assert (Hp : forall w2, ring w2 = ring w -> p ∈ logs g ->
    log_wf (ring w2) /\ segment_log (ring w2) = false).
  { intros w2 -> Hin. destruct (Hl p Hin) as (w3 & E & ?). rewrite Hw in E. by injection E as <-. }
  destruct (zipping (tf w')); [injection H as _ <-; apply usable_insert; auto|].
  destruct (log_unlock _ _) as [f s]. destruct (logs g) as [|q l] eqn:El.
  { injection H as _ <-. apply usable_insert; [done|]. rewrite El. apply Hp. done. }
  apply NoDup_cons in Hn as [Hq Hn]. destruct (Nat.eqb_spec q p) as [->|Hne].
  - injection H as _ <-. apply usable_drop; [done|done|]. intros x Hx. rewrite El. set_solver.
  - destruct (bool_decide_reflect (p ∈ l)).
    + injection H as _ <-. apply usable_drop; [done| |].
      * apply NoDup_cons. split; [|by apply NoDup_filter]. rewrite list_elem_of_filter. tauto.
      * intros x. rewrite El, !elem_of_cons, list_elem_of_filter. intros [->|[? ?]]; auto.
    + injection H as _ <-. apply usable_insert; [done|]. rewrite El. apply Hp. done.
Qed.

Lemma work_on_usable r p g cur g' : usable g -> work_on r p g = Ok (cur, g') -> usable g'.
Proof.
  intros Hg H. unfold TlogWork.work_on in H. apply bind_ok in H as (w & Hw & H).
  apply of_option_ok in Hw. destruct (negb _).
  - destruct (is_exit w); [|by injection H as _ <-].
    apply bind_ok in H as ([ret g1] & H1 & H). injection H as _ <-. by eapply close_usable.
  - apply bind_ok in H as ([w1 c] & H1 & H). injection H as _ <-.
    apply (usable_insert g p w1 Hg). intros Hp. destruct (proj2 Hg p Hp) as (w2 & E & ? & ?).
    rewrite Hw in E. injection E as <-. by eapply serve_ring.
Qed.

(** ** A printing thread *)
Lemma printed_ring d l r l' :
  log_wf l -> segment_log l = false -> 0 < zlen d < TLOG_MAX_LINE_LEN ->
  vprintf_locked d l = Ok (r, l') ->
  log_wf l' /\ segment_log l' = false /\ tlog_has_data l' = true.
Proof.
  intros Hwf Hseg Hd H. unfold vprintf_locked in H.
  destruct (Z.ltb_spec (maxlen l) TLOG_MAX_LINE_LEN) as [Hm|Hm].
  - pose proof (full_has_data l Hwf Hm). destruct (block l); injection H as _ <-; [done|].
    split; [by apply wf_dropped|]. by split.
  - destruct (append_spec d l Hwf Hseg Hd Hm) as (l2 & E & Ha & Hwf2). rewrite E in H. simpl in H.
    injection H as _ <-. split; [done|]. pose proof (ap_same _ _ _ Ha) as (Es & _ & _ & _ & Esg).
    split; [by rewrite Esg|]. pose proof (wf_shape _ Hwf). pose proof (wf_start _ Hwf).
    pose proof (wf_end _ Hwf). unfold tlog_has_data. rewrite Es.
    destruct (ap_ends _ _ _ Ha) as [(E1 & E2 & E3)|(E1 & E2 & E3)]; rewrite E2.
    + destruct (Z.gtb_spec (ext_end l) 0); [by rewrite orb_true_r|].
      rewrite E1. destruct (Z.eqb_spec (lend l + zlen d) (start l)); [lia|done].
    + rewrite E3. destruct (Z.gtb_spec (lend l + zlen d) 0); [by rewrite orb_true_r|lia].
Qed.

Lemma with_data_insert g p w q :
  p ∈ logs g -> tlog_has_data (ring w) = true -> with_data g q ->
  with_data (set_heap g (<[p := w]> (heap g))) q.
Proof.
  intros Hp Hd (Hq & wq & Hwq & Hdq). split; [done|]. simpl.
  destruct (decide (q = p)) as [->|Hne]; [rewrite lookup_insert_eq|rewrite lookup_insert_ne by done]; eauto.
Qed.

Lemma with_data_new g p w :
  p ∈ logs g -> tlog_has_data (ring w) = true -> with_data (set_heap g (<[p := w]> (heap g))) p.
Proof. intros Hp Hd. split; [done|]. exists w. simpl. by rewrite lookup_insert_eq. Qed.

(** A signal for a log with data. *)
Lemma notified_inv st p :
  usable (core st) -> is_wait st = bool_decide (at_pc st = Asleep) -> with_data (core st) p ->
  ninv (cond_signal (set_notify st (Some p))).
Proof.
  intros Hu Hw Hp. unfold cond_signal. simpl. destruct (at_pc st) eqn:E.
  - split; simpl; rewrite ?E; try done; by rewrite Hw.
  - split; simpl; [done|done| |by right]. intros q _ _. eauto.
  - split; simpl; rewrite ?E; try done; by rewrite Hw.
Qed.

Lemma print_inv p d r st st' :
  ninv st -> p ∈ logs (core st) -> 0 < zlen d < TLOG_MAX_LINE_LEN -> print p d st = Ok (r, st') ->
  ninv st'.
Proof.
  intros [Hu Hw Hdata Hquit] Hp Hd H. destruct (proj2 Hu p Hp) as (w & Hwp & Hwf & Hseg).
  unfold print, get in H. rewrite Hwp in H. simpl in H.
  apply bind_ok in H as ([r' l] & Hv & H). destruct (printed_ring _ _ _ _ Hwf Hseg Hd Hv) as (Hwf' & Hseg' & Hd').
  set (g' := set_heap (core st) _) in H.
  assert (Hu' : usable g') by (by apply usable_insert).
  assert (Hnew : with_data g' p) by (by apply with_data_new).
  pose proof (notified_inv (set_core st g') p Hu' Hw Hnew) as Hsig.
  assert (Hplain : (at_pc st = Asleep -> with_data (core st) p) -> ninv (set_core st g')).
  { intros Hold. split; simpl; [done|done| |done]. intros q Ha _.
    destruct (Hdata p Ha (Hold Ha)) as (Hs & q' & Hn & Hq'). split; [done|]. exists q'. split; [done|].
    by apply with_data_insert. }
  destruct (Z.ltb_spec (maxlen (ring w)) TLOG_MAX_LINE_LEN) as [Hm|Hm].
  - destruct (negb _); injection H as _ <-; [done|]. apply Hplain. intros _. split; [done|].
    exists w. split; [done|]. by apply full_has_data.
  - destruct (is_wait st) eqn:Ew; injection H as _ <-; [done|]. apply Hplain. intros Ha.
    rewrite Ha in Hw. done.
Qed.

(** ** Every step *)
Lemma awake_inv st cur g : usable g -> at_pc st <> Asleep -> is_wait st = false -> ninv (go_on cur g st).
Proof. intros Hg Ha Hw. by split. Qed.

Lemma no_data g l p : any_has_data g l = Ok false -> p ∈ l -> ~ (exists w, heap g !! p = Some w /\ tlog_has_data (ring w) = true).
Proof.
  induction l as [|q l IH]; intros H Hp (w & Hw & Hd); [by apply not_elem_of_nil in Hp|]. simpl in H.
  apply bind_ok in H as (wq & Hq & H). apply of_option_ok in Hq.
  destruct (tlog_has_data (ring wq)) eqn:Ed; [done|]. apply elem_of_cons in Hp as [->|Hp].
  - rewrite Hw in Hq. injection Hq as ->. congruence.
  - by apply IH; [..|exists w].
Qed.

Lemma enter_inv st g p :
  usable g -> run g = true -> (forall q, ~ with_data g q) -> ninv (wait_enter (Some p) (set_core st g)).
Proof. intros Hg Hr Hno. split; simpl; [done|done| |by left]. intros q _ Hq. by apply Hno in Hq. Qed.

Lemma wait_pids_run t b g l g' : wait_pids t b g l = Ok g' -> run g' = run g.
Proof.
  revert g. induction l as [|p l IH]; intros g H; simpl in H; [by injection H as <-|].
  apply bind_ok in H as (w & _ & H). destruct (_ || _); [by apply IH|].
  by apply bind_ok in H as (w' & _ & [= <-]).
Qed.

Lemma work_inv r ret st st' : ninv st -> work_step r ret st = Ok st' -> ninv st'.
Proof.
  intros [Hu Hw Hdata Hquit] H. unfold work_step in H. destruct (at_pc st) as [cur| |] eqn:Ea.
  - apply bind_ok in H as (some & Hany & H). simpl in Hw.
    destruct (negb (run (core st)) && negb some); [injection H as <-; by split|].
    apply bind_ok in H as (g & Hg & H). pose proof (wait_pids_rings _ _ _ _ _ Hg) as Hs.
    pose proof (same_usable _ _ Hs Hu) as Hu'. apply bind_ok in H as ([p|] & _ & H).
    + destruct (negb some && run g) eqn:Eb.
      * injection H as <-. apply andb_true_iff in Eb as [Es Er]. destruct some; [done|].
        apply enter_inv; [done|done|]. intros q Hq. apply (same_with_data _ _ _ Hs) in Hq as [Hin Hq].
        by apply (no_data _ _ _ Hany Hin).
      * apply bind_ok in H as ([c g2] & H2 & H). injection H as <-.
        apply awake_inv; [by eapply work_on_usable|by rewrite Ea|done].
    + injection H as <-. apply awake_inv; [done|by rewrite Ea|done].
  - unfold wait_leave in H. destruct (_ || _); [|injection H as <-; by split].
    destruct (notify_log st) as [p|]; [|injection H as <-; by split].
    apply bind_ok in H as ([c g2] & H2 & H). injection H as <-. split; simpl; try done.
    by eapply work_on_usable.
  - injection H as <-. split; rewrite ?Ea; done.
Qed.

Lemma step_inv st st' : ninv st -> nstep st st' -> ninv st'.
Proof.
  intros Hi H. inversion H as [p d r ? ? Hp Hd E|p ? ? Hp E|?|r ret ? ? E]; subst.
  - by eapply print_inv.
  - destruct Hi as [Hu Hw Hdata Hquit]. unfold mark_exit in E. apply bind_ok in E as (w & Hg & E).
    apply of_option_ok in Hg. injection E as <-.
    set (g' := set_heap _ _). assert (Hs : same_rings (core st) g') by (by eapply same_rings_insert).
    assert (Hs' : same_rings g' (core st)) by (destruct Hs as [? Hs]; split; [done|]; intros q; by rewrite Hs).
    split; simpl; [by eapply same_usable|done| |done].
    intros q Ha Hq. destruct (Hdata q Ha) as (? & q' & ? & Hq'); [by eapply same_with_data|].
    split; [done|]. exists q'. split; [done|]. by eapply same_with_data.
  - destruct Hi as [Hu Hw Hdata Hquit]. unfold quit, cond_signal. simpl.
    destruct (at_pc st) eqn:Ea; split; simpl; rewrite ?Ea; try done; [|by right].
    intros q Ha Hq. destruct (Hdata q Ha Hq) as (_ & q' & ? & ?). eauto.
  - by eapply work_inv.
Qed.

Lemma awake_or_signalled g st : usable g -> star nstep (start_state g) st -> ninv st.
Proof. intros Hg. apply star_invariant; [apply step_inv|by apply awake_start]. Qed.

(** ** Properties *)

(** C26 - Nobody's line waits for a sleeping work thread.  However the threads
    that print, close logs and end the logger interleave with the work
    thread, whenever it sleeps and a log of the list has data, a signal has
    reached it and names a log with data; whichever way its wait ends, by the
    signal or by time, it takes just that log and writes it out.  And when
    the logger has been ended, the signal has reached it too. *)
Theorem sleeper_is_woken g st
    (Hg : usable g) (Hrun : star nstep (start_state g) st) (Hsleep : at_pc st = Asleep) :
  (run (core st) = false -> signalled st = true) /\
  forall p, with_data (core st) p ->
    signalled st = true /\
    exists q w, notify_log st = Some q /\ q ∈ logs (core st) /\ heap (core st) !! q = Some w /\
      tlog_has_data (ring w) = true /\
      forall r ret, ret = 0 \/ ret = ETIMEDOUT ->
        work_step r ret st =
          ('(w', c) ← serve (r_writes r) q w;
           Ok (MkN (MkLogger (run (core st)) (logs (core st)) (<[q := w']> (heap (core st)))
                      (last_log (core st)) (calls (core st) ++ c))
                 None false None false (Awake (Some q)))).
Proof.
  destruct (awake_or_signalled g st Hg Hrun) as [_ _ Hdata Hquit]. split.
  { intros Hr. destruct (Hquit Hsleep) as [H|H]; [congruence|done]. }
  intros p Hp. destruct (Hdata p Hsleep Hp) as (Hs & q & Hn & Hq & w & Hw & Hd).
  split; [done|]. exists q, w. split_and!; try done. intros r ret Hret. unfold work_step, wait_leave.
  rewrite Hsleep, Hn. assert ((ret =? 0) || (ret =? ETIMEDOUT) = true) as -> by (unfold ETIMEDOUT in *; lia).
  simpl. rewrite (work_on_serves _ _ _ _ _ r q (core st) w) by done.
  by destruct (TlogWork.serve _ _ _ _ _ _ _ _) as [[w' c]|].
Qed.

(** A step of the work thread that does not come to a wait is a round of
    [TlogWork]; a step up to the wait and the step after it are one, whose
    log is the one the wait answers. *)
Theorem steps_are_rounds r r' ret cur st st1 st2
    (Hcur : at_pc st = Awake cur) (Hstep : work_step r ret st = Ok st1) :
  match at_pc st1 with
  | Ended => work_round r cur (core st) = Ok None
  | Awake cur1 => work_round r cur (core st) = Ok (Some (cur1, core st1))
  | Asleep => work_step r' ret st1 = Ok st2 ->
      exists cur2, at_pc st2 = Awake cur2 /\
        work_round (MkRound (r_now r) (r_reaped r) (r_close_reaped r') (fst (wait_leave ret st1))
                      (r_writes r')) cur (core st) = Ok (Some (cur2, core st2))
  end.
Proof.
  unfold work_step in Hstep. rewrite Hcur in Hstep.
  apply bind_ok in Hstep as (some & Hany & Hstep). unfold TlogWork.work_round.
  destruct (negb (run (core st)) && negb some) eqn:E0.
  { injection Hstep as <-. simpl. by rewrite Hany, bind_ret, E0. }
  apply bind_ok in Hstep as (g & Hg & Hstep). apply bind_ok in Hstep as (o & Ho & Hstep).
  destruct o as [p|].
  2: { injection Hstep as <-. simpl. by rewrite Hany, bind_ret, E0, Hg, bind_ret, Ho. }
  destruct (negb some && run g) eqn:E1.
  - injection Hstep as <-. simpl. intros H2. unfold work_step in H2. simpl in H2.
    rewrite Hany, bind_ret, E0, Hg, bind_ret, Ho, bind_ret, E1. cbn [r_notify].
    unfold wait_leave in *. cbn [notify_log set_core wait_enter] in *.
    destruct ((ret =? 0) || (ret =? ETIMEDOUT)); [|injection H2 as <-; eauto].
    destruct (notify_log st) as [q|]; [|injection H2 as <-; eauto].
    apply bind_ok in H2 as ([c g2] & H2 & [= <-]). exists c. split; [done|]. simpl in H2. simpl.
    change (TlogWork.work_on localtime_r readdir rename_err callback root
      (MkRound (r_now r) (r_reaped r) (r_close_reaped r') (Some q) (r_writes r')) q g) with (work_on r' q g).
    by rewrite H2.
  - apply bind_ok in Hstep as ([c g2] & H2 & [= <-]). simpl.
    rewrite Hany, bind_ret, E0, Hg, bind_ret, Ho, bind_ret, E1. by rewrite H2.
Qed.

(** Closing a log leaves [notify_log] as it is: when it names the log that
    was freed, the next wait without a signal reads freed memory. *)
Theorem stale_notify r st p
    (Hsleep : at_pc st = Asleep) (Hstale : notify_log st = Some p) (Hfreed : heap (core st) !! p = None) :
  work_step r ETIMEDOUT st = UB UseAfterFree.
Proof.
  unfold work_step, wait_leave. rewrite Hsleep. simpl. rewrite Hstale.
  unfold TlogWork.work_on, get. simpl. by rewrite Hfreed.
Qed.
End Notify.

(** ** The properties at concrete inputs: two empty logs, the first of which
    does not block. *)
#[local] Abbreviation demo_step := (work_step TlogTime.demo_localtime demo_readdir no_err false 0).

Definition demo_empty : wlog :=
  MkWlog (new_log demo_buff false false) demo_new demo_fs false false 0.
Definition demo_two : logger :=
  MkLogger true [1; 0]%nat {[ 0%nat := demo_empty; 1%nat := demo_empty ]} None [].
Definition demo_turn : round := MkRound 50 false false None (repeat (demo_env 1) 3).

Lemma demo_usable : usable demo_two.
Proof.
  split; [by apply (bool_decide_unpack _)|].
  assert (Hwf : log_wf (new_log demo_buff false false)).
  { split; [by vm_compute|by vm_compute|by vm_compute|by vm_compute|]. left. by vm_compute. }
  intros p [-> | [-> | []%elem_of_nil]%elem_of_cons]%elem_of_cons; exists demo_empty; by split.
Qed.

(** The thread goes to sleep, then a line is printed. *)
Definition demo_sleep : nstate :=
  match demo_step demo_turn 0 (start_state demo_two) with Ok st => st | UB _ => start_state demo_two end.
Definition demo_printed : nstate :=
  match print 1 demo_line demo_sleep with Ok (_, st) => st | UB _ => demo_sleep end.

Lemma demo_sleep_step : demo_step demo_turn 0 (start_state demo_two) = Ok demo_sleep.
Proof. by vm_compute. Qed.
Lemma demo_print_step : print 1 demo_line demo_sleep = Ok (VRet (zlen demo_line), demo_printed).
Proof. by vm_compute. Qed.

Lemma sleeper_is_woken_witness :
  signalled demo_printed = true /\
  exists q w, notify_log demo_printed = Some q /\ heap (core demo_printed) !! q = Some w /\
    tlog_has_data (ring w) = true.
Proof.
  destruct (sleeper_is_woken TlogTime.demo_localtime demo_readdir no_err false 0 demo_two demo_printed
    demo_usable) as [_ H].
  - eapply star_step.
    + eapply star_step; [apply star_refl|]. eapply n_work. exact demo_sleep_step.
    + eapply n_print; [| |exact demo_print_step]; [vm_compute; left|split; by vm_compute].
  - by vm_compute.
  - destruct (H 1%nat) as (Hs & q & w & Hn & _ & Hw & Hd & _).
    + split; [vm_compute; left|]. eexists. split; [by vm_compute|by vm_compute].
    + split; [exact Hs|]. exists q, w. split; [exact Hn|]. split; [exact Hw|exact Hd].
Defined.

(** A log that was full names itself; it is drained, closed and freed while
    the other log keeps the work thread busy; then the thread sleeps and the
    time runs out. *)
Definition demo_text : list Z := repeat 97 1000.
Definition demo_work (st : res nstate) : res nstate := st ← st; demo_step demo_turn 0 st.
Definition demo_print (p : nat) (d : list Z) (st : res nstate) : res nstate :=
  st ← st; '(_, st) ← print p d st; Ok st.
Definition demo_stale : res nstate :=
  let full := demo_print 1 demo_text (demo_print 1 demo_text (demo_work
    (demo_print 1 (repeat 97 100) (Ok (start_state demo_two))))) in
  let drained := demo_work (demo_work (demo_work full)) in
  let closed := st ← drained; mark_exit 1 st in
  let freed := demo_work (demo_work (demo_print 0 demo_line (demo_work (demo_print 0 demo_line closed)))) in
  demo_work (demo_work (demo_work freed)).

Example stale_notify_reached :
  (st ← demo_stale; Ok (at_pc st, notify_log st, logs (core st))) = Ok (Asleep, Some 1%nat, [0%nat]) /\
  (st ← demo_stale; demo_step demo_turn ETIMEDOUT st) = UB UseAfterFree.
Proof. by vm_compute. Qed.

Definition demo_woken : nstate :=
  MkN (core demo_sleep) None false None false (Awake None).

Lemma steps_are_rounds_witness :
  exists cur, at_pc demo_woken = Awake cur /\
    work_round TlogTime.demo_localtime demo_readdir no_err false 0
      (MkRound 50 false false None (repeat (demo_env 1) 3)) None demo_two =
    Ok (Some (cur, core demo_woken)).
Proof.
  pose proof (steps_are_rounds TlogTime.demo_localtime demo_readdir no_err false 0 demo_turn demo_turn 0
    None (start_state demo_two) demo_sleep demo_woken eq_refl demo_sleep_step) as H.
  assert (Ea : at_pc demo_sleep = Asleep) by (by vm_compute). rewrite Ea in H.
  assert (En : fst (wait_leave 0 demo_sleep) = None) by (by vm_compute). rewrite En in H.
  apply H. by vm_compute.
Defined.
End TlogNotify.
