(* ===== verification/TlogInit.v ===== *)
(** The life of the logger (src/useapp/tlog.c, lines 83-94, 127-131, 282-298,
    615-625 and 1422-1674): its static state, the setters, the opening of a
    log, [tlog_init] and [tlog_exit]. *)
From S2P Require Import Prelude TlogTime TlogRing TlogRoot TlogFile TlogWork.

Module TlogInit.
Import TlogRing TlogRoot TlogFile TlogWork.

(** ** Constants and flags *)
Definition TLOG_BUFF_SIZE : Z := 1024 * 128.
Definition TLOG_LOG_SIZE : Z := 1024 * 1024 * 50.
Definition TLOG_LOG_COUNT : Z := 32.
Definition TLOG_LOG_NAME_LEN : Z := 128.

Definition TLOG_NOCOMPRESS : Z := 1.
Definition TLOG_SEGMENT : Z := 2.
Definition TLOG_MULTI_WRITE : Z := 4.
Definition TLOG_NONBLOCK : Z := 8.
Definition TLOG_SCREEN : Z := 16.
Definition flag_set (flag bit : Z) : bool := negb (Z.land flag bit =? 0).

(** ** Paths: [dirname] and [basename] of <libgen.h>

    For a path of slashes only both answer one slash. *)
Fixpoint skip (p : Z -> bool) (s : list Z) : list Z :=
  match s with [] => [] | c :: r => if p c then skip p r else s end.
Fixpoint upto (p : Z -> bool) (s : list Z) : list Z :=
  match s with [] => [] | c :: r => if p c then c :: upto p r else [] end.
Definition slash (c : Z) : bool := c =? 47.
Definition no_slash (c : Z) : bool := negb (slash c).

Definition dirname (s : list Z) : list Z :=
  match skip slash (reverse s) with
  | [] => match s with [] => bytes "." | _ => bytes "/" end
  | t => match skip no_slash t with
         | [] => bytes "."
         | t => match skip slash t with [] => bytes "/" | t => reverse t end
         end
  end.
Definition basename (s : list Z) : list Z :=
  match skip slash (reverse s) with
  | [] => match s with [] => bytes "." | _ => bytes "/" end
  | t => reverse (upto no_slash t)
  end.

(** The string that [strncpy] into an array of [n] bytes leaves there, when
    its last byte is then set to zero. *)
Definition copy_str (n : Z) (s : list Z) : res (list Z) :=
  b ← arr_set (strncpy_bytes s n) (n - 1) 0; c_string b.

(** ** The state *)

(** [tlog_format] when a formatter was registered, the default or nothing. *)
Inductive fmt : Type :=
| FNull | FDefault | FCustom (f : loginfo -> option (list Z) -> tlog_format_func).

(** [struct tlog] and the other static variables: [core] has the logs, [dirs]
    their [logdir], [prv] their [private_data]; [joinable] says whether [tid]
    is a thread that nobody has joined; [out_func] whether an output callback
    is registered. *)
Record tlog := MkTlog {
  core : logger;
  dirs : gmap nat name;
  prv : gmap nat Z;
  root_log : option nat;
  tid : Z;
  joinable : bool;
  out_func : bool;
  the_fmt : fmt;
  level_set : Z;
  early_off : bool
}.

Definition set_core (t : tlog) (g : logger) : tlog :=
  MkTlog g (dirs t) (prv t) (root_log t) (tid t) (joinable t) (out_func t) (the_fmt t)
    (level_set t) (early_off t).
Definition set_run (t : tlog) (b : bool) : tlog :=
  set_core t (MkLogger b (logs (core t)) (heap (core t)) (last_log (core t)) (calls (core t))).
Definition set_fmt (t : tlog) (f : fmt) : tlog :=
  MkTlog (core t) (dirs t) (prv t) (root_log t) (tid t) (joinable t) (out_func t) f
    (level_set t) (early_off t).
Definition set_thread (t : tlog) (o : option nat) (id : Z) (j : bool) : tlog :=
  MkTlog (core t) (dirs t) (prv t) o id j (out_func t) (the_fmt t) (level_set t) (early_off t).

(** The static variables at the start of the program. *)
Definition static : tlog :=
  MkTlog (MkLogger false [] ∅ None []) ∅ ∅ None 0 false false FNull TLOG_INFO false.

(** ** Setters *)
Definition tlog_set_early_printf (enable : Z) (t : tlog) : tlog :=
  MkTlog (core t) (dirs t) (prv t) (root_log t) (tid t) (joinable t) (out_func t) (the_fmt t)
    (level_set t) (enable =? 0).
Definition tlog_setlevel (lv : Z) (t : tlog) : Z * tlog :=
  if lv >=? TLOG_END then (-1, t)
  else (0, MkTlog (core t) (dirs t) (prv t) (root_log t) (tid t) (joinable t) (out_func t)
             (the_fmt t) lv (early_off t)).
Definition tlog_getlevel (t : tlog) : Z := level_set t.
Definition tlog_reg_format_func (f : fmt) (t : tlog) : Z * tlog := (0, set_fmt t f).

(** A log as the caller names it: [None] is a null pointer. *)
Definition change_log (f : wlog -> wlog) (o : option nat) (t : tlog) : res tlog :=
  match o with
  | None => Ok t
  | Some p => w ← get (core t) p; Ok (set_core t (set_heap (core t) (<[p := f w]> (heap (core t)))))
  end.

Definition set_screen (enable : Z) (w : wlog) : wlog :=
  let f := tf w in
  set_files w (MkFile (logname f) (suffix f) (logsize f) (logcount f) (multi_log f) (nocompress f)
                 (negb (enable =? 0)) (fd f) (filesize f) (zipping f) (fd_lock f) (last_try f)) (tfs w).
Definition tlog_logscreen (o : option nat) (enable : Z) (t : tlog) : res tlog :=
  change_log (set_screen enable) o t.
Definition tlog_setlogscreen (enable : Z) (t : tlog) : res tlog :=
  tlog_logscreen (root_log t) enable t.

(** The output functions of the program: [_tlog_root_write_log], or the null
    pointer, which stands for [_tlog_write]. *)
Definition tlog_reg_output_func (o : option nat) (root_write : bool) (t : tlog) : res (Z * tlog) :=
  match o with
  | None => Ok (-1, t)
  | Some _ =>
      t ← change_log (fun w => MkWlog (ring w) (tf w) (tfs w) root_write (is_exit w) (last_waitpid w)) o t;
      Ok (0, t)
  end.

Definition tlog_set_private (o : option nat) (d : Z) (t : tlog) : tlog :=
  match o with
  | None => t
  | Some p => MkTlog (core t) (dirs t) (<[p := d]> (prv t)) (root_log t) (tid t) (joinable t)
                (out_func t) (the_fmt t) (level_set t) (early_off t)
  end.
Definition tlog_get_private (o : option nat) (t : tlog) : Z :=
  match o with None => 0 | Some p => default 0 (prv t !! p) end.
Definition tlog_reg_log_output_func (output : bool) (d : Z) (t : tlog) : Z * tlog :=
  (0, tlog_set_private (root_log t) d
        (MkTlog (core t) (dirs t) (prv t) (root_log t) (tid t) (joinable t) output (the_fmt t)
           (level_set t) (early_off t))).

(** The public [tlog_close]: the work thread closes the log later. *)
Definition mark_exit (o : option nat) (t : tlog) : res tlog :=
  change_log (fun w => MkWlog (ring w) (tf w) (tfs w) (root_out w) true (last_waitpid w)) o t.

(** ** Lemmas on paths *)
Lemma skip_stop f a c r : Forall (fun x => f x = true) a -> f c = false -> skip f (a ++ c :: r) = c :: r.
Proof. intros Ha Hc. induction Ha as [|x a Hx Ha IH]; simpl; [by rewrite Hc|by rewrite Hx]. Qed.

Lemma upto_stop f a c r : Forall (fun x => f x = true) a -> f c = false -> upto f (a ++ c :: r) = a.
Proof. intros Ha Hc. induction Ha as [|x a Hx Ha IH]; simpl; [by rewrite Hc|by rewrite Hx, IH]. Qed.

(** A directory without a slash at its end, and a file name. *)
Definition is_dir (d : list Z) : Prop := exists d' c, d = d' ++ [c] /\ c <> 47.
Definition is_name (n : list Z) : Prop := n <> [] /\ Forall (fun c => c <> 47) n.

Lemma path_parts d n :
  is_dir d -> is_name n -> dirname (d ++ 47 :: n) = d /\ basename (d ++ 47 :: n) = n.
Proof.
  intros (d' & c & -> & Hc) [Hne Hn].
  assert (Hs : slash c = false) by (unfold slash; by apply Z.eqb_neq).
  assert (Hrn : Forall (fun x => no_slash x = true) (reverse n)).
  { apply Forall_reverse. eapply Forall_impl; [exact Hn|]. intros x Hx.
    unfold no_slash, slash. by apply negb_true_iff, Z.eqb_neq. }
  assert (E : reverse ((d' ++ [c]) ++ 47 :: n) = reverse n ++ 47 :: c :: reverse d').
  { rewrite reverse_app, reverse_cons, <- app_assoc. f_equal. by rewrite reverse_app. }
  assert (Hskip : skip slash (reverse n ++ 47 :: c :: reverse d') = reverse n ++ 47 :: c :: reverse d').
  { destruct (reverse n) as [|x r] eqn:Er.
    - apply (f_equal reverse) in Er. rewrite reverse_involutive in Er. by rewrite Er in Hne.
    - inversion_clear Hrn as [|? ? Hx _]. unfold no_slash in Hx. apply negb_true_iff in Hx. simpl. by rewrite Hx. }
  unfold dirname, basename. rewrite E, Hskip.
  destruct (reverse n ++ 47 :: c :: reverse d') as [|x r] eqn:Er; [by destruct (reverse n)|]. rewrite <- Er. split.
  - rewrite skip_stop by done. cbn [skip]. change (slash 47) with true. rewrite Hs.
    by rewrite reverse_cons, reverse_involutive.
  - rewrite upto_stop by done. apply reverse_involutive.
Qed.

Lemma copy_str_ok n s : no_nul s -> 0 < n -> copy_str n s = Ok (take (Z.to_nat (n - 1)) s).
Proof.
  intros Hs Hn. unfold copy_str. destruct (Z.le_gt_cases n (zlen s)) as [Hl|Hl].
  - assert (Hlen : zlen (take (Z.to_nat (n - 1)) s) = n - 1) by (apply zlen_take; lia).
    destruct (lookup_lt_is_Some_2 s (Z.to_nat (n - 1))) as [c Hc]; [unfold zlen in Hl; lia|].
    assert (E : strncpy_bytes s n = take (Z.to_nat (n - 1)) s ++ c :: []).
    { rewrite strncpy_long by lia. replace (Z.to_nat n) with (S (Z.to_nat (n - 1))) by lia. by apply take_S_r. }
    rewrite E, arr_set_at by (by rewrite Hlen). rewrite bind_ret. apply c_string_app. by apply Forall_take.
  - rewrite strncpy_fits by lia. rewrite take_ge by (unfold zlen in Hl; lia).
    assert (E : exists r, arr_set (s ++ zeros (n - zlen s)) (n - 1) 0 = Ok (s ++ 0 :: r)).
    { destruct (Z.eqb_spec (zlen s) (n - 1)) as [He|He].
      - rewrite zeros_cons by lia. rewrite arr_set_at by (by rewrite He). eauto.
      - assert (Ez : zeros (n - zlen s) = (0 :: zeros (n - zlen s - 2)) ++ 0 :: []).
        { replace (n - zlen s) with (1 + (n - zlen s - 2) + 1) by lia.
          rewrite !zeros_app by lia. do 2 f_equal. f_equal. lia. }
        rewrite Ez, app_assoc, arr_set_at; [rewrite <- app_assoc; simpl; eauto|].
        rewrite zlen_app, zlen_cons, zlen_zeros by lia. lia. }
    destruct E as [r ->]. rewrite bind_ret. by apply c_string_app.
Qed.

Lemma Forall_skip (P : Z -> Prop) f s : Forall P s -> Forall P (skip f s).
Proof. induction 1 as [|c s Hc Hs IH]; simpl; [constructor|]. destruct (f c); [done|by constructor]. Qed.
Lemma Forall_upto (P : Z -> Prop) f s : Forall P s -> Forall P (upto f s).
Proof. induction 1 as [|c s Hc Hs IH]; simpl; [constructor|]. destruct (f c); [by constructor|constructor]. Qed.

Lemma parts_no_nul s : no_nul s -> no_nul (dirname s) /\ no_nul (basename s).
Proof.
  intros Hs. unfold no_nul in *. apply Forall_reverse in Hs. apply (Forall_skip _ slash) in Hs.
  unfold dirname, basename. destruct (skip slash (reverse s)) as [|c r] eqn:E.
  - destruct s; split; by repeat constructor.
  - split; [|by apply Forall_reverse, Forall_upto].
    apply (Forall_skip _ no_slash) in Hs. destruct (skip no_slash (c :: r)) as [|c2 r2]; [by repeat constructor|].
    apply (Forall_skip _ slash) in Hs. destruct (skip slash (c2 :: r2)); [by repeat constructor|by apply Forall_reverse].
Qed.

#[local] Set Proof Using Clear Unused.
#[local] Set Default Proof Using "Type".

Section Life.
Context (localtime_r : Z -> option TlogTime.tm).
Context (readdir : gmap name nat -> option (list name)).
Context (rename_err : fs -> name -> name -> bool).
(** The contents of a directory when a log is opened in it. *)
Context (disk : name -> fs).

(** [tlog_write_log]: a block straight into the root log's file. *)
Definition tlog_write_log (e : env) (buff : list Z) (t : tlog) : res (Z * tlog) :=
  match root_log t with
  | None => Ok (-1, t)
  | Some p =>
      w ← get (core t) p;
      '(r, f, s) ← tlog_write localtime_r readdir rename_err e (tf w) (tfs w) buff;
      Ok (r, set_core t (set_heap (core t) (<[p := set_files w f s]> (heap (core t)))))
  end.

(** What [malloc] gives for the log and for its buffer. *)
Record memory := MkMemory { m_log : bool; m_buff : option (Z -> list Z) }.

(** The fields that [tlog_open] sets, for the log in its directory. *)
Definition open_file (logname : name) (maxlogsize maxlogcount flag : Z) : tlog_file :=
  let nocompress := flag_set flag TLOG_NOCOMPRESS in
  MkFile logname (if nocompress then [] else bytes ".gz")
    (if maxlogsize >=? 0 then maxlogsize else TLOG_LOG_SIZE)
    (if maxlogcount >? 0 then maxlogcount else TLOG_LOG_COUNT)
    (flag_set flag TLOG_MULTI_WRITE) nocompress (flag_set flag TLOG_SCREEN)
    None 0 false false 0.
Definition open_size (buffsize : Z) : Z := if buffsize >? 0 then buffsize else TLOG_BUFF_SIZE.

(** [tlog_open]: [None] is a null pointer. *)
Definition tlog_open (m : memory) (logfile : list Z) (maxlogsize maxlogcount buffsize flag : Z)
    (t : tlog) : res (option nat * tlog) :=
  if negb (run (core t)) then Ok (None, t)
  else if negb (m_log m) then Ok (None, t)
  else
    log_file ← copy_str PATH_MAX logfile;
    logdir ← copy_str PATH_MAX (dirname log_file);
    log_file ← copy_str PATH_MAX logfile;
    logname ← copy_str TLOG_LOG_NAME_LEN (basename log_file);
    match m_buff m with
    | None => Ok (None, t)
    | Some buff =>
        let p := fresh (dom (heap (core t))) in
        let ring := new_log (buff (open_size buffsize)) (negb (flag_set flag TLOG_NONBLOCK))
                      (flag_set flag TLOG_SEGMENT) in
        let w := MkWlog ring (open_file logname maxlogsize maxlogcount flag) (disk logdir) false false 0 in
        Ok (Some p,
          MkTlog (set_logs (core t) (p :: logs (core t)) (<[p := w]> (heap (core t))))
            (<[p := logdir]> (dirs t)) (<[p := 0]> (prv t)) (root_log t) (tid t) (joinable t)
            (out_func t) (the_fmt t) (level_set t) (early_off t))
    end.

(** The error exit of [tlog_init]: the thread it joins was never started. *)
Definition init_errout (o : option nat) (t : tlog) : res (Z * tlog) :=
  _ ← require (negb (tid t >? 0)) BadThread;
  let t := set_run t false in
  match o with
  | None => Ok (-1, t)
  | Some p => '(_, g) ← tlog_close localtime_r readdir rename_err false p (core t); Ok (-1, set_core t g)
  end.

(** [tlog_init]; [created] is the answer of [pthread_create] and what it
    leaves in [tid], also when it fails. *)
Definition tlog_init (m : memory) (created : bool * Z) (logfile : list Z)
    (maxlogsize maxlogcount buffsize flag : Z) (t : tlog) : res (Z * tlog) :=
  match the_fmt t with
  | FNull =>
      if (buffsize >? 0) && (buffsize <? TLOG_MAX_LINE_LEN * 2) then Ok (-1, t)
      else
        let t := MkTlog (MkLogger true [] (heap (core t)) (last_log (core t)) (calls (core t)))
                   (dirs t) (prv t) None 0 false false FDefault (level_set t) (early_off t) in
        '(o, t) ← tlog_open m logfile maxlogsize maxlogcount buffsize flag t;
        match o with
        | None => init_errout None t
        | Some p =>
            '(_, t) ← tlog_reg_output_func (Some p) true t;
            let t := set_thread t (root_log t) (snd created) (fst created) in
            if fst created then Ok (0, set_thread t (Some p) (tid t) true)
            else init_errout (Some p) t
        end
  | _ => Ok (-1, t)
  end.

(** [tlog_exit]: the work thread, at the log [cur], ends after some of the
    rounds [rs] and is joined; then the logs are closed, where [reaped] is the
    answer of [waitpid].  [tid] keeps its value. *)
Definition tlog_exit (rs : list round) (cur : option nat) (reaped : bool) (t : tlog) : res tlog :=
  t ← (if tid t >? 0 then
         _ ← require (joinable t) BadThread;
         g ← work_runs localtime_r readdir rename_err (out_func t) (default 0%nat (root_log t)) rs cur
                (core (set_run t false));
         Ok (set_thread (set_core t g) (root_log t) (tid t) false)
       else Ok t);
  let t := set_thread t None (tid t) (joinable t) in
  g ← close_all localtime_r readdir rename_err (S (length (logs (core t)))) reaped (core t);
  Ok (set_core t g).

(** What a log call reads of this state, and the call ([tlog_ext]). *)
Definition globals_of (t : tlog) : globals :=
  let w := p ← root_log t; heap (core t) !! p in
  MkGlobals (ring <$> w) (default 0 ((fun w => logsize (tf w)) <$> w))
    (default false ((fun w => multi_log (tf w)) <$> w)) (level_set t) (early_off t)
    match the_fmt t with FNull => Some None | FDefault => None | FCustom f => Some (Some f) end.

Definition store_ring (l : option tlog_log) (t : tlog) : res tlog :=
  match l with Some l => change_log (fun w => set_ring w l) (root_log t) t | None => Ok t end.
Definition tlog_ext (str : Z -> list Z) (getpid lv fl ln fn : Z) (now : option TlogTime.tlog_time)
    (text : option (list Z)) (stack : list Z) (t : tlog) : res (vret * tlog * list Z) :=
  '(r, g, o) ← tlog_vext str getpid lv fl ln fn now text stack (globals_of t);
  t ← store_ring (TlogRoot.root g) t; Ok (r, t, o).

(** ** Opening a log *)
Definition open_dir (path : list Z) : list Z := take 4095 (dirname (take 4095 path)).
Definition open_name (path : list Z) : list Z := take 127 (basename (take 4095 path)).

(** The log that [tlog_open] makes. *)
Definition opened (buff : Z -> list Z) (path : list Z) (sz cnt bs flag : Z) (root : bool) : wlog :=
  MkWlog (new_log (buff (open_size bs)) (negb (flag_set flag TLOG_NONBLOCK)) (flag_set flag TLOG_SEGMENT))
    (open_file (open_name path) sz cnt flag) (disk (open_dir path)) root false 0.
Definition with_log (t : tlog) (p : nat) (d : name) (w : wlog) : tlog :=
  MkTlog (set_logs (core t) (p :: logs (core t)) (<[p := w]> (heap (core t)))) (<[p := d]> (dirs t))
    (<[p := 0]> (prv t)) (root_log t) (tid t) (joinable t) (out_func t) (the_fmt t) (level_set t) (early_off t).

Lemma open_result m path sz cnt bs flag t :
  no_nul path ->
  tlog_open m path sz cnt bs flag t =
    match (if run (core t) && m_log m then m_buff m else None) with
    | None => Ok (None, t)
    | Some buff =>
        let p := fresh (dom (heap (core t))) in
        Ok (Some p, with_log t p (open_dir path) (opened buff path sz cnt bs flag false))
    end.
Proof.
  intros Hp. unfold tlog_open. destruct (run (core t)), (m_log m); [|done..]. cbn [negb andb].
  unfold PATH_MAX. rewrite (copy_str_ok _ path) by (done || lia). rewrite bind_ret.
  change (Z.to_nat (4096 - 1)) with 4095%nat.
  destruct (parts_no_nul (take 4095 path)) as [Hd Hb]; [by apply Forall_take|].
  rewrite copy_str_ok by (done || lia). rewrite !bind_ret. unfold TLOG_LOG_NAME_LEN. rewrite copy_str_ok by done.
  rewrite bind_ret. by destruct (m_buff m).
Qed.

(** What a log needs for the properties of its buffer. *)
Lemma opened_ready buff path sz cnt bs flag root :
  (bs <= 0 \/ TLOG_MAX_LINE_LEN <= bs <= 1073741824) -> (forall n, 0 < n -> zlen (buff n) = n) ->
  let w := opened buff path sz cnt bs flag root in
  log_wf (ring w) /\ TlogRing.content (ring w) = [] /\ tlog_has_data (ring w) = false /\
  maxlen (ring w) = open_size bs /\ buffsize (ring w) = open_size bs.
Proof.
  intros Hbs Hbuff w. unfold TLOG_MAX_LINE_LEN in Hbs.
  assert (Hsz : 1024 <= open_size bs <= 1073741824)
    by (unfold open_size, TLOG_BUFF_SIZE; destruct (Z.gtb_spec bs 0); lia).
  assert (Hlen : zlen (buff (open_size bs)) = open_size bs) by (apply Hbuff; lia).
  unfold w, opened, new_log. cbn [ring]. rewrite Hlen. split.
  - split; simpl; unfold TLOG_MAX_LINE_LEN; try lia.
  - unfold TlogRing.content, tlog_has_data, maxlen. simpl. split; [done|]. split; [done|]. by rewrite Z.sub_0_r.
Qed.

(** ** [tlog_init] *)

(** A logger that is not there: nothing is logged to, and no later call of
    [tlog_init] is accepted, as the formatter stays set. *)
Record gone (t : tlog) : Prop := {
  gone_run : run (core t) = false;
  gone_logs : logs (core t) = [];
  gone_root : root_log t = None;
  gone_fmt : the_fmt t <> FNull
}.

Lemma refused m created path sz cnt bs flag t :
  the_fmt t <> FNull -> tlog_init m created path sz cnt bs flag t = Ok (-1, t).
Proof. unfold tlog_init. by destruct (the_fmt t). Qed.

(** A program's call of [tlog_init] with a valid size, on every branch. *)
Lemma init_first m created path sz cnt bs flag t :
  no_nul path -> the_fmt t = FNull -> ~ (0 < bs < TLOG_MAX_LINE_LEN * 2) ->
  tlog_init m created path sz cnt bs flag t =
    let t0 := MkTlog (MkLogger true [] (heap (core t)) (last_log (core t)) (calls (core t)))
                (dirs t) (prv t) None 0 false false FDefault (level_set t) (early_off t) in
    match (if m_log m then m_buff m else None) with
    | None => Ok (-1, set_run t0 false)
    | Some buff =>
        let p := fresh (dom (heap (core t))) in
        let w := opened buff path sz cnt bs flag true in
        let t1 := with_log t0 p (open_dir path) w in
        if fst created then Ok (0, set_thread t1 (Some p) (snd created) true)
        else if snd created >? 0 then UB BadThread
        else Ok (-1, set_core (set_thread t1 None (snd created) false)
                       (MkLogger false [] (heap (core t)) (last_log (core t)) (calls (core t))))
    end.
Proof.
  intros Hp Hf Hbs. unfold tlog_init. rewrite Hf.
  assert (Hv : (bs >? 0) && (bs <? TLOG_MAX_LINE_LEN * 2) = false).
  { apply andb_false_iff. destruct (Z.gtb_spec bs 0); [right; apply Z.ltb_ge; lia|by left]. }
  rewrite Hv. cbv zeta. set (t0 := MkTlog _ _ _ _ _ _ _ _ _ _).
  rewrite open_result by done. change (run (core t0)) with true. cbn [andb].
  destruct (if m_log m then m_buff m else None) as [buff|]; [|done]. rewrite bind_ret.
  set (p := fresh _). change (fresh (dom (heap (core t)))) with p.
  unfold tlog_reg_output_func, change_log, get. cbn [core with_log set_logs heap].
  rewrite lookup_insert_eq. cbn [of_option]. rewrite !bind_ret.
  unfold set_core, set_heap, set_thread, with_log, set_logs. simpl. rewrite insert_insert_eq.
  destruct (fst created); [done|]. unfold init_errout. simpl.
  destruct (Z.gtb_spec (snd created) 0); [done|]. cbn [negb require]. rewrite bind_ret.
  unfold set_run, set_core. simpl.
  rewrite (close_head _ _ _ false p [] _ (opened buff path sz cnt bs flag true)); simpl.
  - rewrite delete_insert_id; [done|]. apply not_elem_of_dom. apply is_fresh.
  - done.
  - apply lookup_insert_eq.
  - by left.
Qed.

Lemma path_names d n :
  is_dir d -> is_name n -> zlen (d ++ 47 :: n) < PATH_MAX -> zlen n < TLOG_LOG_NAME_LEN ->
  open_dir (d ++ 47 :: n) = d /\ open_name (d ++ 47 :: n) = n.
Proof.
  unfold PATH_MAX, TLOG_LOG_NAME_LEN. intros Hd Hn Hl Hl'. unfold open_dir, open_name.
  rewrite (take_ge (d ++ 47 :: n)) by (unfold zlen in Hl; lia).
  destruct (path_parts d n Hd Hn) as [-> ->]. rewrite zlen_app, zlen_cons in Hl. pose proof (zlen_nonneg n).
  rewrite !take_ge by (unfold zlen in *; lia). done.
Qed.

(** C28 - [tlog_init] on every branch: a second call, or a size below two
    lines, is refused and changes nothing; without memory it fails and leaves
    no log, but also no way to try again; when the thread cannot be created,
    it joins the thread whose id [pthread_create] may have left in [tid]; else
    the logger runs with one empty log, whose buffer and file fit what the
    other properties need, and a path of fitting parts names that file. *)
Theorem init_result m created path sz cnt bs flag t :
  no_nul path -> bs <= 1073741824 -> (forall f n, m_buff m = Some f -> 0 < n -> zlen (f n) = n) ->
  let r := tlog_init m created path sz cnt bs flag t in
  (the_fmt t <> FNull \/ 0 < bs < TLOG_MAX_LINE_LEN * 2 -> r = Ok (-1, t)) /\
  (the_fmt t = FNull -> ~ (0 < bs < TLOG_MAX_LINE_LEN * 2) ->
   let fails := exists t', r = Ok (-1, t') /\ heap (core t') = heap (core t) /\ gone t' in
   match (if m_log m then m_buff m else None) with
   | None => fails
   | Some buff =>
       if fst created then
         let w := opened buff path sz cnt bs flag true in
         exists t' p, r = Ok (0, t') /\ heap (core t) !! p = None /\ one_log (core t') p w /\
           root_log t' = Some p /\ run (core t') = true /\ tid t' = snd created /\ joinable t' = true /\
           out_func t' = false /\ the_fmt t' = FDefault /\ level_set t' = level_set t /\
           log_wf (ring w) /\ TlogRing.content (ring w) = [] /\ maxlen (ring w) = open_size bs /\
           (forall d n, path = d ++ 47 :: n -> is_dir d -> is_name n -> zlen path < PATH_MAX ->
              zlen n < TLOG_LOG_NAME_LEN ->
              logname (tf w) = n /\ tfs w = disk d /\ dirs t' !! p = Some d)
       else if snd created >? 0 then r = UB BadThread else fails
   end).
Proof.
  intros Hp Hbs Hbuff r. split.
  { intros [Hf|Hb]; [by apply refused|]. unfold r, tlog_init. destruct (the_fmt t); [|done..].
    destruct (Z.gtb_spec bs 0); [|lia]. destruct (Z.ltb_spec bs (TLOG_MAX_LINE_LEN * 2)); [done|lia]. }
  intros Hf Hv fails. unfold fails, r. rewrite init_first by done. cbv zeta.
  destruct (if m_log m then m_buff m else None) as [buff|] eqn:Em.
  2: { eexists. split; [done|]. by split; [|split]. }
  destruct (fst created).
  2: { destruct (snd created >? 0); [done|]. eexists. split; [done|]. by split; [|split]. }
  assert (Hb : m_buff m = Some buff) by (destruct (m_log m); congruence).
  destruct (opened_ready buff path sz cnt bs flag true) as (Hwf & Hc & _ & Hm & _).
  { unfold TLOG_MAX_LINE_LEN in *. lia. }
  { intros n. by apply Hbuff. }
  eexists _, _. split; [done|]. split; [apply not_elem_of_dom, is_fresh|].
  split; [split; [done|apply lookup_insert_eq]|]. do 7 (split; [done|]).
  split; [done|]. split; [done|]. split; [done|]. intros d n -> Hd Hn Hl Hl'.
  destruct (path_names d n Hd Hn Hl Hl') as [E1 E2]. unfold opened. simpl. rewrite E1, E2.
  split; [done|]. split; [done|]. apply lookup_insert_eq.
Qed.

(** ** [tlog_exit] *)


End Life.
(** ** Small buffers

    [tlog_open] takes any positive size, unlike [tlog_init]: on a buffer
    shorter than a line every call waits for ever, or drops its line. *)
Theorem small_buffer_useless b blk seg k d :
  zlen b < TLOG_MAX_LINE_LEN ->
  let l := set_dropped (new_log b blk seg) k in
  vprintf_locked d l =
    if blk then Ok (VWait, l) else Ok (VRet (-1), set_dropped (new_log b blk seg) (i32 (k + 1))).
Proof.
  intros Hb l. unfold vprintf_locked, maxlen, l, new_log. simpl. rewrite Z.sub_0_r.
  destruct (Z.ltb_spec (zlen b) TLOG_MAX_LINE_LEN); [done|lia].
Qed.

(** ** The properties at concrete inputs *)
Definition demo_memory : memory := MkMemory true (Some zeros).
Definition demo_path : list Z := bytes "/var/l" ++ 47 :: bytes "log".
Definition demo_disk (d : name) : fs := demo_fs.

Lemma demo_zeros f n : m_buff demo_memory = Some f -> 0 < n -> zlen (f n) = n.
Proof. intros [= <-] Hn. apply zlen_zeros. lia. Qed.

Lemma demo_path_nul : no_nul demo_path.
Proof. by apply (bool_decide_unpack _). Qed.

(** Started, one line logged, ended. *)
Definition demo_started : res (Z * tlog) :=
  tlog_init TlogTime.demo_localtime demo_readdir no_err demo_disk demo_memory (true, 77) demo_path
    100 0 2048 TLOG_NOCOMPRESS static.
Definition demo_logged : res tlog :=
  '(_, t) ← demo_started;
  '(_, t, _) ← tlog_ext TlogRoot.demo_str 7 TLOG_INFO 100 42 200 (Some TlogRoot.demo_time)
                 (Some (bytes "hi")) (zeros 1024) t;
  Ok t.
Definition demo_last : list round := repeat (MkRound 50 false false None [demo_env 60]) 3.

Lemma init_result_witness :
  exists t p, demo_started = Ok (0, t) /\ root_log t = Some p /\ run (core t) = true /\
    dirs t !! p = Some (bytes "/var/l").
Proof.
  destruct (proj2 (init_result TlogTime.demo_localtime demo_readdir no_err demo_disk demo_memory (true, 77)
    demo_path 100 0 2048 TLOG_NOCOMPRESS static demo_path_nul ltac:(done) demo_zeros))
    as (t & p & E & _ & _ & Hroot & Hrun & _ & _ & _ & _ & _ & _ & _ & _ & Hn).
  - reflexivity.
  - by intros [_ ?].
  - destruct (Hn (bytes "/var/l") (bytes "log")) as (_ & _ & Hd).
    + reflexivity.
    + by exists (bytes "/var/"), 108.
    + split; [done|]. by apply (bool_decide_unpack _).
    + reflexivity.
    + reflexivity.
    + exists t, p. split; [exact E|]. split; [exact Hroot|]. split; [exact Hrun|exact Hd].
Defined.

Definition demo_state : tlog := match demo_logged with Ok t => t | UB _ => static end.
Definition demo_root : wlog :=
  match heap (core demo_state) !! 0%nat with Some w => w | None => demo_wlog end.

(** What the file has in the end: what it had and the line. *)
Example whole_run :
  (g ← work_runs TlogTime.demo_localtime demo_readdir no_err false 0 demo_last None
         (core (set_run demo_state false));
   w ← get g 0; Ok (content <$> file_at (tfs w) (bytes "log"))) =
  Ok (Some ([97; 98; 99] ++ TlogRoot.demo_prefix ++ bytes "hi" ++ [10])).
Proof. by vm_compute. Qed.

Lemma demo_root_wf : log_wf (ring demo_root).
Proof. split; [by vm_compute|by vm_compute|by vm_compute|by vm_compute|]. left. by vm_compute. Qed.

Lemma demo_root_files : files_ok demo_root [97; 98; 99] [0%nat] 6.
Proof.
  assert (E : start_log (tf demo_root) (tfs demo_root) =
              MkL (tf demo_root) (tfs demo_root) [97; 98; 99] [0%nat]) by (by vm_compute).
  split; [|by vm_compute]. rewrite <- E. apply linv_start; [by vm_compute|].
  assert (Ed : tfs demo_root = demo_fs) by (by vm_compute). rewrite Ed.
  intros n i H. exact (li_wf _ (proj1 demo_files_ok) n i H).
Qed.

End TlogInit.
