(* ===== verification/TlogStream.v ===== *)
(** The C++ face of the logger (src/useapp/tlog.h, the classes [Tlog] and
    [TlogOut] and their macros): a statement collects its text in a string
    stream whose custom deleter, at the end of the statement, hands the text
    to the C functions of [TlogInit] and [TlogRing]. *)
From S2P Require Import Prelude TlogRing TlogTime TlogRoot TlogFile TlogWork TlogInit.
Import TlogRing TlogRoot TlogFile TlogWork TlogInit.

Module TlogStream.

(** The string streams that have been made with [new], by address. *)
Abbreviation streams := (gmap positive (list Z)).

Definition new_stream (ss : streams) : positive * streams :=
  let p := fresh (dom ss) in (p, <[p := []]> ss).
(** [*buffer << a << b ...] *)
Definition insert_text (p : positive) (pieces : list (list Z)) (ss : streams) : res streams :=
  s ← of_option UseAfterFree (ss !! p); Ok (<[p := s ++ concat pieces]> ss).

(** What ["%s"] prints of [st->str().c_str()]: the text up to its first
    NUL. *)
Definition str_text (s : list Z) : list Z :=
  match cstr_end s with Some n => take n s | None => s end.

(** [LogStream] and [Out]: the unique pointer, a stream and its deleter. *)
Record log_buffer := MkLogBuffer { lb_stream : positive; lb_level : Z; lb_file : Z; lb_line : Z; lb_func : Z }.

Definition LogStream (level file line func : Z) (ss : streams) : log_buffer * streams :=
  let '(p, ss) := new_stream ss in (MkLogBuffer p level file line func, ss).
Definition Out (ss : streams) : positive * streams := new_stream ss.

Section TlogStream.
Context (str : Z -> list Z) (getpid : Z).

(** The deleter of [LogStream]: it logs the text and leaves the stream. *)
Definition delete_log (b : log_buffer) (now : option TlogTime.tlog_time) (stack : list Z)
    (ss : streams) (t : tlog) : res (vret * tlog * list Z) :=
  s ← of_option UseAfterFree (ss !! lb_stream b);
  tlog_ext str getpid (lb_level b) (lb_file b) (lb_line b) (lb_func b) now (Some (str_text s)) stack t.

(** [tlog_info << a << b;] and the other levels. *)
Definition log_statement (level file line func : Z) (pieces : list (list Z))
    (now : option TlogTime.tlog_time) (stack : list Z) (ss : streams) (t : tlog)
    : res (streams * tlog * list Z) :=
  if tlog_getlevel t <=? level then
    let '(b, ss) := LogStream level file line func ss in
    ss ← insert_text (lb_stream b) pieces ss;
    '(_, t, o) ← delete_log b now stack ss t;
    Ok (ss, t, o)
  else Ok (ss, t, []).

(** [tlog_printf]: the arguments are formatted by [tlog_vprintf]. *)
Definition tlog_printf (text : option (list Z)) (stack : list Z) (l : tlog_log)
    : res (vret * tlog_log) := tlog_vprintf text stack l.

(** [tlog_out(log) << a << b;] on the log [l]. *)
Definition out_statement (pieces : list (list Z)) (stack : list Z) (ss : streams) (l : tlog_log)
    : res (streams * tlog_log) :=
  let '(p, ss) := Out ss in
  ss ← insert_text p pieces ss;
  s ← of_option UseAfterFree (ss !! p);
  '(_, l) ← tlog_printf (Some (str_text s)) stack l;
  Ok (ss, l).

Lemma collected pieces (ss : streams) :
  exists p ss', new_stream ss = (p, <[p := []]> ss) /\
    insert_text p pieces (<[p := []]> ss) = Ok ss' /\ ss' !! p = Some (concat pieces) /\
    ss !! p = None /\ ss' = <[p := concat pieces]> ss.
Proof.
  exists (fresh (dom ss)), (<[fresh (dom ss) := concat pieces]> ss).
  assert (Hf : ss !! fresh (dom ss) = None) by apply not_elem_of_dom, is_fresh.
  unfold new_stream, insert_text. split; [done|].
  rewrite lookup_insert_eq. simpl. rewrite insert_insert_eq. split; [done|].
  rewrite lookup_insert_eq. by split_and!.
Qed.

(** Storing what was read changes nothing. *)
Lemma store_same t : store_ring (TlogRoot.root (globals_of t)) t = Ok t.
Proof.
  unfold store_ring, globals_of. simpl. destruct (root_log t) as [p|] eqn:Ep; simpl; [|done].
  destruct (TlogWork.heap (core t) !! p) as [w|] eqn:Ew; simpl; [|done].
  unfold get. rewrite Ew. simpl.
  assert (set_ring w (ring w) = w) as -> by (by destruct w).
  rewrite insert_id by done. destruct t as [[]]. simpl in *. done.
Qed.

(** A stream statement is a call of the C function: with the level high
    enough it does what [tlog_ext] does with the collected text (up to its
    first NUL), and below the level it does nothing, as [tlog_ext] would.
    But the deleter only logs: each statement leaves one more stream, text
    and all, that nothing will ever free. *)
Theorem statement_is_call level file line func pieces now stack ss t :
  if tlog_getlevel t <=? level
  then exists p, ss !! p = None /\
    log_statement level file line func pieces now stack ss t =
      ('(_, t, o) ← tlog_ext str getpid level file line func now
                       (Some (str_text (concat pieces))) stack t;
       Ok (<[p := concat pieces]> ss, t, o))
  else log_statement level file line func pieces now stack ss t = Ok (ss, t, []) /\
    tlog_ext str getpid level file line func now (Some (str_text (concat pieces))) stack t =
      Ok (VRet 0, t, []).
Proof.
  destruct (tlog_getlevel t <=? level) eqn:El.
  - destruct (collected pieces ss) as (p & ss' & En & Ei & Es & Hn & ->). exists p.
    split; [done|]. unfold log_statement, LogStream. rewrite El, En. simpl. rewrite Ei. simpl.
    unfold delete_log. simpl. rewrite Es. simpl. done.
  - split. { unfold log_statement. by rewrite El. }
    assert (E : tlog_vext str getpid level file line func now (Some (str_text (concat pieces)))
      stack (globals_of t) = Ok (VRet 0, globals_of t, [])).
    { unfold tlog_vext, tlog_getlevel in *. simpl.
      by destruct (Z.ltb_spec level (level_set t)); [|lia]. }
    unfold tlog_ext. rewrite E, bind_ret, store_same. done.
Qed.

(** [n] statements leave [n] streams. *)
Lemma log_leaks level file line func pieces now stack ss t ss' t' o :
  log_statement level file line func pieces now stack ss t = Ok (ss', t', o) ->
  tlog_getlevel t <= level -> size ss' = S (size ss).
Proof.
  intros E Hl. pose proof (statement_is_call level file line func pieces now stack ss t) as H.
  destruct (Z.leb_spec (tlog_getlevel t) level); [|lia]. destruct H as (p & Hp & E').
  rewrite E' in E. apply bind_ok in E as ([[r t1] o1] & _ & E). injection E as <- _ _.
  by rewrite map_size_insert_None.
Qed.

(** The same for a log of the caller's: the text goes to [tlog_printf], the
    stream stays. *)
Theorem out_is_printf pieces stack ss l :
  exists p, ss !! p = None /\
    out_statement pieces stack ss l =
      ('(_, l) ← tlog_printf (Some (str_text (concat pieces))) stack l;
       Ok (<[p := concat pieces]> ss, l)).
Proof.
  destruct (collected pieces ss) as (p & ss' & En & Ei & Es & Hn & ->). exists p. split; [done|].
  unfold out_statement, Out. rewrite En, Ei. simpl. by rewrite Es.
Qed.
End TlogStream.

(** Two pieces and a text cut by its NUL, on the logger of [TlogInit]. *)
Example demo_statement :
  ('(ss, _, _) ← log_statement TlogRoot.demo_str 7 TLOG_INFO 100 42 200 [bytes "a"; bytes "b"]
      (Some TlogRoot.demo_time) (zeros 1024) ∅ demo_state; Ok (size ss)) = Ok 1%nat.
Proof. by vm_compute. Qed.
End TlogStream.
