(* ===== verification/TlogFork.v ===== *)
(** The child that compresses a log closes every file it inherited
    (src/useapp/tlog.c, [_tlog_close_all_fd] and
    [_tlog_close_all_fd_by_res]). *)
From S2P Require Import Prelude.

Module TlogFork.

(** The open descriptors of the process. *)
Abbreviation fds := (gset Z).

(** [for (i = lo; i < lo + n; i++) close(i)]; closing what is not open does
    nothing. *)
Fixpoint close_range (n : nat) (i : Z) (o : fds) : fds :=
  match n with O => o | S n => close_range n (i + 1) (o ∖ {[i]}) end.

(** [rlim_cur] has 64 bits, [maxfd] is an int. *)
Definition close_all_fd_by_res (rlim_cur : Z) (o : fds) : fds :=
  let maxfd := i32 rlim_cur in
  let maxfd := if maxfd >? 4096 then 4096 else maxfd in
  close_range (Z.to_nat (maxfd - 3)) 3 o.

(** [atoi] on the names of a directory: digits up to the first other byte,
    0 without any. *)
Fixpoint leading (s : list Z) : list Z :=
  match s with
  | [] => []
  | c :: r => if (48 <=? c) && (c <=? 57) then c :: leading r else []
  end.
Definition atoi (s : list Z) : Z := number_of (leading s).

(** The loop over /proc/self/fd. *)
Fixpoint close_entries (dir_fd : Z) (names : list (list Z)) (o : fds) : fds :=
  match names with
  | [] => o
  | n :: names =>
      let fd := atoi n in
      if (fd <? 0) || (dir_fd =? fd) then close_entries dir_fd names o
      else if (fd =? 0) || (fd =? 1) || (fd =? 2) then close_entries dir_fd names o
      else close_entries dir_fd names (o ∖ {[fd]})
  end.

(** [dir]: what [opendir] gives, the descriptor of the directory and the
    names in it. *)
Definition close_all_fd (dir : option (Z * list (list Z))) (rlim_cur : Z) (o : fds) : fds :=
  match dir with
  | None => close_all_fd_by_res rlim_cur o
  | Some (dir_fd, names) => close_entries dir_fd names (o ∪ {[dir_fd]}) ∖ {[dir_fd]}
  end.

Lemma elem_close_range n i o x : x ∈ close_range n i o <-> x ∈ o /\ ~ (i <= x < i + Z.of_nat n).
Proof.
  revert i o. induction n as [|n IH]; intros i o; simpl; [split; [intros ?; split; [done|lia]|by intros []]|].
  rewrite IH, elem_of_difference, elem_of_singleton. split; [intros [[? ?] ?]|intros [? ?]].
  - split; [done|lia].
  - split_and!; [done|lia..].
Qed.

Lemma elem_close_entries d names o x :
  x ∈ close_entries d names o <->
  x ∈ o /\ (x <= 2 \/ x = d \/ forall n, n ∈ names -> atoi n <> x).
Proof.
  revert o. induction names as [|n names IH]; intros o; simpl.
  { split; [|by intros []]. intros Hx. split; [done|]. right; right. intros n Hn. by apply not_elem_of_nil in Hn. }
  assert (Hcons : (forall n', n' ∈ n :: names -> atoi n' <> x) <->
    atoi n <> x /\ forall n', n' ∈ names -> atoi n' <> x).
  { setoid_rewrite elem_of_cons. split; [auto|]. intros [? ?] n' [-> |?]; auto. }
  rewrite Hcons.
  destruct ((atoi n <? 0) || (d =? atoi n)) eqn:E1;
    [|destruct ((atoi n =? 0) || (atoi n =? 1) || (atoi n =? 2)) eqn:E2];
    rewrite IH, ?elem_of_difference, ?elem_of_singleton.
  - assert (atoi n = x -> x <= 2 \/ x = d) by lia. destruct (decide (atoi n = x)); tauto.
  - assert (atoi n = x -> x <= 2) by lia. destruct (decide (atoi n = x)); tauto.
  - assert (atoi n = x -> ~ x <= 2 /\ x <> d) by lia.
    assert (x = atoi n <-> atoi n = x) by (split; congruence). destruct (decide (atoi n = x)); tauto.
Qed.

(** A name the kernel gives to a descriptor. *)
Lemma leading_digits s : Forall (fun c => 48 <= c <= 57) s -> leading s = s.
Proof.
  induction 1 as [|c s Hc Hs IH]; [done|]. simpl. destruct (Z.leb_spec 48 c); [|lia].
  destruct (Z.leb_spec c 57); [|lia]. simpl. by rewrite IH.
Qed.
Lemma digits_are n z : 0 <= z -> Forall (fun c => 48 <= c <= 57) (digits n z).
Proof.
  revert z. induction n as [|n IH]; intros z Hz; simpl; [constructor|]. apply Forall_app. split.
  - apply IH. apply Z.div_pos; lia.
  - repeat constructor; pose proof (Z.mod_pos_bound z 10); lia.
Qed.
Lemma atoi_fmt z : 0 <= z < 10 ^ 20 -> atoi (fmt_dec 1 z) = z.
Proof.
  intros Hz. unfold atoi. rewrite leading_digits; [by apply fmt_dec_number|].
  unfold fmt_dec. destruct (Z.ltb_spec z 0); [lia|]. apply digits_are. lia.
Qed.

(** Every open descriptor has its name in the directory. *)
Definition lists_all (dir_fd : Z) (names : list (list Z)) (o : fds) : Prop :=
  forall x, x ∈ o -> fmt_dec 1 x ∈ names.

(** With /proc at hand the child keeps exactly the three standard streams. *)
Theorem close_all_keeps_std dir_fd names lim o
    (Hrange : forall x, x ∈ o -> 0 <= x < 10 ^ 20) (Hdir : dir_fd ∉ o)
    (Hall : lists_all dir_fd names o) x :
  x ∈ close_all_fd (Some (dir_fd, names)) lim o <-> x ∈ o /\ x <= 2.
Proof.
  unfold close_all_fd. rewrite elem_of_difference, elem_close_entries, elem_of_union, elem_of_singleton.
  split.
  - intros [[[Hx|Hx] Hcase] Hne]; [|done]. split; [done|].
    destruct Hcase as [?|[?|Hno]]; [done|done|]. exfalso. apply (Hno (fmt_dec 1 x) (Hall x Hx)).
    by apply atoi_fmt, Hrange.
  - intros [Hx Hle]. split; [split; [by left|by left]|]. intros ->. done.
Qed.

(** Without it the child goes by the limit of open files, which it stores in
    an int and cuts at 4096: descriptors above stay open; and with no limit
    at all (the largest 64-bit number, -1 as an int) nothing is closed. *)
Theorem close_by_limit lim o :
  (0 <= lim < 2147483648 -> forall x,
     x ∈ close_all_fd None lim o <-> x ∈ o /\ ~ (3 <= x < Z.min lim 4096)) /\
  close_all_fd None 18446744073709551615 o = o.
Proof.
  split; [|done]. intros Hl x. unfold close_all_fd, close_all_fd_by_res.
  rewrite i32_id by (unfold in_i32; lia). rewrite elem_close_range.
  destruct (Z.gtb_spec lim 4096); split; intros [? ?]; (split; [done|lia]).
Qed.

Lemma close_all_keeps_std_witness :
  3 ∉ close_all_fd (Some (5, [bytes "."; bytes ".."; bytes "0"; bytes "1"; bytes "3"; bytes "5"])) 1024
        {[0; 1; 3]}.
Proof.
  intros H. apply close_all_keeps_std in H; [lia|..].
  - intros x Hx. assert (x = 0 \/ x = 1 \/ x = 3) by set_solver. lia.
  - set_solver by lia.
  - intros x Hx. assert (x = 0 \/ x = 1 \/ x = 3) as [-> |[-> | ->]] by set_solver;
      rewrite !elem_of_cons; vm_compute; tauto.
Defined.

Lemma close_by_limit_witness : 5000 ∈ close_all_fd None 10000 {[5000]}.
Proof. apply (close_by_limit 10000); [lia|]. split; [set_solver|lia]. Defined.
End TlogFork.
