(* ===== verification/SyscallHook.v ===== *)
(** The system-call hooks (src/syscall_hook.c): the scan of /proc/kallsyms,
    the search for a call instruction, the patches of code and of the system
    call table under CR0's write protection, and the load and unload of the
    module. *)
From S2P Require Import Prelude.

Module SyscallHook.

(** ** The machine: mapped bytes and CR0 *)
Record machine := MkMachine { mem : gmap Z Z; cr0 : Z }.

Definition CR0_WRITE_PROTECT : Z := 65536.

Definition get_cr0 (m : machine) : Z := cr0 m.
Definition set_cr0 (m : machine) (v : Z) : machine := MkMachine (mem m) v.

Fixpoint read_bytes (n : nat) (a : Z) (m : gmap Z Z) : res (list Z) :=
  match n with
  | O => Ok []
  | S n => b ← of_option Fault (m !! a); r ← read_bytes n (a + 1) m; Ok (b :: r)
  end.

(** The system calls the module hooks. *)
Inductive sys : Type :=
| close | write | sendto | sendfile | read | unlink | unlinkat | link | linkat
| rename | renameat | renameat2 | splice | kill | creat | open | openat | writev.

#[global] Instance sys_eq_dec : EqDecision sys.
Proof. solve_decision. Defined.

#[local] Set Proof Using Clear Unused.
#[local] Set Default Proof Using "Type".

Section SyscallHook.
(** Which addresses lie on write-protected pages. *)
Context (ro : Z -> bool).
(** Numbers of the system calls, addresses of the module's hooks. *)
Context (NR : sys -> Z) (cs : sys -> Z) (cs_profile_task_exit : Z).
(** [hex2ptr] of cskernel.h, on a C string. *)
Context (hex2ptr : list Z -> Z).

(** A store faults on an unmapped address, and on a protected page while
    CR0.WP is set. *)
Fixpoint write_bytes (a : Z) (bs : list Z) (m : machine) : res machine :=
  match bs with
  | [] => Ok m
  | b :: bs =>
      _ ← require (bool_decide (is_Some (mem m !! a)) && negb (ro a && Z.testbit (cr0 m) 16)) Fault;
      write_bytes (a + 1) bs (MkMachine (<[a := b]> (mem m)) (cr0 m))
  end.

(** ** The symbol table *)

(** Does [strncmp(l, s, strlen(s))] answer 0? *)
Fixpoint strncmp_eq (l s : list Z) {struct s} : res bool :=
  match s with
  | [] => Ok true
  | c :: s =>
      match l with
      | [] => UB OutOfBounds
      | x :: l => if x =? c then strncmp_eq l s else Ok false
      end
  end.

Definition LINE_SIZE : Z := 255.

(** The loop: [content] is what is left to read, [line] the array, whose
    first contents are whatever the stack held. *)
Fixpoint scan (symbol content : list Z) (i : Z) (line : list Z) : res Z :=
  if i <? LINE_SIZE then
    match content with
    | [] => Ok 0
    | c :: content =>
        line ← arr_set line i c;
        if c =? 10 then
          found ← strncmp_eq (drop 16 line) symbol;
          if (found : bool) then
            line ← arr_set line 16 0;
            s ← c_string line;
            Ok (hex2ptr s)
          else scan symbol content 0 line
        else scan symbol content (i + 1) line
    end
  else Ok 0.

Definition get_system_symbol_addr (kallsyms : option (list Z)) (line0 symbol : list Z) : res Z :=
  match kallsyms with
  | None => Ok 0
  | Some content => scan symbol content 0 line0
  end.

(** ** Patching *)

(** [get_api_call_addr]: the operand of the first call in the range whose
    target is [api_addr]. *)
Fixpoint get_api_call_addr (range : nat) (pos api_addr : Z) (m : gmap Z Z) : res Z :=
  match range with
  | O => Ok 0
  | S range =>
      b ← of_option Fault (m !! pos);
      if b =? 232 then
        d ← read_bytes 4 (pos + 1) m;
        let offset := i32 (le_decode d) in
        if u64 (pos + 5 + offset) =? api_addr then Ok (pos + 1)
        else get_api_call_addr range (pos + 1) api_addr m
      else get_api_call_addr range (pos + 1) api_addr m
  end.

Definition wp_off (m : machine) : machine :=
  set_cr0 m (Z.land (get_cr0 m) (u64 (Z.lnot CR0_WRITE_PROTECT))).
Definition wp_on (m : machine) : machine := set_cr0 m (Z.lor (get_cr0 m) CR0_WRITE_PROTECT).

Definition set_call_addr (call_addr api_addr : Z) (m : machine) : res machine :=
  let offset := i32 (u64 (api_addr - call_addr - 4)) in
  m ← write_bytes call_addr (le_encode 4 (u32 offset)) (wp_off m);
  Ok (wp_on m).

Definition set_hook (syscall : Z) (syscall_id hookfunc : Z) (m : machine) : res (Z * machine) :=
  old ← read_bytes 8 (syscall + 8 * syscall_id) (mem m);
  m ← write_bytes (syscall + 8 * syscall_id) (le_encode 8 hookfunc) (wp_off m);
  Ok (le_decode old, wp_on m).

(** ** The module *)

(** The file's variables: the saved pointers, the table, the call. *)
Record module_state := MkModule {
  old : sys -> Z;
  old_profile_task_exit : Z;
  syscall : Z;
  profile_task_exit_call_addr : Z
}.
Definition module_init : module_state := MkModule (fun _ => 0) 0 0 0.

Definition save (g : module_state) (k : sys) (v : Z) : module_state :=
  MkModule (fun x => if decide (x = k) then v else old g x) (old_profile_task_exit g)
    (syscall g) (profile_task_exit_call_addr g).

(** The hooks in the order in which [load_module] installs them. *)
Definition load_order : list sys :=
  [close; write; sendto; sendfile; read; unlink; unlinkat; link; linkat; rename; renameat;
   renameat2; splice; kill; creat; open; openat; writev].

Fixpoint hook_all (ks : list sys) (g : module_state) (m : machine) : res (module_state * machine) :=
  match ks with
  | [] => Ok (g, m)
  | k :: ks =>
      '(o, m) ← set_hook (syscall g) (NR k) (cs k) m;
      hook_all ks (save g k o) m
  end.

(** Lines 165-195; [kallsyms] and [line0] answer each of the four scans. *)
Definition load_module (kallsyms : option (list Z)) (line0 : list Z) (m : machine)
    : res (module_state * machine) :=
  old_exit ← get_system_symbol_addr kallsyms line0 (bytes " T profile_task_exit" ++ [10]);
  do_exit_addr ← get_system_symbol_addr kallsyms line0 (bytes " T do_exit" ++ [10]);
  call ← get_api_call_addr 256 do_exit_addr old_exit (mem m);
  m ← set_call_addr call cs_profile_task_exit m;
  table ← get_system_symbol_addr kallsyms line0 (bytes " R sys_call_table" ++ [10]);
  hook_all load_order (MkModule (fun _ => 0) old_exit table call) m.

Fixpoint unhook_all (ks : list sys) (g : module_state) (m : machine) : res machine :=
  match ks with
  | [] => Ok m
  | k :: ks => '(_, m) ← set_hook (syscall g) (NR k) (old g k) m; unhook_all ks g m
  end.

(** Lines 205-224. *)
Definition unload_module (g : module_state) (m : machine) : res machine :=
  m ← unhook_all [read; write; sendto; sendfile; close; unlink; unlinkat; link; linkat; rename;
                  renameat; renameat2] g m;
  m ← set_call_addr (profile_task_exit_call_addr g) (old_profile_task_exit g) m;
  unhook_all [splice; kill; creat; open; openat; writev] g m.

(** ** Regions of memory *)
Definition covers (a : Z) (n : nat) (x : Z) : Prop := a <= x < a + Z.of_nat n.
#[local] Instance covers_dec a n x : Decision (covers a n x).
Proof. unfold covers. apply _. Defined.

Definition mapped (g : gmap Z Z) (a : Z) (n : nat) : Prop := forall x, covers a n x -> is_Some (g !! x).

(** The bytes [l] lie at [a]. *)
Definition holds_at (g : gmap Z Z) (a : Z) (l : list Z) : Prop :=
  forall i b, l !! i = Some b -> g !! (a + Z.of_nat i) = Some b.

Lemma holds_cons g a b l : holds_at g a (b :: l) <-> g !! a = Some b /\ holds_at g (a + 1) l.
Proof.
  split.
  - intros H. split; [rewrite <- (H O b eq_refl); f_equal; lia|].
    intros i c Hi. rewrite <- (H (S i) c Hi). f_equal. lia.
  - intros [Hb Hl] [|i] c Hi; simpl in Hi.
    + injection Hi as <-. rewrite <- Hb. f_equal. lia.
    + rewrite <- (Hl i c Hi). f_equal. lia.
Qed.

Lemma holds_mapped g a l : holds_at g a l -> mapped g a (length l).
Proof.
  intros H x Hx. unfold covers in Hx.
  destruct (lookup_lt_is_Some_2 l (Z.to_nat (x - a))) as [b Hb]; [lia|].
  apply H in Hb. replace (a + Z.of_nat (Z.to_nat (x - a))) with x in Hb by lia. by eexists.
Qed.

Lemma mapped_S g a n : mapped g a (S n) -> is_Some (g !! a) /\ mapped g (a + 1) n.
Proof.
  intros H. split; [apply H; unfold covers; lia|]. intros x Hx. apply H. unfold covers in *. lia.
Qed.

Lemma read_holds g a l : holds_at g a l -> read_bytes (length l) a g = Ok l.
Proof.
  revert a. induction l as [|b l IH]; intros a H; simpl; [done|].
  apply holds_cons in H as [Hb Hl]. rewrite Hb. simpl. by rewrite (IH _ Hl).
Qed.

Lemma holds_exists g a n : mapped g a n -> exists l, holds_at g a l /\ length l = n.
Proof.
  revert a. induction n as [|n IH]; intros a H.
  { exists []. split; [|done]. intros i b Hi. by rewrite lookup_nil in Hi. }
  apply mapped_S in H as [[b Hb] H]. destruct (IH _ H) as (l & Hl & <-).
  exists (b :: l). split; [|done]. by apply holds_cons.
Qed.

(** The store of some bytes. *)
Fixpoint put (a : Z) (bs : list Z) (g : gmap Z Z) : gmap Z Z :=
  match bs with [] => g | b :: bs => put (a + 1) bs (<[a := b]> g) end.

Lemma put_out a bs g x : ~ covers a (length bs) x -> put a bs g !! x = g !! x.
Proof.
  revert a g. induction bs as [|b bs IH]; intros a g Hx; [done|]. cbn [put length] in *.
  unfold covers in *. rewrite IH by lia. rewrite lookup_insert_ne; [done|lia].
Qed.

Lemma put_holds a bs g : holds_at (put a bs g) a bs.
Proof.
  revert a g. induction bs as [|b bs IH]; intros a g.
  { intros i c Hi. by rewrite lookup_nil in Hi. }
  apply holds_cons. split; [|apply IH]. cbn [put].
  rewrite put_out by (unfold covers; lia). apply lookup_insert_eq.
Qed.

(** Storing what another memory has there makes the two agree. *)
Lemma put_agree a bs g g0 x :
  holds_at g0 a bs -> put a bs g !! x = if decide (covers a (length bs) x) then g0 !! x else g !! x.
Proof.
  intros H. destruct (decide (covers a (length bs) x)) as [Hc|Hc]; [|by apply put_out].
  unfold covers in Hc. destruct (lookup_lt_is_Some_2 bs (Z.to_nat (x - a))) as [b Hb]; [lia|].
  pose proof (put_holds a bs g _ _ Hb) as H1. pose proof (H _ _ Hb) as H2.
  replace (a + Z.of_nat (Z.to_nat (x - a))) with x in * by lia. congruence.
Qed.

Lemma put_mapped a bs g b n : mapped g b n -> mapped (put a bs g) b n.
Proof.
  intros H x Hx. destruct (decide (covers a (length bs) x)) as [Hc|Hc].
  - by apply (holds_mapped _ _ _ (put_holds a bs g)).
  - rewrite put_out by done. by apply H.
Qed.

Lemma write_put a bs m :
  mapped (mem m) a (length bs) -> Z.testbit (cr0 m) 16 = false ->
  write_bytes a bs m = Ok (MkMachine (put a bs (mem m)) (cr0 m)).
Proof.
  revert a m. induction bs as [|b bs IH]; intros a m Hm Hc; [by destruct m|].
  apply mapped_S in Hm as [Ha Hm]. cbn [write_bytes].
  rewrite bool_decide_eq_true_2 by done. rewrite Hc, andb_false_r. cbn [negb andb require mbind res_bind]. apply (IH (a + 1) (MkMachine _ _)); [|done].
  intros x Hx. simpl. destruct (decide (a = x)) as [->|Hne].
  - rewrite lookup_insert_eq. by eexists.
  - rewrite lookup_insert_ne by done. by apply Hm.
Qed.

(** ** Write protection *)
Lemma wp_off_bit m : Z.testbit (cr0 (wp_off m)) 16 = false.
Proof.
  unfold wp_off, set_cr0, get_cr0, CR0_WRITE_PROTECT. cbn [cr0]. rewrite Z.land_spec.
  change (Z.testbit (u64 (Z.lnot 65536)) 16) with false. apply andb_false_r.
Qed.

(** CR0 after the protection was lifted and put back. *)
Definition protected (m : machine) : Z :=
  Z.lor (Z.land (cr0 m) (u64 (Z.lnot CR0_WRITE_PROTECT))) CR0_WRITE_PROTECT.

Lemma testbit_16 i : i <> 16 -> Z.testbit 65536 i = false.
Proof. intros Hi. change 65536 with (2 ^ 16). apply Z.pow2_bits_false. lia. Qed.

Lemma protected_bits m i :
  0 <= i < 64 -> Z.testbit (protected m) i = (i =? 16) || Z.testbit (cr0 m) i.
Proof.
  intros Hi. unfold protected, CR0_WRITE_PROTECT. rewrite Z.lor_spec, Z.land_spec.
  destruct (Z.eqb_spec i 16) as [->|Hne]; simpl; [apply orb_true_r|].
  rewrite (testbit_16 i), orb_false_r by done. unfold u64.
  change 18446744073709551616 with (2 ^ 64). rewrite Z.mod_pow2_bits_low by lia.
  rewrite Z.lnot_spec, testbit_16 by lia. apply andb_true_r.
Qed.

(** ** One patch *)
Lemma set_hook_spec table id h m l :
  holds_at (mem m) (table + 8 * id) l -> length l = 8%nat ->
  set_hook table id h m =
    Ok (le_decode l, MkMachine (put (table + 8 * id) (le_encode 8 h) (mem m)) (protected m)).
Proof.
  intros Hl Hlen. unfold set_hook. rewrite <- Hlen, (read_holds _ _ _ Hl). simpl mbind. rewrite Hlen.
  pose proof (holds_mapped _ _ _ Hl) as Hm. rewrite Hlen in Hm.
  rewrite write_put; [done| |apply wp_off_bit]. by rewrite le_encode_len.
Qed.

(** The four bytes of a call that makes it reach [api_addr]. *)
Definition call_bytes (call_addr api_addr : Z) : list Z :=
  le_encode 4 (u32 (i32 (u64 (api_addr - call_addr - 4)))).

Lemma set_call_spec call api m :
  mapped (mem m) call 4 ->
  set_call_addr call api m =
    Ok (MkMachine (put call (call_bytes call api) (mem m)) (protected m)).
Proof.
  intros Hm. unfold set_call_addr. rewrite write_put; [done| |apply wp_off_bit].
  by rewrite le_encode_len.
Qed.

(** ** The symbol table *)
Lemma strncmp_line t s q :
  10 ∉ t -> 10 ∉ s -> strncmp_eq (t ++ 10 :: q) (s ++ [10]) = Ok (bool_decide (t = s)).
Proof.
  revert s. induction t as [|x t IH]; intros [|c s] Ht Hs; cbn [app strncmp_eq].
  - by rewrite bool_decide_eq_true_2.
  - rewrite elem_of_cons in Hs. destruct (Z.eqb_spec 10 c); [|done]. subst. tauto.
  - rewrite elem_of_cons in Ht. destruct (Z.eqb_spec x 10); [|done]. subst. tauto.
  - rewrite elem_of_cons in Ht, Hs. destruct (Z.eqb_spec x c) as [->|Hne].
    + rewrite IH by tauto. f_equal. apply bool_decide_ext. split; [by intros ->|by intros [= ->]].
    + rewrite bool_decide_eq_false_2; [done|]. by intros [= -> _].
Qed.

Definition line_ok (l : list Z) : Prop :=
  (10 ∉ l) /\ (16 <= length l <= 254)%nat /\ no_nul (take 16 l).

(** What happens at the newline of a line that was read into [line]. *)
Definition at_newline (symbol rest line : list Z) : res Z :=
  found ← strncmp_eq (drop 16 line) symbol;
  if (found : bool) then line ← arr_set line 16 0; s ← c_string line; Ok (hex2ptr s)
  else scan symbol rest 0 line.

Lemma scan_line symbol l rest p q :
  10 ∉ l -> (length p + length l < 255)%nat -> length (p ++ q) = 255%nat ->
  exists q', length (p ++ l ++ 10 :: q') = 255%nat /\
    scan symbol (l ++ 10 :: rest) (zlen p) (p ++ q) = at_newline symbol rest (p ++ l ++ 10 :: q').
Proof.
  revert p q. induction l as [|c l IH]; intros p q Hl Hlen Hq; cbn [app scan].
  - destruct q as [|x q]; [rewrite length_app in Hq; simpl in *; lia|].
    exists q. split; [by rewrite length_app in *|].
    assert ((zlen p <? LINE_SIZE) = true) as ->.
    { apply Z.ltb_lt. unfold zlen, LINE_SIZE. simpl in Hlen. lia. }
    rewrite arr_set_app. done.
  - rewrite elem_of_cons in Hl. cbn [length] in Hlen.
    destruct q as [|x q]; [rewrite length_app in Hq; simpl in *; lia|].
    assert ((zlen p <? LINE_SIZE) = true) as ->.
    { apply Z.ltb_lt. unfold zlen, LINE_SIZE. lia. }
    rewrite arr_set_app. cbn [mbind res_bind].
    destruct (Z.eqb_spec c 10); [subst; tauto|].
    destruct (IH (p ++ [c]) q) as (q' & Hq' & E); [tauto|rewrite length_app; simpl; lia| |].
    { rewrite <- app_assoc. rewrite !length_app in *. simpl in *. lia. }
    rewrite <- app_assoc in Hq', E. rewrite <- (app_assoc p [c] (l ++ _)) in E.
    exists q'. split; [done|]. rewrite zlen_app in E. exact E.
Qed.

Definition kallsyms_text (lines : list (list Z)) : list Z := concat ((fun l => l ++ [10]) <$> lines).

Lemma scan_lines s lines line :
  10 ∉ s -> Forall line_ok lines -> length line = 255%nat ->
  scan (s ++ [10]) (kallsyms_text lines) 0 line =
    Ok match List.find (fun l => bool_decide (drop 16 l = s)) lines with
       | Some l => hex2ptr (take 16 l)
       | None => 0
       end.
Proof.
  intros Hs Hls. revert line. induction Hls as [|l lines (Hl & Hlen & Hnul) Hls IH]; intros line Hline.
  { done. }
  change (kallsyms_text (l :: lines)) with ((l ++ [10]) ++ kallsyms_text lines).
  rewrite <- app_assoc. cbn [app].
  destruct (scan_line (s ++ [10]) l (kallsyms_text lines) [] line) as (q' & Hq' & E);
    [done|simpl; lia|done|].
  cbn [app] in E, Hq'. change (zlen (@nil Z)) with 0 in E. rewrite E. clear E. unfold at_newline.
  rewrite drop_app_le by lia. rewrite strncmp_line.
  3: done.
  2: { intros Hin. apply Hl. rewrite <- (take_drop 16 l). apply elem_of_app. by right. }
  cbn [mbind res_bind]. destruct (bool_decide (drop 16 l = s)) eqn:Eb.
  - cbn [List.find]. rewrite Eb.
    pose proof (take_drop 16 l) as Htd. rewrite <- Htd at 1.
    assert (exists y r, drop 16 l ++ 10 :: q' = y :: r) as (y & r & Hyr).
    { destruct (drop 16 l); simpl; eauto. }
    rewrite <- app_assoc, Hyr.
    assert (H16 : zlen (take 16 l) = 16).
    { unfold zlen. rewrite length_take. lia. }
    pose proof (arr_set_app (take 16 l) r y 0) as E. rewrite H16 in E. rewrite E. cbn [mbind res_bind].
    rewrite c_string_app by done. done.
  - cbn [List.find]. rewrite Eb. by apply IH.
Qed.

(** ** The search for a call *)
Definition call_at (g : gmap Z Z) (p api : Z) : Prop :=
  g !! p = Some 232 /\ exists d, length d = 4%nat /\ holds_at g (p + 1) d /\
    u64 (p + 5 + i32 (le_decode d)) = api.

Lemma holds_unique g a l1 l2 :
  holds_at g a l1 -> holds_at g a l2 -> length l1 = length l2 -> l1 = l2.
Proof.
  intros H1 H2 Hlen. pose proof (read_holds _ _ _ H1) as E1. pose proof (read_holds _ _ _ H2) as E2.
  rewrite Hlen in E1. congruence.
Qed.

Lemma find_call_spec n pos api g :
  mapped g pos (n + 4) ->
  exists r, get_api_call_addr n pos api g = Ok r /\
    ((r = 0 /\ forall k, 0 <= k < Z.of_nat n -> ~ call_at g (pos + k) api) \/
     (exists k, 0 <= k < Z.of_nat n /\ r = pos + k + 1 /\ call_at g (pos + k) api /\
        forall j, 0 <= j < k -> ~ call_at g (pos + j) api)).
Proof.
  revert pos. induction n as [|n IH]; intros pos Hm.
  { exists 0. split; [done|]. left. split; [done|]. lia. }
  cbn [get_api_call_addr]. change (mapped g pos (S (n + 4))) in Hm.
  apply mapped_S in Hm as [[b Hb] Hm].
  rewrite Hb. cbn [of_option mbind res_bind].
  assert (Hnext : ~ call_at g pos api ->
    exists r, get_api_call_addr n (pos + 1) api g = Ok r /\
    ((r = 0 /\ forall k, 0 <= k < Z.of_nat (S n) -> ~ call_at g (pos + k) api) \/
     (exists k, 0 <= k < Z.of_nat (S n) /\ r = pos + k + 1 /\ call_at g (pos + k) api /\
        forall j, 0 <= j < k -> ~ call_at g (pos + j) api))).
  { intros Hno. destruct (IH (pos + 1) Hm) as (r & Er & [[-> Hk]|(k & Hk & -> & Hc & Hj)]).
    - exists 0. split; [done|]. left. split; [done|]. intros k Hk2.
      destruct (Z.eq_dec k 0) as [->|]; [by rewrite Z.add_0_r|].
      replace (pos + k) with (pos + 1 + (k - 1)) by lia. apply Hk. lia.
    - eexists. split; [exact Er|]. right. exists (k + 1).
      replace (pos + (k + 1)) with (pos + 1 + k) by lia. split_and!; try done; try lia.
      intros j Hj2. destruct (Z.eq_dec j 0) as [->|]; [by rewrite Z.add_0_r|].
      replace (pos + j) with (pos + 1 + (j - 1)) by lia. apply Hj. lia. }
  destruct (Z.eqb_spec b 232) as [->|Hne].
  - destruct (holds_exists g (pos + 1) 4) as (d & Hd & Hlen).
    { intros x Hx. apply Hm. unfold covers in *. lia. }
    assert (Erd : read_bytes 4 (pos + 1) g = Ok d) by (rewrite <- Hlen; by apply read_holds).
    rewrite Erd. cbn [mbind res_bind].
    destruct (Z.eqb_spec (u64 (pos + 5 + i32 (le_decode d))) api) as [He|Hne].
    + eexists. split; [done|]. right. exists 0. rewrite !Z.add_0_r.
      split; [lia|]. split; [done|]. split; [|lia]. split; [done|]. eauto.
    + apply Hnext. intros (_ & d' & Hlen' & Hd' & He).
      by rewrite (holds_unique _ _ _ _ Hd' Hd) in He by congruence.
  - apply Hnext. intros [Hb2 _]. congruence.
Qed.

Lemma i32_u64 x : i32 (u64 x) = i32 x.
Proof.
  unfold i32, u64. f_equal.
  rewrite (Z.add_mod (x mod _)), (Z.add_mod x) by lia. f_equal. f_equal.
  apply Z.mod_mod_divide. exists 4294967296. lia.
Qed.

(** The operand of a call determines its target, and the target the operand. *)
Lemma call_bytes_decode call api :
  in_i32 (api - call - 4) -> i32 (le_decode (call_bytes call api)) = api - call - 4.
Proof.
  intros Hr. unfold call_bytes. rewrite le_decode_encode.
  change (256 ^ Z.of_nat 4) with 4294967296. rewrite i32_u64, (i32_id _ Hr).
  unfold u32. rewrite Z.mod_mod by lia. unfold i32, in_i32 in *.
  rewrite Zplus_mod_idemp_l, Z.mod_small; lia.
Qed.

Lemma call_bytes_orig call d api :
  length d = 4%nat -> is_bytes d -> u64 (call + 4 + i32 (le_decode d)) = api ->
  call_bytes call api = d.
Proof.
  intros Hlen Hb <-. unfold call_bytes. pose proof (le_decode_bound d Hb) as Hd. rewrite Hlen in Hd.
  change (256 ^ Z.of_nat 4) with 4294967296 in Hd.
  assert (E : u32 (i32 (u64 (u64 (call + 4 + i32 (le_decode d)) - call - 4))) = le_decode d).
  { rewrite i32_u64. pose proof (i32_range (le_decode d)) as Hr.
    assert (Hx : i32 (u64 (call + 4 + i32 (le_decode d)) - call - 4) = i32 (le_decode d)).
    { rewrite <- i32_u64. unfold u64 at 1 2. rewrite <- Z.sub_add_distr, Zminus_mod_idemp_l.
      replace (call + 4 + i32 (le_decode d) - (call + 4)) with (i32 (le_decode d)) by lia.
      change (i32 (u64 (i32 (le_decode d))) = i32 (le_decode d)). by rewrite i32_u64, i32_idem. }
    rewrite Hx. unfold i32, u32.
    rewrite Zminus_mod_idemp_l. replace (le_decode d + 2147483648 - 2147483648) with (le_decode d) by lia.
    by apply Z.mod_small. }
  rewrite E, <- Hlen. by apply le_encode_decode.
Qed.

(** ** Loading and unloading *)
Section Table.
Context (table : Z).
Context `{!Inj (=) (=) NR}.

Definition slot (k : sys) : Z := table + 8 * NR k.

Lemma slots_disjoint k k' x : covers (slot k) 8 x -> covers (slot k') 8 x -> k = k'.
Proof using Inj0.
  unfold covers, slot. intros H1 H2. apply (inj NR). lia.
Qed.

(** What hooking some calls does: the old entries are saved, the new ones
    installed, nothing else changes. *)
Record hooked (ks : list sys) (orig : sys -> list Z) (g g' : module_state) (m m' : machine)
    : Prop := {
  hk_saved k : k ∈ ks -> old g' k = le_decode (orig k);
  hk_others k : k ∉ ks -> old g' k = old g k;
  hk_vars : old_profile_task_exit g' = old_profile_task_exit g /\ syscall g' = syscall g /\
    profile_task_exit_call_addr g' = profile_task_exit_call_addr g;
  hk_new k : k ∈ ks -> holds_at (mem m') (slot k) (le_encode 8 (cs k));
  hk_mem x : (forall k, k ∈ ks -> ~ covers (slot k) 8 x) -> mem m' !! x = mem m !! x;
  hk_wp : Z.testbit (cr0 m) 16 = true -> Z.testbit (cr0 m') 16 = true
}.

Lemma holds_out g g' a l :
  (forall x, covers a (length l) x -> g' !! x = g !! x) -> holds_at g a l -> holds_at g' a l.
Proof.
  intros H Hl i b Hi. rewrite H; [by apply Hl|]. apply lookup_lt_Some in Hi. unfold covers. lia.
Qed.

Lemma hook_all_spec ks orig g m :
  NoDup ks -> syscall g = table -> (forall k, length (orig k) = 8%nat) ->
  (forall k, k ∈ ks -> holds_at (mem m) (slot k) (orig k)) ->
  exists g' m', hook_all ks g m = Ok (g', m') /\ hooked ks orig g g' m m'.
Proof using Inj0.
  intros Hnd Ht Hlen. revert g m Ht. induction Hnd as [|k ks Hk Hnd IH]; intros g m Ht Hh.
  { exists g, m. split; [done|]. split; try done; intros k Hk; by apply not_elem_of_nil in Hk. }
  cbn [hook_all]. rewrite Ht, (set_hook_spec _ _ _ _ (orig k)); [|apply Hh; set_solver|done].
  cbn [mbind res_bind]. fold (slot k).
  set (m1 := MkMachine (put (slot k) (le_encode 8 (cs k)) (mem m)) (protected m)).
  assert (Hout : forall x, ~ covers (slot k) 8 x -> mem m1 !! x = mem m !! x).
  { intros x Hx. apply put_out. by rewrite le_encode_len. }
  destruct (IH (save g k (le_decode (orig k))) m1) as (g' & m' & -> & [Hs Ho Hv Hn Hm Hw]).
  - done.
  - intros k' Hk'. eapply holds_out; [|apply Hh; set_solver]. intros x Hx. apply Hout.
    rewrite Hlen in Hx. intros Hc. rewrite (slots_disjoint _ _ _ Hx Hc) in Hk'. done.
  - exists g', m'. split; [done|]. split.
    + intros k' [->|Hk']%elem_of_cons; [|by apply Hs].
      rewrite Ho by done. simpl. by rewrite decide_True.
    + intros k' Hk'. rewrite Ho by set_solver. simpl. rewrite decide_False; [done|set_solver].
    + exact Hv.
    + intros k' [->|Hk']%elem_of_cons; [|by apply Hn].
      eapply (holds_out (mem m1)); [|apply put_holds]. rewrite le_encode_len. intros x Hx.
      apply Hm. intros k2 Hk2 Hc.
      by rewrite (slots_disjoint _ _ _ Hc Hx) in Hk2.
    + intros x Hx. rewrite Hm by set_solver. apply Hout. set_solver.
    + intros _. apply Hw. unfold m1. cbn [cr0]. by rewrite protected_bits.
Qed.

(** Putting back entries that a memory [g0] has leaves the slots as in it. *)
Lemma unhook_all_spec ks g m g0 :
  syscall g = table ->
  (forall k, k ∈ ks -> holds_at g0 (slot k) (le_encode 8 (old g k)) /\ mapped (mem m) (slot k) 8) ->
  exists m', unhook_all ks g m = Ok m' /\
    (forall x k, k ∈ ks -> covers (slot k) 8 x -> mem m' !! x = g0 !! x) /\
    (forall x, (forall k, k ∈ ks -> ~ covers (slot k) 8 x) -> mem m' !! x = mem m !! x) /\
    (forall a n, mapped (mem m) a n -> mapped (mem m') a n) /\
    (Z.testbit (cr0 m) 16 = true -> Z.testbit (cr0 m') 16 = true).
Proof.
  intros Ht. revert m. induction ks as [|k ks IH]; intros m Hh.
  { exists m. split_and!; try done. intros x k Hk. by apply not_elem_of_nil in Hk. }
  destruct (Hh k) as [Hk0 Hkm]; [set_solver|].
  destruct (holds_exists _ _ _ Hkm) as (l & Hl & Hlen).
  cbn [unhook_all]. rewrite Ht, (set_hook_spec _ _ _ _ l) by done. cbn [mbind res_bind].
  fold (slot k). set (m1 := MkMachine (put (slot k) (le_encode 8 (old g k)) (mem m)) (protected m)).
  destruct (IH m1) as (m' & -> & H1 & H2 & H3 & H4).
  { intros k' Hk'. destruct (Hh k') as [? ?]; [set_solver|]. split; [done|]. by apply put_mapped. }
  exists m'. split; [done|]. split_and!.
  - intros x k' Hk' Hx. destruct (decide (Exists (fun k => covers (slot k) 8 x) ks)) as [He|He].
    + apply Exists_exists in He as (k2 & Hk2 & Hc). by eapply H1.
    + rewrite H2 by (intros k2 Hk2 Hc; apply He, Exists_exists; eauto).
      apply elem_of_cons in Hk' as [->|Hk'].
      2: { exfalso. apply He, Exists_exists. eauto. }
      cbn [m1 mem]. rewrite (put_agree _ _ _ g0) by done.
      by rewrite le_encode_len, decide_True.
  - intros x Hx. rewrite H2 by set_solver. cbn [m1 mem]. rewrite put_out; [done|].
    rewrite le_encode_len. set_solver.
  - intros a n Ha. apply H3. by apply put_mapped.
  - intros _. apply H4. cbn [m1 cr0]. by rewrite protected_bits.
Qed.

(** A machine in which the module can be loaded: the three symbols resolve,
    a call to [profile_task_exit] is found at [call - 1] in [do_exit], the
    table is mapped, and the call lies outside of it. *)
Record loadable (kallsyms : option (list Z)) (line0 : list Z) (m : machine) (exit_addr call : Z)
    : Prop := {
  lo_exit : get_system_symbol_addr kallsyms line0 (bytes " T profile_task_exit" ++ [10]) = Ok exit_addr;
  lo_call : exists do_exit,
    get_system_symbol_addr kallsyms line0 (bytes " T do_exit" ++ [10]) = Ok do_exit /\
    get_api_call_addr 256 do_exit exit_addr (mem m) = Ok call;
  lo_table : get_system_symbol_addr kallsyms line0 (bytes " R sys_call_table" ++ [10]) = Ok table;
  lo_found : call_at (mem m) (call - 1) exit_addr;
  lo_mapped : forall k, mapped (mem m) (slot k) 8;
  lo_apart : forall k x, covers call 4 x -> ~ covers (slot k) 8 x;
  lo_bytes : forall x b, mem m !! x = Some b -> 0 <= b < 256
}.

(** The entries of the table in a memory. *)
Definition entry (g : gmap Z Z) (k : sys) : list Z :=
  match read_bytes 8 (slot k) g with Ok l => l | UB _ => [] end.

Lemma entry_holds g k : mapped g (slot k) 8 -> holds_at g (slot k) (entry g k) /\ length (entry g k) = 8%nat.
Proof.
  intros H. destruct (holds_exists _ _ _ H) as (l & Hl & Hlen). unfold entry.
  assert (E : read_bytes 8 (slot k) g = Ok l) by (rewrite <- Hlen; by apply read_holds).
  by rewrite E.
Qed.

Lemma holds_bytes g a l :
  (forall x b, g !! x = Some b -> 0 <= b < 256) -> holds_at g a l -> is_bytes l.
Proof.
  intros Hg H. apply Forall_lookup. intros i b Hi. eapply Hg. by apply H.
Qed.

Lemma in_load_order k : k ∈ load_order.
Proof. unfold load_order. rewrite !elem_of_cons. destruct k; tauto. Qed.

Lemma load_order_nodup : NoDup load_order.
Proof. by apply (bool_decide_unpack _). Qed.

(** What [load_module] leaves behind. *)
Lemma load_spec kallsyms line0 m exit_addr call :
  loadable kallsyms line0 m exit_addr call ->
  exists g m', load_module kallsyms line0 m = Ok (g, m') /\
    syscall g = table /\ profile_task_exit_call_addr g = call /\
    old_profile_task_exit g = exit_addr /\
    (forall k, old g k = le_decode (entry (mem m) k)) /\
    (forall k, holds_at (mem m') (slot k) (le_encode 8 (cs k))) /\
    holds_at (mem m') call (call_bytes call cs_profile_task_exit) /\
    (forall x, ~ covers call 4 x -> (forall k, ~ covers (slot k) 8 x) -> mem m' !! x = mem m !! x) /\
    Z.testbit (cr0 m') 16 = true.
Proof using Inj0.
  intros [He (do_exit & Hd & Hc) Ht [Hop (d & Hdl & Hdh & Hdt)] Hm Ha Hb].
  unfold load_module. rewrite He. rewrite bind_ret. rewrite Hd. rewrite bind_ret.
  rewrite Hc. rewrite bind_ret. replace (call - 1 + 1) with call in Hdh by lia.
  pose proof (holds_mapped _ _ _ Hdh) as Hcm. rewrite Hdl in Hcm.
  rewrite set_call_spec by done. rewrite bind_ret. rewrite Ht. rewrite bind_ret.
  set (m1 := MkMachine _ _).
  assert (Hcl : length (call_bytes call cs_profile_task_exit) = 4%nat) by apply le_encode_len.
  assert (H1 : forall k x, covers (slot k) 8 x -> mem m1 !! x = mem m !! x).
  { intros k x Hx. apply put_out. rewrite Hcl. intros Hcx. by apply (Ha k x). }
  destruct (hook_all_spec load_order (entry (mem m))
    (MkModule (fun _ => 0) exit_addr table call) m1) as (g & m' & -> & [Hs _ Hv Hn Hx Hw]).
  - exact load_order_nodup.
  - done.
  - intros k. by apply entry_holds.
  - intros k _. destruct (entry_holds (mem m) k (Hm k)) as [Hk Hl].
    eapply holds_out; [|exact Hk]. rewrite Hl. apply H1.
  - destruct Hv as (V1 & V2 & V3). exists g, m'. split; [done|].
    split_and!; try done.
    + intros k. apply Hs, in_load_order.
    + intros k. apply Hn, in_load_order.
    + eapply (holds_out (mem m1)); [|apply put_holds]. rewrite Hcl. intros x Hcx. apply Hx.
      intros k _. by apply Ha.
    + intros x Hcx Hkx. rewrite Hx by auto. apply put_out. by rewrite Hcl.
    + apply Hw. cbn [m1 cr0]. by rewrite protected_bits.
Qed.

(** Unloading puts back what the module saved. *)
Lemma unload_back g m1 (mm : gmap Z Z) exit_addr call d :
  syscall g = table -> profile_task_exit_call_addr g = call -> old_profile_task_exit g = exit_addr ->
  (forall k, holds_at mm (slot k) (le_encode 8 (old g k))) ->
  holds_at mm call d -> length d = 4%nat -> is_bytes d ->
  u64 (call + 4 + i32 (le_decode d)) = exit_addr ->
  (forall k, mapped (mem m1) (slot k) 8) -> mapped (mem m1) call 4 ->
  (forall x, ~ covers call 4 x -> (forall k, ~ covers (slot k) 8 x) -> mem m1 !! x = mm !! x) ->
  exists m2, unload_module g m1 = Ok m2 /\ mem m2 = mm /\ Z.testbit (cr0 m2) 16 = true.
Proof using Inj0.
  intros Ht Hc Hex Hent Hdh Hdl Hdb Hdt Hmap Hcm1 Hout. unfold unload_module.
  set (ks1 := [read; write; sendto; sendfile; close; unlink; unlinkat; link; linkat; rename;
               renameat; renameat2]).
  set (ks2 := [splice; kill; creat; open; openat; writev]).
  destruct (unhook_all_spec ks1 g m1 mm Ht) as (m2 & -> & A1 & A2 & A3 & A4); [auto|].
  rewrite bind_ret. rewrite Hc, Hex.
  assert (Hcm : mapped (mem m2) call 4) by (by apply A3).
  rewrite set_call_spec by done. rewrite bind_ret.
  rewrite (call_bytes_orig call d) by done.
  set (m3 := MkMachine _ _).
  destruct (unhook_all_spec ks2 g m3 mm Ht) as (m4 & -> & B1 & B2 & B3 & B4).
  { intros k _. split; [done|]. cbn [m3 mem]. apply put_mapped. by apply A3. }
  exists m4. split; [done|]. split; [|apply B4; cbn [m3 cr0]; by rewrite protected_bits].
  apply map_eq. intros x.
  destruct (decide (Exists (fun k => covers (slot k) 8 x) ks2)) as [He|He].
  { apply Exists_exists in He as (k & Hk & Hx). by eapply B1. }
  rewrite B2 by (intros k Hk Hx; apply He, Exists_exists; eauto).
  cbn [m3 mem]. rewrite (put_agree _ _ _ _ x Hdh). rewrite Hdl.
  destruct (decide (covers call 4 x)) as [Hx|Hx]; [done|].
  destruct (decide (Exists (fun k => covers (slot k) 8 x) ks1)) as [He1|He1].
  { apply Exists_exists in He1 as (k & Hk & Hkx). by eapply A1. }
  rewrite A2 by (intros k Hk Hkx; apply He1, Exists_exists; eauto).
  apply Hout; [done|]. intros k Hkx.
  assert (Hin : k ∈ ks1 \/ k ∈ ks2)
    by (unfold ks1, ks2; rewrite !elem_of_cons; destruct k; tauto).
  destruct Hin as [Hin|Hin]; [apply He1|apply He]; apply Exists_exists; eauto.
Qed.

(** Loading, then unloading. *)
Lemma load_unload kallsyms line0 m exit_addr call :
  loadable kallsyms line0 m exit_addr call ->
  exists g m1 m2, load_module kallsyms line0 m = Ok (g, m1) /\ unload_module g m1 = Ok m2 /\
    (forall k, holds_at (mem m1) (slot k) (le_encode 8 (cs k))) /\
    mem m2 = mem m /\ Z.testbit (cr0 m1) 16 = true /\ Z.testbit (cr0 m2) 16 = true.
Proof using Inj0.
  intros Hlo. destruct (load_spec _ _ _ _ _ Hlo) as (g & m1 & E & Ht & Hc & Hex & Hold & Hnew & Hcn & Hout & Hwp).
  destruct Hlo as [_ _ _ [_ (d & Hdl & Hdh & Hdt)] Hm Ha Hb].
  replace (call - 1 + 1) with call in Hdh by lia.
  replace (call - 1 + 5) with (call + 4) in Hdt by lia.
  destruct (unload_back g m1 (mem m) exit_addr call d) as (m2 & E2 & Hmem & Hwp2);
    try done; [|by eapply holds_bytes|..].
  - intros k. destruct (entry_holds (mem m) k (Hm k)) as [Hk Hl]. rewrite Hold, <- Hl.
    rewrite le_encode_decode; [done|]. by eapply holds_bytes.
  - intros k. pose proof (holds_mapped _ _ _ (Hnew k)) as H. by rewrite le_encode_len in H.
  - pose proof (holds_mapped _ _ _ Hcn) as H. unfold call_bytes in H. by rewrite le_encode_len in H.
  - exists g, m1, m2. by split_and!.
Qed.

(** C35 - loading the module saves every hooked entry of the system call
    table and installs the module's hooks, redirects the call, and unloading
    it restores the memory of the kernel byte for byte; both leave write
    protection on. *)
Theorem unload_restores kallsyms line0 m exit_addr call :
  loadable kallsyms line0 m exit_addr call ->
  exists g m1 m2, load_module kallsyms line0 m = Ok (g, m1) /\ unload_module g m1 = Ok m2 /\
    (forall k, read_bytes 8 (slot k) (mem m1) = Ok (le_encode 8 (cs k))) /\
    mem m2 = mem m /\ Z.testbit (cr0 m1) 16 = true /\ Z.testbit (cr0 m2) 16 = true.
Proof using Inj0.
  intros Hlo. destruct (load_unload _ _ _ _ _ Hlo) as (g & m1 & m2 & E1 & E2 & Hnew & H).
  exists g, m1, m2. split; [done|]. split; [done|]. split; [|done].
  intros k. pose proof (read_holds _ _ _ (Hnew k)) as Hr. by rewrite le_encode_len in Hr.
Qed.
End Table.

(** The symbol scan answers the address of the first line whose text
    after the 16 digits is the symbol, and 0 when there is none, whatever the
    stack held: for lines of 16 to 254 bytes it never reads or writes outside
    its 255-byte buffer. *)
Theorem kallsyms_lookup s lines line0 :
  10 ∉ s -> Forall line_ok lines -> length line0 = 255%nat ->
  get_system_symbol_addr (Some (kallsyms_text lines)) line0 (s ++ [10]) =
    Ok match List.find (fun l => bool_decide (drop 16 l = s)) lines with
       | Some l => hex2ptr (take 16 l)
       | None => 0
       end.
Proof. exact (scan_lines s lines line0). Qed.

(** The search answers the operand address of the first call to the
    function within the range, and 0 when there is none; a patch redirects
    that call to any function within 2 GB, in spite of write protection, and
    changes nothing but its four bytes. *)
Theorem call_redirect n pos api api' m :
  mapped (mem m) pos (n + 4) ->
  exists r, get_api_call_addr n pos api (mem m) = Ok r /\
    ((r = 0 /\ forall k, 0 <= k < Z.of_nat n -> ~ call_at (mem m) (pos + k) api) \/
     (exists k, 0 <= k < Z.of_nat n /\ r = pos + k + 1 /\ call_at (mem m) (pos + k) api /\
        (forall j, 0 <= j < k -> ~ call_at (mem m) (pos + j) api) /\
        (0 <= api' < 18446744073709551616 -> in_i32 (api' - r - 4) ->
         exists m', set_call_addr r api' m = Ok m' /\ call_at (mem m') (pos + k) api' /\
           forall x, ~ covers r 4 x -> mem m' !! x = mem m !! x))).
Proof.
  intros Hm. destruct (find_call_spec n pos api (mem m) Hm) as (r & Er & Hcase).
  exists r. split; [done|]. destruct Hcase as [?|(k & Hk & -> & Hc & Hj)]; [by left|right].
  exists k. split_and!; try done; try lia. intros Ha Hr.
  assert (Hcm : mapped (mem m) (pos + k + 1) 4).
  { intros x Hx. apply Hm. unfold covers in *. lia. }
  rewrite set_call_spec by done. eexists. split; [done|]. cbn [mem].
  assert (Hl : length (call_bytes (pos + k + 1) api') = 4%nat) by apply le_encode_len.
  split; [|intros x Hx; apply put_out; by rewrite Hl].
  split. { rewrite put_out; [apply Hc|]. unfold covers. lia. }
  eexists. split; [exact Hl|]. split; [apply put_holds|].
  rewrite call_bytes_decode by done.
  replace (pos + k + 5 + (api' - (pos + k + 1) - 4)) with api' by lia. by apply u64_id.
Qed.

(** [load_module] checks none of its lookups: when [profile_task_exit]
    cannot be found among the calls of [do_exit], the patch goes to address 0
    and faults. *)
Theorem load_without_call_faults kallsyms line0 m exit_addr do_exit :
  get_system_symbol_addr kallsyms line0 (bytes " T profile_task_exit" ++ [10]) = Ok exit_addr ->
  get_system_symbol_addr kallsyms line0 (bytes " T do_exit" ++ [10]) = Ok do_exit ->
  mapped (mem m) do_exit 260 ->
  (forall k, 0 <= k < 256 -> ~ call_at (mem m) (do_exit + k) exit_addr) ->
  mem m !! 0 = None ->
  load_module kallsyms line0 m = UB Fault.
Proof.
  intros He Hd Hm Hno H0. unfold load_module. rewrite He. rewrite bind_ret. rewrite Hd.
  rewrite bind_ret.
  destruct (find_call_spec 256 do_exit exit_addr (mem m)) as (r & Er & Hcase); [done|].
  rewrite Er. rewrite bind_ret.
  destruct Hcase as [[-> _]|(k & Hk & _ & Hc & _)]; [|by destruct (Hno k Hk)].
  unfold set_call_addr. cbn [le_encode write_bytes]. unfold wp_off. cbn [set_cr0 mem].
  rewrite H0. done.
Qed.
End SyscallHook.

(** ** The properties at concrete inputs: a kernel with [do_exit] at 0x1000,
    which begins with a call to 0x2000, and the table at 0x3000. *)
Definition demo_digit (c : Z) : Z := if c <? 58 then c - 48 else c - 87.
Definition demo_hex (s : list Z) : Z := foldl (fun a c => a * 16 + demo_digit c) 0 s.
Definition demo_lines : list (list Z) :=
  [bytes "0000000000002000 T profile_task_exit"; bytes "0000000000001000 T do_exit";
   bytes "0000000000003000 R sys_call_table"].
Definition demo_kallsyms : option (list Z) := Some (kallsyms_text demo_lines).
Definition demo_line0 : list Z := replicate 255 170.
Definition demo_nr (k : sys) : Z :=
  match k with
  | close => 3 | write => 1 | sendto => 44 | sendfile => 40 | read => 0 | unlink => 87
  | unlinkat => 263 | link => 86 | linkat => 265 | rename => 82 | renameat => 264
  | renameat2 => 316 | splice => 275 | kill => 62 | creat => 85 | open => 2 | openat => 257
  | writev => 20
  end.
Definition demo_mem : gmap Z Z :=
  put 4096 [232; 251; 15; 0; 0] (put 12288 (replicate 2536 7) ∅).
Definition demo_machine : machine := MkMachine demo_mem 2147811379.
Definition demo_ro (a : Z) : bool := true.

#[export] Instance demo_nr_inj : Inj (=) (=) demo_nr.
Proof. intros k k' H. destruct k, k'; simpl in H; try done; lia. Qed.

Lemma put_bytes a bs g :
  is_bytes bs -> (forall x b, g !! x = Some b -> 0 <= b < 256) ->
  forall x b, put a bs g !! x = Some b -> 0 <= b < 256.
Proof.
  intros Hbs. revert a g. induction Hbs as [|c bs Hc Hbs IH]; intros a g Hg x b; [apply Hg|].
  cbn [put]. apply IH. intros y d. destruct (decide (a = y)) as [->|Hne].
  - rewrite lookup_insert_eq. by intros [= <-].
  - rewrite lookup_insert_ne by done. apply Hg.
Qed.

Lemma demo_mapped k : mapped demo_mem (slot demo_nr 12288 k) 8.
Proof.
  unfold demo_mem. apply put_mapped. intros x Hx.
  apply (holds_mapped _ _ _ (put_holds 12288 (replicate 2536 7) ∅)). rewrite length_replicate.
  unfold covers, slot in *. destruct k; simpl in Hx; lia.
Qed.

Lemma demo_loadable :
  loadable demo_nr demo_hex 12288 demo_kallsyms demo_line0 demo_machine 8192 4097.
Proof.
  split.
  - by vm_compute.
  - exists 4096. split; by vm_compute.
  - by vm_compute.
  - split; [by vm_compute|]. exists [251; 15; 0; 0]. split; [done|]. split; [|by vm_compute].
    by apply (holds_cons _ 4096 232), (put_holds 4096 [232; 251; 15; 0; 0]).
  - exact demo_mapped.
  - intros k x Hx Hk. unfold covers, slot in *. destruct k; simpl in *; lia.
  - apply put_bytes; [repeat constructor; lia|]. apply put_bytes.
    + apply Forall_replicate. lia.
    + intros x b Hx. by rewrite lookup_empty in Hx.
Qed.

Lemma unload_restores_witness :
  exists g m1 m2,
    load_module demo_ro demo_nr (fun _ => 9) 2000000 demo_hex demo_kallsyms demo_line0 demo_machine
      = Ok (g, m1) /\
    unload_module demo_ro demo_nr g m1 = Ok m2 /\ mem m2 = demo_mem.
Proof.
  destruct (unload_restores demo_ro demo_nr (fun _ => 9) 2000000 demo_hex 12288 demo_kallsyms
    demo_line0 demo_machine 8192 4097 demo_loadable) as (g & m1 & m2 & E1 & E2 & _ & E3 & _).
  exists g, m1, m2. split; [exact E1|]. split; [exact E2|exact E3].
Defined.

Lemma kallsyms_lookup_witness :
  get_system_symbol_addr demo_hex demo_kallsyms demo_line0 (bytes " T do_exit" ++ [10]) = Ok 4096.
Proof.
  unfold demo_kallsyms. rewrite kallsyms_lookup.
  - by vm_compute.
  - intros H. vm_compute in H. repeat (apply elem_of_cons in H as [H|H]; [discriminate H|]).
    by apply not_elem_of_nil in H.
  - repeat constructor; simpl; try lia; try done.
    all: intros H; repeat (apply elem_of_cons in H as [H|H]; [discriminate H|]);
      by apply not_elem_of_nil in H.
  - done.
Defined.

Lemma call_redirect_witness :
  exists r, get_api_call_addr 1 4096 8192 demo_mem = Ok r /\
    (r = 0 \/ exists m', set_call_addr demo_ro r 2000000 demo_machine = Ok m').
Proof.
  destruct (call_redirect demo_ro 1 4096 8192 2000000 demo_machine) as (r & E & Hr).
  - apply (holds_mapped _ 4096 [232; 251; 15; 0; 0]), put_holds.
  - exists r. split; [exact E|]. destruct Hr as [[-> _]|(k & Hk & -> & _ & _ & H)]; [by left|right].
    destruct H as (m' & -> & _); [lia|unfold in_i32; lia|eauto].
Defined.

Definition bare_machine : machine := MkMachine (put 4096 (replicate 260 0) ∅) 0.

Lemma load_without_call_faults_witness :
  load_module demo_ro demo_nr (fun _ => 9) 2000000 demo_hex demo_kallsyms demo_line0 bare_machine
    = UB Fault.
Proof.
  apply (load_without_call_faults demo_ro demo_nr (fun _ => 9) 2000000 demo_hex demo_kallsyms
    demo_line0 bare_machine 8192 4096); [by vm_compute|by vm_compute| | |done].
  - pose proof (holds_mapped _ _ _ (put_holds 4096 (replicate 260 0) ∅)) as H.
    rewrite length_replicate in H. exact H.
  - intros k Hk [H _]. pose proof (put_holds 4096 (replicate 260 0) ∅ (Z.to_nat k) 0) as H0.
    cbn [bare_machine mem] in H. rewrite Z2Nat.id in H0 by lia.
    rewrite H0 in H; [discriminate H|]. apply lookup_replicate_2. lia.
Defined.
End SyscallHook.
