(* ===== verification/SyscallModule.v ===== *)
(** The life of the hook module (src/syscall_hook.c, [load_module],
    [unload_module] and [wakeup_rename_task]): the tables, threads and hooks
    it sets up and takes down, around the patches of [SyscallHook]. *)
From S2P Require Import Prelude SyscallHook.
Import SyscallHook.

Module SyscallModule.

Inductive table : Type := RenameJobs | Pidhash | Pathhash | Netlink.
#[global] Instance table_eq_dec : EqDecision table.
Proof. solve_decision. Defined.

(** The calls that leave the file, in the order they are made; [Hook] and
    [Unhook] stand for the patches. *)
Inductive call : Type :=
| MutexInit
| Init (t : table)
| KthreadCreate (name : list Z)
| WakeUp (task : Z)
| InsertPath (md5 : list Z)
| Hook
| Unhook
| KthreadStop (task : Z)
| Free (t : table).

Section SyscallModule.
Context (ro : Z -> bool) (NR : sys -> Z) (cs : sys -> Z) (cs_profile_task_exit : Z).
Context (hex2ptr : list Z -> Z).
(** [strmd5] of csdata.h; which values of a [struct task_struct *] point to a
    thread ([kthread_create] answers such a pointer or an error pointer, and
    never NULL). *)
Context (strmd5 : list Z -> list Z) (is_task : Z -> bool).

(** [wake_up_process] and [kthread_stop] read the task. *)
Definition wake_up_process (task : Z) : res (list call) :=
  if is_task task then Ok [WakeUp task] else UB Fault.
Definition kthread_stop (task : Z) : res (list call) :=
  if is_task task then Ok [KthreadStop task] else UB Fault.

(** The file's two tasks. *)
Record tasks := MkTasks { dbsave_task : Z; rename_task : Z }.
Definition tasks_init : tasks := MkTasks 0 0.

Definition wakeup_rename_task (t : tasks) : res (list call) := wake_up_process (rename_task t).

(** Lines 150-163, up to the first patch. *)
Definition load_start (created1 created2 : Z) : res (tasks * list call) :=
  let c0 := [MutexInit; Init RenameJobs; Init Pidhash; Init Pathhash; Init Netlink] in
  c1 ← (if negb (created1 =? 0) then wake_up_process created1 else Ok []);
  c2 ← (if negb (created2 =? 0) then wake_up_process created2 else Ok []);
  Ok (MkTasks created1 created2,
      c0 ++ [KthreadCreate (bytes "cs_dbsave_thread")] ++ c1 ++
      [KthreadCreate (bytes "cs_rename_dir_thread")] ++ c2 ++
      [InsertPath (strmd5 (bytes "/tmp/demo1.c")); InsertPath (strmd5 (bytes "/tmp/demo2.c"))]).

Definition load (created1 created2 : Z) (kallsyms : option (list Z)) (line0 : list Z)
    (m : machine) : res (tasks * module_state * machine * list call) :=
  '(t, cs1) ← load_start created1 created2;
  '(g, m) ← load_module ro NR cs cs_profile_task_exit hex2ptr kallsyms line0 m;
  Ok (t, g, m, cs1 ++ [Hook]).

(** Lines 225-230. *)
Definition unload_end (t : tasks) : res (list call) :=
  c1 ← (if negb (dbsave_task t =? 0) then kthread_stop (dbsave_task t) else Ok []);
  c2 ← (if negb (rename_task t =? 0) then kthread_stop (rename_task t) else Ok []);
  Ok ([Free Netlink] ++ c1 ++ c2 ++ [Free Pathhash; Free Pidhash; Free RenameJobs]).

Definition unload (t : tasks) (g : module_state) (m : machine) : res (machine * list call) :=
  m ← unload_module ro NR g m;
  c ← unload_end t;
  Ok (m, Unhook :: c).

(** ** What the calls need of each other *)

(** The tables in place, the threads running, the hooks in place.  A thread
    and a hook use the tables: they must not be there before the tables, nor
    after. *)
Record life := MkLife { live_tables : list table; running : list Z; hooked : bool }.

Definition all_tables : list table := [RenameJobs; Pidhash; Pathhash; Netlink].
Definition same (t t' : table) : bool := if decide (t = t') then true else false.
Definition has (t : table) (s : life) : bool := existsb (same t) (live_tables s).
Definition has_tables (s : life) (ts : list table) : bool := forallb (fun t => has t s) ts.
Definition runs (k : Z) (s : life) : bool := existsb (Z.eqb k) (running s).

(** One call; [None] when something it needs is missing or something it
    takes away is still in use. *)
Definition after (s : life) (c : call) : option life :=
  match c with
  | MutexInit | KthreadCreate _ => Some s
  | Init t => if has t s then None else Some (MkLife (t :: live_tables s) (running s) (hooked s))
  | WakeUp k => if has_tables s all_tables && negb (runs k s)
                then Some (MkLife (live_tables s) (k :: running s) (hooked s)) else None
  | InsertPath _ => if has_tables s [Pathhash] then Some s else None
  | Hook => if has_tables s all_tables && negb (hooked s)
            then Some (MkLife (live_tables s) (running s) true) else None
  | Unhook => if hooked s then Some (MkLife (live_tables s) (running s) false) else None
  | KthreadStop k =>
      if runs k s
      then Some (MkLife (live_tables s) (List.filter (fun x => negb (x =? k)) (running s)) (hooked s))
      else None
  | Free t =>
      if has t s && negb (hooked s) && (same t Netlink || match running s with [] => true | _ => false end)
      then Some (MkLife (List.filter (fun x => negb (same x t)) (live_tables s)) (running s) (hooked s))
      else None
  end.

Fixpoint run_calls (cs : list call) (s : life) : option life :=
  match cs with
  | [] => Some s
  | c :: cs => match after s c with None => None | Some s => run_calls cs s end
  end.

Definition nothing : life := MkLife [] [] false.

Lemma wake_ok k : is_task k = true -> wake_up_process k = Ok [WakeUp k].
Proof. intros H. unfold wake_up_process. by rewrite H. Qed.
Lemma stop_ok k : is_task k = true -> kthread_stop k = Ok [KthreadStop k].
Proof. intros H. unfold kthread_stop. by rewrite H. Qed.


(** [kthread_create] answers an error pointer when it fails, which passes the
    test for NULL: the module wakes a thread that is none. *)
Theorem create_error_faults e created2 kallsyms line0 m
    (Herr : is_task e = false) (Hnn : e <> 0) :
  load e created2 kallsyms line0 m = UB Fault.
Proof.
  unfold load, load_start, wake_up_process. destruct (Z.eqb_spec e 0); [done|]. simpl. by rewrite Herr.
Qed.
End SyscallModule.

Definition demo_task (v : Z) : bool := bool_decide (v = 100) || bool_decide (v = 200).

Lemma demo_nr_inj : Inj (=) (=) demo_nr.
Proof. intros [] []; done. Qed.


Lemma create_error_faults_witness :
  load demo_ro demo_nr (fun _ => 9) 2000000 demo_hex (take 16) demo_task 18446744073709551604 200
    demo_kallsyms demo_line0 demo_machine = UB Fault.
Proof. apply create_error_faults; [by vm_compute|lia]. Defined.
End SyscallModule.
