(* ===== verification/KList.v ===== *)
(** The interface to the kernel's circular lists (linux/list.h is not part of
    the repository): the class states the documented behaviour the module
    relies on; the instance, two maps of links, shows that it can hold. *)
From S2P Require Import Prelude.

Abbreviation addr := positive.

(** [chain s h l]: starting from the node [h] the list runs through [l] and
    back to [h].  [unset s h]: the links of [h] were never written. *)
Class KernelList (S : Type) := {
  INIT_LIST_HEAD : addr -> S -> S;
  list_add_tail : addr -> addr -> S -> res S;
  list_add : addr -> addr -> S -> res S;
  list_del : addr -> S -> res S;
  list_entries : addr -> S -> res (list addr);
  chain : S -> addr -> list addr -> Prop;
  unset : S -> addr -> Prop;
  chain_nodup s h l : chain s h l -> NoDup (h :: l);
  chain_rotate s h l1 x l2 : chain s h (l1 ++ x :: l2) -> chain s x (l2 ++ h :: l1);
  init_chain s h : chain (INIT_LIST_HEAD h s) h [];
  init_other s h h' l : chain s h' l -> h <> h' -> h ∉ l -> chain (INIT_LIST_HEAD h s) h' l;
  add_tail_chain s new h l : chain s h l -> new <> h -> new ∉ l ->
    exists s', list_add_tail new h s = Ok s' /\ chain s' h (l ++ [new]);
  add_chain s new h l : chain s h l -> new <> h -> new ∉ l ->
    exists s', list_add new h s = Ok s' /\ chain s' h (new :: l);
  add_tail_unset s new h : unset s h -> list_add_tail new h s = UB Uninitialised;
  add_unset s new h : unset s h -> list_add new h s = UB Uninitialised;
  del_chain s h l1 x l2 : chain s h (l1 ++ x :: l2) ->
    exists s', list_del x s = Ok s' /\ chain s' h (l1 ++ l2);
  entries_chain s h l : chain s h l -> list_entries h s = Ok l
}.

(** ** Links as two maps *)
Record links := MkLinks { next : gmap addr addr; prev : gmap addr addr }.

Definition l_init (h : addr) (s : links) : links :=
  MkLinks (<[h := h]> (next s)) (<[h := h]> (prev s)).

(** Put [new] between two neighbours. *)
Definition l_between (new p n : addr) (s : links) : links :=
  MkLinks (<[p := new]> (<[new := n]> (next s))) (<[n := new]> (<[new := p]> (prev s))).
Definition l_add_tail (new h : addr) (s : links) : res links :=
  p ← of_option Uninitialised (prev s !! h); Ok (l_between new p h s).
Definition l_add (new h : addr) (s : links) : res links :=
  n ← of_option Uninitialised (next s !! h); Ok (l_between new h n s).
Definition l_del (x : addr) (s : links) : res links :=
  p ← of_option Uninitialised (prev s !! x);
  n ← of_option Uninitialised (next s !! x);
  Ok (MkLinks (<[p := n]> (next s)) (<[n := p]> (prev s))).

Fixpoint l_walk (fuel : nat) (h x : addr) (s : links) : res (list addr) :=
  match fuel with
  | O => UB OutOfFuel
  | S fuel =>
      n ← of_option Uninitialised (next s !! x);
      if decide (n = h) then Ok [] else r ← l_walk fuel h n s; Ok (n :: r)
  end.
Definition l_entries (h : addr) (s : links) : res (list addr) := l_walk (S (size (next s))) h h s.

(** A run of links from [a] through [l] to [b], in both directions. *)
Fixpoint seg (s : links) (a : addr) (l : list addr) (b : addr) : Prop :=
  match l with
  | [] => next s !! a = Some b /\ prev s !! b = Some a
  | x :: l => next s !! a = Some x /\ prev s !! x = Some a /\ seg s x l b
  end.
Definition l_chain (s : links) (h : addr) (l : list addr) : Prop := seg s h l h /\ NoDup (h :: l).

Lemma seg_app s a l1 x l2 b : seg s a (l1 ++ x :: l2) b <-> seg s a l1 x /\ seg s x l2 b.
Proof. revert a. induction l1 as [|y l1 IH]; intros a; simpl; [tauto|]. rewrite IH. tauto. Qed.

(** Links change only where they are written. *)
Lemma seg_frame s s' a l b :
  seg s a l b ->
  (forall x, x ∈ a :: l -> next s' !! x = next s !! x) ->
  (forall x, x ∈ l ++ [b] -> prev s' !! x = prev s !! x) -> seg s' a l b.
Proof.
  revert a. induction l as [|x l IH]; intros a H Hn Hp; simpl in *.
  - destruct H as [H1 H2]. rewrite Hn, Hp by set_solver. done.
  - destruct H as (H1 & H2 & H3). rewrite Hn, Hp by set_solver. split_and!; try done.
    apply IH; [done|..]; intros y Hy; [apply Hn|apply Hp]; set_solver.
Qed.

Lemma seg_last s a l b : seg s a l b -> prev s !! b = Some (default a (last l)).
Proof.
  revert a. induction l as [|x l IH]; intros a; simpl; [by intros [_ ?]|].
  intros (_ & _ & H%IH). rewrite H. destruct l as [|y l]; [done|].
  change (last (x :: y :: l)) with (last (y :: l)).
  destruct (last (y :: l)) eqn:E; [done|]. by apply last_None in E.
Qed.

Lemma seg_walk s h l x fuel :
  seg s x l h -> h ∉ l -> (length l < fuel)%nat -> l_walk fuel h x s = Ok l.
Proof.
  revert x fuel. induction l as [|y l IH]; intros x [|fuel] H Hh Hf; simpl in Hf; try lia; simpl in *.
  - destruct H as [-> _]. simpl. by rewrite decide_True.
  - destruct H as (-> & _ & H). simpl. rewrite decide_False by set_solver.
    rewrite (IH y fuel) by (done || lia || set_solver). done.
Qed.

Lemma seg_dom s x l b : seg s x l b -> forall y, y ∈ x :: l -> y ∈ dom (next s).
Proof.
  revert x. induction l as [|z l IH]; intros x H y Hy; simpl in H.
  - apply list_elem_of_singleton in Hy as ->. destruct H as [H _]. by eapply elem_of_dom_2.
  - destruct H as (H1 & _ & H2). apply elem_of_cons in Hy as [->|Hy]; [by eapply elem_of_dom_2|].
    by eapply IH.
Qed.

Lemma chain_size s h l : l_chain s h l -> (length l < S (size (next s)))%nat.
Proof.
  intros [H Hnd]. rewrite <- size_dom.
  assert (Hs : (list_to_set (h :: l) : gset addr) ⊆ dom (next s)).
  { intros y Hy%elem_of_list_to_set. by eapply seg_dom. }
  apply subseteq_size in Hs. rewrite size_list_to_set in Hs by done. simpl in Hs. lia.
Qed.

Lemma l_rotate s h l1 x l2 : l_chain s h (l1 ++ x :: l2) -> l_chain s x (l2 ++ h :: l1).
Proof.
  intros [H Hnd]. apply seg_app in H as [H1 H2]. split; [by apply seg_app|].
  assert (x :: l2 ++ h :: l1 ≡ₚ h :: l1 ++ x :: l2) as -> by solve_Permutation. exact Hnd.
Qed.

(** A new node between the last one and the head. *)
Lemma l_add_tail_chain s new h l :
  l_chain s h l -> new <> h -> new ∉ l ->
  exists s', l_add_tail new h s = Ok s' /\ l_chain s' h (l ++ [new]).
Proof.
  intros [H Hnd] Hne Hnl. unfold l_add_tail. rewrite (seg_last _ _ _ _ H). simpl.
  eexists. split; [done|]. split.
  2: { assert (h :: l ++ [new] ≡ₚ new :: h :: l) as -> by solve_Permutation.
       apply NoDup_cons. split; [set_solver|done]. }
  apply NoDup_cons in Hnd as [Hh Hnd].
  destruct l as [|p l _] using rev_ind; simpl.
  { rewrite !lookup_insert_eq, (lookup_insert_ne _ h), (lookup_insert_ne _ h) by done.
    by rewrite !lookup_insert_eq. }
  rewrite last_snoc. simpl. apply NoDup_app in Hnd as (Hnd & Hd & _).
  rewrite <- app_assoc. apply seg_app in H as [H _]. apply seg_app. split.
  - eapply seg_frame; [exact H|..]; intros x Hx; simpl; rewrite !lookup_insert_ne;
      set_solver.
  - simpl. rewrite !lookup_insert_eq, (lookup_insert_ne _ p) by set_solver.
    rewrite (lookup_insert_ne _ h) by set_solver. by rewrite !lookup_insert_eq.
Qed.

(** A new node between the head and the first one. *)
Lemma l_add_chain s new h l :
  l_chain s h l -> new <> h -> new ∉ l ->
  exists s', l_add new h s = Ok s' /\ l_chain s' h (new :: l).
Proof.
  intros [H Hnd] Hne Hnl. unfold l_add.
  assert (Hnd' : NoDup (h :: new :: l)).
  { apply NoDup_cons in Hnd as [? ?]. apply NoDup_cons. split; [set_solver|]. by apply NoDup_cons. }
  apply NoDup_cons in Hnd as [Hh Hnd].
  destruct l as [|n l]; simpl in H.
  - destruct H as [-> _]. simpl. eexists. split; [done|]. split; [|done]. simpl.
    rewrite !lookup_insert_eq, (lookup_insert_ne _ h), (lookup_insert_ne _ h) by done.
    by rewrite !lookup_insert_eq.
  - destruct H as (-> & _ & H). simpl. eexists. split; [done|]. split; [|done]. simpl.
    apply NoDup_cons in Hnd as [Hn Hnd].
    rewrite !lookup_insert_eq, (lookup_insert_ne _ h), (lookup_insert_ne _ n) by set_solver.
    rewrite !lookup_insert_eq. split_and!; try done.
    eapply seg_frame; [exact H|..]; intros x Hx; simpl; rewrite !lookup_insert_ne; set_solver.
Qed.

(** Unlinking the head of a circle that has other nodes. *)
Lemma l_del_head s x n l :
  l_chain s x (n :: l) -> exists s', l_del x s = Ok s' /\ l_chain s' n l.
Proof.
  intros [H Hnd]. unfold l_del. rewrite (seg_last _ _ _ _ H). simpl in H.
  destruct H as (Hx & _ & H). rewrite Hx. cbn [of_option mbind res_bind].
  eexists. split; [done|]. apply NoDup_cons in Hnd as [Hxl Hnd]. split; [|done].
  destruct l as [|p l _] using rev_ind.
  { simpl. by rewrite !lookup_insert_eq. }
  rewrite app_comm_cons, last_snoc. cbn [default].
  apply seg_app in H as [H _]. apply NoDup_cons in Hnd as [Hn Hnd].
  apply NoDup_app in Hnd as (_ & Hd & _). apply seg_app. split.
  - eapply seg_frame; [exact H|..]; intros y Hy; simpl; rewrite !lookup_insert_ne; set_solver.
  - simpl. by rewrite !lookup_insert_eq.
Qed.

Lemma l_del_chain s h l1 x l2 :
  l_chain s h (l1 ++ x :: l2) -> exists s', l_del x s = Ok s' /\ l_chain s' h (l1 ++ l2).
Proof.
  intros H. pose proof (l_rotate _ _ _ _ _ H) as Hr.
  destruct l2 as [|n l2]; simpl in Hr.
  - destruct (l_del_head _ _ _ _ Hr) as (s' & -> & Hs). exists s'. by rewrite app_nil_r.
  - destruct (l_del_head _ _ _ _ Hr) as (s' & -> & Hs). exists s'. split; [done|].
    by apply l_rotate in Hs.
Qed.

#[export] Program Instance map_list : KernelList links := {|
  INIT_LIST_HEAD := l_init;
  list_add_tail := l_add_tail;
  list_add := l_add;
  list_del := l_del;
  list_entries := l_entries;
  chain := l_chain;
  unset s h := next s !! h = None /\ prev s !! h = None
|}.
Next Obligation. by intros s h l [_ ?]. Qed.
Next Obligation. exact l_rotate. Qed.
Next Obligation.
  intros s h. split; [simpl; by rewrite !lookup_insert_eq|]. apply NoDup_singleton.
Qed.
Next Obligation.
  intros s h h' l [H Hnd] Hne Hl. split; [|done].
  eapply seg_frame; [exact H|..]; intros x Hx; simpl; rewrite lookup_insert_ne; set_solver.
Qed.
Next Obligation. exact l_add_tail_chain. Qed.
Next Obligation. exact l_add_chain. Qed.
Next Obligation. intros s new h [_ H]. unfold l_add_tail. by rewrite H. Qed.
Next Obligation. intros s new h [H _]. unfold l_add. by rewrite H. Qed.
Next Obligation. exact l_del_chain. Qed.
Next Obligation.
  intros s h l H. apply seg_walk; [apply H| |by eapply chain_size].
  destruct H as [_ Hnd]. by apply NoDup_cons in Hnd as [? _].
Qed.
