(* ===== verification/Kprobe.v ===== *)
(** The kernel module that times functions (src/kernel/): the queue of
    measurements, the list of registered probes, the return-probe handlers,
    the thread that sends the measurements and the netlink commands. *)
From S2P Require Import Prelude KList.

Module Kprobe.

Definition TASK_COMM_LEN : Z := 16.
Definition LOG_SIZE : Z := 9 + TASK_COMM_LEN.

(** [hook_data_t] and [struct kprobe_obj_node], without their list nodes;
    [osize] is the size of the block that was allocated for the object. *)
Record hook_data := MkData { eclipse_time : Z; task_com : list Z }.
Record probe_obj := MkObj { osize : Z; f_name : addr; retprobe : addr }.

Definition fmt_16lld (z : Z) : list Z := fmt_dec 16 z.

Section Kprobe.
Context {S : Type} {KL : KernelList S}.
(** Addresses of [kprobe_log_queue.head] and [func_name_list]. *)
Context (Qh Fh : addr).

Record kstate := MkK {
  lists : S;
  count : Z;
  datas : gmap addr hook_data;
  objs : gmap addr probe_obj;
  strs : gmap addr (list Z);
  krets : gset addr
}.

Definition with_lists (st : kstate) (s : S) : kstate :=
  MkK s (count st) (datas st) (objs st) (strs st) (krets st).

(** ** The queue of measurements (probe_common.h) *)

(** [list_add_tail(&queue->head, &data->node)]: the head is the new node, the
    data's node the place. *)
Definition kprobe_queue_put (data : addr) (st : kstate) : res kstate :=
  s ← list_add_tail Qh data (lists st);
  Ok (MkK s (i32 (count st + 1)) (datas st) (objs st) (strs st) (krets st)).

(** The first entry is returned and stays in the list. *)
Definition kprobe_queue_get (st : kstate) : res (option addr * kstate) :=
  l ← list_entries Qh (lists st);
  match l with
  | [] => Ok (None, st)
  | p :: _ =>
      Ok (Some p, MkK (lists st) (i32 (count st - 1)) (datas st) (objs st) (strs st) (krets st))
  end.

Definition kprobe_queue_number (st : kstate) : Z := count st.
Definition kprobe_queue_is_empty (st : kstate) : bool := count st =? 0.
Definition kprobe_queue_init (st : kstate) : kstate :=
  MkK (INIT_LIST_HEAD Qh (lists st)) 0 (datas st) (objs st) (strs st) (krets st).

Definition kfree_data (p : addr) (st : kstate) : res kstate :=
  _ ← require (bool_decide (is_Some (datas st !! p))) DoubleFree;
  Ok (MkK (lists st) (count st) (delete p (datas st)) (objs st) (strs st) (krets st)).

Fixpoint kfree_all (l : list addr) (st : kstate) : res kstate :=
  match l with [] => Ok st | p :: l => st ← kfree_data p st; kfree_all l st end.
Definition kprobe_queue_destroy (st : kstate) : res kstate :=
  if negb (count st =? 0) then l ← list_entries Qh (lists st); kfree_all l st else Ok st.

(** ** Sending (kprobe_kthread.c, kprobe_genetlink.c) *)

(** [send_netlink_msg]: what was sent, with the result.  The three inputs are
    the outcomes of [genlmsg_new], [genlmsg_put] and [genlmsg_unicast]. *)
Definition ENOMEM : Z := 12.
Definition send_netlink_msg (new_ok put_ok : bool) (unicast : Z) (buf : list Z) (size : Z)
    : res (Z * option (list Z)) :=
  if negb new_ok then Ok (- ENOMEM, None)
  else if negb put_ok then Ok (- ENOMEM, None)
  else d ← buf_read buf 0 size; Ok (unicast, Some d).

(** ["%.16lld|%s,"] *)
Definition log_text (t : Z) (comm : list Z) : list Z := fmt_16lld t ++ [124] ++ comm ++ [44].

(** Lines 20-25: the loop over [number] entries, from [index] on. *)
Fixpoint send_loop (n : nat) (index : Z) (buffs : list Z) (st : kstate)
    : res (Z * list Z * kstate) :=
  match n with
  | O => Ok (index, buffs, st)
  | Datatypes.S n =>
      '(data, st) ← kprobe_queue_get st;
      p ← of_option NullDeref data;
      d ← of_option UseAfterFree (datas st !! p);
      comm ← c_string (task_com d);
      buffs ← buf_write buffs (index * LOG_SIZE)
                (snprintf_bytes LOG_SIZE (log_text (eclipse_time d) comm));
      st ← kfree_data p st;
      send_loop n (index + 1) buffs st
  end.

(** [kprobe_queue_send]; the result is what went out, if anything did. *)
Definition kprobe_queue_send (new_ok put_ok : bool) (unicast : Z) (st : kstate)
    : res (option (list Z) * kstate) :=
  let number := if count st >? 10 then 10 else count st in
  '(index, buffs, st) ← send_loop (Z.to_nat number) 0 (zeros (LOG_SIZE * 11)) st;
  if index >? 0 then
    '(_, sent) ← send_netlink_msg new_ok put_ok unicast buffs (LOG_SIZE * (index + 1));
    Ok (sent, st)
  else Ok (None, st).

(** ** The handlers (kretprobe_time.c) *)

(** [entry_handler]: the result and the stamp; kernel threads are skipped. *)
Definition entry_handler (has_mm : bool) (now stamp : Z) : Z * Z :=
  if negb has_mm then (1, stamp) else (0, now).

(** [ret_handler]: [p] is the block [kmem_cache_alloc] gave. *)
Definition ret_handler (p : addr) (now entry_stamp retval : Z) (comm : list Z) (st : kstate)
    : res (Z * kstate) :=
  let node := MkData (now - entry_stamp) (strncpy_bytes comm TASK_COMM_LEN) in
  st ← kprobe_queue_put p
         (MkK (lists st) (count st) (<[p := node]> (datas st)) (objs st) (strs st) (krets st));
  Ok (retval, st).

(** ** The registered probes *)

(** [func_name_in_list]: the loop over the entries. *)
Fixpoint first_differing (name : list Z) (l : list addr) (st : kstate) : res (option addr) :=
  match l with
  | [] => Ok None
  | p :: l =>
      o ← of_option UseAfterFree (objs st !! p);
      n ← of_option UseAfterFree (strs st !! f_name o);
      if negb (bool_decide (name = n)) then Ok (Some p) else first_differing name l st
  end.
Definition func_name_in_list (name : list Z) (st : kstate) : res (option addr) :=
  l ← list_entries Fh (lists st); first_differing name l st.

(** Stores to the fields of an object, at their offsets behind the two links. *)
Definition OBJ_SIZE : Z := 32.
Definition PTR_SIZE : Z := 8.
Definition store_field (off : Z) (p : addr) (f : probe_obj -> probe_obj) (st : kstate) : res kstate :=
  o ← of_option UseAfterFree (objs st !! p);
  _ ← require (off + PTR_SIZE <=? osize o) OutOfBounds;
  Ok (MkK (lists st) (count st) (datas st) (<[p := f o]> (objs st)) (strs st) (krets st)).
Definition set_f_name (n : addr) (o : probe_obj) : probe_obj := MkObj (osize o) n (retprobe o).
Definition set_retprobe (k : addr) (o : probe_obj) : probe_obj := MkObj (osize o) (f_name o) k.

Definition kmalloc_obj (size : Z) (st : kstate) : addr * kstate :=
  let p := fresh (dom (objs st)) in
  (p, MkK (lists st) (count st) (datas st) (<[p := MkObj size 1 1]> (objs st)) (strs st) (krets st)).

(** [insert_func_name_list] *)
Definition insert_func_name_list (name : addr) (st : kstate) : res kstate :=
  let '(p, st) := kmalloc_obj OBJ_SIZE st in
  st ← store_field 16 p (set_f_name name) st;
  s ← list_add Fh p (lists st);
  Ok (with_lists st s).

(** [do_kprobe_register]; [reg] is what [register_kretprobe] answers. *)
Definition do_kprobe_register (name : list Z) (reg : Z) (st : kstate) : res (Z * kstate) :=
  found ← func_name_in_list name st;
  match found with
  | Some _ => Ok (0, st)
  | None =>
      let f := fresh (dom (strs st)) in
      let k := fresh (krets st) in
      let st := MkK (lists st) (count st) (datas st) (objs st) (<[f := name]> (strs st))
                  ({[k]} ∪ krets st) in
      if reg =? 0 then
        let '(p, st) := kmalloc_obj PTR_SIZE st in
        st ← store_field 16 p (set_f_name f) st;
        st ← store_field 24 p (set_retprobe k) st;
        s ← list_add Fh p (lists st);
        Ok (reg, with_lists st s)
      else Ok (reg, st)
  end.

(** [do_kprobe_unregister] *)
Definition do_kprobe_unregister (name : list Z) (st : kstate) : res kstate :=
  found ← func_name_in_list name st;
  match found with
  | None => Ok st
  | Some p =>
      s ← list_del p (lists st);
      o ← of_option UseAfterFree (objs st !! p);
      _ ← require (bool_decide (is_Some (strs st !! f_name o))) DoubleFree;
      _ ← require (bool_decide (retprobe o ∈ krets st)) DoubleFree;
      Ok (MkK s (count st) (datas st) (delete p (objs st)) (delete (f_name o) (strs st))
            (krets st ∖ {[retprobe o]}))
  end.

(** ** The netlink commands (kprobe_genetlink.c) *)
Definition FUNC_NAME_SIZE : Z := 52.
Definition hook_name (attr : list Z) : res (list Z) :=
  b ← buf_write (zeros FUNC_NAME_SIZE) 0 attr; c_string b.

Definition do_hook_register (attr : option (list Z)) (reg : Z) (st : kstate) : res (Z * kstate) :=
  match attr with
  | None => Ok (0, st)
  | Some a =>
      name ← hook_name a;
      '(_, st) ← do_kprobe_register name reg st;
      Ok (0, st)
  end.
Definition do_hook_unregister (attr : option (list Z)) (st : kstate) : res (Z * kstate) :=
  match attr with
  | None => Ok (0, st)
  | Some a => name ← hook_name a; st ← do_kprobe_unregister name st; Ok (0, st)
  end.

(** What the policy [NLA_NUL_STRING] of length 52 lets through: a NUL within
    the first 53 bytes, and at most 52 bytes before a final NUL. *)
Definition policy_accepts (a : list Z) : Prop :=
  (exists n, cstr_end a = Some n) /\
  (zlen a <= FUNC_NAME_SIZE \/ (zlen a = FUNC_NAME_SIZE + 1 /\ last a = Some 0)).

(** ** The queue *)
Lemma get_first p l st :
  chain (lists st) Qh (p :: l) ->
  kprobe_queue_get st =
    Ok (Some p, MkK (lists st) (i32 (count st - 1)) (datas st) (objs st) (strs st) (krets st)).
Proof. intros H. unfold kprobe_queue_get. by rewrite (entries_chain _ _ _ H). Qed.

Lemma snprintf_len n s : 0 < n -> zlen (snprintf_bytes n s) <= n.
Proof.
  intros Hn. unfold snprintf_bytes. destruct (Z.leb_spec n 0); [lia|].
  rewrite zlen_app. unfold zlen. rewrite length_take. simpl. lia.
Qed.

(** One round of the loop at the front of the buffer. *)
Lemma send_round n p l st d comm :
  chain (lists st) Qh (p :: l) -> datas st !! p = Some d -> c_string (task_com d) = Ok comm ->
  let rec := snprintf_bytes LOG_SIZE (log_text (eclipse_time d) comm) in
  send_loop (Datatypes.S n) 0 (zeros (LOG_SIZE * 11)) st =
    send_loop n 1 (rec ++ zeros (LOG_SIZE * 11 - zlen rec))
      (MkK (lists st) (i32 (count st - 1)) (delete p (datas st)) (objs st) (strs st) (krets st)).
Proof.
  intros Hc Hd Hs rec. cbn [send_loop]. rewrite (get_first p l) by done. rewrite bind_ret.
  cbn [of_option]. rewrite bind_ret. cbn [datas]. rewrite Hd. cbn [of_option]. rewrite !bind_ret.
  rewrite Hs, bind_ret. fold rec.
  pose proof (snprintf_len LOG_SIZE (log_text (eclipse_time d) comm) ltac:(done)) as Hl. fold rec in Hl.
  assert (E : buf_write (zeros (LOG_SIZE * 11)) (0 * LOG_SIZE) rec =
    Ok (rec ++ zeros (LOG_SIZE * 11 - zlen rec))).
  { apply (buf_write_zeros []). unfold LOG_SIZE, TASK_COMM_LEN in *. lia. }
  rewrite E, bind_ret. unfold kfree_data. cbn [datas]. rewrite Hd. done.
Qed.

(** C40 - with two or more measurements queued the sending thread reads and
    frees the same entry twice: taking an entry does not unlink it. *)
Theorem send_frees_twice p l st d comm new_ok put_ok unicast :
  chain (lists st) Qh (p :: l) -> 2 <= count st -> datas st !! p = Some d ->
  c_string (task_com d) = Ok comm ->
  kprobe_queue_send new_ok put_ok unicast st = UB UseAfterFree.
Proof.
  intros Hc Hn Hd Hs. unfold kprobe_queue_send.
  assert (exists k, Z.to_nat (if count st >? 10 then 10 else count st) =
    Datatypes.S (Datatypes.S k)) as [k ->].
  { exists (Z.to_nat ((if count st >? 10 then 10 else count st) - 2)).
    destruct (Z.gtb_spec (count st) 10); lia. }
  rewrite (send_round _ p l st d comm) by done.
  set (buf := _ ++ zeros _). cbn [send_loop]. rewrite (get_first p l) by done. rewrite bind_ret.
  cbn [of_option]. rewrite bind_ret. cbn [datas]. by rewrite lookup_delete_eq.
Qed.

Lemma log_text_cut t comm :
  0 <= t < 10000000000000000 ->
  snprintf_bytes LOG_SIZE (log_text t comm) =
    digits 16 t ++ [124] ++ take 7 (comm ++ [44]) ++ [0].
Proof.
  intros Ht. unfold snprintf_bytes, log_text, fmt_16lld. rewrite (fmt_dec_small 16) by lia.
  change (LOG_SIZE <=? 0) with false. change (Z.to_nat (LOG_SIZE - 1)) with 24%nat.
  rewrite take_app_ge by (rewrite digits_len; lia). rewrite digits_len.
  change (24 - 16)%nat with 8%nat. cbn [app take]. by rewrite <- app_assoc.
Qed.

(** A single measurement goes out as one 50-byte message: 16 digits, a
    bar and at most seven bytes of the task's name, whose terminating comma
    is lost with names of seven bytes and more; the entry is freed but stays
    in the list. *)
Theorem send_single p st d comm unicast :
  chain (lists st) Qh [p] -> count st = 1 -> datas st !! p = Some d ->
  c_string (task_com d) = Ok comm -> 0 <= eclipse_time d < 10000000000000000 ->
  exists st', kprobe_queue_send true true unicast st =
      Ok (Some (digits 16 (eclipse_time d) ++ [124] ++ take 7 (comm ++ [44]) ++
            zeros (50 - 17 - zlen (take 7 (comm ++ [44])))), st') /\
    count st' = 0 /\ datas st' !! p = None /\ list_entries Qh (lists st') = Ok [p].
Proof.
  intros Hc Hn Hd Hs Ht. unfold kprobe_queue_send. rewrite Hn.
  change (Z.to_nat (if 1 >? 10 then 10 else 1)) with 1%nat.
  rewrite (send_round 0 p [] st d comm) by done. rewrite log_text_cut by done.
  cbn [send_loop]. rewrite bind_ret. rewrite Hn. change (1 >? 0) with true. cbn match.
  set (s := take 7 (comm ++ [44])).
  assert (H7 : zlen s <= 7) by (unfold s, zlen; rewrite length_take; lia).
  pose proof (zlen_nonneg s).
  assert (Hd16 : zlen (digits 16 (eclipse_time d)) = 16) by (unfold zlen; by rewrite digits_len).
  set (body := digits 16 (eclipse_time d) ++ [124] ++ s).
  assert (Hb : zlen body = 17 + zlen s) by (unfold body; autorewrite with zlen; lia).
  assert (Eb : digits 16 (eclipse_time d) ++ [124] ++ s ++ [0] = body ++ [0])
    by (unfold body; by rewrite <- !app_assoc).
  rewrite Eb. unfold send_netlink_msg. cbn [negb].
  change (LOG_SIZE * (1 + 1)) with 50. change (LOG_SIZE * 11) with 275.
  autorewrite with zlen. rewrite Hb.
  set (out := body ++ zeros (50 - 17 - zlen s)).
  assert (Ho : (body ++ [0]) ++ zeros (275 - (17 + zlen s + (1 + 0))) = out ++ zeros 225).
  { unfold out. rewrite <- !app_assoc. f_equal. change [0] with (zeros 1).
    rewrite <- !zeros_app by lia. f_equal. lia. }
  rewrite Ho. assert (Hlo : zlen out = 50).
  { unfold out. rewrite zlen_app, zlen_zeros by lia. lia. }
  assert (Er : buf_read (out ++ zeros 225) 0 50 = Ok out).
  { rewrite <- Hlo. apply (buf_read_mid [] out). }
  rewrite Er, bind_ret, bind_ret. eexists. split.
  { unfold out, body. rewrite <- !app_assoc. done. }
  cbn [count datas lists]. rewrite lookup_delete_eq. split_and!; [done|done|].
  by apply entries_chain.
Qed.

(** Recording a measurement inserts the queue's head next to the new
    node instead of the node into the queue: with a node whose links were
    never set this follows a garbage pointer; had they been set, the queue
    would hold the new entry only, whatever it held before. *)
Theorem ret_handler_swapped p now stamp retval comm st :
  (unset (lists st) p -> ret_handler p now stamp retval comm st = UB Uninitialised) /\
  (chain (lists st) p [] -> p <> Qh ->
   exists st', ret_handler p now stamp retval comm st = Ok (retval, st') /\
     list_entries Qh (lists st') = Ok [p] /\ count st' = i32 (count st + 1) /\
     datas st' !! p = Some (MkData (now - stamp) (strncpy_bytes comm TASK_COMM_LEN))).
Proof.
  unfold ret_handler, kprobe_queue_put. split.
  - intros H. cbn [lists]. by rewrite (add_tail_unset _ _ _ H).
  - intros H Hne. destruct (add_tail_chain _ Qh p [] H) as (s & E & Hs); [done|set_solver|].
    cbn [lists]. rewrite E. eexists. split; [done|]. cbn [lists datas count].
    apply (chain_rotate _ _ []) in Hs. split; [by apply entries_chain|]. split; [done|].
    apply lookup_insert_eq.
Qed.

(** The first registration that the kernel accepts writes outside its
    block: the object is allocated with the size of a pointer.  One that the
    kernel refuses leaves the name and the probe allocated. *)
Theorem register_overflow name st :
  chain (lists st) Fh [] ->
  do_kprobe_register name 0 st = UB OutOfBounds /\
  forall reg, reg <> 0 ->
    exists st' f k, do_kprobe_register name reg st = Ok (reg, st') /\
      strs st !! f = None /\ strs st' = <[f := name]> (strs st) /\
      (k ∉ krets st) /\ krets st' = {[k]} ∪ krets st /\ objs st' = objs st /\
      lists st' = lists st.
Proof.
  intros H. assert (Hf : func_name_in_list name st = Ok None).
  { unfold func_name_in_list. by rewrite (entries_chain _ _ _ H). }
  unfold do_kprobe_register. rewrite Hf. split.
  - simpl. unfold store_field. cbn [objs]. by rewrite lookup_insert_eq.
  - intros reg Hr. simpl. destruct (Z.eqb_spec reg 0); [done|].
    eexists _, _, _. split; [done|]. cbn [strs krets objs lists].
    split_and!; try done; [apply not_elem_of_dom|]; apply is_fresh.
Qed.

(** The registered objects of a list, with their names. *)
Definition registered (st : kstate) (p : addr) (name : list Z) : Prop :=
  exists o, objs st !! p = Some o /\ strs st !! f_name o = Some name.

Lemma first_differing_spec name l names st :
  Forall2 (registered st) l names ->
  first_differing name l st =
    Ok (fst <$> List.find (fun x => negb (bool_decide (name = snd x))) (zip l names)).
Proof.
  induction 1 as [|p n l names (o & Ho & Hn) Hl IH]; [done|]. cbn [first_differing zip zip_with List.find].
  rewrite Ho. cbn [of_option]. rewrite bind_ret, Hn. cbn [of_option]. rewrite bind_ret.
  cbn [snd]. by destruct (negb (bool_decide (name = n))).
Qed.

(** The search for a registered name finds the first entry with another
    name: once one function is registered every other name counts as
    registered and is refused, that one itself does not, and unregistering
    another name removes it. *)
Theorem lookup_inverted p n st :
  chain (lists st) Fh [p] -> registered st p n ->
  func_name_in_list n st = Ok None /\
  forall other, other <> n ->
    func_name_in_list other st = Ok (Some p) /\
    (forall reg, do_kprobe_register other reg st = Ok (0, st)) /\
    (forall o, objs st !! p = Some o -> retprobe o ∈ krets st ->
       exists st', do_kprobe_unregister other st = Ok st' /\
         list_entries Fh (lists st') = Ok [] /\ objs st' !! p = None).
Proof.
  intros Hc Hr. assert (Hl : forall m, func_name_in_list m st =
    Ok (if bool_decide (m = n) then None else Some p)).
  { intros m. unfold func_name_in_list. rewrite (entries_chain _ _ _ Hc), bind_ret.
    rewrite (first_differing_spec m [p] [n]) by (by repeat constructor).
    cbn [zip zip_with List.find snd]. by destruct (bool_decide (m = n)). }
  split. { by rewrite Hl, bool_decide_eq_true_2. }
  intros other Hne. assert (Ho : func_name_in_list other st = Ok (Some p))
    by (by rewrite Hl, bool_decide_eq_false_2).
  split; [done|]. split. { intros reg. unfold do_kprobe_register. by rewrite Ho. }
  intros o Hobj Hk. unfold do_kprobe_unregister. rewrite Ho, bind_ret.
  destruct (del_chain _ _ [] p [] Hc) as (s & E & Hs). rewrite E, bind_ret, Hobj.
  cbn [of_option]. rewrite bind_ret. destruct Hr as (o' & Ho' & Hn). rewrite Hobj in Ho'.
  injection Ho' as <-. rewrite Hn, !bool_decide_eq_true_2 by (done || by eexists).
  eexists. split; [done|]. cbn [lists objs]. split; [by apply entries_chain|].
  apply lookup_delete_eq.
Qed.

(** The commands copy a name that the policy accepts within the 52-byte
    array exactly when the attribute has at most 52 bytes; the longest one it
    accepts, 52 bytes and their NUL, overflows the array by one byte. *)
Theorem hook_name_bounds a :
  policy_accepts a ->
  (zlen a <= FUNC_NAME_SIZE -> exists n, cstr_end a = Some n /\ hook_name a = Ok (take n a)) /\
  (zlen a = FUNC_NAME_SIZE + 1 -> forall reg st, do_hook_register (Some a) reg st = UB OutOfBounds).
Proof.
  intros [[n Hn] _]. split.
  - intros Hl. exists n. split; [done|]. unfold hook_name.
    pose proof (buf_write_zeros [] FUNC_NAME_SIZE a Hl) as E. cbn [app] in E.
    change (zlen (@nil Z)) with 0 in E. rewrite E, bind_ret.
    destruct (cstr_end_split _ _ Hn) as (s & r & -> & Hs & ->).
    rewrite <- app_assoc. cbn [app]. rewrite c_string_app by done. by rewrite take_app_length.
  - intros Hl reg st. unfold do_hook_register, hook_name.
    rewrite buf_write_out; [done|]. unfold FUNC_NAME_SIZE in *. change (zlen (zeros 52)) with 52. lia.
Qed.

(** Destroying a queue whose count is right frees every entry once. *)
Lemma destroy_frees l st :
  chain (lists st) Qh l -> count st <> 0 -> (forall p, p ∈ l -> is_Some (datas st !! p)) ->
  exists st', kprobe_queue_destroy st = Ok st' /\ forall p, p ∈ l -> datas st' !! p = None.
Proof.
  intros Hc Hn Hd. unfold kprobe_queue_destroy. destruct (Z.eqb_spec (count st) 0); [done|].
  cbn [negb]. rewrite (entries_chain _ _ _ Hc), bind_ret.
  apply chain_nodup, NoDup_cons in Hc as [_ Hnd]. clear n Hn.
  assert (H : exists st', kfree_all l st = Ok st' /\ (forall p, p ∈ l -> datas st' !! p = None) /\
    forall p, p ∉ l -> datas st' !! p = datas st !! p).
  { revert st Hd. induction Hnd as [|p l Hp Hnd IH]; intros st Hd.
    { exists st. split; [done|]. split; [|done]. intros p Hp. by apply not_elem_of_nil in Hp. }
    cbn [kfree_all]. unfold kfree_data. rewrite bool_decide_eq_true_2 by (apply Hd; set_solver).
    cbn [require]. rewrite !bind_ret.
    destruct (IH (MkK (lists st) (count st) (delete p (datas st)) (objs st) (strs st) (krets st)))
      as (st' & -> & H1 & H2).
    { intros q Hq. cbn [datas]. rewrite lookup_delete_ne by set_solver. apply Hd. set_solver. }
    exists st'. split; [done|]. split.
    - intros q [->|Hq]%elem_of_cons; [|by apply H1]. rewrite H2 by done. apply lookup_delete_eq.
    - intros q Hq. rewrite H2 by set_solver. cbn [datas]. apply lookup_delete_ne. set_solver. }
  destruct H as (st' & E & H & _). eauto.
Qed.
End Kprobe.

(** ** The module (kprobe_main.c) *)
Record module_state := MkModule { family : bool; cache : bool; thread : option bool }.

(** [kprobe_init]: the outcomes of [genl_register_family] and [kthread_run];
    [thread] is [Some false] for an error pointer. *)
Definition kprobe_init (netlink_rc : Z) (kthread_ok : bool) : Z * module_state :=
  if negb (netlink_rc =? 0) then (-1, MkModule false false None)
  else (if kthread_ok then 0 else -1, MkModule true true (Some kthread_ok)).

(** [kprobe_exit]; stopping an error pointer is undefined. *)
Definition kprobe_exit (m : module_state) : res module_state :=
  match thread m with
  | Some true => Ok (MkModule false (cache m) None)
  | _ => UB Fault
  end.

(** The error path of [kprobe_init]: when the thread cannot be started the
    family stays registered and the cache allocated. *)
Example init_keeps_family : kprobe_init 0 false = (-1, MkModule true true (Some false)).
Proof. reflexivity. Qed.

(** ** The properties at concrete inputs: the queue's head at 1, the list's
    at 2, one more node at 3. *)
Definition demo_links (h : addr) : links := l_between 3 h h (l_init h (MkLinks ∅ ∅)).
Definition demo_data : hook_data := MkData 1234 (bytes "comm" ++ zeros 12).
Definition demo_state (h : addr) (n : Z) : kstate (S := links) :=
  MkK (demo_links h) n {[3%positive := demo_data]} {[3%positive := MkObj 32 5 6]}
    {[5%positive := bytes "do_fork"]} {[6%positive]}.

Lemma demo_chain h : h = 1%positive \/ h = 2%positive -> chain (demo_links h) h [3%positive].
Proof.
  intros H. split; [by destruct H as [-> | ->]|].
  by destruct H as [-> | ->]; apply (bool_decide_unpack _).
Qed.

Lemma send_frees_twice_witness :
  kprobe_queue_send 1 true true 0 (demo_state 1 2) = UB UseAfterFree.
Proof.
  apply (send_frees_twice 1 3 [] _ demo_data (bytes "comm")); try done.
  apply demo_chain. by left.
Defined.

Lemma send_single_witness :
  exists st', kprobe_queue_send 1 true true 0 (demo_state 1 1) =
    Ok (Some (bytes "0000000000001234|comm," ++ zeros 28), st').
Proof.
  destruct (send_single 1 3 (demo_state 1 1) demo_data (bytes "comm") 0) as (st' & E & _); try done.
  - apply demo_chain. by left.
  - exists st'. exact E.
Defined.

Definition fresh_state (s : links) : kstate (S := links) := MkK s 0 ∅ ∅ ∅ ∅.

Lemma ret_handler_swapped_witness :
  ret_handler 1 3 20 10 7 (bytes "comm") (fresh_state (l_init 1 (MkLinks ∅ ∅))) = UB Uninitialised.
Proof.
  apply (ret_handler_swapped 1 3 20 10 7 (bytes "comm")). split; done.
Defined.

Lemma register_overflow_witness :
  do_kprobe_register 2 (bytes "do_fork") 0 (fresh_state (l_init 2 (MkLinks ∅ ∅))) = UB OutOfBounds.
Proof.
  apply (register_overflow 2 (bytes "do_fork")).
  exact (init_chain (KernelList := map_list) (MkLinks ∅ ∅) 2%positive).
Defined.

Lemma lookup_inverted_witness :
  func_name_in_list 2 (bytes "do_fork") (demo_state 2 0) = Ok None /\
  func_name_in_list 2 (bytes "do_exit") (demo_state 2 0) = Ok (Some 3%positive).
Proof.
  destruct (lookup_inverted 2 3 (bytes "do_fork") (demo_state 2 0)) as [H1 H2].
  - apply demo_chain. by right.
  - by exists (MkObj 32 5 6).
  - split; [exact H1|]. apply (H2 (bytes "do_exit")). done.
Defined.

Lemma hook_name_bounds_witness :
  do_hook_register 2 (Some (repeat 65 52 ++ [0])) 0 (fresh_state (MkLinks ∅ ∅)) = UB OutOfBounds.
Proof.
  apply (hook_name_bounds 2).
  - split; [exists 52%nat; by vm_compute|]. right. by vm_compute.
  - by vm_compute.
Defined.
End Kprobe.
