(* ===== verification/KprobeNet.v ===== *)
(** The kernel module towards user space: the loop of the sending thread
    (src/kernel/kprobe_kthread.c) and the netlink family with its commands
    and policy (kprobe_genetlink.c, kprobe_genetlink.h), on the queue and the
    probes of [Kprobe]. *)
From S2P Require Import Prelude KList Kprobe.
Import Kprobe.

Module KprobeNet.

(** Where the measurements go: a variable no line of the module sets. *)
Definition user_portid : Z := -1.

(** The enumerations of kprobe_genetlink.h. *)
Definition HOOK_C_FUNC_REGISTER : Z := 1.
Definition HOOK_C_FUNC_UNREGISTER : Z := 2.
Definition HOOK_C_LOG : Z := 3.
Definition HOOK_A_FUNC_NAME : Z := 1.
Definition HOOK_A_LOG : Z := 2.
Definition HOOK_A_MAX : Z := 2.

Inductive nla_type : Type := NLA_NUL_STRING | NLA_STRING.

Definition policy (attr : Z) : option (nla_type * Z) :=
  if attr =? HOOK_A_FUNC_NAME then Some (NLA_NUL_STRING, 52)
  else if attr =? HOOK_A_LOG then Some (NLA_STRING, LOG_SIZE)
  else None.

(** The attributes of a command, by their number. *)
Abbreviation attrs := (Z -> option (list Z)).

Section KprobeNet.
Context {S : Type} {KL : KernelList S}.
Context (Qh Fh : addr).

(** A handler gets the attributes and what [register_kretprobe] answers. *)
Abbreviation handler := (attrs -> Z -> kstate (S := S) -> res (Z * kstate (S := S))).
Record genl_op := MkOp { op_flags : Z; op_policy : Z -> option (nla_type * Z); op_cmd : Z; op_doit : handler }.

Definition ops : list genl_op :=
  [MkOp 0 policy HOOK_C_FUNC_REGISTER (fun a reg st => do_hook_register Fh (a HOOK_A_FUNC_NAME) reg st);
   MkOp 0 policy HOOK_C_FUNC_UNREGISTER (fun a _ st => do_hook_unregister Fh (a HOOK_A_FUNC_NAME) st)].

Record genl_family := MkFamily {
  fam_name : list Z; fam_version : Z; fam_ops : list genl_op; fam_maxattr : Z; fam_hdrsize : Z
}.
Definition family : genl_family := MkFamily (bytes "kprobe_hook_func") 1 ops HOOK_A_MAX 0.

(** What the module relies on in the kernel's generic netlink: a family can
    be registered or not; a command goes to the operation with its number if
    its attributes pass that operation's policy, and is refused with a
    negative number otherwise. *)
Class Genetlink := {
  genl_validate : (Z -> option (nla_type * Z)) -> attrs -> bool;
  genl_refuse : Z;
  genl_refuse_neg : genl_refuse < 0;
  genl_nul_string pol a t n s : 0 <= t <= HOOK_A_MAX -> genl_validate pol a = true -> pol t = Some (NLA_NUL_STRING, n) ->
    a t = Some s ->
    (exists k, cstr_end s = Some k) /\ (zlen s <= n \/ (zlen s = n + 1 /\ last s = Some 0));
  genl_rcv : genl_family -> Z -> attrs -> Z -> kstate (S := S) -> res (Z * kstate (S := S));
  genl_rcv_op fam cmd a reg st op :
    List.find (fun op => op_cmd op =? cmd) (fam_ops fam) = Some op ->
    genl_validate (op_policy op) a = true -> genl_rcv fam cmd a reg st = op_doit op a reg st;
  genl_rcv_refused fam cmd a reg st :
    (forall op, List.find (fun op => op_cmd op =? cmd) (fam_ops fam) = Some op ->
       genl_validate (op_policy op) a = false) ->
    genl_rcv fam cmd a reg st = Ok (genl_refuse, st)
}.

(** [kprobe_netlink_init] and [kprobe_netlink_exit] hand the result of the
    kernel on. *)
Definition kprobe_netlink_init (genl_register_family : genl_family -> Z) : Z :=
  genl_register_family family.
Definition kprobe_netlink_exit (genl_unregister_family : genl_family -> Z) : Z :=
  genl_unregister_family family.

(** ** [kprobe_thread] *)

(** One round: whether the thread is told to stop, what the probes do before
    it and while it is scheduled out, the outcomes of sending. *)
Record round := MkRound {
  r_stop : bool;
  r_before : kstate (S := S) -> res (kstate (S := S));
  r_schedule : kstate (S := S) -> res (kstate (S := S));
  r_new : bool;
  r_put : bool;
  r_unicast : Z
}.

(** What went out, and to which port; the thread's result when it stopped. *)
Fixpoint kprobe_thread (rs : list round) (st : kstate (S := S))
    : res (list (Z * list Z) * option Z * kstate (S := S)) :=
  match rs with
  | [] => Ok ([], None, st)
  | r :: rs =>
      st ← r_before r st;
      if r_stop r then Ok ([], Some 0, st)
      else
        st ← (if kprobe_queue_is_empty st then r_schedule r st else Ok st);
        '(sent, st) ← kprobe_queue_send Qh (r_new r) (r_put r) (r_unicast r) st;
        '(out, e, st) ← kprobe_thread rs st;
        Ok (match sent with Some d => [(user_portid, d)] | None => [] end ++ out, e, st)
  end.

(** A round in which nothing happens. *)
Definition idle (r : round) : Prop :=
  r_stop r = false /\ (forall st, r_before r st = Ok st) /\ (forall st, r_schedule r st = Ok st).

Context {GN : Genetlink}.


(** With nothing measured the thread never sleeps: round after round it finds
    the queue empty, yields, sends nothing and asks again. *)
Theorem idle_thread_spins rs st
    (Hrs : Forall idle rs) (Hempty : count st = 0) : kprobe_thread rs st = Ok ([], None, st).
Proof.
  induction Hrs as [|r rs (Hs & Hb & Hsc) Hrs IH]; [done|]. cbn [kprobe_thread].
  rewrite Hb, bind_ret, Hs. unfold kprobe_queue_is_empty. rewrite Hempty. cbn [Z.eqb].
  rewrite Hsc, bind_ret. unfold kprobe_queue_send. rewrite Hempty.
  change (Z.to_nat (if 0 >? 10 then 10 else 0)) with 0%nat. cbn [send_loop]. rewrite bind_ret.
  change (0 >? 0) with false. cbn match. rewrite bind_ret, IH. done.
Qed.

(** Whatever is measured is sent to a port nobody has. *)
Theorem sent_to_nobody rs st out e st'
    (Hrun : kprobe_thread rs st = Ok (out, e, st')) : Forall (fun x => x.1 = -1) out.
Proof.
  revert st out Hrun. induction rs as [|r rs IH]; intros st out Hrun; cbn [kprobe_thread] in Hrun.
  { injection Hrun as <- _ _. constructor. }
  apply bind_ok in Hrun as (st1 & _ & Hrun). destruct (r_stop r); [injection Hrun as <- _ _; constructor|].
  apply bind_ok in Hrun as (st2 & _ & Hrun). apply bind_ok in Hrun as ([sent st3] & _ & Hrun).
  apply bind_ok in Hrun as ([[out' e'] st4] & Hrest & Hrun). injection Hrun as <- -> ->.
  apply Forall_app. split; [|by eapply IH]. by destruct sent; repeat constructor.
Qed.
End KprobeNet.

(** ** The properties at concrete inputs: a generic netlink that checks the
    policy and looks the command up. *)
Definition nul_string_ok (n : Z) (s : list Z) : bool :=
  bool_decide (is_Some (cstr_end s)) &&
  ((zlen s <=? n) || ((zlen s =? n + 1) && bool_decide (last s = Some 0))).
Definition attr_ok (pol : Z -> option (nla_type * Z)) (a : attrs) (t : Z) : bool :=
  match pol t, a t with
  | Some (NLA_NUL_STRING, n), Some s => nul_string_ok n s
  | Some (NLA_STRING, n), Some s => zlen s <=? n
  | _, _ => true
  end.
(** Attributes of the family's range, each within its policy. *)
Definition table_validate (pol : Z -> option (nla_type * Z)) (a : attrs) : bool :=
  forallb (attr_ok pol a) [0; 1; 2].
Lemma nul_string_spec n s : nul_string_ok n s = true ->
  (exists k, cstr_end s = Some k) /\ (zlen s <= n \/ (zlen s = n + 1 /\ last s = Some 0)).
Proof.
  unfold nul_string_ok. intros [H1%bool_decide_eq_true H2]%andb_true_iff. split; [done|].
  apply orb_true_iff in H2 as [H2|[H2 H3]%andb_true_iff]; [left; lia|right].
  apply bool_decide_eq_true in H3. split; [lia|done].
Qed.

Definition table_rcv (fam : genl_family (S := links)) (cmd : Z) (a : attrs) (reg : Z)
    (st : kstate (S := links)) : res (Z * kstate (S := links)) :=
  match List.find (fun op => op_cmd op =? cmd) (fam_ops fam) with
  | Some op => if table_validate (op_policy op) a then op_doit op a reg st else Ok (-22, st)
  | None => Ok (-22, st)
  end.

#[local, program] Instance table_genl : Genetlink (S := links) := {|
  genl_validate := table_validate; genl_refuse := -22; genl_rcv := table_rcv
|}.
Next Obligation. done. Qed.
Next Obligation.
  intros pol a t n s Ht Hv Hp Ha. unfold table_validate in Hv. rewrite forallb_forall in Hv.
  unfold HOOK_A_MAX in Ht. specialize (Hv t). assert (Hin : List.In t [0; 1; 2]) by (simpl; lia).
  apply Hv in Hin. unfold attr_ok in Hin. rewrite Hp, Ha in Hin. by apply nul_string_spec.
Qed.
Next Obligation. intros fam cmd a reg st op Ho Hv. unfold table_rcv. by rewrite Ho, Hv. Qed.
Next Obligation.
  intros fam cmd a reg st H. unfold table_rcv. destruct (List.find _ _) as [op|]; [|done].
  by rewrite H.
Qed.

Definition demo_attrs : attrs := fun t => if t =? 1 then Some (bytes "do_fork" ++ [0]) else None.


Definition quiet_round : round (S := links) := MkRound false Ok Ok true true 0.

Lemma idle_thread_spins_witness :
  kprobe_thread 1 [quiet_round; quiet_round] (demo_state 1 0) = Ok ([], None, demo_state 1 0).
Proof. apply idle_thread_spins; [|done]. by repeat constructor. Defined.

Lemma sent_to_nobody_witness :
  exists out e st', kprobe_thread 1 [quiet_round] (demo_state 1 1) = Ok (out, e, st') /\
    Forall (fun x => x.1 = -1) out.
Proof.
  destruct (kprobe_thread 1 [quiet_round] (demo_state 1 1)) as [[[out e] st']|] eqn:E.
  - exists out, e, st'. split; [done|]. by apply (sent_to_nobody 1 [quiet_round] (demo_state 1 1) _ e st').
  - by vm_compute in E.
Defined.
End KprobeNet.
