(* ===== verification/Rtnl.v ===== *)
(** The route dump example (src/rtnetlink-exa.c): walking a netlink reply,
    message by message and attribute by attribute, and printing what is
    found.  The macros and layouts of <linux/netlink.h> and
    <linux/rtnetlink.h> are an interface with its laws. *)
From S2P Require Import Prelude.

Module Rtnl.

(** The fields the program reads. *)
Inductive field : Type :=
| nlmsg_len | nlmsg_type | rta_len | rta_type
| rtm_table | rtm_dst_len | rtm_protocol | ifi_index.

Definition IFLIST_REPLY_BUFFER : Z := 8192.

(** What the program relies on in the kernel's headers and in [inet_ntop]:
    where the fields are, when a header is fit for parsing, how to get to the
    next one.  (An address as text takes 16 bytes with its NUL; the arrays
    have 32.) *)
Class Rtnetlink := {
  NLMSG_HDRLEN : Z;
  RTA_HDRLEN : Z;
  sizeof_rtmsg : Z;
  sizeof_ifinfomsg : Z;
  sizeof_rtgenmsg : Z;
  ALIGN : Z -> Z;
  get : field -> list Z -> Z -> res Z;
  NLMSG_OK : list Z -> Z -> Z -> res bool;
  NLMSG_NEXT : list Z -> Z -> Z -> res (Z * Z);
  RTA_OK : list Z -> Z -> Z -> res bool;
  RTA_NEXT : list Z -> Z -> Z -> res (Z * Z);
  RTM_GETROUTE : Z;
  NLM_F_REQUEST_DUMP : Z;
  IFLA_IFNAME : Z;
  RTA_DST : Z;
  RTA_GATEWAY : Z;
  RT_TABLE_MAIN : Z;
  AF_INET : Z;
  inet_ntop : list Z -> list Z;

  sizes : 16 <= NLMSG_HDRLEN <= 64 /\ 4 <= RTA_HDRLEN <= 64 /\ 0 < sizeof_rtmsg <= 64 /\
    0 < sizeof_ifinfomsg <= 64 /\ 0 < sizeof_rtgenmsg <= 64;
  align_up n : n <= ALIGN n < n + 4;
  header_aligned n : ALIGN (NLMSG_HDRLEN + n) = NLMSG_HDRLEN + ALIGN n;
  ifinfo_aligned : ALIGN sizeof_ifinfomsg = sizeof_ifinfomsg;
  size_of (f : field) : Z :=
    match f with
    | nlmsg_len | nlmsg_type => NLMSG_HDRLEN
    | rta_len | rta_type => RTA_HDRLEN
    | rtm_table | rtm_dst_len | rtm_protocol => sizeof_rtmsg
    | ifi_index => sizeof_ifinfomsg
    end;
  get_inside f b off : in_bounds b off (size_of f) = true -> is_ok (get f b off);
  get_error f b off e : get f b off = UB e -> e = OutOfBounds;
  get_outside f b off : zlen b <= off -> get f b off = UB OutOfBounds;
  nlmsg_ok_law b off len :
    NLMSG_OK b off len =
      if len <? NLMSG_HDRLEN then Ok false
      else n ← get nlmsg_len b off; Ok ((NLMSG_HDRLEN <=? n) && (n <=? len));
  nlmsg_next_law b off len :
    NLMSG_NEXT b off len = (n ← get nlmsg_len b off; Ok (off + ALIGN n, i32 (len - ALIGN n)));
  rta_ok_law b off len :
    RTA_OK b off len =
      if len <? RTA_HDRLEN then Ok false
      else n ← get rta_len b off; Ok ((RTA_HDRLEN <=? n) && (n <=? len));
  rta_next_law b off len :
    RTA_NEXT b off len = (n ← get rta_len b off; Ok (off + ALIGN n, i32 (len - ALIGN n)));
  attrs_differ : RTA_DST <> RTA_GATEWAY
}.

(** One line of output. *)
Inductive line : Type :=
| Interface (index : Z) (name : list Z)
| Here
| AttributeType (t : Z)
| RouteTo (dst : list Z) (mask proto : Z) (gateway : list Z)
| OtherMessage (t len : Z).

Section Rtnl.
Context `{Rtnetlink}.

Definition NLMSG_DATA (h : Z) : Z := h + NLMSG_HDRLEN.
Definition NLMSG_LENGTH (n : Z) : Z := NLMSG_HDRLEN + n.
Definition NLMSG_SPACE (n : Z) : Z := ALIGN (NLMSG_LENGTH n).
Definition RTA_DATA (a : Z) : Z := a + RTA_HDRLEN.

(** ** [rtnl_print_link] *)
Fixpoint link_attributes (fuel : nat) (b : list Z) (iface attribute len : Z) : res (list line) :=
  match fuel with
  | O => UB OutOfFuel
  | S fuel =>
      ok ← RTA_OK b attribute len;
      if (ok : bool) then
        t ← get rta_type b attribute;
        out ← (if t =? IFLA_IFNAME
               then i ← get ifi_index b iface;
                    s ← c_string (drop (Z.to_nat (RTA_DATA attribute)) b);
                    Ok [Interface i s]
               else Ok []);
        '(attribute, len) ← RTA_NEXT b attribute len;
        rest ← link_attributes fuel b iface attribute len;
        Ok (out ++ rest)
      else Ok []
  end.

Definition walk_fuel (b : list Z) : nat := S (length b).

Definition rtnl_print_link (b : list Z) (h : Z) : res (list line) :=
  let iface := NLMSG_DATA h in
  n ← get nlmsg_len b h;
  link_attributes (walk_fuel b) b iface (iface + ALIGN sizeof_ifinfomsg)
    (i32 (n - NLMSG_LENGTH sizeof_ifinfomsg)).

(** ** [rtnl_print_route] *)

(** [inet_ntop(AF_INET, RTA_DATA(a), address, 32)]: reads four bytes. *)
Definition address_of (b : list Z) (a : Z) : res (list Z) :=
  d ← buf_read b (RTA_DATA a) 4; Ok (inet_ntop d).

(** The loop over the attributes.  The two arrays are uninitialised
    ([None]) until an attribute of their type has come. *)
Fixpoint route_attributes (fuel : nat) (b : list Z) (attribute len : Z)
    (dst gateway : option (list Z)) : res (list line * option (list Z) * option (list Z)) :=
  match fuel with
  | O => UB OutOfFuel
  | S fuel =>
      ok ← RTA_OK b attribute len;
      if (ok : bool) then
        t ← get rta_type b attribute;
        dst ← (if t =? RTA_DST then s ← address_of b attribute; Ok (Some s) else Ok dst);
        gateway ← (if t =? RTA_GATEWAY then s ← address_of b attribute; Ok (Some s)
                   else Ok gateway);
        '(attribute, len) ← RTA_NEXT b attribute len;
        '(rest, dst, gateway) ← route_attributes fuel b attribute len dst gateway;
        Ok (AttributeType t :: rest, dst, gateway)
      else Ok ([], dst, gateway)
  end.

Definition rtnl_print_route (b : list Z) (nlh : Z) : res (list line) :=
  let route_entry := NLMSG_DATA nlh in
  table ← get rtm_table b route_entry;
  if negb (table =? RT_TABLE_MAIN) then Ok [Here]
  else
    route_netmask ← get rtm_dst_len b route_entry;
    route_protocol ← get rtm_protocol b route_entry;
    n ← get nlmsg_len b nlh;
    '(out, dst, gateway) ← route_attributes (walk_fuel b) b (route_entry + ALIGN sizeof_rtmsg)
      (i32 (n - NLMSG_SPACE sizeof_rtmsg)) None None;
    dst ← of_option Uninitialised dst;
    gateway ← of_option Uninitialised gateway;
    Ok (Here :: out ++ [RouteTo dst route_netmask route_protocol gateway]).

(** ** [main] *)

(** One message of the reply: the lines it prints, and what is added to
    [end]. *)
Definition print_message (b : list Z) (msg_ptr : Z) : res (list line * Z) :=
  t ← get nlmsg_type b msg_ptr;
  if t =? 3 then Ok ([], 1)
  else if t =? 16 then out ← rtnl_print_link b msg_ptr; Ok (out, 0)
  else if t =? 24 then out ← rtnl_print_route b msg_ptr; Ok (out, 0)
  else n ← get nlmsg_len b msg_ptr; Ok ([OtherMessage t n], 0).

Fixpoint parse_reply (fuel : nat) (b : list Z) (msg_ptr len fin : Z) : res (list line * Z) :=
  match fuel with
  | O => UB OutOfFuel
  | S fuel =>
      ok ← NLMSG_OK b msg_ptr len;
      if (ok : bool) then
        '(out, k) ← print_message b msg_ptr;
        '(msg_ptr, len) ← NLMSG_NEXT b msg_ptr len;
        '(rest, fin) ← parse_reply fuel b msg_ptr len (i32 (fin + k));
        Ok (out ++ rest, fin)
      else Ok ([], fin)
  end.

(** What one [recvmsg] brings: its result and the buffer after it. *)
Record recvd := MkRecvd { r_len : Z; r_buf : list Z }.

Definition handle_reply (r : recvd) (fin : Z) : res (list line * Z) :=
  if r_len r =? 0 then Ok ([], fin)
  else parse_reply (walk_fuel (r_buf r)) (r_buf r) 0 (r_len r) fin.

Inductive main_end : Type := Exit (code : Z) | Waiting.

(** The loop [while (!end)]; [Waiting] when it asks for one more reply than
    there are. *)
Fixpoint dump_loop (rs : list recvd) (fin : Z) : res (list line * main_end) :=
  if negb (fin =? 0) then Ok ([], Exit 0)
  else match rs with
       | [] => Ok ([], Waiting)
       | r :: rs =>
           '(out, fin) ← handle_reply r fin;
           '(rest, e) ← dump_loop rs fin;
           Ok (out ++ rest, e)
       end.

(** The request: header, family and the length given to [sendmsg], whose
    result is not looked at. *)
Record request := MkRequest {
  q_len : Z; q_type : Z; q_flags : Z; q_seq : Z; q_pid : Z; q_family : Z; q_iov_len : Z
}.
Definition dump_request (pid : Z) : request :=
  let n := NLMSG_LENGTH sizeof_rtgenmsg in
  MkRequest n RTM_GETROUTE NLM_F_REQUEST_DUMP 1 pid AF_INET n.

Definition main (fd : Z) (bind_result : Z) (pid : Z) (rs : list recvd)
    : res (option request * list line * main_end) :=
  if fd <? 0 then Ok (None, [], Exit (-1))
  else if bind_result <? 0 then Ok (None, [], Exit (-1))
  else '(out, e) ← dump_loop rs 0; Ok (Some (dump_request pid), out, e).

(** ** The walks end *)

(** A reply as [recvmsg] leaves it. *)
Definition reply_ok (r : recvd) : Prop :=
  -1 <= r_len r <= zlen (r_buf r) /\ zlen (r_buf r) <= IFLIST_REPLY_BUFFER.

(** A stretch of [len] bytes of the buffer; [len] may have gone below zero by
    the padding of the last element. *)
Definition stretch (b : list Z) (off len : Z) : Prop :=
  0 <= off /\ -512 <= len /\ (0 <= len -> off + len <= zlen b) /\ zlen b <= IFLIST_REPLY_BUFFER.

Definition fueled {A} (r : res A) : Prop := r <> UB OutOfFuel.

Lemma fueled_bind {A B} (m : res A) (k : A -> res B) :
  fueled m -> (forall a, m = Ok a -> fueled (k a)) -> fueled (m ≫= k).
Proof.
  intros Hm Hk. destruct m as [a|e]; simpl; [by apply Hk|]. intros [= ->]. by apply Hm.
Qed.

Lemma fueled_get f b off : fueled (get f b off).
Proof. intros E. by apply get_error in E. Qed.
Lemma fueled_read b off n : fueled (buf_read b off n).
Proof. unfold fueled, buf_read. by destruct (in_bounds b off n). Qed.
Lemma fueled_string b : fueled (c_string b).
Proof. unfold fueled, c_string. by destruct (cstr_end b). Qed.
Lemma fueled_ok {A} (a : A) : fueled (Ok a).
Proof. done. Qed.

#[local] Hint Resolve fueled_get fueled_read fueled_string fueled_ok : core.

(** One step of a walk over elements with a header of [hdr] bytes. *)
Lemma step_shrinks hdr b off len n :
  4 <= hdr -> stretch b off len -> (hdr <=? n) && (n <=? len) = true ->
  stretch b (off + ALIGN n) (i32 (len - ALIGN n)) /\ i32 (len - ALIGN n) <= len - 4 /\
  (0 <= i32 (len - ALIGN n) -> i32 (len - ALIGN n) = len - ALIGN n).
Proof.
  intros Hh (Ho & Hl & Hb & Hz) Hn. zb. pose proof (align_up n). unfold IFLIST_REPLY_BUFFER in *.
  rewrite i32_id by (unfold in_i32; lia). unfold stretch, IFLIST_REPLY_BUFFER. split_and!; lia.
Qed.

Lemma rta_step b off len :
  stretch b off len ->
  RTA_OK b off len = Ok false \/
  exists n, RTA_OK b off len = Ok true /\ get rta_len b off = Ok n /\
    RTA_NEXT b off len = Ok (off + ALIGN n, i32 (len - ALIGN n)) /\
    stretch b (off + ALIGN n) (i32 (len - ALIGN n)) /\ i32 (len - ALIGN n) <= len - 4 /\
    4 <= len /\ in_bounds b off RTA_HDRLEN = true.
Proof.
  intros Hs. pose proof sizes as (_ & Hr & _). pose proof Hs as (Ho & Hl & Hb & Hz).
  rewrite rta_ok_law, rta_next_law. destruct (Z.ltb_spec len RTA_HDRLEN); [by left|].
  assert (Hin : in_bounds b off RTA_HDRLEN = true) by (apply in_bounds_true; lia).
  destruct (get_inside rta_len b off Hin) as [n ->]. simpl.
  destruct ((RTA_HDRLEN <=? n) && (n <=? len)) eqn:En; [right|by left].
  destruct (step_shrinks RTA_HDRLEN b off len n) as (H1 & H2 & _); [lia|done|done|].
  exists n. split_and!; try done. lia.
Qed.

Lemma link_fueled fuel b iface off len :
  stretch b off len -> Z.max 0 len < Z.of_nat fuel ->
  fueled (link_attributes fuel b iface off len).
Proof.
  revert off len. induction fuel as [|fuel IH]; intros off len Hs Hf; [lia|]. simpl.
  destruct (rta_step b off len Hs) as [->|(n & -> & _ & -> & Hs' & Hd & Hl & _)]; simpl; [done|].
  apply fueled_bind; [done|]. intros t _. apply fueled_bind.
  { destruct (t =? IFLA_IFNAME); [|done]. apply fueled_bind; [done|]. intros i _.
    by apply fueled_bind. }
  intros out _. apply fueled_bind; [|done]. apply IH; [done|lia].
Qed.

Lemma address_fueled (c : bool) b off (o : option (list Z)) :
  fueled (if c then s ← address_of b off; Ok (Some s) else Ok o).
Proof.
  destruct c; [|done]. apply fueled_bind; [|done]. by apply fueled_bind.
Qed.

Lemma route_fueled fuel b off len dst gw :
  stretch b off len -> Z.max 0 len < Z.of_nat fuel ->
  fueled (route_attributes fuel b off len dst gw).
Proof.
  revert off len dst gw. induction fuel as [|fuel IH]; intros off len dst gw Hs Hf; [lia|]. simpl.
  destruct (rta_step b off len Hs) as [->|(n & -> & _ & -> & Hs' & Hd & Hl & _)]; simpl; [done|].
  apply fueled_bind; [done|]. intros t _. apply fueled_bind; [apply address_fueled|].
  intros d _. apply fueled_bind; [apply address_fueled|]. intros g _.
  apply fueled_bind; [apply IH; [done|lia]|]. by intros [[] ?] _.
Qed.

(** The attributes of a message that is fit for parsing lie inside it. *)
Lemma attrs_stretch b h n sz :
  0 <= h -> NLMSG_HDRLEN <= n -> h + n <= zlen b -> zlen b <= IFLIST_REPLY_BUFFER ->
  0 <= sz <= 64 ->
  stretch b (NLMSG_DATA h + ALIGN sz) (i32 (n - (NLMSG_HDRLEN + ALIGN sz))) /\
  Z.max 0 (i32 (n - (NLMSG_HDRLEN + ALIGN sz))) < Z.of_nat (walk_fuel b).
Proof.
  intros Hh Hn Hb Hz Hsz. pose proof sizes as (? & _). pose proof (align_up sz).
  unfold stretch, walk_fuel, NLMSG_DATA, IFLIST_REPLY_BUFFER, zlen in *.
  rewrite i32_id by (unfold in_i32; lia). split_and!; lia.
Qed.

(** A message of the reply: its header is inside, and so is all of it. *)
Definition message_at (b : list Z) (h n : Z) : Prop :=
  0 <= h /\ get nlmsg_len b h = Ok n /\ NLMSG_HDRLEN <= n /\ h + n <= zlen b /\
  zlen b <= IFLIST_REPLY_BUFFER.

#[local] Arguments link_attributes : simpl never.
#[local] Arguments route_attributes : simpl never.

Lemma print_fueled b h n : message_at b h n -> fueled (print_message b h).
Proof.
  intros (Hh & Hn & Hlo & Hhi & Hz). pose proof sizes as (_ & _ & Hr & Hi & _).
  unfold print_message. apply fueled_bind; [done|]. intros t _.
  destruct (t =? 3); [done|]. destruct (t =? 16); [|destruct (t =? 24)].
  - apply fueled_bind; [|done]. unfold rtnl_print_link. rewrite Hn. simpl.
    unfold NLMSG_LENGTH.
    replace (NLMSG_HDRLEN + sizeof_ifinfomsg) with (NLMSG_HDRLEN + ALIGN sizeof_ifinfomsg)
      by (by rewrite ifinfo_aligned).
    destruct (attrs_stretch b h n sizeof_ifinfomsg) as [? ?]; [done..|lia|]. by apply link_fueled.
  - apply fueled_bind; [|done]. unfold rtnl_print_route. apply fueled_bind; [done|]. intros tb _.
    destruct (negb _); [done|]. apply fueled_bind; [done|]. intros m _.
    apply fueled_bind; [done|]. intros pr _. rewrite Hn. simpl.
    unfold NLMSG_SPACE, NLMSG_LENGTH. rewrite header_aligned.
    destruct (attrs_stretch b h n sizeof_rtmsg) as [? ?]; [done..|lia|].
    apply fueled_bind; [by apply route_fueled|]. intros [[out d] g] _.
    destruct d; [|done]. by destruct g.
  - by apply fueled_bind.
Qed.

Lemma nlmsg_step b off len :
  stretch b off len ->
  NLMSG_OK b off len = Ok false \/
  exists n, NLMSG_OK b off len = Ok true /\ message_at b off n /\
    NLMSG_NEXT b off len = Ok (off + ALIGN n, i32 (len - ALIGN n)) /\
    stretch b (off + ALIGN n) (i32 (len - ALIGN n)) /\ i32 (len - ALIGN n) <= len - 4 /\ 4 <= len.
Proof.
  intros Hs. pose proof sizes as (Hr & _). pose proof Hs as (Ho & Hl & Hb & Hz).
  rewrite nlmsg_ok_law, nlmsg_next_law. destruct (Z.ltb_spec len NLMSG_HDRLEN); [by left|].
  assert (Hin : in_bounds b off NLMSG_HDRLEN = true) by (apply in_bounds_true; lia).
  destruct (get_inside nlmsg_len b off Hin) as [n Hn]. rewrite Hn. simpl.
  destruct ((NLMSG_HDRLEN <=? n) && (n <=? len)) eqn:En; [right|by left].
  destruct (step_shrinks NLMSG_HDRLEN b off len n) as (H1 & H2 & _); [lia|done|done|].
  exists n. zb. unfold message_at. split_and!; try done; lia.
Qed.

Lemma parse_fueled fuel b off len fin :
  stretch b off len -> Z.max 0 len < Z.of_nat fuel -> fueled (parse_reply fuel b off len fin).
Proof.
  revert off len fin. induction fuel as [|fuel IH]; intros off len fin Hs Hf; [lia|]. simpl.
  destruct (nlmsg_step b off len Hs) as [->|(n & -> & Hm & -> & Hs' & Hd & Hl)]; simpl; [done|].
  apply fueled_bind; [by eapply print_fueled|]. intros [out k] _.
  apply fueled_bind; [apply IH; [done|lia]|]. by intros [] _.
Qed.

Lemma handle_fueled r fin : reply_ok r -> fueled (handle_reply r fin).
Proof.
  intros [Hl Hz]. unfold handle_reply. destruct (Z.eqb_spec (r_len r) 0); [done|].
  apply parse_fueled; unfold stretch, walk_fuel, zlen in *; lia.
Qed.

(** ** The attributes of a message *)

(** The attributes from [off] on: type and place. *)
Inductive attributes (b : list Z) : Z -> Z -> list (Z * Z) -> Prop :=
| attributes_end off len : RTA_OK b off len = Ok false -> attributes b off len []
| attributes_cons off len off' len' t l :
    RTA_OK b off len = Ok true -> get rta_type b off = Ok t ->
    RTA_NEXT b off len = Ok (off', len') -> attributes b off' len' l ->
    attributes b off len ((t, off) :: l).

(** A stretch has attributes, at most one for four bytes. *)
Lemma attributes_exist b fuel off len :
  stretch b off len -> Z.max 0 len < Z.of_nat fuel ->
  exists l, attributes b off len l /\ 4 * zlen l <= Z.max 0 len.
Proof.
  revert off len. induction fuel as [|fuel IH]; intros off len Hs Hf; [lia|].
  destruct (rta_step b off len Hs) as [E|(n & E & _ & En & Hs' & Hd & Hl & Hin)].
  - exists []. split; [by constructor|]. unfold zlen. simpl. lia.
  - destruct (IH _ _ Hs') as (l & Hat & Hlen); [lia|].
    destruct (get_inside rta_type b off Hin) as [t Ht].
    exists ((t, off) :: l). split; [by econstructor|]. rewrite zlen_cons. lia.
Qed.

Lemma attributes_det b off len l l' : attributes b off len l -> attributes b off len l' -> l = l'.
Proof.
  intros Ha. revert l'. induction Ha; intros l' Hb; inversion Hb; subst; try congruence.
  f_equal; [congruence|]. apply IHHa. congruence.
Qed.

Definition last_of (t : Z) (l : list (Z * Z)) : option Z := snd <$> last (filter (fun x => x.1 = t) l).

(** The bytes of an address are in the buffer. *)
Definition addresses_in (b : list Z) (l : list (Z * Z)) : Prop :=
  forall t off, (t, off) ∈ l -> t = RTA_DST \/ t = RTA_GATEWAY -> in_bounds b (RTA_DATA off) 4 = true.
Definition address_at (b : list Z) (off : Z) : list Z :=
  inet_ntop (take 4 (drop (Z.to_nat (RTA_DATA off)) b)).

Definition updated (b : list Z) (t : Z) (l : list (Z * Z)) (o : option (list Z)) : option (list Z) :=
  match last_of t l with Some a => Some (address_at b a) | None => o end.

Lemma last_of_cons t t0 a l :
  last_of t ((t0, a) :: l) =
    match last_of t l with Some x => Some x | None => if decide (t0 = t) then Some a else None end.
Proof.
  unfold last_of. rewrite filter_cons. simpl. destruct (decide (t0 = t)) as [->|].
  - rewrite last_cons. by destruct (last (filter _ l)).
  - by destruct (last (filter _ l)).
Qed.

Lemma address_read b off : in_bounds b (RTA_DATA off) 4 = true -> address_of b off = Ok (address_at b off).
Proof. intros Hb. unfold address_of, buf_read. by rewrite Hb. Qed.

(** The attribute just met, then the rest. *)
Lemma updated_cons b t t0 a l o :
  updated b t ((t0, a) :: l) o = updated b t l (if t0 =? t then Some (address_at b a) else o).
Proof.
  unfold updated. rewrite last_of_cons. destruct (last_of t l); [done|].
  destruct (decide (t0 = t)); by destruct (Z.eqb_spec t0 t).
Qed.

Lemma address_step (b : list Z) (t t0 off : Z) (o : option (list Z)) :
  (t0 = t -> in_bounds b (RTA_DATA off) 4 = true) ->
  (if t0 =? t then s ← address_of b off; Ok (Some s) else Ok o) =
    Ok (if t0 =? t then Some (address_at b off) else o).
Proof.
  intros Hb. destruct (Z.eqb_spec t0 t); [|done]. rewrite address_read by auto. done.
Qed.

Lemma route_attributes_result fuel b off len l dst gw :
  attributes b off len l -> addresses_in b l -> (length l < fuel)%nat ->
  route_attributes fuel b off len dst gw =
    Ok ((fun x => AttributeType x.1) <$> l, updated b RTA_DST l dst, updated b RTA_GATEWAY l gw).
Proof.
  intros Hat. revert fuel dst gw.
  induction Hat as [off len E|off len off' len' t l E Et En Hat IH]; intros fuel dst gw Hin Hf;
    (destruct fuel as [|fuel]; [simpl in Hf; lia|]); unfold route_attributes;
    fold route_attributes; rewrite E; simpl; [done|].
  rewrite Et. simpl. rewrite address_step by (intros ->; eapply Hin; [by left|auto]). simpl.
  rewrite address_step by (intros ->; eapply Hin; [by left|auto]). simpl. rewrite En. simpl.
  simpl in Hf. rewrite IH by (try lia; intros t' o' Ho; apply Hin; by right). simpl.
  by rewrite <- !updated_cons.
Qed.

(** ** Properties *)

(** C38 - The parser ends on every reply.  Whatever bytes the buffer holds and
    whatever length [recvmsg] reports, an error included, the walks over
    messages and attributes come to an end: each step leaves at least four
    bytes less, and the fuel given to the walks suffices. *)
Theorem reply_terminates rs fin (Hrs : Forall reply_ok rs) : dump_loop rs fin <> UB OutOfFuel.
Proof.
  revert fin. induction Hrs as [|r rs Hr Hrs IH]; intros fin; simpl.
  - by destruct (negb _).
  - destruct (negb _); [done|]. apply fueled_bind; [by apply handle_fueled|]. intros [out k] _.
    apply fueled_bind; [apply IH|]. by intros [] _.
Qed.

(** C39 - A route message of the main table prints one line per attribute and
    then the route: the last destination and the last gateway among its
    attributes.  When one of the two is missing - the default route has no
    destination, a directly connected network no gateway - the array printed
    in its place was never written. *)
Theorem route_printed b h n mask proto
    (Hm : message_at b h n)
    (Htable : get rtm_table b (NLMSG_DATA h) = Ok RT_TABLE_MAIN)
    (Hmask : get rtm_dst_len b (NLMSG_DATA h) = Ok mask)
    (Hproto : get rtm_protocol b (NLMSG_DATA h) = Ok proto)
    (Haddr : forall l, attributes b (NLMSG_DATA h + ALIGN sizeof_rtmsg)
        (i32 (n - NLMSG_SPACE sizeof_rtmsg)) l -> addresses_in b l) :
  exists l, attributes b (NLMSG_DATA h + ALIGN sizeof_rtmsg)
      (i32 (n - NLMSG_SPACE sizeof_rtmsg)) l /\
    rtnl_print_route b h =
      match last_of RTA_DST l, last_of RTA_GATEWAY l with
      | Some d, Some g =>
          Ok (Here :: ((fun x => AttributeType x.1) <$> l) ++
              [RouteTo (address_at b d) mask proto (address_at b g)])
      | _, _ => UB Uninitialised
      end.
Proof.
  destruct Hm as (Hh & Hn & Hlo & Hhi & Hz). pose proof sizes as (_ & _ & Hr & _).
  assert (Hs : stretch b (NLMSG_DATA h + ALIGN sizeof_rtmsg) (i32 (n - NLMSG_SPACE sizeof_rtmsg)) /\
    Z.max 0 (i32 (n - NLMSG_SPACE sizeof_rtmsg)) < Z.of_nat (walk_fuel b)).
  { unfold NLMSG_SPACE, NLMSG_LENGTH. rewrite header_aligned. apply attrs_stretch; try done; lia. }
  destruct Hs as [Hs Hf]. destruct (attributes_exist b _ _ _ Hs Hf) as (l & Hat & Hlen).
  exists l. split; [done|]. unfold rtnl_print_route. rewrite Htable. simpl.
  rewrite Z.eqb_refl. simpl. rewrite Hmask, Hproto. simpl. rewrite Hn. simpl.
  rewrite (route_attributes_result _ _ _ _ l) by (auto; unfold zlen in *; lia). simpl.
  unfold updated. destruct (last_of RTA_DST l); [|done]. by destruct (last_of RTA_GATEWAY l).
Qed.

(** A failing [recvmsg] is not noticed: its -1 passes the test [if
    (len)], no header fits in it, nothing is printed and the loop asks again -
    for ever when the error stays. *)
Theorem recv_error_spins k b : dump_loop (replicate k (MkRecvd (-1) b)) 0 = Ok ([], Waiting).
Proof.
  pose proof sizes as (? & _). induction k as [|k IH]; [done|]. simpl. unfold handle_reply. simpl.
  unfold walk_fuel. simpl. rewrite nlmsg_ok_law.
  destruct (Z.ltb_spec (-1) NLMSG_HDRLEN); [|lia]. simpl. by rewrite IH.
Qed.

(** The messages of a reply, by their places. *)
Inductive messages (b : list Z) : Z -> Z -> list Z -> Prop :=
| messages_end off len : NLMSG_OK b off len = Ok false -> messages b off len []
| messages_cons off len off' len' l :
    NLMSG_OK b off len = Ok true -> NLMSG_NEXT b off len = Ok (off', len') ->
    messages b off' len' l -> messages b off len (off :: l).

Lemma messages_det b off len l l' : messages b off len l -> messages b off len l' -> l = l'.
Proof.
  intros Ha. revert l'. induction Ha; intros l' Hb; inversion Hb; subst; try congruence.
  f_equal. apply IHHa. congruence.
Qed.

(** What the messages print, one after the other, if they all print. *)
Fixpoint printed (b : list Z) (l : list Z) : res (list line * Z) :=
  match l with
  | [] => Ok ([], 0)
  | h :: l => '(out, k) ← print_message b h; '(rest, n) ← printed b l; Ok (out ++ rest, k + n)
  end.

Lemma messages_exist b fuel off len :
  stretch b off len -> Z.max 0 len < Z.of_nat fuel ->
  exists l, messages b off len l /\ 4 * zlen l <= Z.max 0 len.
Proof.
  revert off len. induction fuel as [|fuel IH]; intros off len Hs Hf; [lia|].
  destruct (nlmsg_step b off len Hs) as [E|(n & E & _ & En & Hs' & Hd & Hl)].
  - exists []. split; [by constructor|]. unfold zlen. simpl. lia.
  - destruct (IH _ _ Hs') as (l & Hm & Hlen); [lia|].
    exists (off :: l). split; [by econstructor|]. rewrite zlen_cons. lia.
Qed.

Lemma print_done b h out k : print_message b h = Ok (out, k) -> 0 <= k <= 1.
Proof.
  unfold print_message. intros Hm. apply bind_ok in Hm as (t & _ & Hm).
  repeat case_match; res_inv; simplify_eq; lia.
Qed.

Lemma printed_count b l out k : printed b l = Ok (out, k) -> 0 <= k <= zlen l.
Proof.
  revert out k. induction l as [|h l IH]; intros out k Hp; simpl in Hp; [by simplify_eq|].
  apply bind_ok in Hp as ([o k1] & Hh%print_done & Hp). apply bind_ok in Hp as ([r n] & Hr & Hp).
  injection Hp as <- <-. apply IH in Hr. rewrite zlen_cons. lia.
Qed.

Lemma parse_messages fuel b off len l fin out k :
  messages b off len l -> printed b l = Ok (out, k) -> (length l < fuel)%nat ->
  0 <= fin -> fin + k <= INT_MAX -> parse_reply fuel b off len fin = Ok (out, fin + k).
Proof.
  intros Hm. revert fuel fin out k.
  induction Hm as [off len E|off len off' len' l E En Hm IH]; intros fuel fin out k Hp Hf H0 Hk;
    (destruct fuel as [|fuel]; [simpl in Hf; lia|]); simpl; rewrite E; simpl.
  { simpl in Hp. injection Hp as <- <-. by rewrite Z.add_0_r. }
  simpl in Hp. apply bind_ok in Hp as ([o k1] & Eo & Hp). apply bind_ok in Hp as ([r n] & Er & Hp).
  injection Hp as <- <-. rewrite Eo. simpl. rewrite En. simpl.
  pose proof (print_done _ _ _ _ Eo). pose proof (printed_count _ _ _ _ Er).
  unfold INT_MAX in *. rewrite i32_id by (unfold in_i32; lia). simpl in Hf.
  rewrite (IH fuel (fin + k1) r n) by (done || lia). simpl. by rewrite Z.add_assoc.
Qed.

(** A reply prints what its messages print, in their order, also what
    stands behind the message that ends the dump; and the loop is over after
    the first reply with such a message, asking for no further one. *)
Theorem reply_parsed r rs out k
    (Hr : reply_ok r) (Hlen : r_len r <> 0)
    (Hp : forall l, messages (r_buf r) 0 (r_len r) l -> printed (r_buf r) l = Ok (out, k)) :
  handle_reply r 0 = Ok (out, k) /\
  (0 < k -> dump_loop (r :: rs) 0 = Ok (out, Exit 0)) /\
  (k = 0 -> dump_loop (r :: rs) 0 = ('(rest, e) ← dump_loop rs 0; Ok (out ++ rest, e))).
Proof.
  destruct Hr as [Hl Hz].
  assert (Hs : stretch (r_buf r) 0 (r_len r)) by (unfold stretch; lia).
  assert (Hf : Z.max 0 (r_len r) < Z.of_nat (walk_fuel (r_buf r))) by (unfold walk_fuel, zlen in *; lia).
  destruct (messages_exist _ _ _ _ Hs Hf) as (l & Hm & Hn).
  pose proof (printed_count _ _ _ _ (Hp l Hm)) as Hk.
  assert (E : handle_reply r 0 = Ok (out, k)).
  { unfold handle_reply. destruct (Z.eqb_spec (r_len r) 0); [done|].
    rewrite (parse_messages _ _ _ _ l 0 out k Hm (Hp l Hm)); [done|unfold zlen in *; lia|lia|].
    unfold INT_MAX, IFLIST_REPLY_BUFFER in *. lia. }
  split; [done|]. split; intros H0; simpl; rewrite E; simpl; [|by subst].
  destruct rs; simpl; destruct (Z.eqb_spec k 0); try lia; simpl; by rewrite app_nil_r.
Qed.

(** A route message that ends with its header, at the end of the buffer: the
    table is read behind the array. *)
Theorem short_route_out b h
    (Hend : zlen b <= NLMSG_DATA h) : rtnl_print_route b h = UB OutOfBounds.
Proof. unfold rtnl_print_route. rewrite (get_outside rtm_table b _ Hend). done. Qed.
End Rtnl.

(** ** The interface as Linux has it: little-endian fields, padding to four
    bytes. *)
Definition field_at (f : field) : Z * Z :=
  match f with
  | nlmsg_len => (0, 4) | nlmsg_type => (4, 2) | rta_len => (0, 2) | rta_type => (2, 2)
  | rtm_table => (4, 1) | rtm_dst_len => (1, 1) | rtm_protocol => (5, 1) | ifi_index => (4, 4)
  end.
Definition linux_get (f : field) (b : list Z) (off : Z) : res Z :=
  d ← buf_read b (off + (field_at f).1) (field_at f).2; Ok (le_decode d).
Definition linux_align (n : Z) : Z := (n + 3) / 4 * 4.
Definition linux_ok (f : field) (hdr : Z) (b : list Z) (off len : Z) : res bool :=
  if len <? hdr then Ok false
  else n ← linux_get f b off; Ok ((hdr <=? n) && (n <=? len)).
Definition linux_next (f : field) (b : list Z) (off len : Z) : res (Z * Z) :=
  n ← linux_get f b off; Ok (off + linux_align n, i32 (len - linux_align n)).
(** Dotted decimal. *)
Definition dotted (a : list Z) : list Z :=
  take 15 (tail (concat ((fun x => 46 :: fmt_dec 1 (x mod 256)) <$> a))).

#[local] Obligation Tactic := idtac.
#[local, program] Instance linux : Rtnetlink := {|
  NLMSG_HDRLEN := 16; RTA_HDRLEN := 4; sizeof_rtmsg := 12; sizeof_ifinfomsg := 16;
  sizeof_rtgenmsg := 1; ALIGN := linux_align; get := linux_get;
  NLMSG_OK := linux_ok nlmsg_len 16; NLMSG_NEXT := linux_next nlmsg_len;
  RTA_OK := linux_ok rta_len 4; RTA_NEXT := linux_next rta_len;
  RTM_GETROUTE := 26; NLM_F_REQUEST_DUMP := 769; IFLA_IFNAME := 3; RTA_DST := 1; RTA_GATEWAY := 5;
  RT_TABLE_MAIN := 254; AF_INET := 2; inet_ntop := dotted
|}.
Next Obligation. lia. Qed.
Next Obligation. intros n. unfold linux_align. pose proof (Z.div_mod (n + 3) 4). pose proof (Z.mod_pos_bound (n + 3) 4). lia. Qed.
Next Obligation.
  intros n. unfold linux_align. replace (16 + n + 3) with (n + 3 + 4 * 4) by lia.
  rewrite Z.div_add by lia. lia.
Qed.
Next Obligation. done. Qed.
Next Obligation.
  intros f b off Hb. unfold linux_get, buf_read. apply in_bounds_true in Hb.
  assert (in_bounds b (off + (field_at f).1) (field_at f).2 = true) as ->; [|by eexists].
  apply in_bounds_true. destruct f; simpl in *; lia.
Qed.
Next Obligation.
  intros f b off e. unfold linux_get, buf_read. destruct (in_bounds _ _ _); simpl; congruence.
Qed.
Next Obligation.
  intros f b off Hb. unfold linux_get, buf_read.
  assert (in_bounds b (off + (field_at f).1) (field_at f).2 = false) as ->; [|done].
  apply not_true_iff_false. intros H%in_bounds_true. destruct f; simpl in *; lia.
Qed.
Next Obligation. done. Qed.
Next Obligation. done. Qed.
Next Obligation. done. Qed.
Next Obligation. done. Qed.
Next Obligation. done. Qed.

(** ** The properties at concrete inputs: a reply with one route and the end
    of the dump. *)
Definition put_attribute (t : Z) (d : list Z) : list Z :=
  le_encode 2 (4 + zlen d) ++ le_encode 2 t ++ d.
Definition put_message (t : Z) (d : list Z) : list Z :=
  le_encode 4 (16 + zlen d) ++ le_encode 2 t ++ zeros 10 ++ d.
Definition put_route (attrs : list Z) : list Z :=
  put_message 24 ([2; 24; 0; 0; 254; 2; 0; 0; 0; 0; 0; 0] ++ attrs).
Definition demo_reply : list Z := Eval vm_compute in
  put_route (put_attribute 1 [10; 0; 0; 0] ++ put_attribute 5 [192; 168; 1; 1]) ++
  put_message 3 (zeros 4) ++ zeros 8.
Definition default_reply : list Z := Eval vm_compute in
  put_route (put_attribute 5 [192; 168; 1; 1]) ++ put_message 3 (zeros 4) ++ zeros 8.

Lemma demo_attributes : attributes demo_reply 28 16 [(1, 28); (5, 36)].
Proof.
  eapply attributes_cons; [by vm_compute..|]. eapply attributes_cons; [by vm_compute..|].
  apply attributes_end. by vm_compute.
Qed.

Lemma route_printed_witness :
  rtnl_print_route demo_reply 0 =
    Ok [Here; AttributeType 1; AttributeType 5;
        RouteTo (bytes "10.0.0.0") 24 2 (bytes "192.168.1.1")].
Proof.
  destruct (route_printed demo_reply 0 44 24 2) as (l & Hat & E).
  1-4: by vm_compute.
  - intros l Hat. apply (attributes_det _ _ _ _ _ demo_attributes) in Hat as <-.
    intros t off [[= -> ->]|[[= -> ->]|[]%not_elem_of_nil]%elem_of_cons]%elem_of_cons _;
      by vm_compute.
  - apply (attributes_det _ _ _ _ _ demo_attributes) in Hat as <-. rewrite E. by vm_compute.
Defined.

(** The default route of every host with a network: no destination. *)
Example default_route_uninitialised : rtnl_print_route default_reply 0 = UB Uninitialised.
Proof. by vm_compute. Qed.

Lemma reply_terminates_witness :
  dump_loop [MkRecvd (-1) demo_reply; MkRecvd 64 demo_reply] 0 <> UB OutOfFuel.
Proof.
  apply reply_terminates. apply Forall_cons. split; [by vm_compute|].
  apply Forall_cons. split; [by vm_compute|]. by apply Forall_nil.
Defined.

Lemma reply_parsed_witness :
  dump_loop [MkRecvd 64 demo_reply; MkRecvd (-1) []] 0 =
    Ok ([Here; AttributeType 1; AttributeType 5;
         RouteTo (bytes "10.0.0.0") 24 2 (bytes "192.168.1.1")], Exit 0).
Proof.
  destruct (reply_parsed (MkRecvd 64 demo_reply) [MkRecvd (-1) []]
    [Here; AttributeType 1; AttributeType 5;
         RouteTo (bytes "10.0.0.0") 24 2 (bytes "192.168.1.1")] 1) as (_ & H & _).
  - by vm_compute.
  - done.
  - intros l Hm. assert (Hd : messages demo_reply 0 64 [0; 44]).
    { eapply messages_cons; [by vm_compute..|]. eapply messages_cons; [by vm_compute..|].
      apply messages_end. by vm_compute. }
    apply (messages_det _ _ _ _ _ Hd) in Hm as <-. by vm_compute.
  - apply H. lia.
Defined.

Lemma short_route_out_witness : rtnl_print_route (put_message 24 []) 0 = UB OutOfBounds.
Proof. apply (short_route_out (put_message 24 []) 0). by vm_compute. Defined.
End Rtnl.
