(* ===== verification/UserNetlink.v ===== *)
(** The netlink test client (src/user_netlink.c): the main thread binds a
    netlink socket to its own id, a child thread sends it a greeting.  The
    kernel's netlink sockets are an interface with its laws. *)
From S2P Require Import Prelude.

Module UserNetlink.

(** Netlink sockets as the two threads use them: a port belongs to one
    socket, a datagram goes to the socket of its port, a receive takes the
    oldest datagram or blocks ([None]). *)
Class NetKernel (K : Type) := {
  nk_bind : K -> Z -> Z -> Z * K;
  nk_send : K -> Z -> Z -> list Z -> Z * K;
  nk_recv : K -> Z -> option (list Z * K);
  nk_port : K -> Z -> option Z;
  nk_inbox : K -> Z -> list (list Z);
  nk_bind_free k s p : nk_port k p = None -> exists k', nk_bind k s p = (0, k') /\
    nk_port k' p = Some s /\ (forall p', p' <> p -> nk_port k' p' = nk_port k p') /\
    nk_inbox k' = nk_inbox k;
  nk_bind_taken k s s' p : nk_port k p = Some s' -> nk_bind k s p = (-1, k);
  nk_send_to k s s' p d : nk_port k p = Some s' -> exists k', nk_send k s p d = (zlen d, k') /\
    nk_inbox k' s' = nk_inbox k s' ++ [d];
  nk_recv_some k s d l : nk_inbox k s = d :: l -> exists k', nk_recv k s = Some (d, k');
  nk_recv_none k s : nk_inbox k s = [] -> nk_recv k s = None
}.

Section UserNetlink.
Context {K : Type} `{NetKernel K}.

(** What the C library answers: descriptors, thread ids, results. *)
Record env := MkEnv {
  e_fd : Z;
  e_self : Z;
  e_create : Z;
  e_child : Z;
  e_join : Z;
  e_child_fd : Z;
  e_connect : Z;
  e_recv : Z
}.

Definition greeting : list Z := bytes "Hello World" ++ [0].

(** The thread ids are 64 bits wide, [nl_pid] has 32. *)
Definition main_port (e : env) : Z := u32 (e_self e).
Definition child_port (e : env) : Z := u32 (e_child e + 2).

(** [pthread_work]; it always returns NULL. *)
Definition pthread_work (e : env) (k : K) : K :=
  if e_child_fd e <? 0 then k
  else
    let '(r, k) := nk_bind k (e_child_fd e) (child_port e) in
    if negb (r =? 0) then k
    else if negb (e_connect e =? 0) then k
    else (nk_send k (e_child_fd e) (main_port e) greeting).2.

Inductive outcome : Type :=
| Exit (code : Z) (printed : list (list Z))
| Blocked.

(** [main].  [child] is written by [pthread_create] only when it succeeds,
    and its failures are positive numbers. *)
Definition main (e : env) (k : K) : res outcome :=
  if e_fd e <? 0 then Ok (Exit 1 [])
  else
    let '(r, k) := nk_bind k (e_fd e) (main_port e) in
    if negb (r =? 0) then Ok (Exit 1 [])
    else if e_create e <? 0 then Ok (Exit 1 [])
    else
      let child := if e_create e =? 0 then Some (e_child e) else None in
      _ ← of_option Uninitialised child;
      let k := pthread_work e k in
      if negb (e_join e =? 0) then Ok (Exit 1 [])
      else
        match nk_recv k (e_fd e) with
        | None => Ok Blocked
        | Some (d, _) =>
            if e_recv e =? -1 then Ok (Exit 1 [])
            else
            buf ← buf_write (zeros 13) 0 (take 13 d);
            text ← c_string buf;
            Ok (Exit 0 [text])
        end.

(** Nothing fails on the way to the child's greeting. *)
Definition smooth (e : env) : Prop :=
  0 <= e_fd e /\ e_create e = 0 /\ e_join e = 0 /\ 0 <= e_child_fd e /\ e_connect e = 0 /\
  e_recv e <> -1.

(** The greeting arrives: when no call fails, the two ports are free and
    differ, and nothing else is waiting at main's socket, the program prints
    the child's text and ends well.  When the ports are the same - the ids
    agree in their low 32 bits but for the 2 - the child cannot bind, ends
    silently, and main blocks for ever in [recv]. *)
Theorem greeting_arrives e k
    (He : smooth e) (Hmain : nk_port k (main_port e) = None)
    (Hchild : nk_port k (child_port e) = None) (Hbox : nk_inbox k (e_fd e) = []) :
  main e k = Ok (if decide (child_port e = main_port e) then Blocked
                 else Exit 0 [bytes "Hello World"]).
Proof.
  destruct He as (Hfd & Hc & Hj & Hcf & Hcn & Hrv). unfold main. rewrite Hc, Hj.
  destruct (Z.ltb_spec (e_fd e) 0); [lia|].
  destruct (nk_bind_free k (e_fd e) (main_port e) Hmain) as (k1 & -> & Hp1 & Hother & Hb1). simpl.
  unfold pthread_work. destruct (Z.ltb_spec (e_child_fd e) 0); [lia|].
  destruct (decide (child_port e = main_port e)) as [Heq|Hne].
  - rewrite Heq, (nk_bind_taken _ _ _ _ Hp1). simpl.
    rewrite nk_recv_none; [done|]. by rewrite Hb1.
  - assert (Hp2 : nk_port k1 (child_port e) = None) by (by rewrite Hother).
    destruct (nk_bind_free k1 (e_child_fd e) (child_port e) Hp2) as (k2 & -> & _ & Hother2 & Hb2).
    simpl. rewrite Hcn. simpl.
    assert (Hp3 : nk_port k2 (main_port e) = Some (e_fd e)) by (by rewrite Hother2).
    destruct (nk_send_to k2 (e_child_fd e) (e_fd e) (main_port e) greeting Hp3) as (k3 & -> & Hb3).
    simpl. rewrite Hb2, Hb1, Hbox in Hb3. destruct (nk_recv_some _ _ _ _ Hb3) as [k4 ->].
    destruct (Z.eqb_spec (e_recv e) (-1)); [done|]. by vm_compute.
Qed.

(** [pthread_create] reports failure with a positive number, which the
    test [< 0] never sees: main goes on and joins a thread whose id was never
    written. *)
Theorem create_failure_unseen e k
    (Hfd : 0 <= e_fd e) (Hmain : nk_port k (main_port e) = None) (Hcreate : 0 < e_create e) :
  main e k = UB Uninitialised.
Proof.
  unfold main. destruct (Z.ltb_spec (e_fd e) 0); [lia|].
  destruct (nk_bind_free k (e_fd e) (main_port e) Hmain) as (k1 & -> & _). simpl.
  destruct (Z.ltb_spec (e_create e) 0); [lia|]. by destruct (Z.eqb_spec (e_create e) 0); [lia|].
Qed.

(** When the child fails at any of its calls, it says so and ends, and main
    waits for a datagram nobody sends. *)
Theorem child_failure_blocks e k
    (Hfd : 0 <= e_fd e) (Hcreate : e_create e = 0) (Hjoin : e_join e = 0)
    (Hmain : nk_port k (main_port e) = None) (Hbox : nk_inbox k (e_fd e) = [])
    (Hchild : nk_port k (child_port e) = None) (Hfail : e_child_fd e < 0 \/ e_connect e <> 0) :
  main e k = Ok Blocked.
Proof.
  unfold main. rewrite Hcreate, Hjoin. destruct (Z.ltb_spec (e_fd e) 0); [lia|].
  destruct (nk_bind_free k (e_fd e) (main_port e) Hmain) as (k1 & -> & Hp1 & Hother & Hb1). simpl.
  unfold pthread_work. destruct (Z.ltb_spec (e_child_fd e) 0) as [|Hcf].
  { rewrite nk_recv_none; [done|]. by rewrite Hb1. }
  destruct (decide (child_port e = main_port e)) as [Heq|Hne].
  - rewrite Heq, (nk_bind_taken _ _ _ _ Hp1). simpl. rewrite nk_recv_none; [done|]. by rewrite Hb1.
  - assert (Hp2 : nk_port k1 (child_port e) = None) by (by rewrite Hother).
    destruct (nk_bind_free k1 (e_child_fd e) (child_port e) Hp2) as (k2 & -> & _ & _ & Hb2).
    simpl. destruct (Z.eqb_spec (e_connect e) 0); [lia|]. simpl.
    rewrite nk_recv_none; [done|]. by rewrite Hb2, Hb1.
Qed.
End UserNetlink.

(** ** Sockets as a table of ports and inboxes *)
Record net := MkNet { ports : gmap Z Z; inboxes : gmap Z (list (list Z)) }.

Definition inbox (k : net) (s : Z) : list (list Z) := default [] (inboxes k !! s).
Definition table_bind (k : net) (s p : Z) : Z * net :=
  match ports k !! p with
  | Some _ => (-1, k)
  | None => (0, MkNet (<[p := s]> (ports k)) (inboxes k))
  end.
Definition table_send (k : net) (s p : Z) (d : list Z) : Z * net :=
  match ports k !! p with
  | Some s' => (zlen d, MkNet (ports k) (<[s' := inbox k s' ++ [d]]> (inboxes k)))
  | None => (-1, k)
  end.
Definition table_recv (k : net) (s : Z) : option (list Z * net) :=
  match inbox k s with
  | d :: l => Some (d, MkNet (ports k) (<[s := l]> (inboxes k)))
  | [] => None
  end.

#[local, program] Instance table_net : NetKernel net := {|
  nk_bind := table_bind; nk_send := table_send; nk_recv := table_recv;
  nk_port k p := ports k !! p; nk_inbox := inbox
|}.
Next Obligation.
  intros k s p Hp. simpl in *. unfold table_bind. rewrite Hp. eexists. split; [done|]. simpl.
  rewrite lookup_insert_eq. split; [done|]. split; [|done].
  intros p' Hne. by rewrite lookup_insert_ne.
Qed.
Next Obligation. intros k s s' p Hp. simpl in *. unfold table_bind. by rewrite Hp. Qed.
Next Obligation.
  intros k s s' p d Hp. simpl in *. unfold table_send. rewrite Hp. eexists. split; [done|].
  unfold inbox. simpl. by rewrite lookup_insert_eq.
Qed.
Next Obligation. intros k s d l Hi. simpl in *. unfold table_recv. rewrite Hi. eauto. Qed.
Next Obligation. intros k s Hi. simpl in *. unfold table_recv. by rewrite Hi. Qed.

Definition demo_env (create : Z) : env := MkEnv 3 140737351874368 create 140737348122368 0 4 0 12.
Definition demo_net : net := MkNet ∅ ∅.

Lemma greeting_arrives_witness :
  main (demo_env 0) demo_net = Ok (Exit 0 [bytes "Hello World"]).
Proof. by rewrite (greeting_arrives (demo_env 0) demo_net). Defined.

Lemma create_failure_unseen_witness : main (demo_env 11) demo_net = UB Uninitialised.
Proof. by apply (create_failure_unseen (demo_env 11) demo_net). Defined.

Lemma child_failure_blocks_witness :
  main (MkEnv 3 140737351874368 0 140737348122368 0 (-1) 0 12) demo_net = Ok Blocked.
Proof.
  apply (child_failure_blocks (MkEnv 3 140737351874368 0 140737348122368 0 (-1) 0 12) demo_net);
    try done. by left.
Defined.
End UserNetlink.
